(** * OItrainer: the contest simulation core

    A shallow embedding of the scoring, gain distribution, qualification,
    medal and reward code of [script.js] and [contest-integration.js], and
    of the training, facility, calendar, roster and event code of
    [script.js], followed by the properties of that code.

    Conventions of the embedding.
    - A JavaScript number is an exact rational ([Q]); numbers the code only
      ever produces as integers (knowledge counters, money, week numbers)
      are [Z].  Equality of rationals is [==].
    - Where a property depends on the rounding of binary64 arithmetic, the
      function is embedded a second time in [Module Rounded], with the
      rounding as a parameter; [Binary64.round] is the rounding to the
      nearest double, ties to even.
    - [Math.random()] and the standard normal deviate computed by [normal]
      are inputs of the functions that draw them.
    - The logistic function [sigmoid] is a parameter: nothing below depends
      on its values.
    - Strings are compared as in the source, by content. *)

From Stdlib Require Import ZArith QArith Qround Qminmax Qpower Qabs Lia Lqa List
  Bool.
From stdpp Require Import gmap strings list fin_maps pretty.

Local Open Scope Q_scope.

(** ** JavaScript arithmetic *)

Module JS.

(** [Math.floor], [Math.ceil] and [Math.round] (which rounds half up). *)
Definition floor (x : Q) : Z := Qfloor x.
Definition ceil (x : Q) : Z := Qceiling x.
Definition round (x : Q) : Z := Qfloor (x + 0.5).

(** [x > y], [x >= y] and [x === y] on numbers. *)
Definition gtb (x y : Q) : bool := negb (Qle_bool x y).
Definition geb (x y : Q) : bool := Qle_bool y x.
Definition ltb (x y : Q) : bool := negb (Qle_bool y x).
Definition eqb (x y : Q) : bool := Qeq_bool x y.

(** [x || d] on a number that may be [undefined]: [undefined] and [0] are
    falsy. *)
Definition truthy (x : Q) : bool := negb (Qeq_bool x 0).
Definition orElse (x : option Q) (d : Q) : Q :=
  match x with
  | Some v => if truthy v then v else d
  | None => d
  end.

(** [try { body } catch(e) { }]: a body that throws ([None]) leaves the
    state as it was. *)
Definition tryCatch {A : Type} (body : option A) (unchanged : A) : A :=
  match body with
  | Some a => a
  | None => unchanged
  end.

End JS.

(** ** script.js: constants *)

Definition SEASON_WEEKS : Q := 52.
Definition KNOWLEDGE_WEIGHT : Q := 0.6.
Definition ABILITY_WEIGHT : Q := 0.4.
Definition RECOVERY_RATE : Q := 7.0.
Definition FATIGUE_FROM_PRESSURE : Q := 180.0.
Definition ALPHA1 : Q := 28.0.
Definition COMPUTER_EFFICIENCY_PER_LEVEL : Q := 0.07.
Definition LIBRARY_EFFICIENCY_PER_LEVEL : Q := 0.06.
Definition CANTEEN_PRESSURE_REDUCTION_PER_LEVEL : Q := 0.06.
Definition DORM_COMFORT_BONUS_PER_LEVEL : Q := 5.5.
Definition AC_COMFORT_BONUS_PER_LEVEL : Q := 9.0.
Definition EXTREME_COLD_THRESHOLD : Q := 5.
Definition EXTREME_HOT_THRESHOLD : Q := 35.
Definition WEATHER_PENALTY_NO_AC : Q := 20.0.
Definition WEATHER_PENALTY_WITH_AC : Q := 10.0.
Definition TRAINING_BASE_KNOWLEDGE_GAIN_PER_INTENSITY : Q := 4.
Definition TRAINING_THINKING_GAIN_MIN : Q := 0.6.
Definition TRAINING_CODING_GAIN_MIN : Q := 0.6.
Definition TRAINING_PRESSURE_MULTIPLIER_MEDIUM : Q := 1.5.
Definition TRAINING_PRESSURE_MULTIPLIER_HEAVY : Q := 2.5.
Definition COMPOSITE_TRAINING_PRESSURE_BONUS : Q := 1.2.
Definition MOCK_CONTEST_GAIN_MULTIPLIER_PURCHASED : Q := 1.8.
Definition NOI_GOLD_THRESHOLD : Q := 0.9.
Definition NOI_SILVER_THRESHOLD : Q := 0.6.
Definition NOI_BRONZE_THRESHOLD : Q := 0.4.
Definition NOI_REWARD_MIN : Z := 30000.
Definition NOI_REWARD_MAX : Z := 50000.
Definition NOIP_REWARD_MIN : Z := 10000.
Definition NOIP_REWARD_MAX : Z := 20000.
Definition CSP_S2_REWARD_MIN : Z := 4000.
Definition CSP_S2_REWARD_MAX : Z := 8000.
Definition CSP_S1_REWARD_MIN : Z := 2000.
Definition CSP_S1_REWARD_MAX : Z := 5000.

(** ** script.js: random draws and clamping *)

(** [uniform(min,max)] and [uniformInt(min,max)], [u] being the value of
    [Math.random()], in exact arithmetic; [Rounded.uniformInt] rounds as
    the code does. *)
Definition uniform (u lo hi : Q) : Q := lo + u * (hi - lo).
Definition uniformInt (u lo hi : Q) : Z :=
  JS.floor (lo + u * (hi - lo + 1)).

(** [normal(mean,stddev)], [z] being the standard normal deviate that the
    Box-Muller step computes. *)
Definition normal (z mean stddev : Q) : Q := z * stddev + mean.

Definition clamp (val lo hi : Q) : Q := Qmax lo (Qmin hi val).
Definition clampInt (v lo hi : Q) : Q :=
  Qmax lo (Qmin hi (inject_Z (JS.round v))).

(** ** script.js: class Student *)

Record Student := mkStudent {
  name : string;
  thinking : Q;
  coding : Q;
  mental : Q;
  knowledge_ds : Z;
  knowledge_graph : Z;
  knowledge_string : Z;
  knowledge_math : Z;
  knowledge_dp : Z;
  pressure : Q;
  comfort : Q;
  active : bool;
  sick_weeks : Z
}.

Definition set_thinking (v : Q) (s : Student) : Student :=
  mkStudent (name s) v (coding s) (mental s) (knowledge_ds s)
    (knowledge_graph s) (knowledge_string s) (knowledge_math s)
    (knowledge_dp s) (pressure s) (comfort s) (active s) (sick_weeks s).
Definition set_coding (v : Q) (s : Student) : Student :=
  mkStudent (name s) (thinking s) v (mental s) (knowledge_ds s)
    (knowledge_graph s) (knowledge_string s) (knowledge_math s)
    (knowledge_dp s) (pressure s) (comfort s) (active s) (sick_weeks s).
Definition set_mental (v : Q) (s : Student) : Student :=
  mkStudent (name s) (thinking s) (coding s) v (knowledge_ds s)
    (knowledge_graph s) (knowledge_string s) (knowledge_math s)
    (knowledge_dp s) (pressure s) (comfort s) (active s) (sick_weeks s).
Definition set_pressure (v : Q) (s : Student) : Student :=
  mkStudent (name s) (thinking s) (coding s) (mental s) (knowledge_ds s)
    (knowledge_graph s) (knowledge_string s) (knowledge_math s)
    (knowledge_dp s) v (comfort s) (active s) (sick_weeks s).
Definition set_comfort (v : Q) (s : Student) : Student :=
  mkStudent (name s) (thinking s) (coding s) (mental s) (knowledge_ds s)
    (knowledge_graph s) (knowledge_string s) (knowledge_math s)
    (knowledge_dp s) (pressure s) v (active s) (sick_weeks s).
Definition set_knowledge (ds gr st ma dp : Z) (s : Student) : Student :=
  mkStudent (name s) (thinking s) (coding s) (mental s) ds gr st ma dp
    (pressure s) (comfort s) (active s) (sick_weeks s).

(** The knowledge tags, as the strings the code compares with. *)
Definition TAG_DS : string := "数据结构".
Definition TAG_GRAPH : string := "图论".
Definition TAG_STRING : string := "字符串".
Definition TAG_MATH : string := "数学".
Definition TAG_DP : string := "DP".
Definition TAG_DP_LONG : string := "动态规划".
Definition TOPIC_COMPOSITE : string := "综合".

Definition getAbilityAvg (s : Student) : Q :=
  (thinking s + coding s + mental s) / 3.0.

Definition getKnowledgeTotal (s : Student) : Q :=
  inject_Z (knowledge_ds s + knowledge_graph s + knowledge_string s
            + knowledge_math s + knowledge_dp s) / 5.0.

Definition getComprehensiveAbility (s : Student) : Q :=
  ABILITY_WEIGHT * getAbilityAvg s + KNOWLEDGE_WEIGHT * getKnowledgeTotal s.

(** [noise] is the deviate drawn by [normal(0,3.0)]. *)
Definition getMentalIndex (s : Student) (noise : Q) : Q :=
  clamp (mental s - ALPHA1 * (pressure s / 100.0) * (1 - comfort s / 100.0)
         + normal noise 0 3.0) 0 100.

Definition calculateKnowledgeGain (s : Student)
    (base_gain facility_bonus sick_penalty : Q) : Z :=
  let learning_efficiency :=
    (0.6 * (thinking s / 100.0) + 0.4)
    * (1.0 - pressure s / FATIGUE_FROM_PRESSURE) in
  JS.floor (base_gain * learning_efficiency * facility_bonus * sick_penalty).

Definition getKnowledgeByType (s : Student) (type : string) : Z :=
  if String.eqb type TAG_DS then knowledge_ds s
  else if String.eqb type TAG_GRAPH then knowledge_graph s
  else if String.eqb type TAG_STRING then knowledge_string s
  else if String.eqb type TAG_MATH then knowledge_math s
  else if String.eqb type TAG_DP || String.eqb type TAG_DP_LONG
       then knowledge_dp s
  else 0%Z.

Definition addKnowledge (type : string) (amount : Z) (s : Student) : Student :=
  if String.eqb type TAG_DS then
    set_knowledge (knowledge_ds s + amount) (knowledge_graph s)
      (knowledge_string s) (knowledge_math s) (knowledge_dp s) s
  else if String.eqb type TAG_GRAPH then
    set_knowledge (knowledge_ds s) (knowledge_graph s + amount)
      (knowledge_string s) (knowledge_math s) (knowledge_dp s) s
  else if String.eqb type TAG_STRING then
    set_knowledge (knowledge_ds s) (knowledge_graph s)
      (knowledge_string s + amount) (knowledge_math s) (knowledge_dp s) s
  else if String.eqb type TAG_MATH then
    set_knowledge (knowledge_ds s) (knowledge_graph s)
      (knowledge_string s) (knowledge_math s + amount) (knowledge_dp s) s
  else if String.eqb type TAG_DP || String.eqb type TAG_DP_LONG then
    set_knowledge (knowledge_ds s) (knowledge_graph s)
      (knowledge_string s) (knowledge_math s) (knowledge_dp s + amount) s
  else s.

(** ** script.js: the performance scoring model *)

Section Scoring.

(** [sigmoid(x) = 1/(1+exp(-x))] is not rational; the scoring functions
    take it as a parameter. *)
Variable sigmoid : Q -> Q.

(** The clamped ratio of [getPerformanceScore]; [z1] is the deviate drawn
    inside [getMentalIndex], [z2] the one drawn for [random_factor]. *)
Definition performanceFinalRatio (s : Student)
    (difficulty knowledge_value z1 z2 : Q) : Q :=
  let comprehensive := getComprehensiveAbility s in
  let mental_idx := getMentalIndex s z1 in
  let knowledge_bonus := knowledge_value * 2.0 in
  let effective_ability := comprehensive + knowledge_bonus in
  let performance_ratio := sigmoid ((effective_ability - difficulty) / 10.0) in
  let stability_factor := mental_idx / 100.0 in
  let base_noise := 0.05 in
  let sigma_performance := (100 - mental_idx) / 200.0 + base_noise in
  let random_factor := normal z2 0 sigma_performance in
  let final_ratio := performance_ratio * stability_factor * (1 + random_factor) in
  clamp final_ratio 0 1.

Definition getPerformanceScore (s : Student)
    (difficulty maxScore knowledge_value z1 z2 : Q) : Q :=
  Qmax 0 (performanceFinalRatio s difficulty knowledge_value z1 z2 * maxScore).

(** The per-problem score of the formal contest ([holdCompetitionModal]):
    the average knowledge over the problem's tags, the raw score out of
    100, then the three rounding steps. *)
Definition tagKnowledgeSum (s : Student) (tags : list string) : Z :=
  fold_left (fun totalK t => (totalK + getKnowledgeByType s t)%Z) tags 0%Z.

Definition contestProblemScore (s : Student) (tags : list string)
    (difficulty z1 z2 : Q) : Q :=
  let totalK := tagKnowledgeSum s tags in
  let avgK := JS.floor (inject_Z totalK / inject_Z (Z.of_nat (length tags))) in
  let score := getPerformanceScore s difficulty 100 (inject_Z avgK) z1 z2 in
  let final := inject_Z (JS.floor score) in
  let final := inject_Z (JS.floor (final / 10)) * 10 in
  clampInt final 0 100.

End Scoring.

(** The score of section 4.1, step 9, in the specification's words: the
    floor of [final_ratio * maxScore], rounded down to a multiple of 10,
    clamped to [[0, maxScore]]. *)
Definition spec_score (final_ratio maxScore : Q) : Q :=
  clamp (inject_Z (Qfloor (inject_Z (Qfloor (final_ratio * maxScore)) / 10)) * 10)
        0 maxScore.

(** ** script.js: facilities and the environment of a training session *)

Record Facilities := mkFacilities {
  computer : Z;
  ac : Z;
  dorm : Z;
  library : Z;
  canteen : Z
}.

Definition getComputerEfficiency (f : Facilities) : Q :=
  1.0 + COMPUTER_EFFICIENCY_PER_LEVEL * (inject_Z (computer f) - 1).
Definition getLibraryEfficiency (f : Facilities) : Q :=
  1.0 + LIBRARY_EFFICIENCY_PER_LEVEL * (inject_Z (library f) - 1).
Definition getCanteenPressureReduction (f : Facilities) : Q :=
  1.0 - CANTEEN_PRESSURE_REDUCTION_PER_LEVEL * (inject_Z (canteen f) - 1).
Definition getDormComfortBonus (f : Facilities) : Q :=
  DORM_COMFORT_BONUS_PER_LEVEL * (inject_Z (dorm f) - 1).

Definition extremeTemperature (temperature : Q) : bool :=
  JS.ltb temperature EXTREME_COLD_THRESHOLD
  || JS.gtb temperature EXTREME_HOT_THRESHOLD.

(** [GameState.getWeatherFactor] and [GameState.getComfort], as functions of
    the fields they read. *)
Definition getWeatherFactor (f : Facilities) (temperature : Q) : Q :=
  let factor := 1.0 in
  if extremeTemperature temperature then
    let factor := if Z.eqb (ac f) 1 then 1.5 else factor in
    if Z.eqb (ac f) 1 && Z.eqb (dorm f) 1 then 2.0 else factor
  else factor.

Definition getComfort (f : Facilities) (temperature base_comfort : Q) : Q :=
  let comfort := base_comfort in
  let comfort := comfort + getDormComfortBonus f in
  let comfort := comfort + AC_COMFORT_BONUS_PER_LEVEL * (inject_Z (ac f) - 1) in
  let comfort := comfort + 3 * (inject_Z (canteen f) - 1) in
  let weather_penalty :=
    if extremeTemperature temperature then
      if Z.eqb (ac f) 1 then WEATHER_PENALTY_NO_AC else WEATHER_PENALTY_WITH_AC
    else 0 in
  clamp (comfort - weather_penalty) 0 100.

(** ** script.js: trainStudents, the body of the loop for one active student

    [u1] and [u2] are the values of [Math.random()] behind the thinking and
    the coding gain. *)

Definition trainingPressureIncrease (f : Facilities) (temperature base_comfort : Q)
    (topic : string) (intensity : Z) (s : Student) : Q :=
  let weather_factor := getWeatherFactor f temperature in
  let comfort := getComfort f temperature base_comfort in
  let comfort_factor := 1.0 + Qmax 0.0 ((50 - comfort) / 100.0) in
  let base_pressure :=
    if Z.eqb intensity 1 then 10 else if Z.eqb intensity 2 then 20 else 30 in
  let base_pressure :=
    if Z.eqb intensity 3 then base_pressure * TRAINING_PRESSURE_MULTIPLIER_HEAVY
    else if Z.eqb intensity 2 then base_pressure * TRAINING_PRESSURE_MULTIPLIER_MEDIUM
    else base_pressure in
  let base_pressure :=
    if String.eqb topic TOPIC_COMPOSITE
    then base_pressure * COMPOSITE_TRAINING_PRESSURE_BONUS else base_pressure in
  let canteen_reduction := getCanteenPressureReduction f in
  let pressure_increase :=
    base_pressure * weather_factor * canteen_reduction * comfort_factor in
  if (sick_weeks s >? 0)%Z then pressure_increase + 10 else pressure_increase.

(** The knowledge and ability gains of the chosen topic. *)
Definition trainingGains (f : Facilities) (topic : string) (knowledge_gain : Z)
    (u1 u2 : Q) (s : Student) : Student :=
  let damp := 1 - Qmin 0.6 (pressure s / 200.0) in
  let tmin := TRAINING_THINKING_GAIN_MIN in
  let cmin := TRAINING_CODING_GAIN_MIN in
  if String.eqb topic TAG_DS then
    let s := set_knowledge (knowledge_ds s + knowledge_gain) (knowledge_graph s)
               (knowledge_string s) (knowledge_math s) (knowledge_dp s) s in
    let s := set_thinking (thinking s + uniform u1 tmin (tmin + 1.0) * damp) s in
    set_coding (coding s + uniform u2 cmin (cmin + 1.0) * damp) s
  else if String.eqb topic TAG_GRAPH then
    let s := set_knowledge (knowledge_ds s) (knowledge_graph s + knowledge_gain)
               (knowledge_string s) (knowledge_math s) (knowledge_dp s) s in
    set_thinking (thinking s + uniform u1 (tmin + 0.4) (tmin + 1.4) * damp) s
  else if String.eqb topic TAG_STRING then
    let s := set_knowledge (knowledge_ds s) (knowledge_graph s)
               (knowledge_string s + knowledge_gain) (knowledge_math s)
               (knowledge_dp s) s in
    set_coding (coding s + uniform u2 (cmin + 0.6) (cmin + 1.6) * damp) s
  else if String.eqb topic TAG_MATH then
    let s := set_knowledge (knowledge_ds s) (knowledge_graph s)
               (knowledge_string s) (knowledge_math s + knowledge_gain)
               (knowledge_dp s) s in
    set_thinking (thinking s + uniform u1 (tmin + 1.0) (tmin + 2.0) * damp) s
  else if String.eqb topic TAG_DP then
    let s := set_knowledge (knowledge_ds s) (knowledge_graph s)
               (knowledge_string s) (knowledge_math s)
               (knowledge_dp s + knowledge_gain) s in
    set_thinking (thinking s + uniform u1 (tmin + 0.8) (tmin + 1.4) * damp) s
  else if String.eqb topic TOPIC_COMPOSITE then
    let avg_gain := Z.max 1 (JS.floor (inject_Z knowledge_gain * 0.25)) in
    let s := set_knowledge (knowledge_ds s + avg_gain) (knowledge_graph s + avg_gain)
               (knowledge_string s + avg_gain) (knowledge_math s + avg_gain)
               (knowledge_dp s + avg_gain) s in
    let computer_eff := getComputerEfficiency f in
    let s := set_thinking
               (thinking s + uniform u1 tmin (tmin + 0.6) * computer_eff * damp) s in
    set_coding (coding s + uniform u2 cmin (cmin + 0.6) * computer_eff * damp) s
  else s.

Definition trainStudent (f : Facilities) (temperature base_comfort : Q)
    (topic : string) (intensity : Z) (u1 u2 : Q) (s0 : Student) : Student :=
  let comfort := getComfort f temperature base_comfort in
  let facility_eff := getLibraryEfficiency f in
  let s := set_comfort comfort s0 in
  let sick_penalty := if (sick_weeks s >? 0)%Z then 0.7 else 1.0 in
  let base_gain := inject_Z intensity * TRAINING_BASE_KNOWLEDGE_GAIN_PER_INTENSITY in
  let knowledge_gain := calculateKnowledgeGain s base_gain facility_eff sick_penalty in
  let knowledge_gain := Z.max 0 knowledge_gain in
  let s := trainingGains f topic knowledge_gain u1 u2 s in
  let s := set_thinking (Qmin 100.0 (thinking s)) s in
  let s := set_coding (Qmin 100.0 (coding s)) s in
  set_pressure
    (pressure s + trainingPressureIncrease f temperature base_comfort topic intensity s) s.

(** The loop of [trainStudents] over the roster: inactive students are
    skipped; [draws i] are the two random values of the student at index
    [i]. *)
Definition trainStudents (f : Facilities) (temperature base_comfort : Q)
    (topic : string) (intensity : Z) (draws : nat -> Q * Q)
    (students : list Student) : list Student :=
  imap (fun i s =>
          if active s
          then trainStudent f temperature base_comfort topic intensity
                 (fst (draws i)) (snd (draws i)) s
          else s) students.

(** ** script.js: holdMockContestModal, the effects applied to one student

    [total_score] and [scores] are the student's entry of the result table
    (zeros when there is none); [u_mental] is the random value behind
    [mental_change], [u_k i] the one behind the knowledge gain of problem
    [i]. *)

Definition mockOutcome (total_score u : Q) : Q * Q * Q :=
  if JS.ltb total_score 100 then (uniform u (-16) (-6), 30, 0.3)
  else if JS.ltb total_score 200 then (uniform u (-2) 4, 20, 0.7)
  else if Qle_bool total_score 300 then (uniform u 6 16, 10, 1.0)
  else (uniform u 2 6, 16, 0.6).

Definition mockProblemKnowledge (isPurchased : bool) (overall_score_factor : Q)
    (tags : list string) (problem_score u : Q) (s : Student) : Student :=
  let mult := if isPurchased then MOCK_CONTEST_GAIN_MULTIPLIER_PURCHASED else 1.0 in
  let base_knowledge_min := inject_Z (JS.floor (2 * mult)) in
  let base_knowledge_max := inject_Z (JS.floor (6 * mult)) in
  let problem_score_factor := problem_score / 100.0 in
  let growth_factor := problem_score_factor * 0.7 + overall_score_factor * 0.3 in
  let knowledge_gain :=
    Z.max 0 (JS.floor (uniform u base_knowledge_min base_knowledge_max * growth_factor)) in
  if (0 <? length tags)%nat then
    let per := JS.floor (inject_Z knowledge_gain / inject_Z (Z.of_nat (length tags))) in
    fold_left (fun s t => addKnowledge t per s) tags s
  else s.

Definition mockApplyStudent (isPurchased : bool) (questionTagsArray : list (list string))
    (total_score : Q) (scores : list Q) (u_mental : Q) (u_k : nat -> Q)
    (s : Student) : Student :=
  let '(mental_change, pressure_gain, overall_score_factor) :=
    mockOutcome total_score u_mental in
  let s :=
    fold_left
      (fun s i =>
         mockProblemKnowledge isPurchased overall_score_factor
           (nth i questionTagsArray []) (nth i scores 0) (u_k i) s)
      (seq 0 4) s in
  let s := set_mental (clamp (mental s + mental_change) 0 100) s in
  set_pressure (pressure s + pressure_gain) s.

(** ** script.js: holdCompetitionModal, the effects applied to one student

    [own_total] is the total of the student's row in the result table, if
    there is one; [u1] and [u2] are the random values behind the pressure
    and the mental change. *)

Definition COMP_NOI : string := "NOI".
Definition COMP_PROVINCIAL : string := "省选".
Definition COMP_NOIP : string := "NOIP".
Definition COMP_CSP_S2 : string := "CSP-S2".
Definition COMP_CSP_S1 : string := "CSP-S1".

Definition compApplyStudent (compName : string) (maxScore : Q)
    (own_total : option Q) (u1 u2 : Q) (s : Student) : Student :=
  if String.eqb compName COMP_NOI then
    let s := set_pressure (pressure s + 40) s in
    match own_total with
    | Some total =>
        if JS.geb total (maxScore * NOI_SILVER_THRESHOLD)
        then set_mental (mental s + uniform u2 (-5) 5) s
        else set_mental (mental s + uniform u2 (-15) (-5)) s
    | None => s
    end
  else if String.eqb compName COMP_PROVINCIAL then
    let s := set_pressure (pressure s + uniform u1 20 35) s in
    set_mental (mental s + uniform u2 (-5) 5) s
  else if String.eqb compName COMP_NOIP then
    set_pressure (pressure s + uniform u1 15 25) s
  else
    set_pressure (pressure s + uniform u1 5 10) s.

(** The pressure that [compApplyStudent] adds, by contest. *)
Definition compPressureGain (compName : string) (u1 : Q) : Q :=
  if String.eqb compName COMP_NOI then 40
  else if String.eqb compName COMP_PROVINCIAL then uniform u1 20 35
  else if String.eqb compName COMP_NOIP then uniform u1 15 25
  else uniform u1 5 10.

(** The medals of the terminal stage. *)
Inductive Medal := Gold | Silver | Bronze.

(** The medal remark of the legacy result table, keyed to the contest's
    maximum score. *)
Definition legacyMedal (total maxScore : Q) : option Medal :=
  if JS.geb total (maxScore * NOI_GOLD_THRESHOLD) then Some Gold
  else if JS.geb total (maxScore * NOI_SILVER_THRESHOLD) then Some Silver
  else if JS.geb total (maxScore * NOI_BRONZE_THRESHOLD) then Some Bronze
  else None.

(** ** script.js: weeklyUpdate, the part that acts on one student *)

Definition KNOWLEDGE_FORGET_RATE : Q := 0.997.

Definition applyForgetting (weeks : Z) (knowledge : Z) : Z :=
  if (knowledge <=? 0)%Z then 0%Z
  else
    let original := knowledge in
    let forget_rate := KNOWLEDGE_FORGET_RATE in
    let forget_rate :=
      if (knowledge >? 50)%Z then 1.0 - (1.0 - forget_rate) * 0.5 else forget_rate in
    let new_val := JS.floor (inject_Z knowledge * Qpower forget_rate weeks) in
    Z.max new_val (JS.floor (inject_Z original * 0.8)).

Definition weeklyUpdateStudent (game_comfort : Q) (weeks : Z) (s0 : Student) : Student :=
  let s :=
    if (sick_weeks s0 >? 0)%Z
    then mkStudent (name s0) (thinking s0) (coding s0) (mental s0) (knowledge_ds s0)
           (knowledge_graph s0) (knowledge_string s0) (knowledge_math s0)
           (knowledge_dp s0) (pressure s0) (comfort s0) (active s0) (sick_weeks s0 - 1)
    else s0 in
  if active s then
    let s := set_knowledge (applyForgetting weeks (knowledge_ds s))
               (applyForgetting weeks (knowledge_graph s))
               (applyForgetting weeks (knowledge_string s))
               (applyForgetting weeks (knowledge_math s))
               (applyForgetting weeks (knowledge_dp s)) s in
    let pressure_recovery := RECOVERY_RATE * (game_comfort / 100.0) * inject_Z weeks in
    let s := set_pressure (Qmax 0 (pressure s - pressure_recovery)) s in
    set_pressure (Qmin 100 (pressure s)) s
  else s.

(** ** contest-integration.js: distributeContestGains *)

(** A problem of a contest state, with the fields the integration layer
    reads.  [score] is [None] when [prob.score] is not a number. *)
Record Problem := mkProblem {
  actualScore : Q;
  maxScore : Q;
  score : option Q;
  thinkingBase : option Q;
  codingBase : option Q;
  tags : list string
}.

Inductive GainType := Knowledge | Thinking | Coding.

(** [arr.reduce((sum, w) => sum + w, 0)] *)
Definition sumQ (l : list Q) : Q := fold_left Qplus l 0.

(** The weights and the distribution in exact arithmetic;
    [Rounded.problemWeight] and [Rounded.distributeContestGains] round
    after each operation, as the code does. *)
Definition problemWeight (prob : Problem) : Q :=
  let scoreRatio :=
    if JS.gtb (actualScore prob) 0
    then actualScore prob / Qmax 1 (maxScore prob) else 0 in
  let difficultyFactor :=
    Qmax 1 (JS.orElse (thinkingBase prob) (JS.orElse (codingBase prob) 50)) in
  scoreRatio * difficultyFactor.

(** The scan [for(let i = 1; i < problems.length; i++)] for the highest
    actual score: [rest] are the problems from index [i] on. *)
Fixpoint maxScoreScan (rest : list Problem) (i maxScoreIdx : nat) (best : Q) : nat :=
  match rest with
  | [] => maxScoreIdx
  | p :: rest' =>
      if JS.gtb (JS.orElse (Some (actualScore p)) 0) best
      then maxScoreScan rest' (S i) i (JS.orElse (Some (actualScore p)) 0)
      else maxScoreScan rest' (S i) maxScoreIdx best
  end.

Definition maxScoreIdxOf (problems : list Problem) : nat :=
  match problems with
  | [] => 0%nat
  | p0 :: rest => maxScoreScan rest 1 0 (JS.orElse (Some (actualScore p0)) 0)
  end.

Definition roundGain (gainType : GainType) (rawGain : Q) : Q :=
  match gainType with
  | Knowledge => inject_Z (JS.floor rawGain)
  | _ => inject_Z (JS.round (rawGain * 10)) / 10
  end.

Definition distributeContestGains (totalGainCap : Q) (problems : list Problem)
    (gainType : GainType) : list Q :=
  match problems with
  | [] => []
  | _ :: _ =>
      let weights := map problemWeight problems in
      let totalWeight := sumQ weights in
      if JS.eqb totalWeight 0 then map (fun _ => 0) problems
      else
        let gains :=
          map (fun w => roundGain gainType ((w / totalWeight) * totalGainCap)) weights in
        match gainType with
        | Knowledge =>
            let actualTotal := sumQ gains in
            let deficit := inject_Z (JS.floor totalGainCap) - actualTotal in
            if JS.gtb deficit 0
            then alter (fun g => g + deficit) (maxScoreIdxOf problems) gains
            else gains
        | _ => gains
        end
  end.

(** ** contest-integration.js: the game object and its ledgers *)

(** The key [`${halfIndex}_${name}_${week}`] of a contest occurrence, kept
    as the triple of its components. *)
Definition CompKey : Type := nat * string * Z.

(** The remark of a result row: empty, the poor-showing remark with the
    recorded extra pressure, or the remark of a competitor who did not
    take part. *)
Inductive Remark :=
| NoRemark
| PoorShowing (extraPressure : Z)
| NotQualified.

Record CareerEntry := mkCareerEntry {
  entry_name : string;
  entry_rank : option nat;
  entry_score : option Q;
  entry_passed : bool;
  entry_medal : option Medal;
  entry_remark : Remark
}.

Record CareerRecord := mkCareerRecord {
  record_week : Z;
  record_name : string;
  passedCount : nat;
  totalStudents : nat;
  entries : list CareerEntry
}.

(** The fields of [window.game] that the integration layer reads or
    writes.  The three sets and the career list are created on first use,
    hence the options.  [ending] holds the reason handed to
    [triggerGameEnding] (or stored by its fallback) once an ending has been
    signalled. *)
Record Game := mkGame {
  students : list Student;
  budget : Z;
  week : Z;
  province_type : string;
  qualification : option (gmap nat (gmap string (gset string)));
  completedCompetitions : option (gset CompKey);
  careerCompetitions : option (list CareerRecord);
  fundingIssued : option (gset CompKey);
  ending : option string
}.

Definition set_students (v : list Student) (g : Game) : Game :=
  mkGame v (budget g) (week g) (province_type g) (qualification g)
    (completedCompetitions g) (careerCompetitions g) (fundingIssued g) (ending g).
Definition set_budget (v : Z) (g : Game) : Game :=
  mkGame (students g) v (week g) (province_type g) (qualification g)
    (completedCompetitions g) (careerCompetitions g) (fundingIssued g) (ending g).
Definition set_qualification (v : option (gmap nat (gmap string (gset string))))
    (g : Game) : Game :=
  mkGame (students g) (budget g) (week g) (province_type g) v
    (completedCompetitions g) (careerCompetitions g) (fundingIssued g) (ending g).
Definition set_completedCompetitions (v : option (gset CompKey)) (g : Game) : Game :=
  mkGame (students g) (budget g) (week g) (province_type g) (qualification g)
    v (careerCompetitions g) (fundingIssued g) (ending g).
Definition set_careerCompetitions (v : option (list CareerRecord)) (g : Game) : Game :=
  mkGame (students g) (budget g) (week g) (province_type g) (qualification g)
    (completedCompetitions g) v (fundingIssued g) (ending g).
Definition set_fundingIssued (v : option (gset CompKey)) (g : Game) : Game :=
  mkGame (students g) (budget g) (week g) (province_type g) (qualification g)
    (completedCompetitions g) (careerCompetitions g) v (ending g).
Definition set_ending (v : option string) (g : Game) : Game :=
  mkGame (students g) (budget g) (week g) (province_type g) (qualification g)
    (completedCompetitions g) (careerCompetitions g) (fundingIssued g) v.

(** What the module sees of the page around it: [scope] binds the numeric
    identifiers that resolve in the global scope (the [typeof X] tests and
    bare references), [window] holds the numeric properties read as
    [window.X], [COMPETITION_ORDER] is [window.COMPETITION_ORDER] and
    [has_uniformInt] tells whether [window.uniformInt] is defined. *)
Record Env := mkEnv {
  scope : gmap string Q;
  window : gmap string Q;
  COMPETITION_ORDER : option (list string);
  has_uniformInt : bool
}.

(** A contest of the schedule, and the configuration built for it. *)
Record Competition := mkCompetition {
  comp_name : string;
  comp_week : Z;
  comp_maxScore : option Q
}.

Record Config := mkConfig {
  config_name : string;
  config_problems : option (list Problem)
}.

Definition CHAIN_BROKEN : string := "晋级链断裂".
Definition PROVINCE_STRONG : string := "强省".
Definition PROVINCE_WEAK : string := "弱省".

Definition compOrder (env : Env) : list string :=
  match COMPETITION_ORDER env with
  | Some order => order
  | None => [COMP_CSP_S1; COMP_CSP_S2; COMP_NOIP; COMP_PROVINCIAL; COMP_NOI]
  end.

(** [order.indexOf(x)], [-1] when absent. *)
Fixpoint indexOfFrom (order : list string) (x : string) (i : Z) : Z :=
  match order with
  | [] => (-1)%Z
  | y :: rest => if String.eqb y x then i else indexOfFrom rest x (i + 1)%Z
  end.
Definition indexOf (order : list string) (x : string) : Z := indexOfFrom order x 0.

(** The half-season boundary: [WEEKS_PER_HALF] when it is declared, else
    half of [SEASON_WEEKS] (26 when that is not declared either), rounded
    down. *)
Definition halfBoundary (env : Env) : Q :=
  match scope env !! "WEEKS_PER_HALF"%string with
  | Some w => w
  | None =>
      inject_Z (JS.floor (default 26 (scope env !! "SEASON_WEEKS"%string) / 2))
  end.

Definition halfIndexAt (boundary : Q) (g : Game) : nat :=
  if JS.gtb (inject_Z (week g)) boundary then 1%nat else 0%nat.

Definition halfIndex (env : Env) (g : Game) : nat := halfIndexAt (halfBoundary env) g.

(** [s.add(k)] on a set that is created when missing. *)
Definition addKey (k : CompKey) (s : option (gset CompKey)) : option (gset CompKey) :=
  Some ({[k]} ∪ default ∅ s).

(** ** contest-integration.js: holdCompetitionModalNew *)

(** [game.qualification[halfIndex] && game.qualification[halfIndex][prevComp]
    && game.qualification[halfIndex][prevComp].has(name)] *)
Definition hasQualification (q : gmap nat (gmap string (gset string)))
    (half : nat) (prevComp : string) (who : string) : bool :=
  match q !! half with
  | Some stages =>
      match stages !! prevComp with
      | Some qualified => bool_decide (who ∈ qualified)
      | None => false
      end
  | None => false
  end.

(** The names recorded for a stage of a half-season; empty when the ledger
    has no entry for it. *)
Definition qualifiedSet (q : gmap nat (gmap string (gset string)))
    (half : nat) (stage : string) : gset string :=
  match q !! half with
  | Some stages => default ∅ (stages !! stage)
  | None => ∅
  end.

(** The ledger after
    [if(!game.qualification) game.qualification = {};
     if(!game.qualification[halfIndex]) game.qualification[halfIndex] = {};] *)
Definition initQualification (half : nat)
    (q : option (gmap nat (gmap string (gset string))))
    : gmap nat (gmap string (gset string)) :=
  let q := default ∅ q in
  match q !! half with
  | Some _ => q
  | None => <[half := ∅]> q
  end.

Definition isEligible (env : Env) (q : gmap nat (gmap string (gset string)))
    (half : nat) (comp : Competition) (s : Student) : bool :=
  let currentIdx := indexOf (compOrder env) (comp_name comp) in
  if (currentIdx >? 0)%Z then
    let prevComp := nth (Z.to_nat (currentIdx - 1)) (compOrder env) ""%string in
    hasQualification q half prevComp (name s)
  else true.

(** The loop over [game.students]: students are kept by reference, here by
    their index in the roster.  It returns the eligible and the ineligible
    active students, both in roster order. *)
Fixpoint partitionEligible (env : Env) (q : gmap nat (gmap string (gset string)))
    (half : nat) (comp : Competition) (roster : list Student) (i : nat)
    : list nat * list nat :=
  match roster with
  | [] => ([], [])
  | s :: rest =>
      let '(eligibleStudents, ineligibleStudents) :=
        partitionEligible env q half comp rest (S i) in
      if negb (active s) then (eligibleStudents, ineligibleStudents)
      else if isEligible env q half comp s
           then (i :: eligibleStudents, ineligibleStudents)
           else (eligibleStudents, i :: ineligibleStudents)
  end.

(** The career record of a contest nobody could enter. *)
Definition skippedRecord (g : Game) (comp : Competition) : CareerRecord :=
  mkCareerRecord (week g) (comp_name comp) 0 0
    (map (fun s => mkCareerEntry (name s) None None false None NotQualified)
         (filter (fun s => active s = true) (students g))).

Definition pushCareer (r : CareerRecord) (g : Game) : Game :=
  set_careerCompetitions (Some (default [] (careerCompetitions g) ++ [r])) g.

Definition markCompleted (k : CompKey) (g : Game) : Game :=
  set_completedCompetitions (addKey k (completedCompetitions g)) g.

(** [window.triggerGameEnding(reason)], or the fallback that stores the
    reason and raises [seasonEndTriggered]. *)
Definition triggerGameEnding (reason : string) (g : Game) : Game :=
  set_ending (Some reason) g.

(** How [holdCompetitionModalNew] leaves: the chain broke (second
    half-season, nobody eligible), the contest was skipped (first
    half-season, nobody eligible), or the simulator was started on the
    eligible students, its callback being [handleCompetitionResults]. *)
Inductive StartOutcome :=
| ChainBroken (g : Game)
| Skipped (g : Game)
| Simulate (g : Game) (eligibleStudents ineligibleStudents : list nat).

Definition holdCompetitionModalNew (env : Env) (comp : Competition) (g0 : Game)
    : StartOutcome :=
  let half := halfIndex env g0 in
  let q := initQualification half (qualification g0) in
  let g := set_qualification (Some q) g0 in
  let '(eligibleStudents, ineligibleStudents) :=
    partitionEligible env q half comp (students g) 0 in
  if (length eligibleStudents =? 0)%nat then
    if (half =? 1)%nat then
      let compKey := (half, comp_name comp, comp_week comp) in
      let g := markCompleted compKey g in
      let g := pushCareer (skippedRecord g comp) g in
      let g := triggerGameEnding CHAIN_BROKEN g in
      ChainBroken g
    else
      let compKey := (half, comp_name comp, comp_week comp) in
      let g := markCompleted compKey g in
      let g := pushCareer (skippedRecord g comp) g in
      Skipped g
  else Simulate g eligibleStudents ineligibleStudents.

(** ** contest-integration.js: pass rate and pass line *)

Definition windowOr (env : Env) (x : string) (d : Q) : Q :=
  JS.orElse (window env !! x) d.

(** The pass rate in exact arithmetic;
    [Rounded.getPassRateForCompetition] rounds the constants and the sum. *)
Definition getPassRateForCompetition (env : Env) (g : Game) (compName : string) : Q :=
  let baseRate :=
    if String.eqb (province_type g) PROVINCE_STRONG
    then windowOr env "STRONG_PROVINCE_BASE_PASS_RATE" 0.65
    else if String.eqb (province_type g) PROVINCE_WEAK
    then windowOr env "WEAK_PROVINCE_BASE_PASS_RATE" 0.4
    else windowOr env "NORMAL_PROVINCE_BASE_PASS_RATE" 0.5 in
  if String.eqb compName COMP_PROVINCIAL
  then baseRate + windowOr env "PROVINCIAL_SELECTION_BONUS" 0.2
  else baseRate.

Definition calculatePassLine (env : Env) (sortedScores : list Q)
    (passRate totalMax : Q) (compName : string) : Q :=
  if (length sortedScores =? 0)%nat then 0
  else
    let passCount :=
      Z.max 1 (JS.floor (inject_Z (Z.of_nat (length sortedScores)) * passRate)) in
    let baseLine := JS.orElse (sortedScores !! Z.to_nat (passCount - 1)) 0 in
    let baseLine :=
      if JS.truthy totalMax && JS.gtb totalMax 0 then
        if String.eqb compName COMP_NOI then
          let minLine := totalMax * 0.8 in
          Qmax baseLine minLine
        else
          let minLine := totalMax * 0.3 in
          let maxLine := totalMax * 0.9 in
          let baseLine := Qmax baseLine minLine in
          Qmin baseLine maxLine
      else baseLine in
    let passLineMult := default 1.0 (scope env !! "PASS_LINE_MULTIPLIER"%string) in
    baseLine * passLineMult.

(** [scores.sort((a,b) => b - a)]: descending order. *)
Fixpoint insertDesc (x : Q) (l : list Q) : list Q :=
  match l with
  | [] => [x]
  | y :: rest => if Qle_bool y x then x :: l else y :: insertDesc x rest
  end.
Definition sortDesc (l : list Q) : list Q := fold_right insertDesc [] l.

(** [Math.min.apply(null, scores)] on a non-empty list. *)
Definition minOf (x : Q) (l : list Q) : Q := fold_left Qmin l x.

(** ** contest-integration.js: handleCompetitionResults *)

(** A contest state handed back by the simulator.  [state_student] is the
    student object, by its index in the roster; [state_passLine] is
    [state.passLine] when the simulator set one. *)
Record StudentState := mkStudentState {
  state_student : nat;
  totalScore : Q;
  state_passLine : option Q;
  state_problems : list Problem
}.

Record Result := mkResult {
  result_student : nat;
  result_score : option Q;
  result_passed : bool;
  result_medal : option Medal;
  result_extraPressure : Z;
  result_remark : Remark;
  notParticipated : bool
}.

Definition pressureMultiplier (env : Env) : Q :=
  default 1.0 (scope env !! "PRESSURE_INCREASE_MULTIPLIER"%string).

(** The base pressure and mental update for a pass or a fail. *)
Definition passFailFeedback (pressureMult : Q) (passed : bool) (s : Student) : Student :=
  if passed then
    let s := set_pressure (Qmax 0 (pressure s - 10)) s in
    set_mental (Qmin 100 (mental s + 3)) s
  else
    let s := set_pressure (Qmin 100 (pressure s + 15 * pressureMult)) s in
    set_mental (Qmax 0 (mental s - 5)) s.

Definition extraPressureOf (totalMax baseline sc : Q) : Z :=
  if JS.gtb totalMax 0 then
    let scoreBelow := Qmax 0 (baseline - JS.orElse (Some sc) 0) in
    let unit := Qmax 1 (totalMax / 20.0) in
    Z.min 15 (JS.ceil (scoreBelow / unit))
  else 0%Z.

(** The condition under which the extra pressure is recorded: failed, or
    below the midpoint, or last, and a positive extra pressure. *)
Definition poorShowing (passed : bool) (baseline sc minScore : Q)
    (extraPressure : Z) : bool :=
  (negb passed
   || (JS.gtb baseline 0 && JS.ltb (JS.orElse (Some sc) 0) baseline)
   || JS.eqb (JS.orElse (Some sc) 0) minScore)
  && (extraPressure >? 0)%Z.

Definition medalOf (compName : string) (statePassLine : option Q)
    (passLine sc : Q) : option Medal :=
  if String.eqb compName COMP_NOI then
    let pl := JS.orElse statePassLine (JS.orElse (Some passLine) 0) in
    let scoreNum := JS.orElse (Some sc) 0 in
    if JS.geb scoreNum (pl * 1.0) then Some Gold
    else if JS.geb scoreNum (pl * 0.7) then Some Silver
    else if JS.geb scoreNum (pl * 0.5) then Some Bronze
    else None
  else None.

(** One turn of the loop over the contest states: the student's base
    feedback is applied in the roster, and the result row is built.  The
    talent hook [triggerTalents] is not a method of the [Student] class of
    [script.js]; the guarded call is a no-op here. *)
Definition scoreState (env : Env) (compName : string)
    (passLine totalMax baseline minScore : Q) (st : StudentState)
    (roster : list Student) : list Student * Result :=
  let sc := totalScore st in
  let passed := JS.geb sc passLine in
  let pressureMult := pressureMultiplier env in
  let roster := alter (passFailFeedback pressureMult passed) (state_student st) roster in
  let extraPressure := extraPressureOf totalMax baseline sc in
  let flagged := poorShowing passed baseline sc minScore extraPressure in
  let recorded := if flagged then extraPressure else 0%Z in
  let remark := if flagged then PoorShowing extraPressure else NoRemark in
  let medal := medalOf compName (state_passLine st) passLine sc in
  (roster, mkResult (state_student st) (Some sc) passed medal recorded remark false).

Fixpoint scoreStates (env : Env) (compName : string)
    (passLine totalMax baseline minScore : Q) (states : list StudentState)
    (roster : list Student) : list Student * list Result :=
  match states with
  | [] => (roster, [])
  | st :: rest =>
      let '(roster, r) :=
        scoreState env compName passLine totalMax baseline minScore st roster in
      let '(roster, results) :=
        scoreStates env compName passLine totalMax baseline minScore rest roster in
      (roster, r :: results)
  end.

Definition absentResult (i : nat) : Result :=
  mkResult i None false None 0 NotQualified true.

(** ** contest-integration.js: updateQualifications *)

Definition qualifies (r : Result) : bool :=
  result_passed r && negb (notParticipated r).

Definition addQualified (roster : list Student) (qualified : gset string)
    (r : Result) : gset string :=
  if qualifies r then
    match roster !! result_student r with
    | Some s => {[name s]} ∪ qualified
    | None => qualified
    end
  else qualified.

Definition updateQualifications (env : Env) (results : list Result)
    (compName : string) (g : Game) : Game :=
  match qualification g with
  | None => g
  | Some q =>
      let currentIdx := indexOf (compOrder env) compName in
      if (currentIdx <? 0)%Z then g
      else
        let seasonIdx := halfIndex env g in
        let stages := default ∅ (q !! seasonIdx) in
        let qualified := default ∅ (stages !! compName) in
        let qualified := fold_left (addQualified (students g)) results qualified in
        set_qualification
          (Some (<[seasonIdx := <[compName := qualified]> stages]> q)) g
  end.

(** ** contest-integration.js: distributeRewards *)

Definition rewardFor (env : Env) (compName : string) (u : Q) : Z :=
  if String.eqb compName COMP_NOI then
    if has_uniformInt env
    then uniformInt u (windowOr env "NOI_REWARD_MIN" 30000)
           (windowOr env "NOI_REWARD_MAX" 50000)
    else 40000%Z
  else if String.eqb compName COMP_NOIP then
    if has_uniformInt env
    then uniformInt u (windowOr env "NOIP_REWARD_MIN" 10000)
           (windowOr env "NOIP_REWARD_MAX" 20000)
    else 15000%Z
  else if String.eqb compName COMP_CSP_S2 then
    if has_uniformInt env
    then uniformInt u (windowOr env "CSP_S2_REWARD_MIN" 4000)
           (windowOr env "CSP_S2_REWARD_MAX" 8000)
    else 6000%Z
  else if String.eqb compName COMP_CSP_S1 then
    if has_uniformInt env
    then uniformInt u (windowOr env "CSP_S1_REWARD_MIN" 2000)
           (windowOr env "CSP_S1_REWARD_MAX" 5000)
    else 3000%Z
  else 0%Z.

(** The reward loop; [draws i] is the value of [Math.random()] used for the
    result at index [i]. *)
Fixpoint sumRewards (env : Env) (compName : string) (draws : nat -> Q)
    (results : list Result) (i : nat) (totalReward : Z) : Z :=
  match results with
  | [] => totalReward
  | r :: rest =>
      if negb (result_passed r) || notParticipated r
      then sumRewards env compName draws rest (S i) totalReward
      else sumRewards env compName draws rest (S i)
             (totalReward + rewardFor env compName (draws i))%Z
  end.

Definition fundingKey (half : nat) (compName : string) (g : Game) : CompKey :=
  (half, compName, week g).

(** The second [try] block.  [halfBoundary_ui] is a [const] of the first
    [try] block, so it is not in scope here: the reference resolves in the
    global scope, and throws when no such global exists. *)
Definition markFundingIssued (env : Env) (compName : string) (g : Game)
    : option Game :=
  match scope env !! "halfBoundary_ui"%string with
  | None => None
  | Some halfBoundary_ui =>
      let half := halfIndexAt halfBoundary_ui g in
      Some (set_fundingIssued
              (addKey (fundingKey half compName g) (fundingIssued g)) g)
  end.

Definition distributeRewards (env : Env) (draws : nat -> Q)
    (results : list Result) (compName : string) (g0 : Game) : Game * Z :=
  let halfBoundary_ui := halfBoundary env in
  let half := halfIndexAt halfBoundary_ui g0 in
  let key := fundingKey half compName g0 in
  let issued := default ∅ (fundingIssued g0) in
  let g := set_fundingIssued (Some issued) g0 in
  if bool_decide (key ∈ issued) then (g, 0%Z)
  else
    let totalReward := sumRewards env compName draws results 0 0%Z in
    if (totalReward >? 0)%Z then
      let g := set_budget (budget g + totalReward) g in
      (JS.tryCatch (markFundingIssued env compName g) g, totalReward)
    else (g, totalReward).

(** ** contest-integration.js: the rest of handleCompetitionResults *)

Definition applyExtraPressure (pressureMult : Q) (roster : list Student)
    (r : Result) : list Student :=
  if notParticipated r then roster
  else
    let ep := inject_Z (result_extraPressure r) in
    if JS.gtb ep 0 then
      let epApplied := ep * 2 * pressureMult in
      alter (fun s => set_pressure (Qmin 100 (pressure s + epApplied)) s)
            (result_student r) roster
    else roster.

Definition participants (results : list Result) : list Result :=
  filter (fun r => notParticipated r = false) results.

Definition countPassed (results : list Result) : nat :=
  length (filter (fun r => qualifies r = true) results).

Definition resultsRecord (g : Game) (comp : Competition) (passed : nat)
    (results : list Result) : CareerRecord :=
  mkCareerRecord (week g) (comp_name comp) passed (length (participants results))
    (imap (fun idx r =>
             mkCareerEntry
               (from_option name ""%string (students g !! result_student r))
               (Some (idx + 1)%nat) (result_score r) (result_passed r)
               (result_medal r) (result_remark r))
          (participants results)).

Definition contestTotalMax (config : Config) (comp : Competition) : Q :=
  match config_problems config with
  | Some ps => fold_left (fun sum p => sum + JS.orElse (Some (maxScore p)) 0) ps 0
  | None => JS.orElse (comp_maxScore comp) 0
  end.

Definition contestPassLine (env : Env) (studentStates : list StudentState)
    (config : Config) (originalComp : Competition) (g : Game) : Q :=
  let scores := sortDesc (map totalScore studentStates) in
  let passRate := getPassRateForCompetition env g (comp_name originalComp) in
  let totalMax := contestTotalMax config originalComp in
  calculatePassLine env scores passRate totalMax (comp_name originalComp).

Definition contestBaseline (totalMax : Q) : Q :=
  if JS.gtb totalMax 0 then totalMax / 2.0 else 0.

(** The first part of [handleCompetitionResults]: pass line, midpoint and
    lowest score, then the loop over the contest states.  It returns the
    roster after the base feedback and the result rows of the
    participants. *)
Definition scoreContest (env : Env) (studentStates : list StudentState)
    (config : Config) (originalComp : Competition) (g : Game)
    : list Student * list Result :=
  let scores := sortDesc (map totalScore studentStates) in
  let totalMax := contestTotalMax config originalComp in
  let passLine := contestPassLine env studentStates config originalComp g in
  let baseline := contestBaseline totalMax in
  let minScore := match scores with [] => 0 | x :: l => minOf x l end in
  scoreStates env (comp_name originalComp) passLine totalMax baseline minScore
    studentStates (students g).

(** The result rows: the participants, then the competitors who were not
    eligible. *)
Definition contestResults (env : Env) (studentStates : list StudentState)
    (config : Config) (originalComp : Competition) (ineligibleStudents : list nat)
    (g : Game) : list Result :=
  snd (scoreContest env studentStates config originalComp g)
  ++ map absentResult ineligibleStudents.

Definition handleCompetitionResults (env : Env) (draws : nat -> Q)
    (studentStates : list StudentState) (config : Config)
    (originalComp : Competition) (ineligibleStudents : list nat)
    (g0 : Game) : Game :=
  let compName := comp_name originalComp in
  let roster := fst (scoreContest env studentStates config originalComp g0) in
  let results :=
    contestResults env studentStates config originalComp ineligibleStudents g0 in
  let g := set_students roster g0 in
  let g := updateQualifications env results compName g in
  let half := halfIndex env g in
  let passed := countPassed results in
  if (half =? 1)%nat && (passed =? 0)%nat then
    triggerGameEnding CHAIN_BROKEN g
  else
    let pressureMult := pressureMultiplier env in
    let g := set_students
               (fold_left (applyExtraPressure pressureMult) results (students g)) g in
    let '(g, totalReward) := distributeRewards env draws results compName g in
    let compKey := (half, compName, comp_week originalComp) in
    let g := markCompleted compKey g in
    pushCareer (resultsRecord g originalComp passed results) g.

(** ** contest-integration.js: handleMockContestResults, for one student

    The three caps ([knowledgeCap], [thinkingCap], [codingCap]) are the
    products computed from the gain tables of the page; [mockTotalMax] and
    [minScore] are the contest total and the lowest total of the session.
    The handler itself divides and multiplies numbers that are no
    integers; it is [Rounded.mockGainsStudent] below. *)

(** [Object.assign({}, prob, { actualScore: actual })] *)
Definition withActualScore (prob : Problem) : Problem :=
  let actual := match score prob with Some v => v | None => maxScore prob end in
  mkProblem actual (maxScore prob) (score prob) (thinkingBase prob)
    (codingBase prob) (tags prob).

(** The body of the loop that applies the knowledge gain of one problem. *)
Definition applyProblemKnowledge (prob : Problem) (knowledgeGain : Q)
    (s : Student) : Student :=
  if Qle_bool knowledgeGain 0 then s
  else
    let tagCount := Z.max 1 (Z.of_nat (length (tags prob))) in
    let perTagGain := JS.floor (knowledgeGain / inject_Z tagCount) in
    if (perTagGain <=? 0)%Z then s
    else fold_left (fun s tag => addKnowledge tag perTagGain s) (tags prob) s.

Definition applyKnowledgeGains (problems : list Problem) (knowledgeGains : list Q)
    (s : Student) : Student :=
  fold_left
    (fun s i =>
       match problems !! i with
       | Some prob => applyProblemKnowledge prob (JS.orElse (knowledgeGains !! i) 0) s
       | None => s
       end)
    (seq 0 (length problems)) s.

(** The total of the five knowledge counters of a student. *)
Definition knowledgeSum (s : Student) : Z :=
  (knowledge_ds s + knowledge_graph s + knowledge_string s
   + knowledge_math s + knowledge_dp s)%Z.

(** The tags that [addKnowledge] recognises. *)
Definition knownTag (t : string) : bool :=
  String.eqb t TAG_DS || String.eqb t TAG_GRAPH || String.eqb t TAG_STRING
  || String.eqb t TAG_MATH || String.eqb t TAG_DP || String.eqb t TAG_DP_LONG.

(** ** Predicates and projections used to state further properties *)

(** The psychological axes lie in their range. *)
Definition psychInRange (s : Student) : Prop :=
  (0 <= pressure s /\ pressure s <= 100) /\ (0 <= mental s /\ mental s <= 100).

(** Everything of a student except pressure and mental. *)
Definition besidesPsych (s : Student)
    : string * Q * Q * (Z * Z * Z * Z * Z) * Q * bool * Z :=
  (name s, thinking s, coding s,
   (knowledge_ds s, knowledge_graph s, knowledge_string s, knowledge_math s,
    knowledge_dp s),
   comfort s, active s, sick_weeks s).

(** The reward range of a contest, from the constants of [script.js]; the
    provincial selection and contests outside the schedule pay nothing. *)
Definition rewardRange (compName : string) : Z * Z :=
  if String.eqb compName COMP_NOI then (NOI_REWARD_MIN, NOI_REWARD_MAX)
  else if String.eqb compName COMP_NOIP then (NOIP_REWARD_MIN, NOIP_REWARD_MAX)
  else if String.eqb compName COMP_CSP_S2 then (CSP_S2_REWARD_MIN, CSP_S2_REWARD_MAX)
  else if String.eqb compName COMP_CSP_S1 then (CSP_S1_REWARD_MIN, CSP_S1_REWARD_MAX)
  else (0%Z, 0%Z).

(** ** script.js: upgrading the facilities *)

Definition MAX_COMPUTER_LEVEL : Z := 5.
Definition MAX_OTHER_FACILITY_LEVEL : Z := 3.

(** The own entries of [FACILITY_UPGRADE_COSTS]: the base cost and the
    growth factor of each of the five facilities. *)
Definition FACILITY_UPGRADE_COSTS (fac : string) : option (Q * Q) :=
  if String.eqb fac "computer" then Some (20000, 1.6)
  else if String.eqb fac "library" then Some (15000, 1.5)
  else if String.eqb fac "ac" then Some (8000, 1.4)
  else if String.eqb fac "dorm" then Some (8000, 1.4)
  else if String.eqb fac "canteen" then Some (8000, 1.4)
  else None.

Definition getCurrentLevel (f : Facilities) (fac : string) : Z :=
  if String.eqb fac "computer" then computer f
  else if String.eqb fac "library" then library f
  else if String.eqb fac "ac" then ac f
  else if String.eqb fac "dorm" then dorm f
  else if String.eqb fac "canteen" then canteen f
  else 0%Z.

Definition getMaxLevel (fac : string) : Z :=
  if String.eqb fac "computer" || String.eqb fac "library"
  then MAX_COMPUTER_LEVEL else MAX_OTHER_FACILITY_LEVEL.

(** [getUpgradeCost(fac)] for a name that the table holds as its own key
    or does not hold at all; the names that the table inherits are the
    matter of [upgradeCostQuote] below. *)
Definition getUpgradeCost (f : Facilities) (fac : string) : Z :=
  match FACILITY_UPGRADE_COSTS fac with
  | None => 0%Z
  | Some (base, grow) =>
      let level := getCurrentLevel f fac in
      JS.floor (base * Qpower grow (level - 1))
  end.

Definition upgrade (fac : string) (f : Facilities) : Facilities :=
  if String.eqb fac "computer"
  then mkFacilities (computer f + 1) (ac f) (dorm f) (library f) (canteen f)
  else if String.eqb fac "library"
  then mkFacilities (computer f) (ac f) (dorm f) (library f + 1) (canteen f)
  else if String.eqb fac "ac"
  then mkFacilities (computer f) (ac f + 1) (dorm f) (library f) (canteen f)
  else if String.eqb fac "dorm"
  then mkFacilities (computer f) (ac f) (dorm f + 1) (library f) (canteen f)
  else if String.eqb fac "canteen"
  then mkFacilities (computer f) (ac f) (dorm f) (library f) (canteen f + 1)
  else f.

(** [FACILITY_UPGRADE_COSTS] is a plain object: the lookup
    [FACILITY_UPGRADE_COSTS[fac]] also finds the members that every object
    inherits from [Object.prototype].  Such a member is truthy and has no
    [base] and no [grow], so the cost quoted for its name is NaN. *)
Definition OBJECT_PROTOTYPE_MEMBERS : list string :=
  ["constructor"; "__defineGetter__"; "__defineSetter__"; "hasOwnProperty";
   "__lookupGetter__"; "__lookupSetter__"; "isPrototypeOf";
   "propertyIsEnumerable"; "toString"; "valueOf"; "__proto__";
   "toLocaleString"]%string.

Definition inheritedMember (fac : string) : bool :=
  existsb (String.eqb fac) OBJECT_PROTOTYPE_MEMBERS.

(** The cost that [getUpgradeCost] quotes; [None] stands for NaN. *)
Definition upgradeCostQuote (f : Facilities) (fac : string) : option Z :=
  if inheritedMember fac then None else Some (getUpgradeCost f fac).

(** [upgradeFacility(f)] on the budget and the facilities of the game;
    [confirmed] is the answer given to the confirmation dialog.  The budget
    that results is [None] when it is NaN: [game.budget < NaN] is false, and
    [game.budget -= NaN] follows. *)
Definition upgradeFacility (fac : string) (confirmed : bool)
    (game_budget : Z) (facilities : Facilities) : option Z * Facilities :=
  let current := getCurrentLevel facilities fac in
  let max := getMaxLevel fac in
  if (current >=? max)%Z then (Some game_budget, facilities)
  else
    let cost := upgradeCostQuote facilities fac in
    if negb confirmed then (Some game_budget, facilities)
    else
      match cost with
      | Some cost =>
          if (game_budget <? cost)%Z then (Some game_budget, facilities)
          else (Some (game_budget - cost)%Z, upgrade fac facilities)
      | None => (None, upgrade fac facilities)
      end.

(** Every facility is between level 1 and its highest level. *)
Definition levelsInRange (f : Facilities) : Prop :=
  (1 <= computer f <= MAX_COMPUTER_LEVEL)%Z
  /\ (1 <= library f <= MAX_COMPUTER_LEVEL)%Z
  /\ (1 <= ac f <= MAX_OTHER_FACILITY_LEVEL)%Z
  /\ (1 <= dorm f <= MAX_OTHER_FACILITY_LEVEL)%Z
  /\ (1 <= canteen f <= MAX_OTHER_FACILITY_LEVEL)%Z.

(** ** script.js: evictSingle *)

Definition EVICT_REPUTATION_COST : Z := 10.

Definition set_active (v : bool) (s : Student) : Student :=
  mkStudent (name s) (thinking s) (coding s) (mental s) (knowledge_ds s)
    (knowledge_graph s) (knowledge_string s) (knowledge_math s) (knowledge_dp s)
    (pressure s) (comfort s) v (sick_weeks s).

(** [evictSingle(idx)] on the roster and the reputation of the game. *)
Definition evictSingle (idx : nat) (game_students : list Student)
    (reputation : Z) : list Student * Z :=
  match game_students !! idx with
  | None => (game_students, reputation)
  | Some student =>
      if negb (active student) then (game_students, reputation)
      else
        let game_students := alter (set_active false) idx game_students in
        let reputation := (reputation - EVICT_REPUTATION_COST)%Z in
        let reputation := if (reputation <? 0)%Z then 0%Z else reputation in
        (game_students, reputation)
  end.

(** The number of active competitors, [students.filter(s=>s.active).length]. *)
Definition activeCount (l : list Student) : nat :=
  length (filter (fun s => active s = true) l).

(** ** script.js: checkEnding *)

Definition ENDING_BANKRUPT : string := "💸 经费枯竭".
Definition ENDING_COLLAPSE : string := "😵 心理崩溃".
Definition ENDING_GLORY : string := "🌟 荣耀结局".
Definition ENDING_EXCELLENT : string := "🏅 优秀结局".
Definition ENDING_ORDINARY : string := "💼 平凡结局".

(** [noi_rankings] holds the [rank] of each entry of [game.noi_rankings].
    The event pushed on the first branch goes to the event list, not to the
    result. *)
Definition checkEnding (game_students : list Student) (game_budget : Z)
    (initial_students : Q) (noi_rankings : list Q) : string :=
  let active_count := activeCount game_students in
  let avg_pressure := 0 in
  let avg_pressure :=
    if (0 <? active_count)%nat
    then fold_left (fun a s => a + pressure s)
           (filter (fun s => active s = true) game_students) 0
         / inject_Z (Z.of_nat active_count)
    else avg_pressure in
  if (game_budget <=? 0)%Z then ENDING_BANKRUPT
  else if JS.ltb (inject_Z (Z.of_nat active_count)) (initial_students * 0.5)
  then ENDING_COLLAPSE
  else
    let '(has_gold, has_medal) :=
      fold_left
        (fun '(has_gold, has_medal) rank =>
           (if Qle_bool rank 3 then true else has_gold,
            if Qle_bool rank 10 then true else has_medal))
        noi_rankings (false, false) in
    if has_gold then ENDING_GLORY
    else if has_medal then ENDING_EXCELLENT
    else if JS.geb (inject_Z (Z.of_nat active_count)) (initial_students * 0.6)
            && Qle_bool avg_pressure 60
    then ENDING_ORDINARY
    else ENDING_ORDINARY.

(** ** script.js: pushEvent and the list of recent events *)

Record Event := mkEvent {
  ev_name : option string;
  ev_description : string;
  ev_week : Z
}.

(** What [pushEvent] is handed: a string, an object (with the fields that
    are read, each absent or present), or anything else, given by its
    rendering as a string. *)
Inductive Msg :=
| MsgString (text : string)
| MsgObject (msg_name msg_description msg_text : option string) (msg_week : option Z)
| MsgOther (rendered : string).

(** [x || ...] on a string field: absent and empty are both falsy. *)
Definition truthyString (x : option string) : option string :=
  match x with
  | Some s => if String.eqb s "" then None else Some s
  | None => None
  end.

Definition eventOf (msg : Msg) (game_week : Z) : Event :=
  match msg with
  | MsgString text => mkEvent None text game_week
  | MsgObject msg_name msg_description msg_text msg_week =>
      mkEvent (truthyString msg_name)
        (default (default ""%string (truthyString msg_text))
                 (truthyString msg_description))
        (match msg_week with
         | Some w => if (w =? 0)%Z then game_week else w
         | None => game_week
         end)
  | MsgOther rendered => mkEvent None rendered game_week
  end.

(** The key of the duplicate test, [`${week}::${name||''}::${description||''}`]. *)
Definition eventKey (ev : Event) : string :=
  pretty (ev_week ev) +:+ "::" +:+ default ""%string (ev_name ev)
  +:+ "::" +:+ ev_description ev.

(** [pushEvent(msg)] on the list [recentEvents], newest first. *)
Definition pushEvent (msg : Msg) (game_week : Z) (recentEvents : list Event)
    : list Event :=
  let ev := eventOf msg game_week in
  let key := eventKey ev in
  let exists_ :=
    existsb (fun r => String.eqb (eventKey r) key) recentEvents in
  if negb exists_ then
    let recentEvents := ev :: recentEvents in
    if (24 <? length recentEvents)%nat then removelast recentEvents
    else recentEvents
  else recentEvents.

(** ** script.js: the calendar, safeWeeklyUpdate and checkCompetitions *)

(** [COMPETITION_SCHEDULE], of which [competitions] is a copy; the
    difficulty of an entry is not read by the functions below. *)
Definition COMPETITION_SCHEDULE : list Competition :=
  [ mkCompetition COMP_CSP_S1 10 (Some 100);
    mkCompetition COMP_CSP_S2 15 (Some 400);
    mkCompetition COMP_NOIP 20 (Some 400);
    mkCompetition COMP_PROVINCIAL 37 (Some 400);
    mkCompetition COMP_NOI 50 (Some 400) ].

(** The week after [weeklyUpdate(weeks)]: the loop [for(i=0;i<weeks;i++)]
    advances [game.week] by one per turn. *)
Definition weeklyUpdate_week (weeks game_week : Z) : Z :=
  (game_week + Z.max 0 weeks)%Z.

(** [checkCompetitions]: the contest opened in the current week, the first
    of the list that is held in it. *)
Definition checkCompetitions (competitions : list Competition) (game_week : Z)
    : option Competition :=
  find (fun comp => (comp_week comp =? game_week)%Z) competitions.

(** [safeWeeklyUpdate(weeks)]: the week it ends in and the contest that
    [checkCompetitions] opened on the way, if any.  A missing next contest
    makes [weeksToComp] infinite. *)
Definition safeWeeklyUpdate (competitions : list Competition) (weeks game_week : Z)
    : Z * option Competition :=
  match find (fun c => (game_week <? comp_week c)%Z) competitions with
  | Some nextComp =>
      let weeksToComp := (comp_week nextComp - game_week)%Z in
      if (weeksToComp <=? weeks)%Z then
        let game_week := weeklyUpdate_week weeksToComp game_week in
        let held := checkCompetitions competitions game_week in
        let rem := (weeks - weeksToComp)%Z in
        let game_week :=
          if (rem >? 0)%Z then weeklyUpdate_week rem game_week else game_week in
        (game_week, held)
      else (weeklyUpdate_week weeks game_week, None)
  | None => (weeklyUpdate_week weeks game_week, None)
  end.

(** ** script.js: outingTraining *)

Definition OUTFIT_BASE_COST_BASIC : Z := 15000.
Definition OUTFIT_BASE_COST_INTERMEDIATE : Z := 25000.
Definition OUTFIT_BASE_COST_ADVANCED : Z := 40000.
Definition STRONG_PROVINCE_COST_MULTIPLIER : Q := 1.5.
Definition WEAK_PROVINCE_COST_MULTIPLIER : Q := 0.7.
Definition OUTFIT_KNOWLEDGE_BASE_BASIC : Q := 5.
Definition OUTFIT_KNOWLEDGE_BASE_INTERMEDIATE : Q := 10.
Definition OUTFIT_KNOWLEDGE_BASE_ADVANCED : Q := 18.
Definition OUTFIT_ABILITY_BASE_BASIC : Q := 3.0.
Definition OUTFIT_ABILITY_BASE_INTERMEDIATE : Q := 6.0.
Definition OUTFIT_ABILITY_BASE_ADVANCED : Q := 10.0.
Definition OUTFIT_PRESSURE_BASIC : Q := 30.
Definition OUTFIT_PRESSURE_INTERMEDIATE : Q := 50.
Definition OUTFIT_PRESSURE_ADVANCED : Q := 75.

(** The fields of an entry of [PROVINCES] that the outing reads. *)
Record Province := mkProvince {
  prov_type : string;
  trainingQuality : Q
}.

(** The cost before the random part. *)
Definition outingBaseCost (difficulty_choice : Z) (target : Province) : Z :=
  let base_cost := OUTFIT_BASE_COST_BASIC in
  let base_cost :=
    if (difficulty_choice =? 2)%Z then OUTFIT_BASE_COST_INTERMEDIATE
    else if (difficulty_choice =? 3)%Z then OUTFIT_BASE_COST_ADVANCED
    else base_cost in
  if String.eqb (prov_type target) PROVINCE_STRONG
  then JS.floor (inject_Z base_cost * STRONG_PROVINCE_COST_MULTIPLIER)
  else if String.eqb (prov_type target) PROVINCE_WEAK
  then JS.floor (inject_Z base_cost * WEAK_PROVINCE_COST_MULTIPLIER)
  else base_cost.

Definition outingPressureGain (difficulty_choice : Z) : Q :=
  if (difficulty_choice =? 2)%Z then OUTFIT_PRESSURE_INTERMEDIATE
  else if (difficulty_choice =? 3)%Z then OUTFIT_PRESSURE_ADVANCED
  else OUTFIT_PRESSURE_BASIC.

(** The body of the loop for one active student; [uk] and [ua] are the
    values of [Math.random()] behind the knowledge and the ability gain. *)
Definition outingStudent (knowledge_min knowledge_max : Z)
    (ability_min ability_max pressure_gain : Q) (uk ua : Q) (s : Student) : Student :=
  let knowledge_gain :=
    uniformInt uk (inject_Z knowledge_min) (inject_Z knowledge_max) in
  let s := set_knowledge (knowledge_ds s + knowledge_gain)
             (knowledge_graph s + knowledge_gain)
             (knowledge_string s + knowledge_gain)
             (knowledge_math s + knowledge_gain)
             (knowledge_dp s + knowledge_gain) s in
  let ability_gain := uniform ua ability_min ability_max in
  let s := set_thinking (thinking s + ability_gain) s in
  let s := set_coding (coding s + ability_gain) s in
  let s := set_mental (mental s + ability_gain * 0.5) s in
  let s := set_thinking (Qmin 100 (thinking s)) s in
  let s := set_coding (Qmin 100 (coding s)) s in
  let s := set_mental (Qmin 100 (mental s)) s in
  let s := set_pressure (pressure s + pressure_gain) s in
  set_comfort (comfort s - 10) s.

(** [outingTraining(difficulty_choice, province_choice)] on the budget and
    the roster; [target] is [PROVINCES[province_choice]], [u_cost] the
    random value behind the cost and [draws i] the two random values of the
    student at index [i]. *)
Definition outingTraining (difficulty_choice : Z) (target : Province)
    (u_cost : Q) (draws : nat -> Q * Q) (game_budget : Z)
    (game_students : list Student) : Z * list Student :=
  let base_cost := outingBaseCost difficulty_choice target in
  let final_cost := (base_cost + uniformInt u_cost (-3000) 3000)%Z in
  let knowledge_base :=
    if (difficulty_choice =? 2)%Z then OUTFIT_KNOWLEDGE_BASE_INTERMEDIATE
    else if (difficulty_choice =? 3)%Z then OUTFIT_KNOWLEDGE_BASE_ADVANCED
    else OUTFIT_KNOWLEDGE_BASE_BASIC in
  let ability_base :=
    if (difficulty_choice =? 2)%Z then OUTFIT_ABILITY_BASE_INTERMEDIATE
    else if (difficulty_choice =? 3)%Z then OUTFIT_ABILITY_BASE_ADVANCED
    else OUTFIT_ABILITY_BASE_BASIC in
  let pressure_gain := outingPressureGain difficulty_choice in
  let knowledge_mult :=
    if (difficulty_choice =? 2)%Z then 1.2
    else if (difficulty_choice =? 3)%Z then 1.5 else 1.0 in
  let ability_mult := knowledge_mult in
  let knowledge_mult := knowledge_mult * trainingQuality target in
  let ability_mult := ability_mult * trainingQuality target in
  let knowledge_min := JS.floor (knowledge_base * knowledge_mult) in
  let knowledge_max := JS.floor (knowledge_base * knowledge_mult * 1.8) in
  let ability_min := ability_base * ability_mult in
  let ability_max := ability_base * ability_mult * 2.0 in
  if (game_budget <? final_cost)%Z then (game_budget, game_students)
  else
    ((game_budget - final_cost)%Z,
     imap (fun i s =>
             if active s
             then outingStudent knowledge_min knowledge_max ability_min ability_max
                    pressure_gain (fst (draws i)) (snd (draws i)) s
             else s) game_students).

(** ** script.js: the entertainment dialog *)

Definition ENTERTAINMENT_COST_MEAL : Z := 3000.
Definition ENTERTAINMENT_COST_CS : Z := 1000.

Definition ENT_TALK : string := "训话".
Definition ENT_TALK_LONG : string := "训话(画大饼)".
Definition ENT_MEAL : string := "吃饭".
Definition ENT_FREE : string := "自由活动".
Definition ENT_BALL : string := "打球".
Definition ENT_CS : string := "打CS".
Definition WEATHER_SNOW : string := "雪".
Definition WEATHER_RAIN : string := "雨".

(** The options of the dialog, with their costs. *)
Definition entertainmentOpts : list (string * Z) :=
  [ (ENT_TALK, 0%Z); (ENT_MEAL, ENTERTAINMENT_COST_MEAL); (ENT_FREE, 0%Z);
    (ENT_BALL, 0%Z); (ENT_CS, ENTERTAINMENT_COST_CS) ].

(** The body of the loop for one active student; [um], [up] and [uc] are
    the values of [Math.random()] behind the mental gain, the relief of
    pressure and the coding gain. *)
Definition entertainStudent (type weather : string) (facilities : Facilities)
    (um up uc : Q) (s : Student) : Student :=
  let s :=
    if String.eqb type ENT_TALK_LONG || String.eqb type ENT_TALK then
      let s := set_mental (mental s + uniform um 3 7) s in
      set_pressure (Qmax 0 (pressure s - uniform up 30 45)) s
    else if String.eqb type ENT_MEAL then
      let s := set_mental (mental s + uniform um 8 20) s in
      set_pressure (Qmax 0 (pressure s - uniform up 30 50)) s
    else if String.eqb type ENT_FREE then
      let wf := 1.0 in
      let wf :=
        if String.eqb weather WEATHER_SNOW then 2.0
        else if String.eqb weather WEATHER_RAIN && (dorm facilities <? 2)%Z then 0.5
        else wf in
      let s := set_pressure (Qmax 0 (pressure s - uniform up 40 60 * wf)) s in
      set_mental (mental s + uniform um 3 8) s
    else if String.eqb type ENT_BALL then
      let s := set_mental (mental s + uniform um 8 16) s in
      set_pressure (Qmax 0 (pressure s - uniform up 30 45)) s
    else if String.eqb type ENT_CS then
      let s := set_mental (mental s + uniform um 10 24) s in
      let s := set_coding (coding s + uniform uc 2.0 3.0) s in
      set_pressure (Qmax 0 (pressure s - uniform up 30 50)) s
    else s in
  set_mental (Qmin 100 (mental s)) s.

(** [(opts.find(o=>o.val===type) || {cost:0}).cost] *)
Definition entertainmentCost (type : string) : Z :=
  match find (fun o => String.eqb (fst o) type) entertainmentOpts with
  | Some opt => snd opt
  | None => 0%Z
  end.

(** The confirm handler of [entertainmentUI] on the budget, the roster
    and [game.weeks_since_entertainment]; [draws i] are the three random
    values of the student at index [i].  The handler ends with
    [safeWeeklyUpdate(2)], which draws the weather and the random events
    and may open a contest; it is the parameter [safeWeeklyUpdate2], run on
    the state that the entertainment leaves.  The two alerts return before
    it. *)
Definition entertainment (type weather : string) (facilities : Facilities)
    (draws : nat -> Q * Q * Q)
    (safeWeeklyUpdate2 : Z * list Student * Z -> Z * list Student * Z)
    (game_budget : Z) (game_students : list Student)
    (weeks_since_entertainment : Z) : Z * list Student * Z :=
  let cost := entertainmentCost type in
  if String.eqb type ENT_CS && (computer facilities <? 3)%Z
  then (game_budget, game_students, weeks_since_entertainment)
  else if (game_budget <? cost)%Z
  then (game_budget, game_students, weeks_since_entertainment)
  else
    let game_budget := (game_budget - cost)%Z in
    let game_students :=
      imap (fun i s =>
              if active s
              then entertainStudent type weather facilities
                     (fst (fst (draws i))) (snd (fst (draws i))) (snd (draws i)) s
              else s) game_students in
    let weeks_since_entertainment := (weeks_since_entertainment + 2)%Z in
    safeWeeklyUpdate2 (game_budget, game_students, weeks_since_entertainment).

(** ** Double-precision arithmetic

    The numbers of the source are IEEE 754 binary64 values, and every
    arithmetic operation of the source rounds its exact result to the
    nearest of them.  Where a property depends on that rounding, the
    function is embedded a second time, in [Module Rounded], with the
    rounding [fl] applied after each operation that the source performs on
    numbers that need not be integers; decimal literals that are not
    binary fractions are written [fl c].  Sums and differences of integers
    stay exact (they are exact in binary64 below [2^53]), and so do
    [Math.floor], [Math.round], [Math.max], [Math.min] and comparisons.
    With the identity for [fl] these definitions are the exact ones
    above. *)

Module Binary64.

(** [floor(log2 x)] for [x > 0]. *)
Definition ilog2 (x : Q) : Z :=
  let k := (Z.log2 (Qnum x) - Z.log2 (Z.pos (Qden x)))%Z in
  if Qle_bool (2 ^ k) x then k else (k - 1)%Z.

(** The integer nearest to [x >= 0], ties to the even one. *)
Definition nearestEven (x : Q) : Z :=
  let f := Qfloor x in
  let r := x - inject_Z f in
  if Qle_bool r (1 # 2)
  then if Qeq_bool r (1 # 2) then (if Z.even f then f else f + 1)%Z else f
  else (f + 1)%Z.

(** Rounding to the nearest number with a significand of 53 bits, ties to
    even: the rounding of binary64 between the underflow and the overflow
    threshold, which the game's numbers never approach. *)
Definition round (x : Q) : Q :=
  if Qeq_bool x 0 then 0
  else
    let a := Qabs x in
    let e := (ilog2 a - 52)%Z in
    let m := nearestEven (a / 2 ^ e) in
    let r := inject_Z m * 2 ^ e in
    Qred (if Qle_bool 0 x then r else - r).

(** What the proofs use of a rounding: it is monotone, it leaves the
    integers up to [2^53] as they are, and it moves a non-negative number
    by at most the fraction [2^-52] of it. *)
Definition monotone (fl : Q -> Q) : Prop :=
  forall x y : Q, x <= y -> fl x <= fl y.
Definition exactOnIntegers (fl : Q -> Q) : Prop :=
  forall z : Z, (Z.abs z <= 2 ^ 53)%Z -> fl (inject_Z z) == inject_Z z.
Definition precise (fl : Q -> Q) : Prop :=
  forall x : Q, 0 <= x ->
    x * (1 - 1 / 2 ^ 52) <= fl x /\ fl x <= x * (1 + 1 / 2 ^ 52).

End Binary64.

Module Rounded.
Section Rounding.

Variable fl : Q -> Q.

(** [arr.reduce((sum, w) => sum + w, 0)] on numbers that need not be
    integers. *)
Definition sumFl (l : list Q) : Q := fold_left (fun sum w => fl (sum + w)) l 0.

(** *** contest-integration.js: distributeContestGains *)

Definition problemWeight (prob : Problem) : Q :=
  let scoreRatio :=
    if JS.gtb (actualScore prob) 0
    then fl (actualScore prob / Qmax 1 (maxScore prob)) else 0 in
  let difficultyFactor :=
    Qmax 1 (JS.orElse (thinkingBase prob) (JS.orElse (codingBase prob) 50)) in
  fl (scoreRatio * difficultyFactor).

Definition roundGain (gainType : GainType) (rawGain : Q) : Q :=
  match gainType with
  | Knowledge => inject_Z (JS.floor rawGain)
  | _ => fl (inject_Z (JS.round (fl (rawGain * 10))) / 10)
  end.

Definition distributeContestGains (totalGainCap : Q) (problems : list Problem)
    (gainType : GainType) : list Q :=
  match problems with
  | [] => []
  | _ :: _ =>
      let weights := map problemWeight problems in
      let totalWeight := sumFl weights in
      if JS.eqb totalWeight 0 then map (fun _ => 0) problems
      else
        let gains :=
          map (fun w =>
                 roundGain gainType (fl (fl (w / totalWeight) * totalGainCap)))
              weights in
        match gainType with
        | Knowledge =>
            let actualTotal := sumQ gains in
            let deficit := inject_Z (JS.floor totalGainCap) - actualTotal in
            if JS.gtb deficit 0
            then alter (fun g => g + deficit) (maxScoreIdxOf problems) gains
            else gains
        | _ => gains
        end
  end.

(** *** contest-integration.js: handleMockContestResults, for one student *)

Definition mockGainsStudent (knowledgeCap thinkingCap codingCap : Q)
    (mockTotalMax minScore : Q) (st : StudentState) (s : Student) : Student :=
  let problemsWithScores := map withActualScore (state_problems st) in
  let knowledgeGains := distributeContestGains knowledgeCap problemsWithScores Knowledge in
  let thinkingGains := distributeContestGains thinkingCap problemsWithScores Thinking in
  let codingGains := distributeContestGains codingCap problemsWithScores Coding in
  let s := applyKnowledgeGains (state_problems st) knowledgeGains s in
  let totalThinkingGain := sumFl thinkingGains in
  let totalCodingGain := sumFl codingGains in
  let s := if JS.gtb totalThinkingGain 0
           then set_thinking (fl (thinking s + totalThinkingGain)) s else s in
  let s := if JS.gtb totalCodingGain 0
           then set_coding (fl (coding s + totalCodingGain)) s else s in
  let performanceRatio := fl (JS.orElse (Some (totalScore st)) 0 / mockTotalMax) in
  if JS.geb performanceRatio (fl 0.7) then
    let s := set_mental (Qmin 100 (fl (mental s + 2))) s in
    set_pressure (Qmax 0 (fl (pressure s - 3))) s
  else if JS.ltb performanceRatio 0.5
          || JS.eqb (JS.orElse (Some (totalScore st)) 0) minScore then
    set_pressure (Qmin 100 (fl (pressure s + 20))) s
  else s.

(** *** script.js: uniformInt, and the reward loop of distributeRewards *)

Definition uniformInt (u lo hi : Q) : Z :=
  JS.floor (fl (lo + fl (u * fl (fl (hi - lo) + 1)))).

Definition rewardFor (env : Env) (compName : string) (u : Q) : Z :=
  if String.eqb compName COMP_NOI then
    if has_uniformInt env
    then uniformInt u (windowOr env "NOI_REWARD_MIN" 30000)
           (windowOr env "NOI_REWARD_MAX" 50000)
    else 40000%Z
  else if String.eqb compName COMP_NOIP then
    if has_uniformInt env
    then uniformInt u (windowOr env "NOIP_REWARD_MIN" 10000)
           (windowOr env "NOIP_REWARD_MAX" 20000)
    else 15000%Z
  else if String.eqb compName COMP_CSP_S2 then
    if has_uniformInt env
    then uniformInt u (windowOr env "CSP_S2_REWARD_MIN" 4000)
           (windowOr env "CSP_S2_REWARD_MAX" 8000)
    else 6000%Z
  else if String.eqb compName COMP_CSP_S1 then
    if has_uniformInt env
    then uniformInt u (windowOr env "CSP_S1_REWARD_MIN" 2000)
           (windowOr env "CSP_S1_REWARD_MAX" 5000)
    else 3000%Z
  else 0%Z.

Fixpoint sumRewards (env : Env) (compName : string) (draws : nat -> Q)
    (results : list Result) (i : nat) (totalReward : Z) : Z :=
  match results with
  | [] => totalReward
  | r :: rest =>
      if negb (result_passed r) || notParticipated r
      then sumRewards env compName draws rest (S i) totalReward
      else sumRewards env compName draws rest (S i)
             (totalReward + rewardFor env compName (draws i))%Z
  end.

Definition distributeRewards (env : Env) (draws : nat -> Q)
    (results : list Result) (compName : string) (g0 : Game) : Game * Z :=
  let halfBoundary_ui := halfBoundary env in
  let half := halfIndexAt halfBoundary_ui g0 in
  let key := fundingKey half compName g0 in
  let issued := default ∅ (fundingIssued g0) in
  let g := set_fundingIssued (Some issued) g0 in
  if bool_decide (key ∈ issued) then (g, 0%Z)
  else
    let totalReward := sumRewards env compName draws results 0 0%Z in
    if (totalReward >? 0)%Z then
      let g := set_budget (budget g + totalReward) g in
      (JS.tryCatch (markFundingIssued env compName g) g, totalReward)
    else (g, totalReward).

(** *** contest-integration.js: the pass rate and the pass quota *)

Definition getPassRateForCompetition (env : Env) (g : Game) (compName : string) : Q :=
  let baseRate :=
    if String.eqb (province_type g) PROVINCE_STRONG
    then windowOr env "STRONG_PROVINCE_BASE_PASS_RATE" (fl 0.65)
    else if String.eqb (province_type g) PROVINCE_WEAK
    then windowOr env "WEAK_PROVINCE_BASE_PASS_RATE" (fl 0.4)
    else windowOr env "NORMAL_PROVINCE_BASE_PASS_RATE" 0.5 in
  if String.eqb compName COMP_PROVINCIAL
  then fl (baseRate + windowOr env "PROVINCIAL_SELECTION_BONUS" (fl 0.2))
  else baseRate.

(** The quota at the head of [calculatePassLine]:
    [Math.max(1, Math.floor(sortedScores.length * passRate))]. *)
Definition passCount (sortedScores : list Q) (passRate : Q) : Z :=
  Z.max 1 (JS.floor (fl (inject_Z (Z.of_nat (length sortedScores)) * passRate))).

(** *** script.js: holdCompetitionModal, the legacy contest handler

    [checkCompetitions] calls this handler.  Its pass line comes from the
    province's base rate and the reputation; its medals, in the result
    table and in the counters of the apply button alike, compare the total
    with [comp.maxScore * NOI_..._THRESHOLD].  [compFound] says whether
    [competitions.find] found the contest. *)
Definition legacyPassLine (province_type compName : string) (compFound : bool)
    (maxScore reputation : Q) : Z :=
  let base_pass_line :=
    if compFound then
      let base_rate :=
        if String.eqb province_type PROVINCE_STRONG then fl 0.65
        else if String.eqb province_type "普通省" then 0.5
        else fl 0.4 in
      let base_rate :=
        if String.eqb compName COMP_PROVINCIAL then fl (base_rate + fl 0.2)
        else base_rate in
      fl (maxScore * base_rate)
    else 0 in
  let dynamic_factor := fl (1 - fl (fl (reputation - 50) * fl 0.01)) in
  JS.floor (fl (base_pass_line * dynamic_factor)).

Definition legacyMedal (total maxScore : Q) : option Medal :=
  if JS.geb total (fl (maxScore * fl NOI_GOLD_THRESHOLD)) then Some Gold
  else if JS.geb total (fl (maxScore * fl NOI_SILVER_THRESHOLD)) then Some Silver
  else if JS.geb total (fl (maxScore * fl NOI_BRONZE_THRESHOLD)) then Some Bronze
  else None.

Definition legacyMedalOf (compName : string) (total maxScore : Q) : option Medal :=
  if String.eqb compName COMP_NOI then legacyMedal total maxScore else None.

End Rounding.
End Rounded.

(** ** Quantities used to state the split of the knowledge gains

    [tagShare] is the [perTagGain] of the loop, with 0 where the loop skips
    the problem; [tagCounter] names the counter on which [addKnowledge]
    books a tag. *)
Definition sumZ (l : list Z) : Z := fold_right Z.add 0%Z l.

Definition tagShare (prob : Problem) (knowledgeGain : Q) : Z :=
  if Qle_bool knowledgeGain 0 then 0%Z
  else JS.floor (knowledgeGain
                 / inject_Z (Z.max 1 (Z.of_nat (length (tags prob))))).

Definition KNOWLEDGE_COUNTERS : list string :=
  [TAG_DS; TAG_GRAPH; TAG_STRING; TAG_MATH; TAG_DP].

Definition tagCounter (type : string) : option string :=
  if String.eqb type TAG_DS then Some TAG_DS
  else if String.eqb type TAG_GRAPH then Some TAG_GRAPH
  else if String.eqb type TAG_STRING then Some TAG_STRING
  else if String.eqb type TAG_MATH then Some TAG_MATH
  else if String.eqb type TAG_DP || String.eqb type TAG_DP_LONG then Some TAG_DP
  else None.

Definition bookedOn (counter type : string) : bool :=
  match tagCounter type with
  | Some c => String.eqb c counter
  | None => false
  end.

(** The number of tags of a problem booked on a counter, the number of its
    tags that are knowledge topics, and the number of its tags. *)
Definition tagsOn (counter : string) (prob : Problem) : Z :=
  Z.of_nat (length (filter (fun t => bookedOn counter t = true) (tags prob))).

Definition knownCount (prob : Problem) : Z :=
  Z.of_nat (length (filter (fun t => knownTag t = true) (tags prob))).

Definition tagCount (prob : Problem) : Z := Z.of_nat (length (tags prob)).

(** The sum over the problems of [weight] times the share of each tag. *)
Definition knowledgeAddedBy (weight : Problem -> Z) (problems : list Problem)
    (knowledgeGains : list Q) : Z :=
  sumZ (imap (fun i prob =>
                (weight prob * tagShare prob (JS.orElse (knowledgeGains !! i) 0))%Z)
          problems).

(** * Properties *)

(** ** Arithmetic of the embedding *)

Lemma gtb_lt x y : JS.gtb x y = true <-> y < x.
Proof.
  unfold JS.gtb. rewrite negb_true_iff, <- not_true_iff_false, Qle_bool_iff.
  split; [apply Qnot_le_lt | apply Qlt_not_le].
Qed.

Lemma gtb_false x y : JS.gtb x y = false <-> x <= y.
Proof. unfold JS.gtb. rewrite negb_false_iff. apply Qle_bool_iff. Qed.

Lemma geb_le x y : JS.geb x y = true <-> y <= x.
Proof. unfold JS.geb. apply Qle_bool_iff. Qed.

Lemma geb_false x y : JS.geb x y = false <-> x < y.
Proof.
  unfold JS.geb. rewrite <- not_true_iff_false, Qle_bool_iff.
  split; [apply Qnot_le_lt | apply Qlt_not_le].
Qed.

Lemma ltb_lt x y : JS.ltb x y = true <-> x < y.
Proof. unfold JS.ltb. apply (gtb_lt y x). Qed.

Lemma eqb_eq x y : JS.eqb x y = true <-> x == y.
Proof. unfold JS.eqb. apply Qeq_bool_iff. Qed.

Lemma orElse_zero x : JS.orElse (Some x) 0 == x.
Proof.
  unfold JS.orElse, JS.truthy. destruct (Qeq_bool x 0) eqn:E; simpl; [|reflexivity].
  apply Qeq_bool_iff in E. symmetry. exact E.
Qed.

Lemma Qfloor_unique (z : Z) (x : Q) :
  inject_Z z <= x -> x < inject_Z (z + 1) -> Qfloor x = z.
Proof.
  intros Hlo Hhi. apply Z.le_antisymm.
  - apply Z.lt_succ_r. rewrite Zlt_Qlt.
    eapply Qle_lt_trans; [apply Qfloor_le | exact Hhi].
  - rewrite <- (Qfloor_Z z). apply Qfloor_resp_le. exact Hlo.
Qed.

Lemma round_inject_Z (k : Z) : JS.round (inject_Z k) = k.
Proof.
  unfold JS.round. apply Qfloor_unique.
  - rewrite <- (Qplus_0_r (inject_Z k)) at 1. apply Qplus_le_r. discriminate.
  - rewrite inject_Z_plus. apply Qplus_lt_r. reflexivity.
Qed.

Lemma clamp_bounds (v lo hi : Q) : lo <= hi -> lo <= clamp v lo hi <= hi.
Proof.
  intros H. unfold clamp. split.
  - apply Q.le_max_l.
  - apply Q.max_lub; [exact H | apply Q.le_min_l].
Qed.

Lemma clamp_id (v lo hi : Q) : lo <= v -> v <= hi -> clamp v lo hi == v.
Proof.
  intros Hlo Hhi. unfold clamp.
  rewrite (Q.min_r hi v) by exact Hhi. apply Q.max_r. exact Hlo.
Qed.

(** ** Double-precision rounding *)

Lemma Qmult_le_l_nonneg (x y z : Q) : 0 <= z -> x <= y -> z * x <= z * y.
Proof.
  intros Hz Hxy. rewrite (Qmult_comm z x), (Qmult_comm z y).
  apply Qmult_le_compat_r; assumption.
Qed.

Lemma precise_bounds (fl : Q -> Q) (x lo hi : Q) :
  Binary64.precise fl -> 0 <= lo -> lo <= x -> x <= hi ->
  lo * (1 - 1 / 2 ^ 52) <= fl x /\ fl x <= hi * (1 + 1 / 2 ^ 52).
Proof.
  intros Hp H0 Hlo Hhi. destruct (Hp x) as [A B]; [lra|].
  assert (E : 1 / 2 ^ 52 == 1 # 4503599627370496) by reflexivity.
  rewrite E in *. split.
  - apply Qle_trans with (x * (1 - (1 # 4503599627370496))); [|exact A].
    apply Qmult_le_compat_r; [exact Hlo | discriminate].
  - apply Qle_trans with (x * (1 + (1 # 4503599627370496))); [exact B|].
    apply Qmult_le_compat_r; [exact Hhi | discriminate].
Qed.

Lemma rounding_compat (fl : Q -> Q) :
  Binary64.monotone fl -> forall x y : Q, x == y -> fl x == fl y.
Proof.
  intros Hm x y E. apply Qle_antisym; apply Hm; rewrite E; apply Qle_refl.
Qed.

Lemma rounding_nonneg (fl : Q -> Q) :
  Binary64.monotone fl -> fl 0 == 0 -> forall x : Q, 0 <= x -> 0 <= fl x.
Proof. intros Hm H0 x Hx. rewrite <- H0. apply Hm. exact Hx. Qed.

Lemma rounding_zero (fl : Q -> Q) :
  Binary64.monotone fl -> fl 0 == 0 -> forall x : Q, x == 0 -> fl x == 0.
Proof.
  intros Hm H0 x Hx. rewrite (rounding_compat fl Hm x 0 Hx). exact H0.
Qed.

Lemma exact_rounding :
  Binary64.monotone (fun x => x) /\ Binary64.exactOnIntegers (fun x => x)
  /\ Binary64.precise (fun x => x).
Proof.
  split; [intros x y H; exact H|]. split; [intros z _; reflexivity|].
  intros x Hx.
  assert (E : 1 / 2 ^ 52 == 1 # 4503599627370496) by reflexivity.
  rewrite E. split; nra.
Qed.

(** *** The rounding to the nearest double *)

Lemma two_power_pos (k : Z) : 0 < 2 ^ k.
Proof. apply Qpower_0_lt. reflexivity. Qed.

Lemma two_power_succ (k : Z) : 2 ^ (k + 1) == 2 * 2 ^ k.
Proof.
  rewrite Qpower_plus by discriminate.
  assert (E : 2 ^ 1 == 2) by reflexivity. rewrite E. ring.
Qed.

Lemma two_power_pred (k : Z) : 2 * 2 ^ (k - 1) == 2 ^ k.
Proof.
  rewrite <- two_power_succ. replace (k - 1 + 1)%Z with k by lia. reflexivity.
Qed.

Lemma two_power_inject (a : Z) : (0 <= a)%Z -> 2 ^ a == inject_Z (2 ^ a).
Proof. intros Ha. rewrite Zpower_Qpower by exact Ha. reflexivity. Qed.

Lemma two_power_le (a b : Z) : (a <= b)%Z -> 2 ^ a <= 2 ^ b.
Proof. intros H. apply Qpower_le_compat_l; [exact H | discriminate]. Qed.

Lemma quotient_lt (n d p q : Q) :
  0 < d -> 0 < q -> n * q < p * d -> n / d < p / q.
Proof.
  intros Hd Hq H. apply Qlt_shift_div_r; [exact Hd|].
  assert (E : p / q * d == p * d / q) by (field; intros E; rewrite E in Hq; discriminate).
  rewrite E. apply Qlt_shift_div_l; assumption.
Qed.

Lemma quotient_le (n d p q : Q) :
  0 < d -> 0 < q -> p * d <= n * q -> p / q <= n / d.
Proof.
  intros Hd Hq H. apply Qle_shift_div_l; [exact Hd|].
  assert (E : p / q * d == p * d / q) by (field; intros E; rewrite E in Hq; discriminate).
  rewrite E. apply Qle_shift_div_r; assumption.
Qed.

Lemma binary64_ilog2_spec (x : Q) :
  0 < x -> 2 ^ Binary64.ilog2 x <= x /\ x < 2 ^ (Binary64.ilog2 x + 1).
Proof.
  intros Hx.
  assert (Hn : (0 < Qnum x)%Z).
  { destruct x as [n d]. unfold Qlt in Hx. cbn in Hx. cbn. lia. }
  assert (Ex : x == inject_Z (Qnum x) / inject_Z (Z.pos (Qden x))).
  { destruct x as [n d]. cbn [Qnum Qden]. apply Qmake_Qdiv. }
  unfold Binary64.ilog2.
  set (a := Z.log2 (Qnum x)). set (b := Z.log2 (Z.pos (Qden x))).
  assert (Ha0 : (0 <= a)%Z) by apply Z.log2_nonneg.
  assert (Hb0 : (0 <= b)%Z) by apply Z.log2_nonneg.
  destruct (Z.log2_spec (Qnum x) Hn) as [A1 A2]. fold a in A1, A2.
  destruct (Z.log2_spec (Z.pos (Qden x)) ltac:(lia)) as [B1 B2]. fold b in B1, B2.
  rewrite Z.pow_succ_r in A2, B2 by assumption.
  assert (HD : 0 < inject_Z (Z.pos (Qden x))) by reflexivity.
  assert (HPA : 0 < inject_Z (2 ^ a)).
  { rewrite <- two_power_inject by exact Ha0. apply two_power_pos. }
  assert (HPB : 0 < inject_Z (2 ^ b)).
  { rewrite <- two_power_inject by exact Hb0. apply two_power_pos. }
  assert (Ek : 2 ^ (a - b) == inject_Z (2 ^ a) / inject_Z (2 ^ b)).
  { rewrite Qpower_minus by discriminate.
    rewrite (two_power_inject a Ha0), (two_power_inject b Hb0). reflexivity. }
  rewrite Zle_Qle in A1, B1. rewrite Zlt_Qlt in A2, B2.
  rewrite inject_Z_mult in A2, B2. change (inject_Z 2) with 2 in A2, B2.
  set (N := inject_Z (Qnum x)) in *. set (D := inject_Z (Z.pos (Qden x))) in *.
  set (PA := inject_Z (2 ^ a)) in *. set (PB := inject_Z (2 ^ b)) in *.
  clearbody N D PA PB.
  assert (Hup : x < 2 ^ (a - b + 1)).
  { rewrite two_power_succ, Ek, Ex.
    assert (E : 2 * (PA / PB) == (2 * PA) / PB)
      by (field; intros E; rewrite E in HPB; discriminate).
    rewrite E. apply quotient_lt; [exact HD | exact HPB|].
    apply Qlt_le_trans with (2 * PA * PB).
    - apply Qmult_lt_compat_r; assumption.
    - apply Qmult_le_l_nonneg; lra. }
  destruct (Qle_bool (2 ^ (a - b)) x) eqn:Et.
  - apply Qle_bool_iff in Et. split; [exact Et | exact Hup].
  - assert (Hlt : x < 2 ^ (a - b)).
    { apply Qnot_le_lt. intros H. apply Qle_bool_iff in H. congruence. }
    replace (a - b - 1 + 1)%Z with (a - b)%Z by lia.
    split; [|exact Hlt].
    assert (E2 : 2 ^ (a - b - 1) == PA / (2 * PB)).
    { assert (E3 : 2 * 2 ^ (a - b - 1) == 2 ^ (a - b)) by apply two_power_pred.
      rewrite Ek in E3.
      assert (E4 : PA / (2 * PB) == (PA / PB) / 2)
        by (field; intros E; rewrite E in HPB; discriminate).
      rewrite E4, <- E3. field. }
    rewrite E2, Ex. apply quotient_le; [exact HD | lra|].
    apply Qle_trans with (PA * (2 * PB)).
    + apply Qmult_le_l_nonneg; lra.
    + apply Qmult_le_compat_r; lra.
Qed.

Lemma binary64_ilog2_unique (x : Q) (k : Z) :
  2 ^ k <= x -> x < 2 ^ (k + 1) -> Binary64.ilog2 x = k.
Proof.
  intros H1 H2.
  assert (Hx : 0 < x) by (eapply Qlt_le_trans; [apply (two_power_pos k) | exact H1]).
  destruct (binary64_ilog2_spec x Hx) as [S1 S2].
  assert (L1 : (Binary64.ilog2 x < k + 1)%Z).
  { apply (Qpower_lt_compat_l_inv 2); [|reflexivity].
    eapply Qle_lt_trans; eassumption. }
  assert (L2 : (k < Binary64.ilog2 x + 1)%Z).
  { apply (Qpower_lt_compat_l_inv 2); [|reflexivity].
    eapply Qle_lt_trans; eassumption. }
  lia.
Qed.

Lemma binary64_ilog2_comp (x y : Q) :
  0 < x -> x == y -> Binary64.ilog2 x = Binary64.ilog2 y.
Proof.
  intros Hx E. destruct (binary64_ilog2_spec x Hx) as [S1 S2].
  symmetry. apply binary64_ilog2_unique; rewrite <- E; assumption.
Qed.

Lemma binary64_ilog2_le (x y : Q) :
  0 < x -> x <= y -> (Binary64.ilog2 x <= Binary64.ilog2 y)%Z.
Proof.
  intros Hx Hxy.
  destruct (binary64_ilog2_spec x Hx) as [S1 _].
  destruct (binary64_ilog2_spec y ltac:(lra)) as [_ T2].
  assert (L : (Binary64.ilog2 x < Binary64.ilog2 y + 1)%Z).
  { apply (Qpower_lt_compat_l_inv 2); [|reflexivity]. lra. }
  lia.
Qed.

(** *** Rounding to the nearest integer, ties to even *)

Lemma binary64_nearestEven_cases (x : Q) :
  let f := Qfloor x in
  (Binary64.nearestEven x = f /\ x - inject_Z f <= 1 # 2)
  \/ (Binary64.nearestEven x = (f + 1)%Z /\ (1 # 2) <= x - inject_Z f).
Proof.
  cbv zeta. unfold Binary64.nearestEven. cbv zeta.
  set (f := Qfloor x). set (r := x - inject_Z f).
  destruct (Qle_bool r (1 # 2)) eqn:E1.
  - apply Qle_bool_iff in E1.
    destruct (Qeq_bool r (1 # 2)) eqn:E2.
    + apply Qeq_bool_iff in E2.
      destruct (Z.even f); [left | right]; split; try reflexivity; lra.
    + left. split; [reflexivity | exact E1].
  - right. split; [reflexivity|].
    apply Qlt_le_weak. apply Qnot_le_lt. intros H. apply Qle_bool_iff in H. congruence.
Qed.

Lemma binary64_nearestEven_near (x : Q) :
  x - (1 # 2) <= inject_Z (Binary64.nearestEven x)
  /\ inject_Z (Binary64.nearestEven x) <= x + (1 # 2).
Proof.
  pose proof (Qfloor_le x) as F1. pose proof (Qlt_floor x) as F2.
  rewrite inject_Z_plus in F2. change (inject_Z 1) with 1 in F2.
  destruct (binary64_nearestEven_cases x) as [[E H]|[E H]]; rewrite E.
  - split; lra.
  - rewrite inject_Z_plus. change (inject_Z 1) with 1. split; lra.
Qed.

Lemma binary64_nearestEven_Z (z : Z) : Binary64.nearestEven (inject_Z z) = z.
Proof.
  unfold Binary64.nearestEven. cbv zeta. rewrite Qfloor_Z.
  assert (E : inject_Z z - inject_Z z == 0) by ring.
  assert (E1 : Qle_bool (inject_Z z - inject_Z z) (1 # 2) = true).
  { apply Qle_bool_iff. rewrite E. discriminate. }
  assert (E2 : Qeq_bool (inject_Z z - inject_Z z) (1 # 2) = false).
  { apply not_true_iff_false. intros H. apply Qeq_bool_iff in H. rewrite E in H.
    discriminate H. }
  rewrite E1, E2. reflexivity.
Qed.

Lemma binary64_nearestEven_comp (x y : Q) :
  x == y -> Binary64.nearestEven x = Binary64.nearestEven y.
Proof.
  intros E. unfold Binary64.nearestEven. cbv zeta.
  rewrite (Qfloor_comp x y E).
  assert (Er : x - inject_Z (Qfloor y) == y - inject_Z (Qfloor y)) by (rewrite E; reflexivity).
  assert (E1 : Qle_bool (x - inject_Z (Qfloor y)) (1 # 2)
               = Qle_bool (y - inject_Z (Qfloor y)) (1 # 2)).
  { apply eq_true_iff_eq. rewrite !Qle_bool_iff, Er. reflexivity. }
  assert (E2 : Qeq_bool (x - inject_Z (Qfloor y)) (1 # 2)
               = Qeq_bool (y - inject_Z (Qfloor y)) (1 # 2)).
  { apply eq_true_iff_eq. rewrite !Qeq_bool_iff, Er. reflexivity. }
  rewrite E1, E2. reflexivity.
Qed.

Lemma binary64_nearestEven_le (x y : Q) :
  x <= y -> (Binary64.nearestEven x <= Binary64.nearestEven y)%Z.
Proof.
  intros Hxy.
  pose proof (Qfloor_resp_le x y Hxy) as Hf.
  destruct (Z.eq_dec (Qfloor x) (Qfloor y)) as [Ef|Ef].
  - unfold Binary64.nearestEven. cbv zeta. rewrite Ef.
    set (f := Qfloor y).
    assert (Hr : x - inject_Z f <= y - inject_Z f) by lra.
    destruct (Qle_bool (x - inject_Z f) (1 # 2)) eqn:X1;
      destruct (Qle_bool (y - inject_Z f) (1 # 2)) eqn:Y1;
      destruct (Qeq_bool (x - inject_Z f) (1 # 2)) eqn:X2;
      destruct (Qeq_bool (y - inject_Z f) (1 # 2)) eqn:Y2;
      destruct (Z.even f); try lia;
      repeat match goal with
             | H : Qle_bool _ _ = true |- _ => apply Qle_bool_iff in H
             | H : Qeq_bool _ _ = true |- _ => apply Qeq_bool_iff in H
             | H : Qle_bool _ _ = false |- _ =>
                 apply not_true_iff_false in H; rewrite Qle_bool_iff in H;
                 apply Qnot_le_lt in H
             | H : Qeq_bool _ _ = false |- _ =>
                 apply not_true_iff_false in H; rewrite Qeq_bool_iff in H
             end;
      exfalso; try lra;
      try (apply Y2; lra).
  - destruct (binary64_nearestEven_cases x) as [[E _]|[E _]];
      destruct (binary64_nearestEven_cases y) as [[E' _]|[E' _]]; lia.
Qed.

(** *** The rounding itself *)

(** The rounding of a positive number: the significand is an integer
    between [2^52] and [2^53]. *)
Lemma binary64_round_pos (x : Q) :
  0 < x ->
  let e := (Binary64.ilog2 x - 52)%Z in
  let m := Binary64.nearestEven (x / 2 ^ e) in
  Binary64.round x == inject_Z m * 2 ^ e
  /\ 2 ^ 52 <= x / 2 ^ e /\ x / 2 ^ e < 2 ^ 53
  /\ (2 ^ 52 <= m <= 2 ^ 53)%Z.
Proof.
  intros Hx. cbv zeta.
  assert (Ea : Qabs x == x) by (apply Qabs_pos; lra).
  assert (Hk : Binary64.ilog2 (Qabs x) = Binary64.ilog2 x).
  { apply binary64_ilog2_comp; [rewrite Ea; exact Hx | exact Ea]. }
  split.
  - unfold Binary64.round.
    assert (E0 : Qeq_bool x 0 = false).
    { apply not_true_iff_false. intros H. apply Qeq_bool_iff in H. lra. }
    assert (E1 : Qle_bool 0 x = true) by (apply Qle_bool_iff; lra).
    rewrite E0, E1. cbv zeta. rewrite Qred_correct, Hk.
    rewrite (binary64_nearestEven_comp (Qabs x / 2 ^ (Binary64.ilog2 x - 52))
               (x / 2 ^ (Binary64.ilog2 x - 52))) by (rewrite Ea; reflexivity).
    reflexivity.
  - destruct (binary64_ilog2_spec x Hx) as [S1 S2].
    set (k := Binary64.ilog2 x) in *.
    assert (Hp : 0 < 2 ^ (k - 52)) by apply two_power_pos.
    assert (E52 : 2 ^ k == 2 ^ 52 * 2 ^ (k - 52)).
    { rewrite <- Qpower_plus by discriminate.
      replace (52 + (k - 52))%Z with k by lia. reflexivity. }
    assert (E53 : 2 ^ (k + 1) == 2 ^ 53 * 2 ^ (k - 52)).
    { rewrite <- Qpower_plus by discriminate.
      replace (53 + (k - 52))%Z with (k + 1)%Z by lia. reflexivity. }
    assert (B1 : 2 ^ 52 <= x / 2 ^ (k - 52)).
    { apply Qle_shift_div_l; [exact Hp|]. rewrite <- E52. exact S1. }
    assert (B2 : x / 2 ^ (k - 52) < 2 ^ 53).
    { apply Qlt_shift_div_r; [exact Hp|]. rewrite <- E53. exact S2. }
    split; [exact B1|]. split; [exact B2|].
    pose proof (binary64_nearestEven_le _ _ B1) as M1.
    pose proof (binary64_nearestEven_le _ _ (Qlt_le_weak _ _ B2)) as M2.
    assert (P52 : 2 ^ 52 == inject_Z (2 ^ 52)) by reflexivity.
    assert (P53 : 2 ^ 53 == inject_Z (2 ^ 53)) by reflexivity.
    rewrite (binary64_nearestEven_comp _ _ P52), binary64_nearestEven_Z in M1.
    rewrite (binary64_nearestEven_comp _ _ P53), binary64_nearestEven_Z in M2.
    split; assumption.
Qed.

Lemma binary64_round_zero (x : Q) : x == 0 -> Binary64.round x == 0.
Proof.
  intros E. unfold Binary64.round.
  apply Qeq_bool_iff in E. rewrite E. reflexivity.
Qed.

Lemma binary64_round_neg (x : Q) : x < 0 -> Binary64.round x == - Binary64.round (- x).
Proof.
  intros Hx. unfold Binary64.round.
  assert (E0 : Qeq_bool x 0 = false).
  { apply not_true_iff_false. intros H. apply Qeq_bool_iff in H. lra. }
  assert (E0' : Qeq_bool (- x) 0 = false).
  { apply not_true_iff_false. intros H. apply Qeq_bool_iff in H. lra. }
  assert (E1 : Qle_bool 0 x = false).
  { apply not_true_iff_false. intros H. apply Qle_bool_iff in H. lra. }
  assert (E1' : Qle_bool 0 (- x) = true) by (apply Qle_bool_iff; lra).
  rewrite E0, E0', E1, E1'. cbv zeta. rewrite !Qred_correct.
  assert (Ea : Qabs (- x) == Qabs x) by apply Qabs_opp.
  assert (Hpos : 0 < Qabs x) by (rewrite Qabs_neg; lra).
  assert (Hk : Binary64.ilog2 (Qabs (- x)) = Binary64.ilog2 (Qabs x)).
  { apply binary64_ilog2_comp; [rewrite Ea; exact Hpos | exact Ea]. }
  rewrite Hk.
  rewrite (binary64_nearestEven_comp (Qabs (- x) / 2 ^ (Binary64.ilog2 (Qabs x) - 52))
             (Qabs x / 2 ^ (Binary64.ilog2 (Qabs x) - 52))) by (rewrite Ea; reflexivity).
  reflexivity.
Qed.

Lemma binary64_round_pos_bounds (x : Q) :
  0 < x ->
  2 ^ Binary64.ilog2 x <= Binary64.round x
  /\ Binary64.round x <= 2 ^ (Binary64.ilog2 x + 1).
Proof.
  intros Hx. destruct (binary64_round_pos x Hx) as (E & _ & _ & M1 & M2).
  cbv zeta in E, M1, M2.
  set (k := Binary64.ilog2 x) in *.
  set (m := Binary64.nearestEven (x / 2 ^ (k - 52))) in *. clearbody m.
  assert (Hp : 0 < 2 ^ (k - 52)) by apply two_power_pos.
  assert (E52 : 2 ^ k == inject_Z (2 ^ 52) * 2 ^ (k - 52)).
  { change (inject_Z (2 ^ 52)) with (2 ^ 52).
    rewrite <- Qpower_plus by discriminate.
    replace (52 + (k - 52))%Z with k by lia. reflexivity. }
  assert (E53 : 2 ^ (k + 1) == inject_Z (2 ^ 53) * 2 ^ (k - 52)).
  { change (inject_Z (2 ^ 53)) with (2 ^ 53).
    rewrite <- Qpower_plus by discriminate.
    replace (53 + (k - 52))%Z with (k + 1)%Z by lia. reflexivity. }
  rewrite E, E52, E53. rewrite Zle_Qle in M1, M2.
  split; apply Qmult_le_compat_r; lra.
Qed.

Lemma binary64_round_pos_le (x y : Q) :
  0 < x -> x <= y -> Binary64.round x <= Binary64.round y.
Proof.
  intros Hx Hxy. assert (Hy : 0 < y) by lra.
  pose proof (binary64_ilog2_le x y Hx Hxy) as Hk.
  destruct (Z.eq_dec (Binary64.ilog2 x) (Binary64.ilog2 y)) as [Ek|Ek].
  - destruct (binary64_round_pos x Hx) as (Ex & _).
    destruct (binary64_round_pos y Hy) as (Ey & _).
    cbv zeta in Ex, Ey. rewrite Ex, Ey, Ek.
    assert (Hp : 0 < 2 ^ (Binary64.ilog2 y - 52)) by apply two_power_pos.
    apply Qmult_le_compat_r; [|lra].
    rewrite <- Zle_Qle. apply binary64_nearestEven_le.
    apply Qmult_le_compat_r; [exact Hxy|].
    apply Qlt_le_weak. apply Qinv_lt_0_compat. exact Hp.
  - destruct (binary64_round_pos_bounds x Hx) as [_ U].
    destruct (binary64_round_pos_bounds y Hy) as [L _].
    apply Qle_trans with (2 ^ (Binary64.ilog2 x + 1)); [exact U|].
    apply Qle_trans with (2 ^ Binary64.ilog2 y); [|exact L].
    apply two_power_le. lia.
Qed.

Lemma binary64_round_pos_nonneg (x : Q) : 0 < x -> 0 < Binary64.round x.
Proof.
  intros Hx. destruct (binary64_round_pos_bounds x Hx) as [L _].
  eapply Qlt_le_trans; [apply two_power_pos | exact L].
Qed.

(** The rounding is monotone. *)
Lemma binary64_round_monotone : Binary64.monotone Binary64.round.
Proof.
  intros x y Hxy.
  destruct (Q_dec x 0) as [[Hx|Hx]|Hx]; destruct (Q_dec y 0) as [[Hy|Hy]|Hy].
  - rewrite (binary64_round_neg x Hx), (binary64_round_neg y Hy).
    apply Qopp_le_compat. apply binary64_round_pos_le; lra.
  - rewrite (binary64_round_neg x Hx).
    pose proof (binary64_round_pos_nonneg (- x) ltac:(lra)).
    pose proof (binary64_round_pos_nonneg y Hy). lra.
  - rewrite (binary64_round_neg x Hx), (binary64_round_zero y Hy).
    pose proof (binary64_round_pos_nonneg (- x) ltac:(lra)). lra.
  - lra.
  - apply binary64_round_pos_le; assumption.
  - lra.
  - rewrite (binary64_round_zero x Hx), (binary64_round_neg y Hy). lra.
  - rewrite (binary64_round_zero x Hx).
    pose proof (binary64_round_pos_nonneg y Hy). lra.
  - rewrite (binary64_round_zero x Hx), (binary64_round_zero y Hy). lra.
Qed.

(** The relative error of the rounding is at most [2^-53]. *)
Lemma binary64_round_pos_error (x : Q) :
  0 < x ->
  x * (1 - 1 / 2 ^ 53) <= Binary64.round x /\ Binary64.round x <= x * (1 + 1 / 2 ^ 53).
Proof.
  intros Hx. destruct (binary64_round_pos x Hx) as (E & B1 & _).
  cbv zeta in E, B1.
  set (p := 2 ^ (Binary64.ilog2 x - 52)) in *.
  assert (Hp : 0 < p) by apply two_power_pos.
  destruct (binary64_nearestEven_near (x / p)) as [N1 N2].
  set (m := inject_Z (Binary64.nearestEven (x / p))) in *. clearbody m.
  assert (Exp : x / p * p == x) by (field; lra).
  assert (H52 : 2 ^ 52 * p <= x).
  { rewrite <- Exp. apply Qmult_le_compat_r; lra. }
  assert (C52 : 2 ^ 52 == 4503599627370496) by reflexivity.
  assert (C53 : 1 / 2 ^ 53 == 1 # 9007199254740992) by reflexivity.
  rewrite C52 in H52. rewrite C53, E.
  assert (L : (x / p - (1 # 2)) * p <= m * p) by (apply Qmult_le_compat_r; lra).
  assert (U : m * p <= (x / p + (1 # 2)) * p) by (apply Qmult_le_compat_r; lra).
  assert (EL : (x / p - (1 # 2)) * p == x - (1 # 2) * p) by (rewrite <- Exp at 2; ring).
  assert (EU : (x / p + (1 # 2)) * p == x + (1 # 2) * p) by (rewrite <- Exp at 2; ring).
  rewrite EL in L. rewrite EU in U. clear EL EU Exp N1 N2 B1 E.
  split; lra.
Qed.

Lemma binary64_round_precise : Binary64.precise Binary64.round.
Proof.
  intros x Hx.
  assert (C52 : 1 / 2 ^ 52 == 1 # 4503599627370496) by reflexivity.
  assert (C53 : 1 / 2 ^ 53 == 1 # 9007199254740992) by reflexivity.
  destruct (Qle_lt_or_eq 0 x Hx) as [Hpos|Hz].
  - destruct (binary64_round_pos_error x Hpos) as [L U].
    rewrite C53 in L, U. rewrite C52.
    assert (A : x * (1 - (1 # 4503599627370496)) <= x * (1 - (1 # 9007199254740992)))
      by (apply Qmult_le_l_nonneg; [exact Hx | discriminate]).
    assert (B : x * (1 + (1 # 9007199254740992)) <= x * (1 + (1 # 4503599627370496)))
      by (apply Qmult_le_l_nonneg; [exact Hx | discriminate]).
    split; lra.
  - rewrite (binary64_round_zero x) by (symmetry; exact Hz).
    rewrite <- Hz. split; lra.
Qed.

(** The integers up to [2^53] are doubles. *)
Lemma binary64_round_pos_integer (z : Z) :
  (0 < z <= 2 ^ 53)%Z -> Binary64.round (inject_Z z) == inject_Z z.
Proof.
  intros [Hz Hmax].
  assert (Hx : 0 < inject_Z z) by (change 0 with (inject_Z 0); rewrite <- Zlt_Qlt; exact Hz).
  destruct (binary64_round_pos (inject_Z z) Hx) as (E & _).
  cbv zeta in E. rewrite E. clear E.
  destruct (binary64_ilog2_spec (inject_Z z) Hx) as [S1 S2].
  set (k := Binary64.ilog2 (inject_Z z)) in *.
  assert (Hk : (k <= 53)%Z).
  { apply (Qpower_le_compat_l_inv 2); [|reflexivity].
    apply Qle_trans with (inject_Z z); [exact S1|].
    change (2 ^ 53) with (inject_Z (2 ^ 53)). rewrite <- Zle_Qle. exact Hmax. }
  assert (Hp : 0 < 2 ^ (k - 52)) by apply two_power_pos.
  assert (Hint : exists n : Z, inject_Z z / 2 ^ (k - 52) == inject_Z n).
  { destruct (Z_le_gt_dec k 52) as [Hle|Hgt].
    - exists (z * 2 ^ (52 - k))%Z.
      rewrite inject_Z_mult, <- (two_power_inject (52 - k)) by lia.
      replace (52 - k)%Z with (- (k - 52))%Z by lia.
      rewrite Qpower_opp. reflexivity.
    - assert (Ek : k = 53%Z) by lia.
      assert (Ez : z = (2 ^ 53)%Z).
      { rewrite Ek in S1. change (2 ^ 53) with (inject_Z (2 ^ 53)) in S1.
        rewrite <- Zle_Qle in S1. lia. }
      exists (2 ^ 52)%Z. rewrite Ek, Ez. reflexivity. }
  destruct Hint as [n En].
  rewrite (binary64_nearestEven_comp _ _ En), binary64_nearestEven_Z, <- En.
  field. lra.
Qed.

Lemma binary64_round_exact : Binary64.exactOnIntegers Binary64.round.
Proof.
  intros z Hz.
  destruct (Z_dec z 0) as [[Hn|Hp]|H0].
  - assert (Hx : inject_Z z < 0)
      by (change 0 with (inject_Z 0); rewrite <- Zlt_Qlt; exact Hn).
    rewrite (binary64_round_neg _ Hx).
    assert (E : - inject_Z z == inject_Z (- z)) by (rewrite inject_Z_opp; reflexivity).
    assert (Hc := rounding_compat _ binary64_round_monotone).
    rewrite (Hc _ _ E), binary64_round_pos_integer by lia.
    rewrite inject_Z_opp. ring.
  - apply binary64_round_pos_integer. lia.
  - rewrite H0. reflexivity.
Qed.

Lemma binary64_round_0 : Binary64.round 0 == 0.
Proof. reflexivity. Qed.

(** ** The composite ability (C5) *)

(** C5, as stated, fails: no pair of weights with the ability weight
    strictly above the knowledge weight yields the composite ability
    computed by [getComprehensiveAbility] for every competitor. *)
Lemma comprehensive_ability_not_ability_heavy :
  ~ exists wa wk : Q,
      wk < wa /\
      forall s : Student,
        getComprehensiveAbility s == wa * getAbilityAvg s + wk * getKnowledgeTotal s.
Proof.
  intros (wa & wk & Hlt & H).
  pose proof (H (mkStudent "a" 30 30 30 0 0 0 0 0 20 50 true 0)) as Ha.
  pose proof (H (mkStudent "k" 0 0 0 5 5 5 5 5 20 50 true 0)) as Hk.
  unfold getComprehensiveAbility, getAbilityAvg, getKnowledgeTotal,
    ABILITY_WEIGHT, KNOWLEDGE_WEIGHT in Ha, Hk.
  cbn [thinking coding mental knowledge_ds knowledge_graph knowledge_string
       knowledge_math knowledge_dp] in Ha, Hk.
  assert (E1 : (30 + 30 + 30) / 3.0 == 30) by reflexivity.
  assert (E2 : inject_Z (0 + 0 + 0 + 0 + 0) / 5.0 == 0) by reflexivity.
  assert (E3 : (0 + 0 + 0) / 3.0 == 0) by reflexivity.
  assert (E4 : inject_Z (5 + 5 + 5 + 5 + 5) / 5.0 == 5) by reflexivity.
  rewrite E1, E2 in Ha. rewrite E3, E4 in Hk.
  lra.
Qed.

(** C5, amended: the composite ability is the weighted average of the mean
    of thinking, coding and mental and the mean of the five knowledge axes,
    with the fixed weights 0.4 (ability) and 0.6 (knowledge); the weights
    sum to one and the knowledge weight is the strictly greater one. *)
Theorem comprehensive_ability_weighted_average (s : Student) :
  getComprehensiveAbility s
  == 0.4 * ((thinking s + coding s + mental s) / 3)
     + 0.6 * (inject_Z (knowledge_ds s + knowledge_graph s + knowledge_string s
                        + knowledge_math s + knowledge_dp s) / 5)
  /\ ABILITY_WEIGHT + KNOWLEDGE_WEIGHT == 1
  /\ ABILITY_WEIGHT < KNOWLEDGE_WEIGHT.
Proof.
  split; [|split].
  - unfold getComprehensiveAbility, getAbilityAvg, getKnowledgeTotal,
      ABILITY_WEIGHT, KNOWLEDGE_WEIGHT.
    assert (E3 : 3.0 == 3) by reflexivity.
    assert (E5 : 5.0 == 5) by reflexivity.
    rewrite E3, E5. reflexivity.
  - reflexivity.
  - reflexivity.
Qed.

(** ** The performance score (C6) *)

Lemma performanceFinalRatio_range sigmoid s difficulty knowledge_value z1 z2 :
  0 <= performanceFinalRatio sigmoid s difficulty knowledge_value z1 z2 <= 1.
Proof. unfold performanceFinalRatio. apply clamp_bounds. discriminate. Qed.

Lemma getPerformanceScore_unrounded sigmoid s difficulty cap knowledge_value z1 z2 :
  0 <= cap ->
  getPerformanceScore sigmoid s difficulty cap knowledge_value z1 z2
  == performanceFinalRatio sigmoid s difficulty knowledge_value z1 z2 * cap.
Proof.
  intros Hcap. unfold getPerformanceScore.
  apply Q.max_r. apply Qmult_le_0_compat; [|exact Hcap].
  apply performanceFinalRatio_range.
Qed.

(** Rounding down to a multiple of ten keeps a value of [[0, 100]] there,
    and [clampInt] then changes nothing. *)
Lemma tens_of_range (x : Q) :
  0 <= x -> x <= 100 ->
  let t := inject_Z (Qfloor (inject_Z (Qfloor x) / 10)) * 10 in
  0 <= t /\ t <= 100 /\ clampInt t 0 100 == t /\ clamp t 0 100 == t.
Proof.
  intros H0 H100 t.
  assert (Hf0 : (0 <= Qfloor x)%Z).
  { rewrite <- (Qfloor_Z 0). apply Qfloor_resp_le. exact H0. }
  assert (Hf100 : (Qfloor x <= 100)%Z).
  { rewrite <- (Qfloor_Z 100). apply Qfloor_resp_le. exact H100. }
  assert (Hdiv : Qfloor (inject_Z (Qfloor x) / 10) = (Qfloor x / 10)%Z).
  { symmetry. apply (Zdiv_Qdiv (Qfloor x) 10). }
  assert (Ht : t == inject_Z (Qfloor x / 10 * 10)).
  { unfold t. rewrite Hdiv, inject_Z_mult. reflexivity. }
  assert (Hz0 : (0 <= Qfloor x / 10 * 10)%Z) by (pose proof (Z.div_pos (Qfloor x) 10); lia).
  assert (Hz100 : (Qfloor x / 10 * 10 <= 100)%Z).
  { pose proof (Z.mul_div_le (Qfloor x) 10). lia. }
  assert (Hlo : 0 <= t).
  { rewrite Ht. change 0 with (inject_Z 0). rewrite <- Zle_Qle. exact Hz0. }
  assert (Hhi : t <= 100).
  { rewrite Ht. change 100 with (inject_Z 100). rewrite <- Zle_Qle. exact Hz100. }
  split; [exact Hlo | split; [exact Hhi | split]].
  - unfold clampInt.
    assert (Hr : inject_Z (JS.round t) == t).
    { rewrite Ht at 2. unfold JS.round.
      rewrite (Qfloor_comp (t + 0.5) (inject_Z (Qfloor x / 10 * 10) + 0.5))
        by (rewrite Ht; reflexivity).
      fold (JS.round (inject_Z (Qfloor x / 10 * 10))).
      rewrite round_inject_Z. reflexivity. }
    rewrite Hr. apply clamp_id; assumption.
  - apply clamp_id; assumption.
Qed.

(** C6, as stated, fails on [getPerformanceScore]: with a final ratio of
    one half (ability equal to the difficulty, full mental index, no noise)
    and [maxScore = 55] it returns 27.5, which is neither floored nor a
    multiple of ten. *)
Lemma performance_score_not_rounded :
  let sigmoid := fun x : Q => if Qeq_bool x 0 then 0.5 else 1 in
  let s := mkStudent "a" 100 100 100 0 0 0 0 0 0 50 true 0 in
  performanceFinalRatio sigmoid s 40 0 0 0 == 0.5
  /\ getPerformanceScore sigmoid s 40 55 0 0 0 == 27.5
  /\ spec_score (performanceFinalRatio sigmoid s 40 0 0 0) 55 == 20
  /\ ~ getPerformanceScore sigmoid s 40 55 0 0 0
       == spec_score (performanceFinalRatio sigmoid s 40 0 0 0) 55.
Proof.
  cbv zeta. repeat split; try (vm_compute; reflexivity).
  intros H. vm_compute in H. discriminate H.
Qed.

(** C6, amended: for every competitor, difficulty and [maxScore >= 0],
    [getPerformanceScore] returns [final_ratio * maxScore], unrounded, and
    that lies in [[0, maxScore]].  The floor, the rounding down to a
    multiple of ten and the clamp are applied by the formal contest, which
    always scores a problem out of 100: its per-problem score is
    [floor(final_ratio * 100)] rounded down to a multiple of ten, clamped
    to [[0, 100]]. *)
Theorem performance_score_range_and_rounding
    (sigmoid : Q -> Q) (s : Student) (difficulty cap knowledge_value z1 z2 : Q)
    (problem_tags : list string) :
  0 <= cap ->
  let ratio := performanceFinalRatio sigmoid s difficulty knowledge_value z1 z2 in
  let avgK :=
    inject_Z (Qfloor (inject_Z (tagKnowledgeSum s problem_tags)
                      / inject_Z (Z.of_nat (length problem_tags)))) in
  let ratio100 := performanceFinalRatio sigmoid s difficulty avgK z1 z2 in
  (0 <= ratio /\ ratio <= 1)
  /\ getPerformanceScore sigmoid s difficulty cap knowledge_value z1 z2 == ratio * cap
  /\ (0 <= getPerformanceScore sigmoid s difficulty cap knowledge_value z1 z2
      /\ getPerformanceScore sigmoid s difficulty cap knowledge_value z1 z2 <= cap)
  /\ contestProblemScore sigmoid s problem_tags difficulty z1 z2
     == spec_score ratio100 100
  /\ (0 <= contestProblemScore sigmoid s problem_tags difficulty z1 z2
      /\ contestProblemScore sigmoid s problem_tags difficulty z1 z2 <= 100).
Proof.
  intros Hcap ratio avgK ratio100.
  pose proof (performanceFinalRatio_range sigmoid s difficulty knowledge_value z1 z2)
    as [Hr0 Hr1]. fold ratio in Hr0, Hr1.
  pose proof (getPerformanceScore_unrounded sigmoid s difficulty cap knowledge_value
                z1 z2 Hcap) as Hraw. fold ratio in Hraw.
  split; [split; assumption|]. split; [exact Hraw|]. split.
  { rewrite Hraw. split; [apply Qmult_le_0_compat; assumption|].
    rewrite <- (Qmult_1_l cap) at 2. apply Qmult_le_compat_r; assumption. }
  pose proof (performanceFinalRatio_range sigmoid s difficulty avgK z1 z2)
    as [Hq0 Hq1]. fold ratio100 in Hq0, Hq1.
  assert (H100 : 0 <= 100) by discriminate.
  pose proof (getPerformanceScore_unrounded sigmoid s difficulty 100 avgK z1 z2 H100)
    as Hraw100. fold ratio100 in Hraw100.
  assert (Hx0 : 0 <= ratio100 * 100) by (apply Qmult_le_0_compat; assumption).
  assert (Hx1 : ratio100 * 100 <= 100).
  { rewrite <- (Qmult_1_l 100) at 2. apply Qmult_le_compat_r; assumption. }
  destruct (tens_of_range (ratio100 * 100) Hx0 Hx1) as (Ht0 & Ht1 & HcI & Hc).
  assert (Hscore : contestProblemScore sigmoid s problem_tags difficulty z1 z2
                   == inject_Z (Qfloor (inject_Z (Qfloor (ratio100 * 100)) / 10)) * 10).
  { unfold contestProblemScore, JS.floor. cbv zeta. fold avgK.
    rewrite (Qfloor_comp _ _ Hraw100). exact HcI. }
  split.
  - rewrite Hscore. unfold spec_score. symmetry. exact Hc.
  - rewrite Hscore. split; assumption.
Qed.

Lemma performance_score_range_and_rounding_witness :
  let sigmoid := fun x : Q => if Qeq_bool x 0 then 0.5 else 1 in
  let s := mkStudent "a" 100 100 100 0 0 0 0 0 0 50 true 0 in
  0 <= 55
  /\ getPerformanceScore sigmoid s 40 55 0 0 0
     == performanceFinalRatio sigmoid s 40 0 0 0 * 55
  /\ contestProblemScore sigmoid s [TAG_DS] 40 0 0 <= 100.
Proof.
  cbv zeta.
  assert (H : 0 <= 55) by discriminate.
  pose proof (performance_score_range_and_rounding
                (fun x : Q => if Qeq_bool x 0 then 0.5 else 1)
                (mkStudent "a" 100 100 100 0 0 0 0 0 0 50 true 0)
                40 55 0 0 0 [TAG_DS] H) as (_ & Hraw & _ & _ & _ & Hle).
  split; [exact H | split; [exact Hraw | exact Hle]].
Defined.

(** ** Clamping of the bounded axes (C7) *)

Lemma addKnowledge_fields t a s :
  pressure (addKnowledge t a s) = pressure s
  /\ mental (addKnowledge t a s) = mental s
  /\ thinking (addKnowledge t a s) = thinking s
  /\ coding (addKnowledge t a s) = coding s
  /\ sick_weeks (addKnowledge t a s) = sick_weeks s
  /\ name (addKnowledge t a s) = name s.
Proof.
  unfold addKnowledge.
  repeat match goal with
         | |- context [if ?b then _ else _] => destruct b
         end; repeat split; reflexivity.
Qed.

Lemma addKnowledge_fold_fields (l : list string) a s :
  let s' := fold_left (fun s t => addKnowledge t a s) l s in
  pressure s' = pressure s /\ mental s' = mental s
  /\ thinking s' = thinking s /\ coding s' = coding s
  /\ sick_weeks s' = sick_weeks s /\ name s' = name s.
Proof.
  revert s. induction l as [|t l IH]; intros s; cbn [fold_left].
  - repeat split; reflexivity.
  - specialize (IH (addKnowledge t a s)). cbv zeta in IH.
    destruct IH as (H1 & H2 & H3 & H4 & H5 & H6).
    destruct (addKnowledge_fields t a s) as (K1 & K2 & K3 & K4 & K5 & K6).
    cbv zeta. repeat split; congruence.
Qed.

Lemma trainingGains_fields f topic k u1 u2 s :
  pressure (trainingGains f topic k u1 u2 s) = pressure s
  /\ sick_weeks (trainingGains f topic k u1 u2 s) = sick_weeks s.
Proof.
  unfold trainingGains. cbv zeta.
  repeat match goal with
         | |- context [if String.eqb ?a ?b then _ else _] => destruct (String.eqb a b)
         end;
    cbn [pressure sick_weeks set_coding set_thinking set_knowledge];
    split; reflexivity.
Qed.

Lemma trainingPressureIncrease_sick f temperature base_comfort topic intensity s s' :
  sick_weeks s = sick_weeks s' ->
  trainingPressureIncrease f temperature base_comfort topic intensity s
  = trainingPressureIncrease f temperature base_comfort topic intensity s'.
Proof. intros H. unfold trainingPressureIncrease. rewrite H. reflexivity. Qed.

Lemma trainStudent_pressure f temperature base_comfort topic intensity u1 u2 s :
  pressure (trainStudent f temperature base_comfort topic intensity u1 u2 s)
  = pressure s
    + trainingPressureIncrease f temperature base_comfort topic intensity s.
Proof.
  unfold trainStudent. cbv zeta.
  cbn [pressure set_pressure set_coding set_thinking].
  match goal with
  | |- context [trainingGains ?f ?t ?k ?a ?b ?x] =>
      destruct (trainingGains_fields f t k a b x) as [Hp Hs]
  end.
  rewrite Hp. cbn [pressure set_comfort]. f_equal.
  apply trainingPressureIncrease_sick.
  cbn [sick_weeks set_coding set_thinking]. rewrite Hs. reflexivity.
Qed.

Lemma trainStudent_capped f temperature base_comfort topic intensity u1 u2 s :
  thinking (trainStudent f temperature base_comfort topic intensity u1 u2 s) <= 100
  /\ coding (trainStudent f temperature base_comfort topic intensity u1 u2 s) <= 100.
Proof.
  unfold trainStudent. cbv zeta.
  cbn [thinking coding set_pressure set_coding set_thinking].
  split; (eapply Qle_trans; [apply Q.le_min_l | discriminate]).
Qed.

Lemma mockProblemKnowledge_fields isPurchased osf l ps u s :
  pressure (mockProblemKnowledge isPurchased osf l ps u s) = pressure s
  /\ mental (mockProblemKnowledge isPurchased osf l ps u s) = mental s.
Proof.
  unfold mockProblemKnowledge. cbv zeta.
  destruct (0 <? length l)%nat; [|split; reflexivity].
  match goal with
  | |- context [fold_left _ l s] =>
      match goal with
      | |- context [addKnowledge _ ?a _] =>
          destruct (addKnowledge_fold_fields l a s) as (H1 & H2 & _)
      end
  end.
  cbv zeta in H1, H2. split; assumption.
Qed.

Lemma mockApplyStudent_effect isPurchased qtags total scores u_mental u_k s :
  let '(mental_change, pressure_gain, _) := mockOutcome total u_mental in
  pressure (mockApplyStudent isPurchased qtags total scores u_mental u_k s)
  = pressure s + pressure_gain
  /\ mental (mockApplyStudent isPurchased qtags total scores u_mental u_k s)
     = clamp (mental s + mental_change) 0 100.
Proof.
  unfold mockApplyStudent.
  destruct (mockOutcome total u_mental) as [[mental_change pressure_gain] osf].
  cbv zeta. cbn [pressure mental set_pressure set_mental].
  assert (H : forall (l : list nat) (s0 : Student),
             let s' := fold_left
                         (fun s i => mockProblemKnowledge isPurchased osf
                                       (nth i qtags []) (nth i scores 0) (u_k i) s)
                         l s0 in
             pressure s' = pressure s0 /\ mental s' = mental s0).
  { induction l as [|i l IH]; intros s0; cbn [fold_left]; [split; reflexivity|].
    specialize (IH (mockProblemKnowledge isPurchased osf (nth i qtags [])
                      (nth i scores 0) (u_k i) s0)).
    cbv zeta in IH. destruct IH as [Hp Hm].
    destruct (mockProblemKnowledge_fields isPurchased osf (nth i qtags [])
                (nth i scores 0) (u_k i) s0) as [Kp Km].
    cbv zeta. split; congruence. }
  destruct (H (seq 0 4) s) as [Hp Hm]. cbv zeta in Hp, Hm.
  rewrite Hp, Hm. split; reflexivity.
Qed.

Lemma mockOutcome_gain total u :
  let pressure_gain := snd (fst (mockOutcome total u)) in
  10 <= pressure_gain /\ pressure_gain <= 30.
Proof.
  unfold mockOutcome.
  destruct (JS.ltb total 100); [cbn; split; discriminate|].
  destruct (JS.ltb total 200); [cbn; split; discriminate|].
  destruct (Qle_bool total 300); cbn; split; discriminate.
Qed.

Lemma weeklyUpdateStudent_pressure game_comfort weeks s :
  active s = true ->
  0 <= pressure (weeklyUpdateStudent game_comfort weeks s)
  /\ pressure (weeklyUpdateStudent game_comfort weeks s) <= 100.
Proof.
  intros Hact. unfold weeklyUpdateStudent. cbv zeta.
  assert (Ha : active (if (sick_weeks s >? 0)%Z
                       then mkStudent (name s) (thinking s) (coding s) (mental s)
                              (knowledge_ds s) (knowledge_graph s) (knowledge_string s)
                              (knowledge_math s) (knowledge_dp s) (pressure s)
                              (comfort s) (active s) (sick_weeks s - 1)
                       else s) = true).
  { destruct (sick_weeks s >? 0)%Z; exact Hact. }
  rewrite Ha. cbn [pressure set_pressure set_knowledge]. split.
  - apply Q.min_glb; [discriminate | apply Q.le_max_l].
  - apply Q.le_min_l.
Qed.

Lemma compApplyStudent_pressure compName cap own_total u1 u2 s :
  pressure (compApplyStudent compName cap own_total u1 u2 s)
  = pressure s + compPressureGain compName u1.
Proof.
  unfold compApplyStudent, compPressureGain.
  destruct (String.eqb compName COMP_NOI).
  - destruct own_total as [total|]; [destruct (JS.geb total _)|]; reflexivity.
  - destruct (String.eqb compName COMP_PROVINCIAL); [reflexivity|].
    destruct (String.eqb compName COMP_NOIP); reflexivity.
Qed.

(** C7, as stated, fails: a competitor whose pressure is 95 leaves a light
    training session, the application of a mock contest and the
    application of a formal contest with a pressure above 100. *)
Lemma pressure_increase_not_clamped :
  let f := mkFacilities 1 1 1 1 1 in
  let s := mkStudent "a" 50 50 50 0 0 0 0 0 95 50 true 0 in
  (0 <= pressure s /\ pressure s <= 100)
  /\ pressure (trainStudent f 20 50 TAG_MATH 1 0.5 0.5 s) == 105
  /\ pressure (mockApplyStudent false [[TAG_DS]; [TAG_DS]; [TAG_DS]; [TAG_DS]]
                 250 [60; 60; 60; 70] 0.5 (fun _ => 0.5) s) == 105
  /\ pressure (compApplyStudent COMP_NOI 400 (Some 100) 0.5 0.5 s) == 135
  /\ ~ pressure (trainStudent f 20 50 TAG_MATH 1 0.5 0.5 s) <= 100.
Proof.
  cbv zeta. repeat split; try (vm_compute; reflexivity).
  - discriminate.
  - discriminate.
  - intros H. vm_compute in H. apply H. reflexivity.
Qed.

(** C7, amended: training caps thinking and coding at 100 and mock-contest
    application clamps mental to [[0, 100]]; the operations that increase
    pressure (training, mock-contest application, formal-contest
    application) add their increase without clamping, so that the new
    pressure is the old one plus the increase; pressure is brought back
    into [[0, 100]] by the weekly update, for every active competitor. *)
Theorem bounded_axes_after_mutation
    (f : Facilities) (temperature base_comfort : Q) (topic : string)
    (intensity : Z) (u1 u2 : Q)
    (isPurchased : bool) (questionTagsArray : list (list string))
    (total : Q) (scores : list Q) (u_mental : Q) (u_k : nat -> Q)
    (compName : string) (compMax : Q) (own_total : option Q) (v1 v2 : Q)
    (game_comfort : Q) (weeks : Z) (s : Student) :
  let trained := trainStudent f temperature base_comfort topic intensity u1 u2 s in
  let mocked :=
    mockApplyStudent isPurchased questionTagsArray total scores u_mental u_k s in
  let contested := compApplyStudent compName compMax own_total v1 v2 s in
  (thinking trained <= 100 /\ coding trained <= 100
   /\ pressure trained
      = pressure s
        + trainingPressureIncrease f temperature base_comfort topic intensity s)
  /\ (0 <= mental mocked /\ mental mocked <= 100
      /\ pressure mocked = pressure s + snd (fst (mockOutcome total u_mental))
      /\ 10 <= snd (fst (mockOutcome total u_mental)))
  /\ pressure contested = pressure s + compPressureGain compName v1
  /\ (active s = true ->
      0 <= pressure (weeklyUpdateStudent game_comfort weeks s)
      /\ pressure (weeklyUpdateStudent game_comfort weeks s) <= 100).
Proof.
  cbv zeta. split; [|split; [|split]].
  - destruct (trainStudent_capped f temperature base_comfort topic intensity u1 u2 s)
      as [Ht Hc].
    split; [exact Ht | split; [exact Hc | apply trainStudent_pressure]].
  - pose proof (mockApplyStudent_effect isPurchased questionTagsArray total scores
                  u_mental u_k s) as H.
    pose proof (mockOutcome_gain total u_mental) as Hg. cbv zeta in Hg.
    destruct (mockOutcome total u_mental) as [[mental_change pressure_gain] osf].
    destruct H as [Hp Hm]. cbn [fst snd] in *. rewrite Hm.
    assert (Hb : 0 <= 100) by discriminate.
    destruct (clamp_bounds (mental s + mental_change) 0 100 Hb) as [H0 H1].
    split; [exact H0 | split; [exact H1 | split; [exact Hp | apply Hg]]].
  - apply compApplyStudent_pressure.
  - apply weeklyUpdateStudent_pressure.
Qed.

Lemma bounded_axes_after_mutation_witness :
  let s := mkStudent "a" 50 50 50 0 0 0 0 0 95 50 true 0 in
  active s = true
  /\ 0 <= pressure (weeklyUpdateStudent 50 2 s)
  /\ pressure (weeklyUpdateStudent 50 2 s) <= 100.
Proof.
  cbv zeta. split; [reflexivity|].
  apply (bounded_axes_after_mutation (mkFacilities 1 1 1 1 1) 20 50 TAG_MATH 1
           0.5 0.5 false [] 250 [] 0.5 (fun _ => 0.5) COMP_NOI 400 None 0.5 0.5
           50 2 (mkStudent "a" 50 50 50 0 0 0 0 0 95 50 true 0)).
  reflexivity.
Defined.

(** ** Medals of the terminal stage (C8) *)

Lemma medalOf_cascade (statePassLine : option Q) (passLine sc : Q) :
  let pl := JS.orElse statePassLine (JS.orElse (Some passLine) 0) in
  medalOf COMP_NOI statePassLine passLine sc
  = if Qle_bool (pl * 1.0) sc then Some Gold
    else if Qle_bool (pl * 0.7) sc then Some Silver
    else if Qle_bool (pl * 0.5) sc then Some Bronze
    else None.
Proof.
  cbv zeta. unfold medalOf, JS.geb.
  change (String.eqb COMP_NOI COMP_NOI) with true. cbv iota.
  set (pl := JS.orElse statePassLine (JS.orElse (Some passLine) 0)).
  assert (E : forall x, Qle_bool x (JS.orElse (Some sc) 0) = Qle_bool x sc).
  { intros x. apply eq_true_iff_eq. rewrite !Qle_bool_iff.
    rewrite (orElse_zero sc). reflexivity. }
  rewrite !E. reflexivity.
Qed.

Ltac medal_case :=
  repeat match goal with
         | |- _ /\ _ => split
         | |- _ <-> _ => split
         | |- _ -> _ => intro
         | H : _ /\ _ |- _ => destruct H
         end;
  try discriminate; try reflexivity; try lra.

(** C8, as stated, fails on the legacy handler of [script.js]: there the
    score 140 of a contest with maximum 400 and pass line 200 (an ordinary
    province at reputation 50) lies in [[0.7 pl, pl)] and earns no medal;
    under the same pass line the new handler awards silver. *)
Lemma legacy_medal_not_keyed_to_pass_line :
  let maxScore := 400 in
  let total := 140 in
  let passLine :=
    inject_Z (Rounded.legacyPassLine Binary64.round "普通省" COMP_NOI true maxScore 50) in
  passLine == 200
  /\ passLine * 0.7 <= total /\ total < passLine * 1.0
  /\ Rounded.legacyMedalOf Binary64.round COMP_NOI total maxScore = None
  /\ Rounded.legacyMedalOf (fun x => x) COMP_NOI total maxScore = None
  /\ medalOf COMP_NOI None passLine total = Some Silver.
Proof. vm_compute. repeat split; try reflexivity; discriminate. Qed.

Lemma rounded_legacy_thresholds_ordered (fl : Q -> Q) (maxScore : Q) :
  Binary64.monotone fl -> 0 <= maxScore ->
  fl (maxScore * fl NOI_BRONZE_THRESHOLD) <= fl (maxScore * fl NOI_SILVER_THRESHOLD)
  /\ fl (maxScore * fl NOI_SILVER_THRESHOLD) <= fl (maxScore * fl NOI_GOLD_THRESHOLD).
Proof.
  intros Hm H0. split; apply Hm; apply Qmult_le_l_nonneg; try exact H0; apply Hm;
    discriminate.
Qed.

Lemma rounded_legacyMedal_cascade (fl : Q -> Q) (total maxScore : Q) :
  Binary64.monotone fl -> 0 <= maxScore ->
  let gold := fl (maxScore * fl NOI_GOLD_THRESHOLD) in
  let silver := fl (maxScore * fl NOI_SILVER_THRESHOLD) in
  let bronze := fl (maxScore * fl NOI_BRONZE_THRESHOLD) in
  let medal := Rounded.legacyMedalOf fl COMP_NOI total maxScore in
  (medal = Some Gold <-> gold <= total)
  /\ (medal = Some Silver <-> silver <= total /\ total < gold)
  /\ (medal = Some Bronze <-> bronze <= total /\ total < silver)
  /\ (medal = None <-> total < bronze).
Proof.
  intros Hm H0 gold silver bronze medal.
  destruct (rounded_legacy_thresholds_ordered fl maxScore Hm H0) as [Hbs Hsg].
  fold gold silver bronze in Hbs, Hsg.
  assert (E : medal = if Qle_bool gold total then Some Gold
                      else if Qle_bool silver total then Some Silver
                      else if Qle_bool bronze total then Some Bronze
                      else None) by reflexivity.
  clearbody medal gold silver bronze.
  destruct (Qle_bool gold total) eqn:E1;
    [apply Qle_bool_iff in E1
    | apply not_true_iff_false in E1; rewrite Qle_bool_iff in E1;
      apply Qnot_le_lt in E1];
    (destruct (Qle_bool silver total) eqn:E2;
     [apply Qle_bool_iff in E2
     | apply not_true_iff_false in E2; rewrite Qle_bool_iff in E2;
       apply Qnot_le_lt in E2]);
    (destruct (Qle_bool bronze total) eqn:E3;
     [apply Qle_bool_iff in E3
     | apply not_true_iff_false in E3; rewrite Qle_bool_iff in E3;
       apply Qnot_le_lt in E3]);
    subst medal; medal_case.
Qed.

(** C8, amended: at the terminal stage the new handler awards gold iff the
    score reaches the pass line, silver iff it lies in [[0.7 pl, pl)], bronze
    iff it lies in [[0.5 pl, 0.7 pl)], and none otherwise.  The thresholds are
    those of the pass line in force for the competitor ([state.passLine]
    when the simulator set one, the contest's pass line otherwise); the
    contest's maximum score plays no part.  With a positive pass line, a
    score equal to 0.7 times the pass line earns silver.  The legacy handler
    [holdCompetitionModal] of [script.js] keys its medals to the contest's
    maximum score instead: gold iff the total reaches [maxScore * 0.9],
    silver iff it lies in [[maxScore * 0.6, maxScore * 0.9)], bronze iff it
    lies in [[maxScore * 0.4, maxScore * 0.6)], none below, and no medal
    outside the NOI; the pass line plays no part there. *)
Theorem noi_medal_thresholds (env : Env) (statePassLine : option Q)
    (passLine sc totalMax totalMax' baseline baseline' minScore : Q)
    (st : StudentState) (roster : list Student) :
  let pl := JS.orElse statePassLine (JS.orElse (Some passLine) 0) in
  let medal := medalOf COMP_NOI statePassLine passLine sc in
  (medal = Some Gold <-> pl * 1.0 <= sc)
  /\ (medal = Some Silver <-> pl * 0.7 <= sc /\ sc < pl * 1.0)
  /\ (medal = Some Bronze <-> pl * 0.5 <= sc /\ sc < pl * 0.7)
  /\ (medal = None <-> sc < pl * 0.5 /\ sc < pl * 0.7 /\ sc < pl * 1.0)
  /\ (0 < pl -> sc == pl * 0.7 -> medal = Some Silver)
  /\ (statePassLine = None -> pl == passLine)
  /\ result_medal
       (snd (scoreState env COMP_NOI passLine totalMax baseline minScore st roster))
     = result_medal
         (snd (scoreState env COMP_NOI passLine totalMax' baseline' minScore st roster))
  /\ result_medal
       (snd (scoreState env COMP_NOI passLine totalMax baseline minScore st roster))
     = medalOf COMP_NOI (state_passLine st) passLine (totalScore st)
  /\ (forall (fl : Q -> Q) (maxScore : Q),
        Binary64.monotone fl -> 0 <= maxScore ->
        let gold := fl (maxScore * fl NOI_GOLD_THRESHOLD) in
        let silver := fl (maxScore * fl NOI_SILVER_THRESHOLD) in
        let bronze := fl (maxScore * fl NOI_BRONZE_THRESHOLD) in
        let legacy := Rounded.legacyMedalOf fl COMP_NOI sc maxScore in
        (legacy = Some Gold <-> gold <= sc)
        /\ (legacy = Some Silver <-> silver <= sc /\ sc < gold)
        /\ (legacy = Some Bronze <-> bronze <= sc /\ sc < silver)
        /\ (legacy = None <-> sc < bronze)
        /\ (forall compName, compName <> COMP_NOI ->
              Rounded.legacyMedalOf fl compName sc maxScore = None)).
Proof.
  intros pl medal.
  assert (Hm : medal = if Qle_bool (pl * 1.0) sc then Some Gold
                       else if Qle_bool (pl * 0.7) sc then Some Silver
                       else if Qle_bool (pl * 0.5) sc then Some Bronze
                       else None)
    by apply medalOf_cascade.
  clearbody medal.
  assert (Hrest :
    (statePassLine = None -> pl == passLine)
    /\ result_medal
         (snd (scoreState env COMP_NOI passLine totalMax baseline minScore st roster))
       = result_medal
           (snd (scoreState env COMP_NOI passLine totalMax' baseline' minScore st roster))
    /\ result_medal
         (snd (scoreState env COMP_NOI passLine totalMax baseline minScore st roster))
       = medalOf COMP_NOI (state_passLine st) passLine (totalScore st)
    /\ (forall (fl : Q -> Q) (maxScore : Q),
          Binary64.monotone fl -> 0 <= maxScore ->
          let gold := fl (maxScore * fl NOI_GOLD_THRESHOLD) in
          let silver := fl (maxScore * fl NOI_SILVER_THRESHOLD) in
          let bronze := fl (maxScore * fl NOI_BRONZE_THRESHOLD) in
          let legacy := Rounded.legacyMedalOf fl COMP_NOI sc maxScore in
          (legacy = Some Gold <-> gold <= sc)
          /\ (legacy = Some Silver <-> silver <= sc /\ sc < gold)
          /\ (legacy = Some Bronze <-> bronze <= sc /\ sc < silver)
          /\ (legacy = None <-> sc < bronze)
          /\ (forall compName, compName <> COMP_NOI ->
                Rounded.legacyMedalOf fl compName sc maxScore = None))).
  { split; [intros ->; apply orElse_zero | split; [reflexivity | split; [reflexivity|]]].
    intros fl maxScore Hmono H0.
    destruct (rounded_legacyMedal_cascade fl sc maxScore Hmono H0) as (A & B & C & D).
    cbv zeta. split; [exact A | split; [exact B | split; [exact C | split; [exact D|]]]].
    intros compName Hc. unfold Rounded.legacyMedalOf.
    apply String.eqb_neq in Hc. rewrite Hc. reflexivity. }
  destruct (Qle_bool (pl * 1.0) sc) eqn:E1;
    [apply Qle_bool_iff in E1
    | apply not_true_iff_false in E1; rewrite Qle_bool_iff in E1;
      apply Qnot_le_lt in E1];
    (destruct (Qle_bool (pl * 0.7) sc) eqn:E2;
     [apply Qle_bool_iff in E2
     | apply not_true_iff_false in E2; rewrite Qle_bool_iff in E2;
       apply Qnot_le_lt in E2]);
    (destruct (Qle_bool (pl * 0.5) sc) eqn:E3;
     [apply Qle_bool_iff in E3
     | apply not_true_iff_false in E3; rewrite Qle_bool_iff in E3;
       apply Qnot_le_lt in E3]);
    subst medal;
    (split; [medal_case|]); (split; [medal_case|]); (split; [medal_case|]);
    (split; [medal_case|]); (split; [medal_case | exact Hrest]).
Qed.

Lemma noi_medal_thresholds_witness :
  0 < 320 /\ 224 == 320 * 0.7
  /\ medalOf COMP_NOI None 320 224 = Some Silver
  /\ Binary64.monotone Binary64.round /\ 0 <= 400
  /\ Rounded.legacyMedalOf Binary64.round COMP_NOI 224 400 = Some Bronze.
Proof.
  pose proof (noi_medal_thresholds (mkEnv ∅ ∅ None true) None 320 224 400 400 200 200 0
                (mkStudentState 0 224 None []) [])
    as (_ & _ & _ & _ & Hsilver & _ & _ & _ & Hlegacy).
  assert (H400 : 0 <= 400) by discriminate.
  split; [reflexivity | split; [reflexivity|]].
  split; [apply Hsilver; reflexivity|].
  split; [exact binary64_round_monotone | split; [exact H400|]].
  destruct (Hlegacy Binary64.round 400 binary64_round_monotone H400)
    as (_ & _ & Hbronze & _).
  apply Hbronze. split; vm_compute; [discriminate | reflexivity].
Defined.

(** The same in exact arithmetic: 224 out of 400 earns bronze in the legacy
    table, and silver under a pass line of 320 in the new handler. *)
Example legacy_medal_keyed_to_max_score :
  legacyMedal 224 400 = Some Bronze /\ medalOf COMP_NOI None 320 224 = Some Silver.
Proof. split; reflexivity. Qed.

(** ** The poor-showing rule (C9) *)

Lemma extraPressure_at_midpoint (totalMax sc : Q) :
  0 < totalMax -> sc == totalMax / 2 ->
  extraPressureOf totalMax (totalMax / 2.0) sc = 0%Z.
Proof.
  intros Hpos Hsc. unfold extraPressureOf.
  assert (Hg : JS.gtb totalMax 0 = true) by (apply gtb_lt; exact Hpos).
  rewrite Hg.
  assert (Hb : Qmax 0 (totalMax / 2.0 - JS.orElse (Some sc) 0) == 0).
  { apply Q.max_l. rewrite (orElse_zero sc), Hsc.
    assert (E : totalMax / 2.0 - totalMax / 2 == 0) by (unfold Qdiv; field).
    rewrite E. discriminate. }
  assert (Hq : Qmax 0 (totalMax / 2.0 - JS.orElse (Some sc) 0)
               / Qmax 1 (totalMax / 20.0) == 0).
  { rewrite Hb. unfold Qdiv. apply Qmult_0_l. }
  unfold JS.ceil. rewrite (Qceiling_comp _ _ Hq). reflexivity.
Qed.

(** C9: in a contest with a positive total, a participant whose score is
    exactly the midpoint is not flagged: the recorded extra pressure is 0
    and the remark is empty, whatever the pass line and the lowest score of
    the session, and the later application of the recorded extra pressure
    leaves every competitor as it was. *)
Theorem midpoint_score_not_flagged (env : Env) (compName : string)
    (passLine totalMax minScore pressureMult : Q) (st : StudentState)
    (roster roster' : list Student) :
  0 < totalMax ->
  totalScore st == totalMax / 2 ->
  let baseline := if JS.gtb totalMax 0 then totalMax / 2.0 else 0 in
  let r := snd (scoreState env compName passLine totalMax baseline minScore st roster) in
  JS.ltb (totalScore st) baseline = false
  /\ result_extraPressure r = 0%Z
  /\ result_remark r = NoRemark
  /\ notParticipated r = false
  /\ applyExtraPressure pressureMult roster' r = roster'.
Proof.
  intros Hpos Hsc baseline r.
  assert (Hg : JS.gtb totalMax 0 = true) by (apply gtb_lt; exact Hpos).
  assert (Hbase : baseline = totalMax / 2.0) by (unfold baseline; rewrite Hg; reflexivity).
  assert (Hep : extraPressureOf totalMax baseline (totalScore st) = 0%Z)
    by (rewrite Hbase; apply extraPressure_at_midpoint; assumption).
  assert (Hflag : poorShowing (JS.geb (totalScore st) passLine) baseline
                    (totalScore st) minScore 0 = false)
    by (unfold poorShowing; apply andb_false_r).
  assert (Hr1 : result_extraPressure r = 0%Z).
  { unfold r, scoreState. cbv zeta. cbn [snd result_extraPressure].
    rewrite Hep, Hflag. reflexivity. }
  assert (Hr2 : result_remark r = NoRemark).
  { unfold r, scoreState. cbv zeta. cbn [snd result_remark].
    rewrite Hep, Hflag. reflexivity. }
  split; [|split; [exact Hr1 | split; [exact Hr2 | split; [reflexivity|]]]].
  - unfold JS.ltb. rewrite negb_false_iff, Qle_bool_iff, Hbase, Hsc.
    assert (E : totalMax / 2.0 == totalMax / 2) by (unfold Qdiv; field).
    rewrite E. apply Qle_refl.
  - unfold applyExtraPressure. rewrite Hr1.
    destruct (notParticipated r); reflexivity.
Qed.

Lemma midpoint_score_not_flagged_witness :
  let st := mkStudentState 0 200 None [] in
  let r := snd (scoreState (mkEnv ∅ ∅ None true) COMP_NOIP 240 400
                  (if JS.gtb 400 0 then 400 / 2.0 else 0) 200 st []) in
  0 < 400 /\ totalScore st == 400 / 2
  /\ result_extraPressure r = 0%Z /\ result_remark r = NoRemark.
Proof.
  cbv zeta.
  assert (H1 : 0 < 400) by reflexivity.
  assert (H2 : totalScore (mkStudentState 0 200 None []) == 400 / 2) by reflexivity.
  pose proof (midpoint_score_not_flagged (mkEnv ∅ ∅ None true) COMP_NOIP 240 400 200 1
                (mkStudentState 0 200 None []) [] [] H1 H2) as (_ & He & Hr & _).
  split; [exact H1 | split; [exact H2 | split; [exact He | exact Hr]]].
Defined.

(** ** Knowledge gains split over the tags (C10) *)

Lemma addKnowledge_zero t s : addKnowledge t 0 s = s.
Proof.
  unfold addKnowledge, set_knowledge. destruct s; cbn.
  repeat match goal with
         | |- context [if ?b then _ else _] => destruct b
         end; rewrite ?Z.add_0_r; reflexivity.
Qed.

Lemma addKnowledge_sum t a s :
  knownTag t = true ->
  knowledgeSum (addKnowledge t a s) = (knowledgeSum s + a)%Z.
Proof.
  unfold knownTag, addKnowledge, knowledgeSum. intros H.
  destruct (String.eqb t TAG_DS); [cbn; lia|].
  destruct (String.eqb t TAG_GRAPH); [cbn; lia|].
  destruct (String.eqb t TAG_STRING); [cbn; lia|].
  destruct (String.eqb t TAG_MATH); [cbn; lia|].
  cbn [orb] in H. rewrite H. cbn; lia.
Qed.

Lemma addKnowledge_fold_sum (l : list string) a s :
  Forall (fun t => knownTag t = true) l ->
  knowledgeSum (fold_left (fun s t => addKnowledge t a s) l s)
  = (knowledgeSum s + Z.of_nat (length l) * a)%Z.
Proof.
  intros H. revert s. induction H as [|t l Ht _ IH]; intros s.
  - cbn. lia.
  - cbn [fold_left length]. rewrite IH, (addKnowledge_sum t a s Ht). lia.
Qed.

Lemma addKnowledge_fold_zero (l : list string) s :
  fold_left (fun s t => addKnowledge t 0 s) l s = s.
Proof.
  induction l as [|t l IH]; cbn [fold_left]; [reflexivity|].
  rewrite addKnowledge_zero. exact IH.
Qed.

Lemma floor_share_le (gain : Q) (n : Z) :
  (0 < n)%Z -> inject_Z (n * Qfloor (gain / inject_Z n)) <= gain.
Proof.
  intros Hn.
  assert (Hq : 0 < inject_Z n) by (change 0 with (inject_Z 0); rewrite <- Zlt_Qlt; exact Hn).
  rewrite inject_Z_mult.
  apply Qle_trans with (inject_Z n * (gain / inject_Z n)).
  - apply Qmult_le_l; [exact Hq | apply Qfloor_le].
  - rewrite Qmult_div_r; [apply Qle_refl|].
    intros E. rewrite E in Hq. discriminate Hq.
Qed.

Lemma floor_share_small (gain : Q) (n : Z) :
  0 < gain -> gain < inject_Z n -> Qfloor (gain / inject_Z n) = 0%Z.
Proof.
  intros Hg Hlt.
  assert (Hq : 0 < inject_Z n) by (eapply Qlt_trans; eassumption).
  apply Qfloor_unique.
  - apply Qlt_le_weak. apply Qlt_shift_div_l; [exact Hq|].
    rewrite Qmult_0_l. exact Hg.
  - apply Qlt_shift_div_r; [exact Hq|]. rewrite Qmult_1_l. exact Hlt.
Qed.

Lemma floor_share_nonneg (gain : Q) (n : Z) :
  0 < gain -> (0 < n)%Z -> (0 <= Qfloor (gain / inject_Z n))%Z.
Proof.
  intros Hg Hn.
  assert (Hq : 0 < inject_Z n) by (change 0 with (inject_Z 0); rewrite <- Zlt_Qlt; exact Hn).
  rewrite <- (Qfloor_Z 0). apply Qfloor_resp_le.
  apply Qlt_le_weak. apply Qlt_shift_div_l; [exact Hq|].
  rewrite Qmult_0_l. exact Hg.
Qed.

(** ** The loop that applies the knowledge gains *)

Lemma applyProblemKnowledge_share (prob : Problem) (g : Q) (s : Student) :
  applyProblemKnowledge prob g s
  = fold_left (fun s tag => addKnowledge tag (tagShare prob g) s) (tags prob) s.
Proof.
  unfold applyProblemKnowledge, tagShare.
  destruct (Qle_bool g 0) eqn:Eg.
  - symmetry. apply addKnowledge_fold_zero.
  - cbv zeta.
    set (share := JS.floor (g / inject_Z (Z.max 1 (Z.of_nat (length (tags prob)))))).
    destruct (share <=? 0)%Z eqn:E; [|reflexivity].
    apply Z.leb_le in E.
    assert (Hg : 0 < g).
    { apply Qnot_le_lt. intros H. apply Qle_bool_iff in H. congruence. }
    assert (H0 : (0 <= share)%Z) by (apply floor_share_nonneg; [exact Hg | lia]).
    assert (E0 : share = 0%Z) by lia.
    rewrite E0. symmetry. apply addKnowledge_fold_zero.
Qed.

Lemma tagShare_positive_gain (prob : Problem) (g : Q) :
  0 < g ->
  tagShare prob g = Qfloor (g / inject_Z (Z.max 1 (tagCount prob)))
  /\ (0 <= tagShare prob g)%Z.
Proof.
  intros Hg. unfold tagShare, tagCount.
  assert (E : Qle_bool g 0 = false).
  { apply not_true_iff_false. rewrite Qle_bool_iff. apply Qlt_not_le. exact Hg. }
  rewrite E. split; [reflexivity|]. apply floor_share_nonneg; [exact Hg | lia].
Qed.

Lemma tagShare_no_gain (prob : Problem) (g : Q) : g <= 0 -> tagShare prob g = 0%Z.
Proof.
  intros Hg. unfold tagShare. apply Qle_bool_iff in Hg. rewrite Hg. reflexivity.
Qed.

Lemma tagShare_small_gain (prob : Problem) (g : Q) :
  g < inject_Z (tagCount prob) -> tagShare prob g = 0%Z.
Proof.
  intros Hlt. destruct (Qlt_le_dec 0 g) as [Hg|Hg]; [|apply tagShare_no_gain; exact Hg].
  rewrite (proj1 (tagShare_positive_gain prob g Hg)).
  assert (Hn : (1 <= tagCount prob)%Z).
  { assert (H : inject_Z 0 < inject_Z (tagCount prob)) by (eapply Qlt_trans; eassumption).
    rewrite <- Zlt_Qlt in H. lia. }
  rewrite Z.max_r by exact Hn. apply floor_share_small; assumption.
Qed.

Lemma tagShare_total_le (prob : Problem) (g : Q) :
  inject_Z (tagCount prob * tagShare prob g) <= Qmax 0 g.
Proof.
  destruct (Qlt_le_dec 0 g) as [Hg|Hg].
  - destruct (tagShare_positive_gain prob g Hg) as [E H0].
    apply Qle_trans with g; [|apply Q.le_max_r].
    destruct (Z.eq_dec (tagCount prob) 0%Z) as [Ez|Ez].
    + rewrite Ez, Z.mul_0_l. apply Qlt_le_weak. exact Hg.
    + assert (Hc : (0 <= tagCount prob)%Z) by (unfold tagCount; lia).
      rewrite E, Z.max_r by lia. apply floor_share_le. lia.
  - rewrite (tagShare_no_gain prob g Hg), Z.mul_0_r. apply Q.le_max_l.
Qed.

Lemma knownCount_le (prob : Problem) :
  (0 <= knownCount prob <= tagCount prob)%Z
  /\ (Forall (fun t => knownTag t = true) (tags prob) -> knownCount prob = tagCount prob).
Proof.
  unfold knownCount, tagCount. split.
  - pose proof (length_filter (fun t => knownTag t = true) (tags prob)). lia.
  - intros H. induction H as [|t l Ht _ IH]; [reflexivity|].
    rewrite filter_cons. destruct (decide (knownTag t = true)); [|contradiction].
    cbn [length]. lia.
Qed.

Lemma knownTag_tagCounter (t : string) :
  knownTag t = match tagCounter t with Some _ => true | None => false end.
Proof.
  unfold knownTag, tagCounter.
  destruct (String.eqb t TAG_DS); [reflexivity|].
  destruct (String.eqb t TAG_GRAPH); [reflexivity|].
  destruct (String.eqb t TAG_STRING); [reflexivity|].
  destruct (String.eqb t TAG_MATH); [reflexivity|].
  cbn [orb]. destruct (String.eqb t TAG_DP || String.eqb t TAG_DP_LONG); reflexivity.
Qed.

Ltac knowledge_counter c H :=
  unfold KNOWLEDGE_COUNTERS in H; cbn [In] in H;
  destruct H as [<-|[<-|[<-|[<-|[<-|[]]]]]].

Lemma addKnowledge_counter (c t : string) (a : Z) (s : Student) :
  In c KNOWLEDGE_COUNTERS ->
  getKnowledgeByType (addKnowledge t a s) c
  = (getKnowledgeByType s c + (if bookedOn c t then a else 0))%Z.
Proof.
  intros Hc. unfold bookedOn, tagCounter, addKnowledge.
  destruct (String.eqb t TAG_DS);
    [knowledge_counter c Hc; cbn; lia|].
  destruct (String.eqb t TAG_GRAPH);
    [knowledge_counter c Hc; cbn; lia|].
  destruct (String.eqb t TAG_STRING);
    [knowledge_counter c Hc; cbn; lia|].
  destruct (String.eqb t TAG_MATH);
    [knowledge_counter c Hc; cbn; lia|].
  destruct (String.eqb t TAG_DP || String.eqb t TAG_DP_LONG);
    knowledge_counter c Hc; cbn; lia.
Qed.

Lemma addKnowledge_fold_counter (c : string) (l : list string) (a : Z) (s : Student) :
  In c KNOWLEDGE_COUNTERS ->
  getKnowledgeByType (fold_left (fun s t => addKnowledge t a s) l s) c
  = (getKnowledgeByType s c
     + Z.of_nat (length (filter (fun t => bookedOn c t = true) l)) * a)%Z.
Proof.
  intros Hc. revert s. induction l as [|t l IH]; intros s.
  - cbn. lia.
  - cbn [fold_left]. rewrite IH, (addKnowledge_counter c t a s Hc), filter_cons.
    destruct (bookedOn c t) eqn:E.
    + destruct (decide (true = true)); [|congruence]. cbn [length]. lia.
    + destruct (decide (false = true)); [congruence|]. lia.
Qed.

Lemma addKnowledge_fold_known_sum (l : list string) (a : Z) (s : Student) :
  knowledgeSum (fold_left (fun s t => addKnowledge t a s) l s)
  = (knowledgeSum s
     + Z.of_nat (length (filter (fun t => knownTag t = true) l)) * a)%Z.
Proof.
  revert s. induction l as [|t l IH]; intros s.
  - cbn. lia.
  - cbn [fold_left]. rewrite IH, filter_cons.
    destruct (knownTag t) eqn:E.
    + destruct (decide (true = true)); [|congruence].
      rewrite (addKnowledge_sum t a s E). cbn [length]. lia.
    + destruct (decide (false = true)); [congruence|].
      assert (Hs : addKnowledge t a s = s).
      { unfold knownTag in E. unfold addKnowledge.
        destruct (String.eqb t TAG_DS); [discriminate|].
        destruct (String.eqb t TAG_GRAPH); [discriminate|].
        destruct (String.eqb t TAG_STRING); [discriminate|].
        destruct (String.eqb t TAG_MATH); [discriminate|].
        cbn [orb] in E. rewrite E. reflexivity. }
      rewrite Hs. lia.
Qed.

(** Everything of a student that is no knowledge counter. *)
Lemma addKnowledge_besides (t : string) (a : Z) (s : Student) :
  let s' := addKnowledge t a s in
  name s' = name s /\ thinking s' = thinking s /\ coding s' = coding s
  /\ mental s' = mental s /\ pressure s' = pressure s /\ comfort s' = comfort s
  /\ active s' = active s /\ sick_weeks s' = sick_weeks s.
Proof.
  cbv zeta. unfold addKnowledge, set_knowledge.
  repeat match goal with
         | |- context [if ?b then _ else _] => destruct b
         end; cbn; repeat split; reflexivity.
Qed.

Lemma applyProblemKnowledge_besides (prob : Problem) (g : Q) (s : Student) :
  let s' := applyProblemKnowledge prob g s in
  name s' = name s /\ thinking s' = thinking s /\ coding s' = coding s
  /\ mental s' = mental s /\ pressure s' = pressure s /\ comfort s' = comfort s
  /\ active s' = active s /\ sick_weeks s' = sick_weeks s.
Proof.
  cbv zeta. rewrite applyProblemKnowledge_share.
  generalize (tagShare prob g) as a. intros a. revert s.
  induction (tags prob) as [|t l IH]; intros s; cbn [fold_left].
  - repeat split; reflexivity.
  - destruct (IH (addKnowledge t a s)) as (H1 & H2 & H3 & H4 & H5 & H6 & H7 & H8).
    destruct (addKnowledge_besides t a s) as (K1 & K2 & K3 & K4 & K5 & K6 & K7 & K8).
    repeat split; congruence.
Qed.

Lemma applyKnowledgeGains_snoc (problems : list Problem) (prob : Problem)
    (knowledgeGains : list Q) (s : Student) :
  applyKnowledgeGains (problems ++ [prob]) knowledgeGains s
  = applyProblemKnowledge prob (JS.orElse (knowledgeGains !! length problems) 0)
      (applyKnowledgeGains problems knowledgeGains s).
Proof.
  unfold applyKnowledgeGains.
  rewrite length_app. cbn [length]. rewrite seq_app, fold_left_app. cbn [seq fold_left].
  rewrite Nat.add_0_l.
  rewrite (lookup_app_r problems [prob] (length problems)) by lia.
  rewrite Nat.sub_diag. cbn [lookup list_lookup].
  f_equal.
  assert (G : forall (idxs : list nat) s0,
             Forall (fun i => (i < length problems)%nat) idxs ->
             fold_left
               (fun s i =>
                  match (problems ++ [prob]) !! i with
                  | Some p => applyProblemKnowledge p (JS.orElse (knowledgeGains !! i) 0) s
                  | None => s
                  end) idxs s0
             = fold_left
                 (fun s i =>
                    match problems !! i with
                    | Some p => applyProblemKnowledge p (JS.orElse (knowledgeGains !! i) 0) s
                    | None => s
                    end) idxs s0).
  { intros idxs. induction idxs as [|i idxs IH]; intros s0 Hall; [reflexivity|].
    inversion Hall as [|? ? Hi Hrest]; subst. cbn [fold_left].
    rewrite (lookup_app_l problems [prob] i Hi). apply IH. exact Hrest. }
  apply G. apply Forall_forall. intros i Hi. apply list_elem_of_In, in_seq in Hi. lia.
Qed.

Lemma sumZ_snoc (l : list Z) (x : Z) : sumZ (l ++ [x]) = (sumZ l + x)%Z.
Proof.
  unfold sumZ. induction l as [|y l IH]; cbn [app fold_right]; lia.
Qed.

Lemma knowledgeAddedBy_snoc (weight : Problem -> Z) (problems : list Problem)
    (prob : Problem) (knowledgeGains : list Q) :
  knowledgeAddedBy weight (problems ++ [prob]) knowledgeGains
  = (knowledgeAddedBy weight problems knowledgeGains
     + weight prob * tagShare prob (JS.orElse (knowledgeGains !! length problems) 0))%Z.
Proof.
  unfold knowledgeAddedBy. rewrite imap_app. cbn [imap].
  rewrite Nat.add_0_r. apply sumZ_snoc.
Qed.

Lemma knowledgeAddedBy_le (w1 w2 : Problem -> Z) (problems : list Problem)
    (knowledgeGains : list Q) :
  (forall p, (w1 p <= w2 p)%Z) ->
  (knowledgeAddedBy w1 problems knowledgeGains
   <= knowledgeAddedBy w2 problems knowledgeGains)%Z.
Proof.
  intros Hw. induction problems as [|p problems IH] using rev_ind.
  - cbn. lia.
  - rewrite !knowledgeAddedBy_snoc.
    set (g := JS.orElse (knowledgeGains !! length problems) 0).
    assert (H0 : (0 <= tagShare p g)%Z).
    { destruct (Qlt_le_dec 0 g) as [Hg|Hg].
      - apply tagShare_positive_gain. exact Hg.
      - rewrite (tagShare_no_gain p g Hg). lia. }
    specialize (Hw p). nia.
Qed.

Lemma applyKnowledgeGains_counter (c : string) (problems : list Problem)
    (knowledgeGains : list Q) (s : Student) :
  In c KNOWLEDGE_COUNTERS ->
  getKnowledgeByType (applyKnowledgeGains problems knowledgeGains s) c
  = (getKnowledgeByType s c + knowledgeAddedBy (tagsOn c) problems knowledgeGains)%Z.
Proof.
  intros Hc. induction problems as [|p problems IH] using rev_ind.
  - cbn. lia.
  - rewrite applyKnowledgeGains_snoc, knowledgeAddedBy_snoc,
      applyProblemKnowledge_share, (addKnowledge_fold_counter c _ _ _ Hc), IH.
    unfold tagsOn. lia.
Qed.

Lemma applyKnowledgeGains_sum (problems : list Problem) (knowledgeGains : list Q)
    (s : Student) :
  knowledgeSum (applyKnowledgeGains problems knowledgeGains s)
  = (knowledgeSum s + knowledgeAddedBy knownCount problems knowledgeGains)%Z.
Proof.
  induction problems as [|p problems IH] using rev_ind.
  - cbn. lia.
  - rewrite applyKnowledgeGains_snoc, knowledgeAddedBy_snoc,
      applyProblemKnowledge_share, addKnowledge_fold_known_sum, IH.
    unfold knownCount. lia.
Qed.

Lemma applyKnowledgeGains_besides (problems : list Problem) (knowledgeGains : list Q)
    (s : Student) :
  let s' := applyKnowledgeGains problems knowledgeGains s in
  name s' = name s /\ thinking s' = thinking s /\ coding s' = coding s
  /\ mental s' = mental s /\ pressure s' = pressure s /\ comfort s' = comfort s
  /\ active s' = active s /\ sick_weeks s' = sick_weeks s.
Proof.
  cbv zeta. induction problems as [|p problems IH] using rev_ind.
  - repeat split; reflexivity.
  - rewrite applyKnowledgeGains_snoc.
    destruct (applyProblemKnowledge_besides p
                (JS.orElse (knowledgeGains !! length problems) 0)
                (applyKnowledgeGains problems knowledgeGains s))
      as (H1 & H2 & H3 & H4 & H5 & H6 & H7 & H8).
    destruct IH as (K1 & K2 & K3 & K4 & K5 & K6 & K7 & K8).
    repeat split; congruence.
Qed.

Lemma rounded_mockGainsStudent_knowledge (fl : Q -> Q)
    (knowledgeCap thinkingCap codingCap mockTotalMax minScore : Q)
    (st : StudentState) (s : Student) (c : string) :
  getKnowledgeByType
    (Rounded.mockGainsStudent fl knowledgeCap thinkingCap codingCap mockTotalMax
       minScore st s) c
  = getKnowledgeByType
      (applyKnowledgeGains (state_problems st)
         (Rounded.distributeContestGains fl knowledgeCap
            (map withActualScore (state_problems st)) Knowledge) s) c.
Proof.
  unfold Rounded.mockGainsStudent. cbv zeta.
  repeat match goal with
         | |- context [if ?b then _ else _] => destruct b
         end; reflexivity.
Qed.

(** C10: the loop that applies the distributed knowledge gains of a mock
    contest works problem by problem, in order; for each problem every tag
    receives the same share, [floor(gain / max(1, tagCount))] for a positive
    gain and nothing otherwise.  For a problem with at least one tag, all of
    them knowledge topics, and a positive gain, the knowledge added in total
    is [tagCount * floor(gain / tagCount)], which is at most the gain.  In
    general each knowledge counter of the competitor grows by the sum, over
    the problems, of the share times the number of the problem's tags booked
    on that counter, and nothing else of the competitor changes; the
    knowledge added for a problem is the share times the number of its tags
    that are knowledge topics.  A gain smaller than the number of tags adds
    nothing, and so does any gain on a problem without tags.  The knowledge
    counters after the handler of a mock contest are those that this loop
    leaves. *)
Theorem knowledge_gain_split_over_tags (problems : list Problem)
    (knowledgeGains : list Q) (s : Student) :
  let s' := applyKnowledgeGains problems knowledgeGains s in
  (forall prob, applyKnowledgeGains (problems ++ [prob]) knowledgeGains s
                = applyProblemKnowledge prob
                    (JS.orElse (knowledgeGains !! length problems) 0) s')
  /\ (forall prob g s0,
        applyProblemKnowledge prob g s0
        = fold_left (fun s tag => addKnowledge tag (tagShare prob g) s) (tags prob) s0)
  /\ (forall prob g s0,
        knowledgeSum (applyProblemKnowledge prob g s0)
        = (knowledgeSum s0 + knownCount prob * tagShare prob g)%Z)
  /\ (forall prob g s0,
        0 < g -> (0 < tagCount prob)%Z ->
        Forall (fun t => knownTag t = true) (tags prob) ->
        tagShare prob g = Qfloor (g / inject_Z (tagCount prob))
        /\ knowledgeSum (applyProblemKnowledge prob g s0)
           = (knowledgeSum s0
              + tagCount prob * Qfloor (g / inject_Z (tagCount prob)))%Z
        /\ inject_Z (tagCount prob * Qfloor (g / inject_Z (tagCount prob))) <= g)
  /\ (forall prob g,
        0 < g ->
        tagShare prob g = Qfloor (g / inject_Z (Z.max 1 (tagCount prob)))
        /\ (0 <= tagShare prob g)%Z)
  /\ (forall prob g, g <= 0 -> tagShare prob g = 0%Z)
  /\ (forall c, In c KNOWLEDGE_COUNTERS ->
        getKnowledgeByType s' c
        = (getKnowledgeByType s c
           + knowledgeAddedBy (tagsOn c) problems knowledgeGains)%Z)
  /\ knowledgeSum s'
     = (knowledgeSum s + knowledgeAddedBy knownCount problems knowledgeGains)%Z
  /\ (knowledgeAddedBy knownCount problems knowledgeGains
      <= knowledgeAddedBy tagCount problems knowledgeGains)%Z
  /\ (forall prob,
        (0 <= knownCount prob <= tagCount prob)%Z
        /\ (Forall (fun t => knownTag t = true) (tags prob) ->
            knownCount prob = tagCount prob))
  /\ (forall prob g, inject_Z (tagCount prob * tagShare prob g) <= Qmax 0 g)
  /\ (forall prob g, g < inject_Z (tagCount prob) -> tagShare prob g = 0%Z)
  /\ (forall prob g s0,
        g < inject_Z (tagCount prob) \/ tags prob = [] ->
        applyProblemKnowledge prob g s0 = s0)
  /\ (name s' = name s /\ thinking s' = thinking s /\ coding s' = coding s
      /\ mental s' = mental s /\ pressure s' = pressure s /\ comfort s' = comfort s
      /\ active s' = active s /\ sick_weeks s' = sick_weeks s)
  /\ (forall (fl : Q -> Q) knowledgeCap thinkingCap codingCap mockTotalMax minScore
             (st : StudentState) (c : string),
        getKnowledgeByType
          (Rounded.mockGainsStudent fl knowledgeCap thinkingCap codingCap mockTotalMax
             minScore st s) c
        = getKnowledgeByType
            (applyKnowledgeGains (state_problems st)
               (Rounded.distributeContestGains fl knowledgeCap
                  (map withActualScore (state_problems st)) Knowledge) s) c).
Proof.
  intros s'.
  split; [intros prob; apply applyKnowledgeGains_snoc|].
  split; [intros prob g s0; apply applyProblemKnowledge_share|].
  split.
  { intros prob g s0. rewrite applyProblemKnowledge_share, addKnowledge_fold_known_sum.
    reflexivity. }
  split.
  { intros prob g s0 Hg Hn Hknown.
    assert (E : tagShare prob g = Qfloor (g / inject_Z (tagCount prob))).
    { rewrite (proj1 (tagShare_positive_gain prob g Hg)), Z.max_r by lia. reflexivity. }
    split; [exact E|]. split.
    - rewrite applyProblemKnowledge_share, addKnowledge_fold_known_sum, E.
      rewrite <- (proj2 (knownCount_le prob) Hknown). reflexivity.
    - apply floor_share_le. exact Hn. }
  split; [intros prob g; apply tagShare_positive_gain|].
  split; [intros prob g; apply tagShare_no_gain|].
  split; [intros c Hc; apply applyKnowledgeGains_counter; exact Hc|].
  split; [apply applyKnowledgeGains_sum|].
  split; [apply knowledgeAddedBy_le; intros p; apply knownCount_le|].
  split; [intros prob; apply knownCount_le|].
  split; [intros prob g; apply tagShare_total_le|].
  split; [intros prob g; apply tagShare_small_gain|].
  split.
  { intros prob g s0 [Hlt|Hnil]; rewrite applyProblemKnowledge_share.
    - rewrite (tagShare_small_gain prob g Hlt). apply addKnowledge_fold_zero.
    - rewrite Hnil. reflexivity. }
  split; [apply applyKnowledgeGains_besides|].
  intros fl knowledgeCap thinkingCap codingCap mockTotalMax minScore st c.
  apply rounded_mockGainsStudent_knowledge.
Qed.

(** Three problems with gains 7, 2 and 5: the first has three tags and each
    receives 2; the second has three tags and receives nothing; the third
    has none. *)
Lemma knowledge_gain_split_over_tags_witness :
  let problems := [mkProblem 100 100 None None None [TAG_DS; TAG_GRAPH; TAG_DP];
                   mkProblem 40 100 None None None [TAG_DS; TAG_MATH; TAG_DP_LONG];
                   mkProblem 10 100 None None None []] in
  let s := mkStudent "a" 50 50 50 1 2 3 4 5 20 50 true 0 in
  let s' := applyKnowledgeGains problems [7; 2; 5] s in
  In TAG_DS KNOWLEDGE_COUNTERS
  /\ getKnowledgeByType s' TAG_DS = (1 + 2)%Z
  /\ knowledgeSum s' = (knowledgeSum s + 3 * 2)%Z.
Proof.
  cbv zeta.
  destruct (knowledge_gain_split_over_tags
              [mkProblem 100 100 None None None [TAG_DS; TAG_GRAPH; TAG_DP];
               mkProblem 40 100 None None None [TAG_DS; TAG_MATH; TAG_DP_LONG];
               mkProblem 10 100 None None None []] [7; 2; 5]
              (mkStudent "a" 50 50 50 1 2 3 4 5 20 50 true 0))
    as (_ & _ & _ & _ & _ & _ & Hc & Hsum & _).
  assert (Hin : In TAG_DS KNOWLEDGE_COUNTERS) by (left; reflexivity).
  split; [exact Hin|]. split.
  - rewrite (Hc TAG_DS Hin). reflexivity.
  - rewrite Hsum. reflexivity.
Defined.

(** ** Sums of gains and the scan for the best problem *)

Lemma fold_left_Qplus_acc (l : list Q) (a : Q) :
  fold_left Qplus l a == a + fold_left Qplus l 0.
Proof.
  revert a. induction l as [|x l IH]; intros a; cbn [fold_left].
  - ring.
  - rewrite (IH (a + x)), (IH (0 + x)). ring.
Qed.

Lemma sumQ_cons (x : Q) (l : list Q) : sumQ (x :: l) == x + sumQ l.
Proof.
  unfold sumQ. cbn [fold_left]. rewrite fold_left_Qplus_acc. ring.
Qed.

Lemma sumQ_nil : sumQ [] == 0.
Proof. reflexivity. Qed.

Lemma sumQ_map_scale {A : Type} (f : A -> Q) (c : Q) (l : list A) :
  sumQ (map (fun a => f a * c) l) == sumQ (map f l) * c.
Proof.
  induction l as [|a l IH]; cbn [map].
  - rewrite sumQ_nil. ring.
  - rewrite !sumQ_cons, IH. ring.
Qed.

Lemma sumQ_map_le {A : Type} (f g : A -> Q) (l : list A) :
  (forall a, f a <= g a) -> sumQ (map f l) <= sumQ (map g l).
Proof.
  intros H. induction l as [|a l IH]; cbn [map].
  - apply Qle_refl.
  - rewrite !sumQ_cons. apply Qplus_le_compat; [apply H | exact IH].
Qed.

Lemma sumQ_map_inject {A : Type} (f : A -> Z) (l : list A) :
  sumQ (map (fun a => inject_Z (f a)) l)
  == inject_Z (fold_right Z.add 0%Z (map f l)).
Proof.
  induction l as [|a l IH]; cbn [map fold_right].
  - reflexivity.
  - rewrite sumQ_cons, IH, inject_Z_plus. reflexivity.
Qed.

Lemma sumQ_alter_add (d : Q) (l : list Q) (i : nat) :
  (i < length l)%nat ->
  sumQ (alter (fun g => g + d) i l) == sumQ l + d.
Proof.
  revert i. induction l as [|x l IH]; intros i Hi; cbn [length] in Hi; [lia|].
  destruct i as [|i]; cbn [alter list_alter].
  - rewrite !sumQ_cons. ring.
  - rewrite !sumQ_cons. fold (alter (fun g => g + d) i l).
    rewrite IH by lia. ring.
Qed.

Lemma nth_alter_add (d : Q) (l : list Q) (i j : nat) :
  (i < length l)%nat ->
  nth j (alter (fun g => g + d) i l) 0
  == nth j l 0 + (if Nat.eqb j i then d else 0).
Proof.
  revert i j. induction l as [|x l IH]; intros i j Hi; cbn [length] in Hi; [lia|].
  destruct i as [|i]; destruct j as [|j]; cbn [alter list_alter nth Nat.eqb].
  - reflexivity.
  - ring.
  - ring.
  - fold (alter (fun g => g + d) i l). apply IH. lia.
Qed.

(** The scan returns the first index that holds the highest actual score. *)
Lemma maxScoreScan_spec (rest pre : list Problem) (cur : nat) (best : Q) :
  (cur < length pre)%nat ->
  nth cur (map actualScore pre) 0 == best ->
  (forall j, (j < length pre)%nat -> nth j (map actualScore pre) 0 <= best) ->
  (forall j, (j < cur)%nat -> nth j (map actualScore pre) 0 < best) ->
  let all := map actualScore (pre ++ rest) in
  let idx := maxScoreScan rest (length pre) cur best in
  (idx < length (pre ++ rest))%nat
  /\ (forall j, (j < length (pre ++ rest))%nat -> nth j all 0 <= nth idx all 0)
  /\ (forall j, (j < idx)%nat -> nth j all 0 < nth idx all 0).
Proof.
  revert pre cur best. induction rest as [|p rest IH]; intros pre cur best Hcur Hbest Hle Hlt.
  - cbn [maxScoreScan]. rewrite app_nil_r. cbv zeta.
    split; [exact Hcur|]. split.
    + intros j Hj. rewrite Hbest. apply Hle. exact Hj.
    + intros j Hj. rewrite Hbest. apply Hlt. exact Hj.
  - cbn [maxScoreScan]. cbv zeta.
    assert (Hsplit : pre ++ p :: rest = (pre ++ [p]) ++ rest)
      by (rewrite <- app_assoc; reflexivity).
    assert (Hlen : length (pre ++ [p]) = S (length pre))
      by (rewrite length_app; cbn; lia).
    assert (Hnth_old : forall j, (j < length pre)%nat ->
              nth j (map actualScore (pre ++ [p])) 0 = nth j (map actualScore pre) 0).
    { intros j Hj. rewrite map_app. apply app_nth1. rewrite length_map. exact Hj. }
    assert (Hnth_new : nth (length pre) (map actualScore (pre ++ [p])) 0 = actualScore p).
    { rewrite map_app, app_nth2 by (rewrite length_map; lia).
      rewrite length_map, Nat.sub_diag. reflexivity. }
    destruct (JS.gtb (JS.orElse (Some (actualScore p)) 0) best) eqn:E.
    + apply gtb_lt in E. rewrite (orElse_zero (actualScore p)) in E.
      rewrite Hsplit, <- Hlen.
      apply (IH (pre ++ [p]) (length pre) (JS.orElse (Some (actualScore p)) 0)).
      * lia.
      * rewrite Hnth_new. symmetry. apply orElse_zero.
      * intros j Hj. rewrite (orElse_zero (actualScore p)).
        destruct (Nat.eq_dec j (length pre)) as [->|Hne].
        -- rewrite Hnth_new. apply Qle_refl.
        -- rewrite Hnth_old by lia. apply Qle_trans with best.
           ++ apply Hle. lia.
           ++ apply Qlt_le_weak. exact E.
      * intros j Hj. rewrite (orElse_zero (actualScore p)).
        rewrite Hnth_old by lia. eapply Qle_lt_trans; [apply Hle; lia | exact E].
    + apply gtb_false in E. rewrite (orElse_zero (actualScore p)) in E.
      rewrite Hsplit, <- Hlen.
      apply (IH (pre ++ [p]) cur best).
      * lia.
      * rewrite Hnth_old by lia. exact Hbest.
      * intros j Hj.
        destruct (Nat.eq_dec j (length pre)) as [->|Hne].
        -- rewrite Hnth_new. exact E.
        -- rewrite Hnth_old by lia. apply Hle. lia.
      * intros j Hj. rewrite Hnth_old by lia. apply Hlt. exact Hj.
Qed.

Lemma maxScoreIdxOf_spec (problems : list Problem) :
  problems <> [] ->
  let all := map actualScore problems in
  let idx := maxScoreIdxOf problems in
  (idx < length problems)%nat
  /\ (forall j, (j < length problems)%nat -> nth j all 0 <= nth idx all 0)
  /\ (forall j, (j < idx)%nat -> nth j all 0 < nth idx all 0).
Proof.
  destruct problems as [|p0 rest]; [congruence|]. intros _.
  unfold maxScoreIdxOf.
  apply (maxScoreScan_spec rest [p0] 0 (JS.orElse (Some (actualScore p0)) 0)).
  - cbn. lia.
  - cbn. symmetry. apply orElse_zero.
  - intros j Hj. cbn in Hj. assert (j = 0)%nat as -> by lia.
    cbn. rewrite (orElse_zero (actualScore p0)). apply Qle_refl.
  - intros j Hj. lia.
Qed.

Lemma raw_gains_sum (cap W : Q) (weights : list Q) :
  sumQ weights == W -> ~ W == 0 ->
  sumQ (map (fun w => w / W * cap) weights) == cap.
Proof.
  intros HW Hne.
  rewrite (sumQ_map_scale (fun w => w / W) cap weights).
  change (map (fun w => w / W) weights) with (map (fun w => w * / W) weights).
  rewrite (sumQ_map_scale (fun w => w) (/ W) weights).
  rewrite map_id, HW. field. exact Hne.
Qed.

Lemma floor_gains_deficit (cap W : Q) (weights : list Q) :
  sumQ weights == W -> ~ W == 0 ->
  0 <= inject_Z (Qfloor cap)
       - sumQ (map (fun w => inject_Z (Qfloor (w / W * cap))) weights).
Proof.
  intros HW Hne.
  rewrite (sumQ_map_inject (fun w => Qfloor (w / W * cap)) weights).
  set (z := fold_right Z.add 0%Z (map (fun w => Qfloor (w / W * cap)) weights)).
  assert (Hz : inject_Z z <= cap).
  { unfold z. rewrite <- (sumQ_map_inject (fun w => Qfloor (w / W * cap)) weights).
    apply Qle_trans with (sumQ (map (fun w => w / W * cap) weights)).
    - apply sumQ_map_le. intros w. apply Qfloor_le.
    - rewrite (raw_gains_sum cap W weights HW Hne). apply Qle_refl. }
  assert (Hle : (z <= Qfloor cap)%Z).
  { rewrite <- (Qfloor_Z z). apply Qfloor_resp_le. exact Hz. }
  rewrite Zle_Qle in Hle. lra.
Qed.

(** ** Eligibility along the contest chain (C3) *)

Lemma hasQualification_elem q half stage who :
  hasQualification q half stage who = true <-> who ∈ qualifiedSet q half stage.
Proof.
  unfold hasQualification, qualifiedSet.
  destruct (q !! half) as [stages|]; [|split; [discriminate | set_solver]].
  destruct (stages !! stage) as [qualified|]; cbn.
  - apply bool_decide_eq_true.
  - split; [discriminate | set_solver].
Qed.

Lemma qualifiedSet_init half (q0 : option (gmap nat (gmap string (gset string))))
    h stage :
  qualifiedSet (initQualification half q0) h stage
  = qualifiedSet (default ∅ q0) h stage.
Proof.
  unfold initQualification, qualifiedSet.
  destruct (default ∅ q0 !! half) as [stages|] eqn:E; [reflexivity|].
  destruct (decide (half = h)) as [->|Hne].
  - rewrite lookup_insert_eq, E. rewrite lookup_empty. reflexivity.
  - rewrite lookup_insert_ne by exact Hne. reflexivity.
Qed.

(** The eligible competitors are the active ones that pass [isEligible],
    by their index in the roster. *)
Lemma partitionEligible_eligible env q half comp roster base i :
  i ∈ fst (partitionEligible env q half comp roster base)
  <-> exists s, (base <= i)%nat /\ roster !! (i - base)%nat = Some s
                /\ active s = true /\ isEligible env q half comp s = true.
Proof.
  revert base. induction roster as [|s0 rest IH]; intros base.
  - cbn. split; [intros H; inversion H | intros (s & _ & H & _); discriminate H].
  - cbn [partitionEligible].
    specialize (IH (S base)).
    destruct (partitionEligible env q half comp rest (S base)) as [el inel].
    cbn [fst] in IH.
    assert (Hrest : forall s, (S base <= i)%nat ->
                      (rest !! (i - S base)%nat = Some s
                       <-> (s0 :: rest) !! (i - base)%nat = Some s)).
    { intros s Hi. replace (i - base)%nat with (S (i - S base)) by lia. reflexivity. }
    assert (Hhead : forall s, i = base ->
                      ((s0 :: rest) !! (i - base)%nat = Some s <-> s = s0)).
    { intros s ->. rewrite Nat.sub_diag. cbn. split; congruence. }
    assert (Hskip : i ∈ el <-> exists s, (base <= i)%nat
                      /\ (s0 :: rest) !! (i - base)%nat = Some s
                      /\ active s = true /\ isEligible env q half comp s = true
                      /\ i <> base).
    { rewrite IH. split.
      - intros (s & Hi & Hl & Ha & He). exists s.
        repeat split; [lia | apply Hrest; assumption | assumption | assumption | lia].
      - intros (s & Hi & Hl & Ha & He & Hne). exists s.
        assert (Hi' : (S base <= i)%nat) by lia.
        repeat split; [exact Hi' | apply Hrest; assumption | assumption | assumption]. }
    destruct (active s0) eqn:Hact; cbn [negb].
    + destruct (isEligible env q half comp s0) eqn:Hel; cbn [fst].
      * rewrite elem_of_cons, Hskip. split.
        -- intros [->|(s & Hi & Hl & Ha & He & _)].
           ++ exists s0. repeat split; [lia | apply Hhead; reflexivity | assumption | assumption].
           ++ exists s. repeat split; assumption.
        -- intros (s & Hi & Hl & Ha & He).
           destruct (decide (i = base)) as [Heq|Hne]; [left; exact Heq|].
           right. exists s. repeat split; assumption.
      * rewrite Hskip. split.
        -- intros (s & Hi & Hl & Ha & He & _). exists s. repeat split; assumption.
        -- intros (s & Hi & Hl & Ha & He). exists s.
           repeat split; try assumption.
           intros Heq. apply (Hhead s) in Heq as Hs. apply Hs in Hl. subst s. congruence.
    + cbn [fst]. rewrite Hskip. split.
      * intros (s & Hi & Hl & Ha & He & _). exists s. repeat split; assumption.
      * intros (s & Hi & Hl & Ha & He). exists s.
        repeat split; try assumption.
        intros Heq. apply (Hhead s) in Heq as Hs. apply Hs in Hl. subst s. congruence.
Qed.

(** C3: in half-season [h], the eligible list of a contest is made of the
    active roster members and, when the contest is stage [k > 0] of the
    chain, only of those whose name is in the qualified set of stage
    [k - 1] of [h]: a competitor absent from that set is never eligible.
    At stage 0 every active roster member is eligible.  The list computed
    here is the one [holdCompetitionModalNew] hands to the simulator. *)
Theorem eligibility_follows_the_chain (env : Env) (comp : Competition) (g : Game) :
  let h := halfIndex env g in
  let ledger := default ∅ (qualification g) in
  let k := indexOf (compOrder env) (comp_name comp) in
  let previous := nth (Z.to_nat (k - 1)) (compOrder env) ""%string in
  let eligible :=
    fst (partitionEligible env (initQualification h (qualification g)) h comp
           (students g) 0) in
  (forall i, i ∈ eligible <->
     exists s, students g !! i = Some s /\ active s = true
               /\ ((0 < k)%Z -> name s ∈ qualifiedSet ledger h previous))
  /\ ((0 < k)%Z ->
      forall i s, students g !! i = Some s ->
                  name s ∉ qualifiedSet ledger h previous -> i ∉ eligible)
  /\ (k = 0%Z ->
      forall i s, students g !! i = Some s -> active s = true -> i ∈ eligible)
  /\ match holdCompetitionModalNew env comp g with
     | Simulate _ eligibleStudents _ => eligibleStudents = eligible /\ eligible <> []
     | ChainBroken _ | Skipped _ => eligible = []
     end.
Proof.
  intros h ledger k previous eligible.
  assert (Hchar : forall i, i ∈ eligible <->
            exists s, students g !! i = Some s /\ active s = true
                      /\ ((0 < k)%Z -> name s ∈ qualifiedSet ledger h previous)).
  { intros i. unfold eligible. rewrite partitionEligible_eligible.
    assert (Hel : forall s,
              isEligible env (initQualification h (qualification g)) h comp s = true
              <-> ((0 < k)%Z -> name s ∈ qualifiedSet ledger h previous)).
    { intros s. unfold isEligible. fold k. fold previous.
      destruct (k >? 0)%Z eqn:Ek.
      - rewrite hasQualification_elem, qualifiedSet_init. fold ledger.
        apply Z.gtb_lt in Ek. split; [intros H _; exact H | intros H; apply H; exact Ek].
      - assert (~ (0 < k)%Z) by (rewrite Z.gtb_ltb in Ek; apply Z.ltb_ge in Ek; lia).
        split; [intros _ Hk; contradiction | reflexivity]. }
    rewrite Nat.sub_0_r. split.
    - intros (s & _ & Hl & Ha & He). exists s. rewrite <- Hel. auto.
    - intros (s & Hl & Ha & He). exists s. rewrite Hel.
      repeat split; [lia | assumption | assumption | assumption]. }
  split; [exact Hchar|]. split; [|split].
  - intros Hk i s Hl Hnot Hin. apply Hchar in Hin as (s' & Hl' & _ & Hq).
    rewrite Hl in Hl'. injection Hl' as <-. apply Hnot, Hq, Hk.
  - intros Hk i s Hl Ha. apply Hchar. exists s.
    split; [exact Hl | split; [exact Ha | intros Hpos; lia]].
  - unfold holdCompetitionModalNew. cbv zeta. fold h.
    cbn [students set_qualification].
    unfold eligible.
    destruct (partitionEligible env (initQualification h (qualification g)) h comp
                (students g) 0) as [el inel].
    cbn [fst]. destruct el as [|i el]; cbn [length Nat.eqb].
    + destruct (h =? 1)%nat; reflexivity.
    + split; [reflexivity | discriminate].
Qed.

Lemma eligibility_follows_the_chain_witness :
  let env := mkEnv {[ "SEASON_WEEKS"%string := 52 ]} ∅ None true in
  let a := mkStudent "a" 50 50 50 0 0 0 0 0 20 50 true 0 in
  let b := mkStudent "b" 50 50 50 0 0 0 0 0 20 50 true 0 in
  let ledger : gmap nat (gmap string (gset string)) :=
    {[ 0%nat := {[ COMP_CSP_S1 := {[ "a"%string ]} ]} ]} in
  let g := mkGame [a; b] 100000 15 "普通省" (Some ledger) None None None None in
  let comp := mkCompetition COMP_CSP_S2 15 (Some 400) in
  (0 < indexOf (compOrder env) (comp_name comp))%Z
  /\ 1%nat ∉ fst (partitionEligible env
                    (initQualification (halfIndex env g) (qualification g))
                    (halfIndex env g) comp (students g) 0).
Proof.
  cbv zeta. split; [reflexivity|].
  refine (proj1 (proj2 (eligibility_follows_the_chain _ _ _)) _ 1%nat
            (mkStudent "b" 50 50 50 0 0 0 0 0 20 50 true 0) _ _).
  - reflexivity.
  - reflexivity.
  - intros H. apply (bool_decide_eq_true_2 _) in H. vm_compute in H. discriminate H.
Defined.

(** ** The chain-failure ending (C1) *)

Lemma halfIndex_week env g g' : week g' = week g -> halfIndex env g' = halfIndex env g.
Proof. intros H. unfold halfIndex, halfIndexAt. rewrite H. reflexivity. Qed.

Lemma countPassed_zero (results : list Result) :
  countPassed results = 0%nat -> Forall (fun r => qualifies r = false) results.
Proof.
  unfold countPassed. induction results as [|r rest IH]; intros H; [constructor|].
  rewrite filter_cons in H. destruct (decide (qualifies r = true)) as [E|E].
  - cbn in H. discriminate H.
  - constructor; [apply not_true_is_false; exact E | apply IH; exact H].
Qed.

Lemma addQualified_none roster (results : list Result) (qualified : gset string) :
  Forall (fun r => qualifies r = false) results ->
  fold_left (addQualified roster) results qualified = qualified.
Proof.
  intros H. induction H as [|r rest Hr _ IH]; cbn [fold_left]; [reflexivity|].
  unfold addQualified at 2. rewrite Hr. exact IH.
Qed.

Lemma updateQualifications_fields env results compName g :
  let g' := updateQualifications env results compName g in
  students g' = students g /\ budget g' = budget g /\ week g' = week g
  /\ completedCompetitions g' = completedCompetitions g
  /\ careerCompetitions g' = careerCompetitions g
  /\ fundingIssued g' = fundingIssued g /\ ending g' = ending g.
Proof.
  cbv zeta. unfold updateQualifications.
  destruct (qualification g) as [q|]; [|repeat split; reflexivity].
  destruct (indexOf (compOrder env) compName <? 0)%Z; repeat split; reflexivity.
Qed.

(** When nobody qualifies, [updateQualifications] adds no name to any set
    of the ledger. *)
Lemma updateQualifications_no_name env results compName g h stage :
  Forall (fun r => qualifies r = false) results ->
  qualifiedSet (default ∅ (qualification (updateQualifications env results compName g)))
    h stage
  = qualifiedSet (default ∅ (qualification g)) h stage.
Proof.
  intros Hnone. unfold updateQualifications.
  destruct (qualification g) as [q|] eqn:Eq; [|rewrite Eq; reflexivity].
  destruct (indexOf (compOrder env) compName <? 0)%Z; [rewrite Eq; reflexivity|].
  cbv zeta. cbn [qualification set_qualification default].
  rewrite (addQualified_none _ _ _ Hnone).
  unfold qualifiedSet, id.
  destruct (decide (halfIndex env g = h)) as [->|Hne].
  - rewrite lookup_insert_eq.
    destruct (decide (compName = stage)) as [->|Hs].
    + rewrite lookup_insert_eq. cbn [default].
      destruct (q !! h) as [stages|]; cbn [default]; [reflexivity|].
      rewrite lookup_empty. reflexivity.
    + rewrite lookup_insert_ne by exact Hs.
      destruct (q !! h) as [stages|]; cbn [default]; [reflexivity|].
      rewrite lookup_empty. reflexivity.
  - rewrite lookup_insert_ne by exact Hne. reflexivity.
Qed.

(** C1, as stated, fails: in the second half-season, with nobody eligible
    for the provincial selection, the ending is signalled after the career
    ledger has received the record of the contest. *)
Lemma chain_failure_after_career_record :
  let env := mkEnv {[ "SEASON_WEEKS"%string := 52 ]} ∅ None true in
  let a := mkStudent "a" 50 50 50 0 0 0 0 0 20 50 true 0 in
  let g := mkGame [a] 100000 37 "普通省" None None None None None in
  let comp := mkCompetition COMP_PROVINCIAL 37 (Some 400) in
  halfIndex env g = 1%nat
  /\ match holdCompetitionModalNew env comp g with
     | ChainBroken g' =>
         ending g' = Some CHAIN_BROKEN
         /\ careerCompetitions g = None
         /\ careerCompetitions g' = Some [skippedRecord g comp]
         /\ careerCompetitions g' <> careerCompetitions g
     | _ => False
     end.
Proof.
  cbv zeta. split; [reflexivity|].
  unfold holdCompetitionModalNew. cbv zeta.
  match goal with
  | |- context [partitionEligible ?e ?q ?h ?c ?r ?b] =>
      assert (Hp : partitionEligible e q h c r b = ([], [0%nat])) by reflexivity;
      rewrite Hp
  end.
  cbn [length Nat.eqb].
  match goal with
  | |- context [(halfIndex ?e ?x =? 1)%nat] =>
      assert (Hh : halfIndex e x = 1%nat) by reflexivity; rewrite Hh
  end.
  cbn [Nat.eqb]. repeat split; discriminate.
Qed.

(** C1, amended: for a contest resolved in the second half-season,
    - when no competitor is eligible, the contest is marked completed and a
      career record with zero participants is appended, then the
      chain-failure ending is signalled and the contest stops there: no
      simulation is started, the budget, the funding ledger and the roster
      are untouched and no name enters the qualification ledger;
    - when no participant passes, the ending is signalled right after the
      pass/fail feedback and the qualification update, which adds no name;
      the extra-pressure application, the reward distribution, the
      completion mark and the career record are all skipped. *)
Theorem chain_failure_short_circuits (env : Env) (draws : nat -> Q)
    (comp : Competition) (studentStates : list StudentState) (config : Config)
    (ineligibleStudents : list nat) (g : Game) :
  halfIndex env g = 1%nat ->
  (fst (partitionEligible env (initQualification 1 (qualification g)) 1 comp
          (students g) 0) = [] ->
   exists g',
     holdCompetitionModalNew env comp g = ChainBroken g'
     /\ ending g' = Some CHAIN_BROKEN
     /\ careerCompetitions g'
        = Some (default [] (careerCompetitions g) ++ [skippedRecord g comp])
     /\ completedCompetitions g'
        = Some ({[(1%nat, comp_name comp, comp_week comp)]}
                ∪ default ∅ (completedCompetitions g))
     /\ budget g' = budget g
     /\ fundingIssued g' = fundingIssued g
     /\ students g' = students g
     /\ forall h stage,
          qualifiedSet (default ∅ (qualification g')) h stage
          = qualifiedSet (default ∅ (qualification g)) h stage)
  /\ (countPassed (contestResults env studentStates config comp ineligibleStudents g)
      = 0%nat ->
      let g' := handleCompetitionResults env draws studentStates config comp
                  ineligibleStudents g in
      ending g' = Some CHAIN_BROKEN
      /\ students g' = fst (scoreContest env studentStates config comp g)
      /\ budget g' = budget g
      /\ fundingIssued g' = fundingIssued g
      /\ completedCompetitions g' = completedCompetitions g
      /\ careerCompetitions g' = careerCompetitions g
      /\ forall h stage,
           qualifiedSet (default ∅ (qualification g')) h stage
           = qualifiedSet (default ∅ (qualification g)) h stage).
Proof.
  intros Hhalf. split.
  - intros Hnone. unfold holdCompetitionModalNew. cbv zeta.
    rewrite Hhalf. cbn [students set_qualification].
    destruct (partitionEligible env (initQualification 1 (qualification g)) 1 comp
                (students g) 0) as [el inel].
    cbn [fst] in Hnone. subst el. cbn [length Nat.eqb].
    eexists. split; [reflexivity|].
    repeat split.
    intros h stage. cbn [qualification triggerGameEnding pushCareer markCompleted
                           set_ending set_careerCompetitions
                           set_completedCompetitions set_qualification].
    apply (qualifiedSet_init 1 (qualification g) h stage).
  - intros Hzero g'.
    set (results := contestResults env studentStates config comp ineligibleStudents g)
      in *.
    set (roster := fst (scoreContest env studentStates config comp g)).
    set (g1 := set_students roster g).
    set (g2 := updateQualifications env results (comp_name comp) g1).
    destruct (updateQualifications_fields env results (comp_name comp) g1)
      as (Hs & Hb & Hw & Hc & Hk & Hf & He).
    fold g2 in Hs, Hb, Hw, Hc, Hk, Hf, He.
    assert (Hh2 : halfIndex env g2 = 1%nat).
    { rewrite (halfIndex_week env g g2); [exact Hhalf|]. rewrite Hw. reflexivity. }
    assert (Hg' : g' = triggerGameEnding CHAIN_BROKEN g2).
    { unfold g', handleCompetitionResults. cbv zeta.
      fold results. fold roster. fold g1. fold g2.
      rewrite Hh2, Hzero. reflexivity. }
    rewrite Hg'. unfold triggerGameEnding.
    cbn [ending students budget fundingIssued completedCompetitions
           careerCompetitions qualification set_ending].
    rewrite Hs, Hb, Hc, Hk, Hf.
    repeat split.
    intros h stage. unfold g2.
    rewrite (updateQualifications_no_name env results (comp_name comp) g1 h stage
               (countPassed_zero results Hzero)).
    reflexivity.
Qed.

Lemma chain_failure_short_circuits_witness :
  let env := mkEnv {[ "SEASON_WEEKS"%string := 52 ]} ∅ None true in
  let a := mkStudent "a" 50 50 50 0 0 0 0 0 20 50 true 0 in
  let g := mkGame [a] 100000 37 "普通省" None None None None None in
  let comp := mkCompetition COMP_PROVINCIAL 37 (Some 400) in
  let states := [mkStudentState 0 0 None []] in
  halfIndex env g = 1%nat
  /\ fst (partitionEligible env (initQualification 1 (qualification g)) 1 comp
            (students g) 0) = []
  /\ countPassed (contestResults env states (mkConfig "" None) comp [] g) = 0%nat
  /\ (exists g', holdCompetitionModalNew env comp g = ChainBroken g'
                 /\ budget g' = budget g)
  /\ careerCompetitions
       (handleCompetitionResults env (fun _ => 0.5) states (mkConfig "" None) comp [] g)
     = careerCompetitions g.
Proof.
  cbv zeta.
  set (env := mkEnv {[ "SEASON_WEEKS"%string := 52 ]} ∅ None true).
  set (g := mkGame [mkStudent "a" 50 50 50 0 0 0 0 0 20 50 true 0] 100000 37
              "普通省" None None None None None).
  set (comp := mkCompetition COMP_PROVINCIAL 37 (Some 400)).
  set (states := [mkStudentState 0 0 None []]).
  assert (H1 : halfIndex env g = 1%nat) by reflexivity.
  assert (H2 : fst (partitionEligible env (initQualification 1 (qualification g)) 1
                      comp (students g) 0) = []) by reflexivity.
  assert (H3 : countPassed (contestResults env states (mkConfig "" None) comp [] g)
               = 0%nat) by reflexivity.
  destruct (chain_failure_short_circuits env (fun _ => 0.5) comp states
              (mkConfig "" None) [] g H1) as [HA HB].
  destruct (HA H2) as (g' & Hrun & _ & _ & _ & Hb & _).
  destruct (HB H3) as (_ & _ & _ & _ & _ & Hcareer & _).
  split; [exact H1 | split; [exact H2 | split; [exact H3 | split]]].
  - exists g'. split; assumption.
  - exact Hcareer.
Defined.

(** ** Funding at most once (C2) *)

(** Without a global [halfBoundary_ui], the block that records the funding
    key throws before it reaches the set: the funding ledger keeps the keys
    it had. *)
Lemma distributeRewards_records_nothing env draws results compName g :
  scope env !! "halfBoundary_ui"%string = None ->
  fundingIssued (fst (distributeRewards env draws results compName g))
  = Some (default ∅ (fundingIssued g)).
Proof.
  intros Hscope. unfold distributeRewards, markFundingIssued. cbv zeta.
  rewrite Hscope.
  destruct (bool_decide _); [reflexivity|].
  destruct (_ >? 0)%Z; reflexivity.
Qed.

(** As a consequence a repeated invocation for the same key pays the same
    reward again. *)
Lemma distributeRewards_repeats env draws results compName g :
  scope env !! "halfBoundary_ui"%string = None ->
  fundingKey (halfIndex env g) compName g ∉ default ∅ (fundingIssued g) ->
  let first := distributeRewards env draws results compName g in
  let second := distributeRewards env draws results compName (fst first) in
  snd second = snd first
  /\ budget (fst second) = (budget (fst first) + Z.max 0 (snd first))%Z
  /\ budget (fst first) = (budget g + Z.max 0 (snd first))%Z.
Proof.
  intros Hscope Hkey.
  assert (Hrun : forall g0,
            week g0 = week g ->
            default ∅ (fundingIssued g0) = default ∅ (fundingIssued g) ->
            let total := sumRewards env compName draws results 0 0%Z in
            snd (distributeRewards env draws results compName g0) = total
            /\ budget (fst (distributeRewards env draws results compName g0))
               = (budget g0 + Z.max 0 total)%Z
            /\ week (fst (distributeRewards env draws results compName g0)) = week g).
  { intros g0 Hw Hf total. unfold distributeRewards, markFundingIssued. cbv zeta.
    rewrite Hscope, Hf.
    assert (Hk : fundingKey (halfIndexAt (halfBoundary env) g0) compName g0
                 = fundingKey (halfIndex env g) compName g).
    { unfold fundingKey, halfIndex, halfIndexAt. rewrite Hw. reflexivity. }
    rewrite Hk, (bool_decide_eq_false_2 _ Hkey).
    fold total. destruct (total >? 0)%Z eqn:E; cbn [fst snd JS.tryCatch budget
      week set_budget set_fundingIssued].
    - apply Z.gtb_lt in E. repeat split; [lia | exact Hw].
    - rewrite Z.gtb_ltb in E. apply Z.ltb_ge in E.
      repeat split; [lia | exact Hw]. }
  cbv zeta.
  destruct (Hrun g eq_refl eq_refl) as (H1 & H2 & H3). cbv zeta in H1, H2.
  assert (Hf1 : default ∅ (fundingIssued (fst (distributeRewards env draws results
                                                 compName g)))
                = default ∅ (fundingIssued g)).
  { rewrite (distributeRewards_records_nothing env draws results compName g Hscope).
    reflexivity. }
  destruct (Hrun _ H3 Hf1) as (K1 & K2 & _). cbv zeta in K1, K2.
  rewrite K1, K2, H1, H2. repeat split; reflexivity.
Qed.

(** C2 on the code: with the globals of [script.js] ([SEASON_WEEKS = 52], a
    [uniformInt] function, no [halfBoundary_ui]), a first invocation for
    CSP-S1 in week 10 pays 3500 to the one competitor who passed, and the
    second invocation for the same key pays 3500 again: the budget goes
    from 100000 to 103500 and then to 107000, and the key is in the funding
    ledger after neither call. *)
Theorem distributeRewards_pays_twice :
  let env := mkEnv {[ "SEASON_WEEKS"%string := 52 ]} ∅ None true in
  let a := mkStudent "a" 50 50 50 0 0 0 0 0 20 50 true 0 in
  let g := mkGame [a] 100000 10 "普通省" None None None None None in
  let results := [mkResult 0 (Some 90) true None 0 NoRemark false] in
  let first := distributeRewards env (fun _ => 0.5) results COMP_CSP_S1 g in
  let second := distributeRewards env (fun _ => 0.5) results COMP_CSP_S1 (fst first) in
  snd first = 3500%Z /\ budget (fst first) = 103500%Z
  /\ snd second = 3500%Z /\ budget (fst second) = 107000%Z
  /\ fundingIssued (fst first) = Some ∅
  /\ fundingIssued (fst second) = Some ∅.
Proof.
  cbv zeta. repeat split; reflexivity.
Qed.

(** * Further properties of the code *)

(** ** calculatePassLine *)

(** Sorting in descending order. *)
Lemma insertDesc_perm (x : Q) (l : list Q) : Permutation (insertDesc x l) (x :: l).
Proof.
  induction l as [|y l IH]; cbn [insertDesc]; [reflexivity|].
  destruct (Qle_bool y x); [reflexivity|].
  rewrite IH. apply perm_swap.
Qed.

Lemma sortDesc_perm (l : list Q) : Permutation (sortDesc l) l.
Proof.
  induction l as [|x l IH]; cbn [sortDesc fold_right]; [reflexivity|].
  fold (sortDesc l). rewrite insertDesc_perm, IH. reflexivity.
Qed.

Lemma insertDesc_head_le (x top : Q) (l : list Q) :
  x <= top -> Forall (fun y => y <= top) l ->
  Forall (fun y => y <= top) (insertDesc x l).
Proof.
  intros Hx Hl. rewrite insertDesc_perm. constructor; assumption.
Qed.

(** The first element of the sorted list bounds every element. *)
Lemma sortDesc_head (l : list Q) (top : Q) (rest : list Q) :
  sortDesc l = top :: rest -> Forall (fun y => y <= top) l.
Proof.
  revert top rest. induction l as [|x l IH]; intros top rest H; [constructor|].
  cbn [sortDesc fold_right] in H. fold (sortDesc l) in H.
  destruct (sortDesc l) as [|y s] eqn:Es.
  - cbn in H. injection H as <- <-.
    assert (l = []) as ->.
    { apply Permutation_nil. rewrite <- Es. apply sortDesc_perm. }
    constructor; [apply Qle_refl | constructor].
  - cbn [insertDesc] in H. destruct (Qle_bool y x) eqn:E.
    + injection H as <- <-. apply Qle_bool_iff in E.
      constructor; [apply Qle_refl|].
      eapply Forall_impl; [apply (IH y s eq_refl)|].
      intros a Ha. cbn in Ha. eapply Qle_trans; eassumption.
    + injection H as <- _.
      assert (Hxy : x <= y).
      { apply Qlt_le_weak. apply Qnot_le_lt. intros Hc.
        apply Qle_bool_iff in Hc. congruence. }
      constructor; [exact Hxy | apply (IH y s eq_refl)].
Qed.

Lemma calculatePassLine_base (env : Env) (sortedScores : list Q)
    (passRate totalMax : Q) (compName : string) :
  sortedScores <> [] -> 0 < totalMax ->
  let passCount :=
    Z.max 1 (JS.floor (inject_Z (Z.of_nat (length sortedScores)) * passRate)) in
  let raw := JS.orElse (sortedScores !! Z.to_nat (passCount - 1)) 0 in
  let m := default 1.0 (scope env !! "PASS_LINE_MULTIPLIER"%string) in
  calculatePassLine env sortedScores passRate totalMax compName
  = (if String.eqb compName COMP_NOI
     then Qmax raw (totalMax * 0.8)
     else Qmin (Qmax raw (totalMax * 0.3)) (totalMax * 0.9)) * m.
Proof.
  intros Hne Hpos. cbv zeta. unfold calculatePassLine.
  destruct sortedScores as [|x l]; [congruence|]. cbn [length Nat.eqb].
  assert (Ht : JS.truthy totalMax && JS.gtb totalMax 0 = true).
  { apply andb_true_iff. split; [|apply gtb_lt; exact Hpos].
    unfold JS.truthy. apply negb_true_iff, not_true_iff_false.
    rewrite Qeq_bool_iff. intros E. rewrite E in Hpos. discriminate Hpos. }
  rewrite Ht. destruct (String.eqb compName COMP_NOI); reflexivity.
Qed.

(** X1: for a non-empty score list and a positive contest total, the pass
    line of a non-terminal contest is at least 30% and at most 90% of the
    total, and that of the terminal contest at least 80% of it, each times
    the global pass-line multiplier (1 when none is declared). *)
Theorem pass_line_within_bounds (env : Env) (sortedScores : list Q)
    (passRate totalMax : Q) (compName : string) :
  sortedScores <> [] -> 0 < totalMax ->
  let m := default 1.0 (scope env !! "PASS_LINE_MULTIPLIER"%string) in
  let passLine := calculatePassLine env sortedScores passRate totalMax compName in
  0 <= m ->
  (String.eqb compName COMP_NOI = false ->
   totalMax * 0.3 * m <= passLine /\ passLine <= totalMax * 0.9 * m)
  /\ (String.eqb compName COMP_NOI = true -> totalMax * 0.8 * m <= passLine).
Proof.
  intros Hne Hpos m passLine Hm.
  pose proof (calculatePassLine_base env sortedScores passRate totalMax compName
                Hne Hpos) as Hb. cbv zeta in Hb. fold m passLine in Hb.
  rewrite Hb. split; intros Hn; rewrite Hn.
  - split.
    + apply Qmult_le_compat_r; [|exact Hm].
      apply Q.min_glb; [apply Q.le_max_r|].
      apply Qmult_le_l; [exact Hpos | discriminate].
    + apply Qmult_le_compat_r; [apply Q.le_min_r | exact Hm].
  - apply Qmult_le_compat_r; [apply Q.le_max_r | exact Hm].
Qed.

Lemma pass_line_within_bounds_witness :
  let env := mkEnv ∅ ∅ None true in
  [300; 250; 100] <> []
  /\ 0 < 400
  /\ 400 * 0.3 * 1.0 <= calculatePassLine env [300; 250; 100] 0.5 400 COMP_NOIP
  /\ 400 * 0.8 * 1.0 <= calculatePassLine env [300; 250; 100] 0.5 400 COMP_NOI.
Proof.
  cbv zeta.
  assert (H1 : [300; 250; 100] <> ([] : list Q)) by discriminate.
  assert (H2 : 0 < 400) by reflexivity.
  assert (H3 : 0 <= 1.0) by discriminate.
  split; [exact H1 | split; [exact H2 | split]].
  - exact (proj1 (proj1 (pass_line_within_bounds (mkEnv ∅ ∅ None true)
                           [300; 250; 100] 0.5 400 COMP_NOIP H1 H2 H3) eq_refl)).
  - exact (proj2 (pass_line_within_bounds (mkEnv ∅ ∅ None true)
                    [300; 250; 100] 0.5 400 COMP_NOI H1 H2 H3) eq_refl).
Defined.

Lemma orElse_zero_cases (x : option Q) :
  (exists v, x = Some v /\ JS.orElse x 0 == v) \/ JS.orElse x 0 = 0.
Proof.
  destruct x as [v|]; [left; exists v; split; [reflexivity | apply orElse_zero]|].
  right. reflexivity.
Qed.

(** The score at the pass quota never exceeds the best score. *)
Lemma quota_score_le_top (scores : list Q) (k : nat) (top : Q) (rest : list Q) :
  Forall (fun x => 0 <= x) scores ->
  sortDesc scores = top :: rest ->
  JS.orElse (sortDesc scores !! k) 0 <= top.
Proof.
  intros Hnn Hs.
  pose proof (sortDesc_head scores top rest Hs) as Hle.
  assert (Htop : top ∈ scores).
  { rewrite <- (sortDesc_perm scores), Hs. apply list_elem_of_here. }
  assert (H0 : 0 <= top) by (rewrite Forall_forall in Hnn; apply Hnn; exact Htop).
  destruct (orElse_zero_cases (sortDesc scores !! k)) as [(v & Hv & E)|E].
  - rewrite E. rewrite Forall_forall in Hle. apply Hle.
    rewrite <- (sortDesc_perm scores). eapply list_elem_of_lookup_2. exact Hv.
  - rewrite E. exact H0.
Qed.

Lemma scoreStates_results env compName passLine totalMax baseline minScore
    (states : list StudentState) (roster : list Student) :
  snd (scoreStates env compName passLine totalMax baseline minScore states roster)
  = map (fun st =>
           snd (scoreState env compName passLine totalMax baseline minScore st []))
        states.
Proof.
  revert roster. induction states as [|st rest IH]; intros roster; [reflexivity|].
  cbn [scoreStates map].
  destruct (scoreState env compName passLine totalMax baseline minScore st roster)
    as [roster1 r] eqn:E1.
  specialize (IH roster1).
  destruct (scoreStates env compName passLine totalMax baseline minScore rest roster1)
    as [roster2 results] eqn:E2.
  cbn [snd] in *. rewrite IH. f_equal.
  unfold scoreState in E1. cbv zeta in E1. injection E1 as _ <-. reflexivity.
Qed.

Lemma countPassed_app (l1 l2 : list Result) :
  countPassed (l1 ++ l2) = (countPassed l1 + countPassed l2)%nat.
Proof. unfold countPassed. rewrite filter_app, length_app. reflexivity. Qed.

Lemma countPassed_absent (l : list nat) : countPassed (map absentResult l) = 0%nat.
Proof.
  unfold countPassed. induction l as [|i l IH]; [reflexivity|].
  cbn [map]. rewrite filter_cons.
  destruct (decide (qualifies (absentResult i) = true)) as [E|E]; [discriminate E|].
  exact IH.
Qed.

Lemma countPassed_scored env compName passLine totalMax baseline minScore
    (states : list StudentState) :
  countPassed
    (map (fun st =>
            snd (scoreState env compName passLine totalMax baseline minScore st []))
         states) = 0%nat
  <-> Forall (fun st => totalScore st < passLine) states.
Proof.
  unfold countPassed. induction states as [|st rest IH].
  - split; [constructor | reflexivity].
  - cbn [map]. rewrite filter_cons.
    assert (Hq : qualifies
                   (snd (scoreState env compName passLine totalMax baseline minScore
                           st []))
                 = JS.geb (totalScore st) passLine).
    { unfold scoreState, qualifies. cbv zeta. cbn [snd result_passed notParticipated].
      apply andb_true_r. }
    rewrite Hq. destruct (JS.geb (totalScore st) passLine) eqn:E.
    + destruct (decide (true = true)) as [_|n]; [|congruence].
      split; [intros H; cbn in H; discriminate H|].
      intros H. inversion H as [|? ? Hlt _]; subst.
      apply geb_le in E. exfalso. eapply Qlt_not_le; eassumption.
    + destruct (decide (false = true)) as [n|_]; [discriminate n|].
      rewrite IH. apply geb_false in E. split.
      * intros H. constructor; assumption.
      * intros H. inversion H; assumption.
Qed.

(** X2: with non-negative scores, a positive contest total and no global
    pass-line multiplier, at least one participant of a non-terminal
    contest passes iff the best score reaches 30% of the total (80% at the
    terminal contest); so the contest ends with nobody passing exactly
    when every participant is below that share. *)
Theorem nobody_passes_iff_best_below_floor (env : Env)
    (studentStates : list StudentState) (config : Config) (comp : Competition)
    (ineligibleStudents : list nat) (g : Game) :
  Forall (fun st => 0 <= totalScore st) studentStates ->
  0 < contestTotalMax config comp ->
  scope env !! "PASS_LINE_MULTIPLIER"%string = None ->
  let share := if String.eqb (comp_name comp) COMP_NOI then 0.8 else 0.3 in
  countPassed (contestResults env studentStates config comp ineligibleStudents g)
  = 0%nat
  <-> Forall (fun st => totalScore st < contestTotalMax config comp * share)
        studentStates.
Proof.
  intros Hnn Hpos Hm share.
  unfold contestResults, scoreContest. cbv zeta.
  rewrite scoreStates_results, countPassed_app, countPassed_absent, Nat.add_0_r,
    countPassed_scored.
  set (T := contestTotalMax config comp) in *.
  destruct (decide (studentStates = [])) as [->|Hstates]; [split; constructor|].
  set (scores := map totalScore studentStates).
  assert (Hsn : Forall (fun x => 0 <= x) scores).
  { unfold scores. rewrite Forall_map. exact Hnn. }
  destruct (sortDesc scores) as [|top srest] eqn:Es.
  { exfalso. assert (Hp := sortDesc_perm scores). rewrite Es in Hp.
    apply Permutation_nil in Hp. unfold scores in Hp.
    apply map_eq_nil in Hp. contradiction. }
  set (raw := JS.orElse (sortDesc scores !!
                Z.to_nat (Z.max 1 (JS.floor
                  (inject_Z (Z.of_nat (length (sortDesc scores)))
                   * getPassRateForCompetition env g (comp_name comp))) - 1)) 0).
  set (pl := contestPassLine env studentStates config comp g).
  assert (Hpl : pl = (if String.eqb (comp_name comp) COMP_NOI
                      then Qmax raw (T * 0.8)
                      else Qmin (Qmax raw (T * 0.3)) (T * 0.9)) * 1.0).
  { pose proof (calculatePassLine_base env (sortDesc scores)
                  (getPassRateForCompetition env g (comp_name comp)) T
                  (comp_name comp)) as Hb.
    assert (Hne : sortDesc scores <> []) by (rewrite Es; discriminate).
    specialize (Hb Hne Hpos). cbv zeta in Hb. rewrite Hm in Hb. exact Hb. }
  clearbody pl.
  assert (Hraw : raw <= top) by (apply (quota_score_le_top scores _ top srest Hsn Es)).
  assert (Htop_all : Forall (fun y => y <= top) scores)
    by (apply (sortDesc_head scores top srest Es)).
  assert (Htop_in : top ∈ scores).
  { rewrite <- (sortDesc_perm scores), Es. apply list_elem_of_here. }
  assert (Hfloor : T * share <= pl).
  { rewrite Hpl. unfold share. destruct (String.eqb (comp_name comp) COMP_NOI).
    - pose proof (Q.le_max_r raw (T * 0.8)). lra.
    - assert (T * 0.3 <= Qmin (Qmax raw (T * 0.3)) (T * 0.9)).
      { apply Q.min_glb; [apply Q.le_max_r | lra]. }
      lra. }
  assert (Hceil : T * share <= top -> pl <= top).
  { intros Ht. rewrite Hpl. unfold share in *.
    destruct (String.eqb (comp_name comp) COMP_NOI).
    - assert (Qmax raw (T * 0.8) <= top) by (apply Q.max_lub; assumption). lra.
    - assert (Qmax raw (T * 0.3) <= top) by (apply Q.max_lub; assumption).
      pose proof (Q.le_min_l (Qmax raw (T * 0.3)) (T * 0.9)). lra. }
  split.
  - intros Hall.
    destruct (Qlt_le_dec top (T * share)) as [Hlt|Hge].
    + rewrite Forall_forall. intros st Hst.
      rewrite Forall_forall in Htop_all.
      assert (totalScore st <= top).
      { apply Htop_all. unfold scores. apply list_elem_of_fmap. exists st. auto. }
      lra.
    + exfalso. apply Hceil in Hge.
      unfold scores in Htop_in. apply list_elem_of_fmap in Htop_in as (st & Ht & Hst).
      rewrite Forall_forall in Hall. specialize (Hall st Hst). rewrite <- Ht in Hall.
      lra.
  - intros Hall. eapply Forall_impl; [exact Hall|].
    intros st Hst. cbn in Hst. lra.
Qed.

Lemma nobody_passes_iff_best_below_floor_witness :
  let env := mkEnv {[ "SEASON_WEEKS"%string := 52 ]} ∅ None true in
  let g := mkGame [] 100000 20 "普通省" None None None None None in
  let comp := mkCompetition COMP_NOIP 20 (Some 400) in
  let states := [mkStudentState 0 100 None []; mkStudentState 1 110 None []] in
  Forall (fun st => 0 <= totalScore st) states
  /\ 0 < contestTotalMax (mkConfig "" None) comp
  /\ countPassed (contestResults env states (mkConfig "" None) comp [] g) = 0%nat.
Proof.
  cbv zeta.
  set (env := mkEnv {[ "SEASON_WEEKS"%string := 52 ]} ∅ None true).
  set (g := mkGame [] 100000 20 "普通省" None None None None None).
  set (comp := mkCompetition COMP_NOIP 20 (Some 400)).
  set (states := [mkStudentState 0 100 None []; mkStudentState 1 110 None []]).
  assert (H1 : Forall (fun st => 0 <= totalScore st) states)
    by (repeat constructor; discriminate).
  assert (H2 : 0 < contestTotalMax (mkConfig "" None) comp) by reflexivity.
  assert (H3 : scope env !! "PASS_LINE_MULTIPLIER"%string = None) by reflexivity.
  split; [exact H1 | split; [exact H2|]].
  apply (proj2 (nobody_passes_iff_best_below_floor env states (mkConfig "" None) comp
                  [] g H1 H2 H3)).
  repeat constructor.
Defined.

Lemma windowOr_default (env : Env) (x : string) (d : Q) :
  window env = ∅ -> windowOr env x d = d.
Proof. intros H. unfold windowOr. rewrite H, lookup_empty. reflexivity. Qed.

(** X3: in the arithmetic of the code (a rounding with relative error at
    most [2^-52]), when the page overrides none of the pass-rate constants,
    the pass rate of every contest lies between [0.4 - 2^-53] and
    [0.85 + 2^-51]; the pass quota [max(1, floor(N * passRate))] of a contest
    with [N >= 1] participants is then between 1 and [N], so the quota score
    is read inside the score list.  The rate can exceed 0.85: for a strong
    province at the provincial selection the double sum [0.65 + 0.2] is
    [0.8500000000000001]; with exact arithmetic the rate is at most 0.85. *)
Theorem default_pass_quota_in_range (fl : Q -> Q) (env : Env) (g : Game)
    (compName : string) (sortedScores : list Q) :
  Binary64.precise fl ->
  window env = ∅ ->
  sortedScores <> [] ->
  let passRate := Rounded.getPassRateForCompetition fl env g compName in
  let passCount := Rounded.passCount fl sortedScores passRate in
  (0.4 - 1 / 2 ^ 53 <= passRate /\ passRate <= 0.85 + 1 / 2 ^ 51)
  /\ (1 <= passCount <= Z.of_nat (length sortedScores))%Z
  /\ is_Some (sortedScores !! Z.to_nat (passCount - 1))
  /\ Rounded.getPassRateForCompetition (fun x => x) env g compName <= 0.85
  /\ (province_type g = PROVINCE_STRONG ->
      0.85 < Rounded.getPassRateForCompetition Binary64.round env g COMP_PROVINCIAL).
Proof.
  intros Hp Hw Hne passRate passCount.
  assert (E53 : 1 / 2 ^ 53 == 1 # 9007199254740992) by reflexivity.
  assert (E51 : 1 / 2 ^ 51 == 1 # 2251799813685248) by reflexivity.
  assert (E52 : 1 / 2 ^ 52 == 1 # 4503599627370496) by reflexivity.
  assert (Hrate : 0.4 - 1 / 2 ^ 53 <= passRate /\ passRate <= 0.85 + 1 / 2 ^ 51).
  { unfold passRate, Rounded.getPassRateForCompetition.
    rewrite !(windowOr_default env _ _ Hw).
    destruct (precise_bounds fl 0.65 0.65 0.65 Hp) as [A1 A2]; try discriminate.
    destruct (precise_bounds fl 0.4 0.4 0.4 Hp) as [B1 B2]; try discriminate.
    destruct (precise_bounds fl 0.2 0.2 0.2 Hp) as [C1 C2]; try discriminate.
    rewrite E52 in *. rewrite E53, E51.
    destruct (String.eqb (province_type g) PROVINCE_STRONG);
      [|destruct (String.eqb (province_type g) PROVINCE_WEAK)];
      destruct (String.eqb compName COMP_PROVINCIAL).
    - destruct (precise_bounds fl (fl 0.65 + fl 0.2) 0.8 (0.85 * (1 + (1 # 4503599627370496))) Hp)
        as [D1 D2]; try lra; try discriminate; rewrite E52 in *; lra.
    - lra.
    - destruct (precise_bounds fl (fl 0.4 + fl 0.2) 0.5 (0.6 * (1 + (1 # 4503599627370496))) Hp)
        as [D1 D2]; try lra; try discriminate; rewrite E52 in *; lra.
    - lra.
    - destruct (precise_bounds fl (0.5 + fl 0.2) 0.6 (0.7 * (1 + (1 # 4503599627370496))) Hp)
        as [D1 D2]; try lra; try discriminate; rewrite E52 in *; lra.
    - lra. }
  assert (Hlen : (1 <= Z.of_nat (length sortedScores))%Z).
  { destruct sortedScores; [congruence | cbn [length]; lia]. }
  assert (Hfloor : (JS.floor (fl (inject_Z (Z.of_nat (length sortedScores)) * passRate)%Q)
                    <= Z.of_nat (length sortedScores))%Z).
  { unfold JS.floor. rewrite <- (Qfloor_Z (Z.of_nat (length sortedScores))) at 2.
    apply Qfloor_resp_le.
    assert (HN : 0 <= inject_Z (Z.of_nat (length sortedScores))).
    { change 0 with (inject_Z 0). rewrite <- Zle_Qle. lia. }
    destruct Hrate as [R1 R2]. rewrite E53 in R1. rewrite E51 in R2.
    set (N := inject_Z (Z.of_nat (length sortedScores))) in *. clearbody N.
    destruct (precise_bounds fl (N * passRate) 0 (N * 0.86) Hp) as [_ D];
      try lra.
    - apply Qmult_le_0_compat; lra.
    - apply Qmult_le_l_nonneg; lra.
    - rewrite E52 in D.
      assert (N * 0.86 * (1 + (1 # 4503599627370496)) <= N * 1).
      { rewrite <- Qmult_assoc. apply Qmult_le_l_nonneg; [exact HN | discriminate]. }
      lra. }
  assert (Hcount : (1 <= passCount <= Z.of_nat (length sortedScores))%Z)
    by (unfold passCount, Rounded.passCount; lia).
  split; [exact Hrate | split; [exact Hcount|]].
  split; [apply lookup_lt_is_Some; lia|]. split.
  - unfold Rounded.getPassRateForCompetition. rewrite !(windowOr_default env _ _ Hw).
    destruct (String.eqb (province_type g) PROVINCE_STRONG);
      [|destruct (String.eqb (province_type g) PROVINCE_WEAK)];
      destruct (String.eqb compName COMP_PROVINCIAL); discriminate.
  - intros Hs. unfold Rounded.getPassRateForCompetition.
    rewrite Hs, !(windowOr_default env _ _ Hw). vm_compute. reflexivity.
Qed.

Lemma default_pass_quota_in_range_witness :
  let env := mkEnv ∅ ∅ None true in
  let g := mkGame [] 100000 37 "强省" None None None None None in
  let passRate := Rounded.getPassRateForCompetition Binary64.round env g COMP_PROVINCIAL in
  Binary64.precise Binary64.round /\ window env = ∅ /\ [300; 250; 100] <> []
  /\ (1 <= Rounded.passCount Binary64.round [300; 250; 100]%Q passRate <= 3)%Z
  /\ 0.85 < passRate /\ passRate <= 0.85 + 1 / 2 ^ 51.
Proof.
  cbv zeta.
  assert (H1 : window (mkEnv ∅ ∅ None true) = ∅) by reflexivity.
  assert (H2 : [300; 250; 100] <> ([] : list Q)) by discriminate.
  split; [exact binary64_round_precise|]. split; [exact H1 | split; [exact H2|]].
  destruct (default_pass_quota_in_range Binary64.round (mkEnv ∅ ∅ None true)
              (mkGame [] 100000 37 "强省" None None None None None)
              COMP_PROVINCIAL [300; 250; 100]
              binary64_round_precise H1 H2) as ((_ & R) & C & _ & _ & S).
  split; [exact C | split; [exact (S eq_refl) | exact R]].
Defined.

(** ** distributeContestGains *)

Lemma problemWeight_nonneg (p : Problem) : 0 <= problemWeight p.
Proof.
  unfold problemWeight.
  assert (Hd : 0 <= Qmax 1 (JS.orElse (thinkingBase p) (JS.orElse (codingBase p) 50))).
  { eapply Qle_trans; [|apply Q.le_max_l]. discriminate. }
  destruct (JS.gtb (actualScore p) 0) eqn:E.
  - apply gtb_lt in E. apply Qmult_le_0_compat; [|exact Hd].
    apply Qle_shift_div_l.
    + eapply Qlt_le_trans; [|apply Q.le_max_l]. reflexivity.
    + rewrite Qmult_0_l. apply Qlt_le_weak. exact E.
  - rewrite Qmult_0_l. apply Qle_refl.
Qed.

Lemma problemWeight_zero (p : Problem) : actualScore p <= 0 -> problemWeight p == 0.
Proof.
  intros H. unfold problemWeight.
  assert (E : JS.gtb (actualScore p) 0 = false) by (apply gtb_false; exact H).
  rewrite E. apply Qmult_0_l.
Qed.

Lemma problemWeight_pos (p : Problem) : 0 < problemWeight p -> 0 < actualScore p.
Proof.
  intros H. apply Qnot_le_lt. intros Hle.
  rewrite (problemWeight_zero p Hle) in H. discriminate H.
Qed.

Lemma sumQ_all_zero {A : Type} (f : A -> Q) (l : list A) :
  Forall (fun a => f a == 0) l -> sumQ (map f l) == 0.
Proof.
  intros H. induction H as [|a l Ha _ IH]; [reflexivity|].
  cbn [map]. rewrite sumQ_cons, Ha, IH. reflexivity.
Qed.

Lemma sumQ_nonneg (l : list Q) : Forall (fun x => 0 <= x) l -> 0 <= sumQ l.
Proof.
  intros H. induction H as [|x l Hx _ IH]; [discriminate|].
  rewrite sumQ_cons. lra.
Qed.

Lemma distributeContestGains_length (cap : Q) (problems : list Problem)
    (gainType : GainType) :
  length (distributeContestGains cap problems gainType) = length problems.
Proof.
  unfold distributeContestGains. destruct problems as [|p rest]; [reflexivity|].
  destruct (JS.eqb _ 0); [apply length_map|].
  destruct gainType; rewrite ?length_map; try reflexivity.
  destruct (JS.gtb _ 0); [rewrite length_alter|]; rewrite !length_map; reflexivity.
Qed.

(** X4: when no problem has a positive actual score, every gain is 0,
    whatever the cap and the kind of gain; an empty problem list gives an
    empty list, and in every case the result has one gain per problem. *)
Theorem no_score_no_gain (totalGainCap : Q) (problems : list Problem)
    (gainType : GainType) :
  (Forall (fun p => actualScore p <= 0) problems ->
   distributeContestGains totalGainCap problems gainType
   = map (fun _ => 0) problems)
  /\ distributeContestGains totalGainCap [] gainType = []
  /\ length (distributeContestGains totalGainCap problems gainType)
     = length problems.
Proof.
  split; [|split; [reflexivity | apply distributeContestGains_length]].
  intros Hzero. unfold distributeContestGains.
  destruct problems as [|p rest]; [reflexivity|].
  assert (Hw : sumQ (map problemWeight (p :: rest)) == 0).
  { apply sumQ_all_zero. eapply Forall_impl; [exact Hzero|].
    intros q Hq. apply problemWeight_zero. exact Hq. }
  apply eqb_eq in Hw. rewrite Hw. reflexivity.
Qed.

Lemma no_score_no_gain_witness :
  let problems :=
    [mkProblem 0 100 None (Some 60) None [TAG_DS];
     mkProblem 0 100 None (Some 80) None [TAG_MATH]] in
  Forall (fun p => actualScore p <= 0) problems
  /\ distributeContestGains 12 problems Knowledge = [0; 0].
Proof.
  cbv zeta.
  assert (H : Forall (fun p => actualScore p <= 0)
                [mkProblem 0 100 None (Some 60) None [TAG_DS];
                 mkProblem 0 100 None (Some 80) None [TAG_MATH]])
    by (repeat constructor; discriminate).
  split; [exact H|].
  exact (proj1 (no_score_no_gain 12 _ Knowledge) H).
Defined.

Lemma sumQ_pos_exists {A : Type} (f : A -> Q) (l : list A) :
  0 < sumQ (map f l) -> exists a, a ∈ l /\ 0 < f a.
Proof.
  induction l as [|x l IH]; cbn [map]; intros H.
  - discriminate H.
  - rewrite sumQ_cons in H. destruct (Qlt_le_dec 0 (f x)) as [Hx|Hx].
    + exists x. split; [apply list_elem_of_here | exact Hx].
    + destruct IH as (a & Ha & Hfa); [lra|].
      exists a. split; [apply list_elem_of_further; exact Ha | exact Hfa].
Qed.

(** The shape of the knowledge gains when some weight is not zero. *)
Lemma knowledge_gains_shape (cap : Q) (problems : list Problem) :
  let W := sumQ (map problemWeight problems) in
  let floors :=
    map (fun w => inject_Z (Qfloor (w / W * cap))) (map problemWeight problems) in
  let deficit := inject_Z (Qfloor cap) - sumQ floors in
  ~ W == 0 ->
  distributeContestGains cap problems Knowledge
  = if JS.gtb deficit 0
    then alter (fun g => g + deficit) (maxScoreIdxOf problems) floors
    else floors.
Proof.
  intros W floors deficit HW. unfold distributeContestGains.
  destruct problems as [|p0 rest].
  - exfalso. apply HW. reflexivity.
  - fold W.
    assert (E : JS.eqb W 0 = false) by (apply not_true_iff_false; rewrite eqb_eq; exact HW).
    rewrite E. reflexivity.
Qed.

Lemma floor_share_gain_nonneg (w W cap : Q) :
  0 <= w -> 0 < W -> 0 <= cap -> 0 <= inject_Z (Qfloor (w / W * cap)).
Proof.
  intros Hw HW Hcap. change 0 with (inject_Z 0). rewrite <- Zle_Qle.
  rewrite <- (Qfloor_Z 0). apply Qfloor_resp_le.
  apply Qmult_le_0_compat; [|exact Hcap].
  apply Qle_shift_div_l; [exact HW|]. rewrite Qmult_0_l. exact Hw.
Qed.

Lemma total_weight_cases (problems : list Problem) :
  sumQ (map problemWeight problems) == 0 \/ 0 < sumQ (map problemWeight problems).
Proof.
  assert (H : 0 <= sumQ (map problemWeight problems)).
  { apply sumQ_nonneg. rewrite Forall_map. apply Forall_forall.
    intros p _. apply problemWeight_nonneg. }
  destruct (Qlt_le_dec 0 (sumQ (map problemWeight problems))) as [Hp|Hz];
    [right; exact Hp | left; apply Qle_antisym; assumption].
Qed.

Lemma knowledge_gains_zero_weight (cap : Q) (problems : list Problem) :
  sumQ (map problemWeight problems) == 0 ->
  distributeContestGains cap problems Knowledge = map (fun _ => 0) problems.
Proof.
  intros H. unfold distributeContestGains. destruct problems as [|p rest]; [reflexivity|].
  apply eqb_eq in H. rewrite H. reflexivity.
Qed.

Lemma nth_zeros {A : Type} (l : list A) (i : nat) : nth i (map (fun _ => 0) l) 0 = 0.
Proof.
  revert i. induction l as [|a l IH]; intros [|i]; cbn; try reflexivity. apply IH.
Qed.

Lemma knowledge_gains_nonneg_sum (cap : Q) (problems : list Problem) :
  0 <= cap ->
  Forall (fun g => 0 <= g) (distributeContestGains cap problems Knowledge)
  /\ sumQ (distributeContestGains cap problems Knowledge) <= inject_Z (Qfloor cap).
Proof.
  intros Hcap.
  assert (Hfc : 0 <= inject_Z (Qfloor cap)).
  { change 0 with (inject_Z 0). rewrite <- Zle_Qle, <- (Qfloor_Z 0).
    apply Qfloor_resp_le. exact Hcap. }
  destruct (total_weight_cases problems) as [Hz|Hp].
  - rewrite (knowledge_gains_zero_weight _ _ Hz). split.
    + rewrite Forall_map. apply Forall_forall. intros; apply Qle_refl.
    + rewrite (sumQ_all_zero (fun _ : Problem => 0)); [exact Hfc|].
      apply Forall_forall. intros; reflexivity.
  - set (W := sumQ (map problemWeight problems)) in *.
    set (floors := map (fun w => inject_Z (Qfloor (w / W * cap)))
                     (map problemWeight problems)).
    set (deficit := inject_Z (Qfloor cap) - sumQ floors).
    assert (HW0 : ~ W == 0) by (intros E; rewrite E in Hp; discriminate Hp).
    assert (Hshape := knowledge_gains_shape cap problems HW0).
    cbv zeta in Hshape. fold W floors deficit in Hshape.
    assert (Hne : problems <> []) by (intros ->; apply HW0; reflexivity).
    destruct (maxScoreIdxOf_spec problems Hne) as (Hidx & _ & _).
    assert (Hdef : 0 <= deficit)
      by (apply floor_gains_deficit; [reflexivity | exact HW0]).
    assert (Hfl : Forall (fun g => 0 <= g) floors).
    { unfold floors. rewrite !Forall_map. apply Forall_forall. intros p _.
      apply floor_share_gain_nonneg; [apply problemWeight_nonneg | exact Hp | exact Hcap]. }
    assert (Hlf : length floors = length problems)
      by (unfold floors; rewrite !length_map; reflexivity).
    rewrite Hshape. destruct (JS.gtb deficit 0) eqn:Eg.
    + split.
      * apply Forall_alter; [exact Hfl|]. intros x _ Hx. cbn in Hx |- *. lra.
      * rewrite sumQ_alter_add by lia. unfold deficit. lra.
    + apply gtb_false in Eg. split; [exact Hfl|].
      unfold deficit in Eg, Hdef. lra.
Qed.

(** ** Distribution of the knowledge gain cap in double precision (C4) *)

(** With exact arithmetic the rounded definitions are the exact ones. *)
Lemma rounded_distributeContestGains_exact (cap : Q) (problems : list Problem)
    (gainType : GainType) :
  Rounded.distributeContestGains (fun x => x) cap problems gainType
  = distributeContestGains cap problems gainType.
Proof. reflexivity. Qed.

(** The shape of the knowledge gains when the total weight is not zero. *)
Lemma rounded_knowledge_gains_shape (fl : Q -> Q) (cap : Q) (problems : list Problem) :
  let weights := map (Rounded.problemWeight fl) problems in
  let W := Rounded.sumFl fl weights in
  let floors :=
    map (fun w => inject_Z (Qfloor (fl (fl (w / W) * cap)))) weights in
  let deficit := inject_Z (Qfloor cap) - sumQ floors in
  ~ W == 0 ->
  Rounded.distributeContestGains fl cap problems Knowledge
  = if JS.gtb deficit 0
    then alter (fun g => g + deficit) (maxScoreIdxOf problems) floors
    else floors.
Proof.
  intros weights W floors deficit HW. unfold Rounded.distributeContestGains.
  destruct problems as [|p0 rest].
  - exfalso. apply HW. reflexivity.
  - fold weights. fold W.
    assert (E : JS.eqb W 0 = false) by (apply not_true_iff_false; rewrite eqb_eq; exact HW).
    rewrite E. reflexivity.
Qed.

(** C4, as stated, fails in the arithmetic of the code: for a cap one unit
    in the last place below 15 and two problems of weights 240 and 60, the
    shares 12 and 3 are reached by the rounding of the two products, so
    that the floors sum to 15 while [floor(totalGainCap)] is 14; the
    deficit is negative and nothing corrects it. *)
Lemma knowledge_gains_exceed_floor_cap :
  let totalGainCap := (15 * 2 ^ 49 - 1) / 2 ^ 49 in
  let problems :=
    [mkProblem 80 100 None (Some 300) None [TAG_DS];
     mkProblem 20 100 None (Some 300) None [TAG_MATH]] in
  let gains :=
    Rounded.distributeContestGains Binary64.round totalGainCap problems Knowledge in
  problems <> []
  /\ Forall (fun p => 0 <= actualScore p) problems
  /\ 0 <= totalGainCap
  /\ Binary64.round totalGainCap == totalGainCap
  /\ 0 < Rounded.sumFl Binary64.round
           (map (Rounded.problemWeight Binary64.round) problems)
  /\ gains = [12; 3]
  /\ JS.floor totalGainCap = 14%Z
  /\ ~ sumQ gains == inject_Z (JS.floor totalGainCap).
Proof.
  cbv zeta.
  split; [discriminate|].
  split; [repeat constructor; discriminate|].
  split; [discriminate|].
  split; [vm_compute; reflexivity|].
  split; [vm_compute; reflexivity|].
  split; [vm_compute; reflexivity|].
  split; [vm_compute; reflexivity|].
  intros H. vm_compute in H. discriminate H.
Qed.

(** C4, amended.  In the arithmetic of the code, for a non-empty list of
    problems whose total weight is not zero, each problem gets the floor of
    its share as the code computes it, [floor(fl(fl(w / W) * cap))]; when
    these floors sum to less than [floor(totalGainCap)] the deficit goes in
    full to the first problem that holds the highest actual score, and the
    gains then sum to [floor(totalGainCap)]; otherwise nothing is corrected.
    In every case the gains sum to the larger of [floor(totalGainCap)] and
    the sum of the floors.  With exact arithmetic the floors never exceed
    [floor(totalGainCap)], and the gains sum to it. *)
Theorem knowledge_gains_sum_to_floor_cap_or_floors (fl : Q -> Q) (totalGainCap : Q)
    (problems : list Problem) :
  problems <> [] ->
  ~ Rounded.sumFl fl (map (Rounded.problemWeight fl) problems) == 0 ->
  let weights := map (Rounded.problemWeight fl) problems in
  let totalWeight := Rounded.sumFl fl weights in
  let floors :=
    map (fun w => inject_Z (Qfloor (fl (fl (w / totalWeight) * totalGainCap))))
        weights in
  let deficit := inject_Z (Qfloor totalGainCap) - sumQ floors in
  let idx := maxScoreIdxOf problems in
  let scores := map actualScore problems in
  let gains := Rounded.distributeContestGains fl totalGainCap problems Knowledge in
  sumQ gains == Qmax (inject_Z (Qfloor totalGainCap)) (sumQ floors)
  /\ (sumQ floors <= inject_Z (Qfloor totalGainCap) ->
      sumQ gains == inject_Z (Qfloor totalGainCap))
  /\ length gains = length problems
  /\ (forall i, nth i gains 0
                == nth i floors 0
                   + (if Nat.eqb i idx && JS.gtb deficit 0 then deficit else 0))
  /\ (idx < length problems)%nat
  /\ (forall j, (j < length problems)%nat -> nth j scores 0 <= nth idx scores 0)
  /\ (forall j, (j < idx)%nat -> nth j scores 0 < nth idx scores 0)
  /\ (0 <= totalGainCap -> 0 < sumQ (map problemWeight problems) ->
      sumQ (Rounded.distributeContestGains (fun x => x) totalGainCap problems
              Knowledge)
      == inject_Z (Qfloor totalGainCap)).
Proof.
  intros Hne HW0 weights totalWeight floors deficit idx scores gains.
  destruct (maxScoreIdxOf_spec problems Hne) as (Hidx & Hmax & Hfirst).
  fold idx scores in Hidx, Hmax, Hfirst.
  assert (Hlf : length floors = length problems)
    by (unfold floors, weights; rewrite !length_map; reflexivity).
  assert (Hgains : gains = if JS.gtb deficit 0
                           then alter (fun g => g + deficit) idx floors
                           else floors)
    by (apply rounded_knowledge_gains_shape; exact HW0).
  assert (Hexact : 0 <= totalGainCap -> 0 < sumQ (map problemWeight problems) ->
                   sumQ (Rounded.distributeContestGains (fun x => x) totalGainCap
                           problems Knowledge)
                   == inject_Z (Qfloor totalGainCap)).
  { intros Hcap Hpos. rewrite rounded_distributeContestGains_exact.
    destruct (total_weight_cases problems) as [Hz|_].
    - rewrite Hz in Hpos. discriminate Hpos.
    - destruct (knowledge_gains_nonneg_sum totalGainCap problems Hcap) as [_ Hle].
      apply Qle_antisym; [exact Hle|].
      assert (HWx : ~ sumQ (map problemWeight problems) == 0)
        by (intros E; rewrite E in Hpos; discriminate Hpos).
      pose proof (knowledge_gains_shape totalGainCap problems HWx) as Hs.
      cbv zeta in Hs. rewrite Hs.
      set (fs := map (fun w => inject_Z (Qfloor (w / sumQ (map problemWeight problems)
                                                  * totalGainCap)))
                   (map problemWeight problems)) in *.
      assert (Hlfs : length fs = length problems)
        by (unfold fs; rewrite !length_map; reflexivity).
      destruct (JS.gtb (inject_Z (Qfloor totalGainCap) - sumQ fs) 0) eqn:Eg.
      + rewrite sumQ_alter_add by (fold idx; lia). lra.
      + apply gtb_false in Eg. lra. }
  destruct (JS.gtb deficit 0) eqn:Eg.
  - pose proof (proj1 (gtb_lt _ _) Eg) as Hpos.
    rewrite Hgains.
    assert (Hsum : sumQ (alter (fun g => g + deficit) idx floors)
                   == inject_Z (Qfloor totalGainCap)).
    { rewrite sumQ_alter_add by lia. unfold deficit. ring. }
    split; [|split; [|split; [|split; [|split; [exact Hidx | split; [exact Hmax | split; [exact Hfirst | exact Hexact]]]]]]].
    + rewrite Hsum. symmetry. apply Q.max_l. unfold deficit in Hpos. lra.
    + intros _. exact Hsum.
    + rewrite length_alter. exact Hlf.
    + intros i. rewrite (nth_alter_add deficit floors idx i) by lia.
      destruct (Nat.eqb i idx); reflexivity.
  - pose proof (proj1 (gtb_false _ _) Eg) as Hle.
    rewrite Hgains.
    split; [|split; [|split; [exact Hlf | split; [|split; [exact Hidx | split; [exact Hmax | split; [exact Hfirst | exact Hexact]]]]]]].
    + symmetry. apply Q.max_r. unfold deficit in Hle. lra.
    + intros H. unfold deficit in Hle. lra.
    + intros i. rewrite andb_false_r. ring.
Qed.

Lemma knowledge_gains_sum_to_floor_cap_or_floors_witness :
  let problems :=
    [mkProblem 100 100 None (Some 60) None [TAG_DS];
     mkProblem 100 100 None (Some 60) None [TAG_MATH];
     mkProblem 40 100 None (Some 60) None [TAG_DP]] in
  problems <> []
  /\ ~ Rounded.sumFl Binary64.round
         (map (Rounded.problemWeight Binary64.round) problems) == 0
  /\ sumQ (Rounded.distributeContestGains Binary64.round 8 problems Knowledge) == 8.
Proof.
  cbv zeta.
  set (problems :=
    [mkProblem 100 100 None (Some 60) None [TAG_DS];
     mkProblem 100 100 None (Some 60) None [TAG_MATH];
     mkProblem 40 100 None (Some 60) None [TAG_DP]]).
  assert (H1 : problems <> []) by discriminate.
  assert (H2 : ~ Rounded.sumFl Binary64.round
                   (map (Rounded.problemWeight Binary64.round) problems) == 0)
    by (intros E; vm_compute in E; discriminate E).
  split; [exact H1 | split; [exact H2|]].
  destruct (knowledge_gains_sum_to_floor_cap_or_floors Binary64.round 8 problems H1 H2)
    as (_ & Hsum & _).
  apply Hsum. vm_compute. discriminate.
Defined.

(** ** Knowledge gains in double precision *)

Lemma rounded_problemWeight_nonneg (fl : Q -> Q) (p : Problem) :
  Binary64.monotone fl -> fl 0 == 0 -> 0 <= Rounded.problemWeight fl p.
Proof.
  intros Hm H0. unfold Rounded.problemWeight. cbv zeta.
  apply (rounding_nonneg fl Hm H0).
  assert (Hd : 0 <= Qmax 1 (JS.orElse (thinkingBase p) (JS.orElse (codingBase p) 50))).
  { eapply Qle_trans; [|apply Q.le_max_l]. discriminate. }
  destruct (JS.gtb (actualScore p) 0) eqn:E.
  - apply gtb_lt in E. apply Qmult_le_0_compat; [|exact Hd].
    apply (rounding_nonneg fl Hm H0).
    apply Qle_shift_div_l.
    + eapply Qlt_le_trans; [|apply Q.le_max_l]. reflexivity.
    + rewrite Qmult_0_l. apply Qlt_le_weak. exact E.
  - rewrite Qmult_0_l. apply Qle_refl.
Qed.

Lemma rounded_problemWeight_zero (fl : Q -> Q) (p : Problem) :
  Binary64.monotone fl -> fl 0 == 0 ->
  actualScore p <= 0 -> Rounded.problemWeight fl p == 0.
Proof.
  intros Hm H0 H. unfold Rounded.problemWeight.
  assert (E : JS.gtb (actualScore p) 0 = false) by (apply gtb_false; exact H).
  rewrite E. cbv zeta. apply (rounding_zero fl Hm H0). apply Qmult_0_l.
Qed.

Lemma rounded_sum_nonneg (fl : Q -> Q) (l : list Q) (a : Q) :
  Binary64.monotone fl -> fl 0 == 0 ->
  0 <= a -> Forall (fun x => 0 <= x) l ->
  0 <= fold_left (fun sum w => fl (sum + w)) l a.
Proof.
  intros Hm H0 Ha Hl. revert a Ha.
  induction Hl as [|x l Hx _ IH]; intros a Ha; cbn [fold_left]; [exact Ha|].
  apply IH. apply (rounding_nonneg fl Hm H0). lra.
Qed.

Lemma rounded_sum_zero (fl : Q -> Q) (l : list Q) (a : Q) :
  Binary64.monotone fl -> fl 0 == 0 ->
  a == 0 -> Forall (fun x => x == 0) l ->
  fold_left (fun sum w => fl (sum + w)) l a == 0.
Proof.
  intros Hm H0 Ha Hl. revert a Ha.
  induction Hl as [|x l Hx _ IH]; intros a Ha; cbn [fold_left]; [exact Ha|].
  apply IH. apply (rounding_zero fl Hm H0). rewrite Ha, Hx. reflexivity.
Qed.

Lemma scored_or_not (problems : list Problem) :
  (exists p, p ∈ problems /\ 0 < actualScore p)
  \/ Forall (fun p => actualScore p <= 0) problems.
Proof.
  induction problems as [|q l IH]; [right; constructor|].
  destruct (Qlt_le_dec 0 (actualScore q)) as [Hq|Hq].
  - left. exists q. split; [apply list_elem_of_here | exact Hq].
  - destruct IH as [(p & Hp & Hs)|Hall].
    + left. exists p. split; [apply list_elem_of_further; exact Hp | exact Hs].
    + right. constructor; assumption.
Qed.

(** A total weight that is not zero comes from a problem with a positive
    actual score. *)
Lemma rounded_weight_scored (fl : Q -> Q) (problems : list Problem) :
  Binary64.monotone fl -> fl 0 == 0 ->
  ~ Rounded.sumFl fl (map (Rounded.problemWeight fl) problems) == 0 ->
  exists p, p ∈ problems /\ 0 < actualScore p.
Proof.
  intros Hm H0 HW.
  destruct (scored_or_not problems) as [Hex|Hno]; [exact Hex|].
  exfalso. apply HW. unfold Rounded.sumFl.
  apply (rounded_sum_zero fl _ 0 Hm H0); [reflexivity|].
  rewrite Forall_map. eapply Forall_impl; [exact Hno|].
  intros p Hp. apply (rounded_problemWeight_zero fl p Hm H0). exact Hp.
Qed.

Lemma rounded_share_nonneg (fl : Q -> Q) (w W cap : Q) :
  Binary64.monotone fl -> fl 0 == 0 ->
  0 <= w -> 0 < W -> 0 <= cap ->
  0 <= inject_Z (Qfloor (fl (fl (w / W) * cap))).
Proof.
  intros Hm H0 Hw HW Hcap. change 0 with (inject_Z 0). rewrite <- Zle_Qle.
  rewrite <- (Qfloor_Z 0). apply Qfloor_resp_le.
  apply (rounding_nonneg fl Hm H0).
  apply Qmult_le_0_compat; [|exact Hcap].
  apply (rounding_nonneg fl Hm H0).
  apply Qle_shift_div_l; [exact HW|]. rewrite Qmult_0_l. exact Hw.
Qed.

Lemma rounded_share_zero (fl : Q -> Q) (w W cap : Q) :
  Binary64.monotone fl -> fl 0 == 0 ->
  w == 0 -> inject_Z (Qfloor (fl (fl (w / W) * cap))) == 0.
Proof.
  intros Hm H0 Hw.
  assert (E1 : fl (w / W) == 0).
  { apply (rounding_zero fl Hm H0). rewrite Hw. unfold Qdiv. apply Qmult_0_l. }
  assert (E2 : fl (fl (w / W) * cap) == 0).
  { apply (rounding_zero fl Hm H0). rewrite E1. apply Qmult_0_l. }
  rewrite (Qfloor_comp _ _ E2). reflexivity.
Qed.

Lemma rounded_knowledge_gains_zero_weight (fl : Q -> Q) (cap : Q)
    (problems : list Problem) :
  Rounded.sumFl fl (map (Rounded.problemWeight fl) problems) == 0 ->
  Rounded.distributeContestGains fl cap problems Knowledge
  = map (fun _ => 0) problems.
Proof.
  intros H. unfold Rounded.distributeContestGains.
  destruct problems as [|p rest]; [reflexivity|].
  apply eqb_eq in H. rewrite H. reflexivity.
Qed.

Lemma rounded_distributeContestGains_length (fl : Q -> Q) (cap : Q)
    (problems : list Problem) (gainType : GainType) :
  length (Rounded.distributeContestGains fl cap problems gainType) = length problems.
Proof.
  unfold Rounded.distributeContestGains. destruct problems as [|p rest]; [reflexivity|].
  destruct (JS.eqb _ 0); [apply length_map|].
  destruct gainType; rewrite ?length_map; try reflexivity.
  destruct (JS.gtb _ 0); [rewrite length_alter|]; rewrite !length_map; reflexivity.
Qed.

Lemma rounded_knowledge_gains_nonneg (fl : Q -> Q) (cap : Q) (problems : list Problem) :
  Binary64.monotone fl -> fl 0 == 0 -> 0 <= cap ->
  let gains := Rounded.distributeContestGains fl cap problems Knowledge in
  Forall (fun g => 0 <= g) gains
  /\ forall i p, problems !! i = Some p -> actualScore p <= 0 -> nth i gains 0 == 0.
Proof.
  intros Hm H0 Hcap gains.
  set (weights := map (Rounded.problemWeight fl) problems).
  set (W := Rounded.sumFl fl weights).
  assert (HWnn : 0 <= W).
  { unfold W, Rounded.sumFl. apply (rounded_sum_nonneg fl _ 0 Hm H0); [discriminate|].
    unfold weights. rewrite Forall_map. apply Forall_forall. intros p _.
    apply rounded_problemWeight_nonneg; assumption. }
  destruct (Qeq_dec W 0) as [Hz|HW0].
  - unfold gains. rewrite (rounded_knowledge_gains_zero_weight fl cap problems Hz).
    split.
    + rewrite Forall_map. apply Forall_forall. intros; apply Qle_refl.
    + intros i p _ _. rewrite nth_zeros. reflexivity.
  - assert (Hp : 0 < W).
    { apply Qnot_le_lt. intros Hle. apply HW0. apply Qle_antisym; assumption. }
    set (floors := map (fun w => inject_Z (Qfloor (fl (fl (w / W) * cap)))) weights).
    set (deficit := inject_Z (Qfloor cap) - sumQ floors).
    assert (Hshape := rounded_knowledge_gains_shape fl cap problems HW0).
    cbv zeta in Hshape. fold weights W floors deficit in Hshape.
    assert (Hne : problems <> []) by (intros ->; apply HW0; reflexivity).
    destruct (maxScoreIdxOf_spec problems Hne) as (Hidx & Hmax & _).
    set (idx := maxScoreIdxOf problems) in *.
    assert (Hfl : Forall (fun g => 0 <= g) floors).
    { unfold floors, weights. rewrite !Forall_map. apply Forall_forall. intros p _.
      apply rounded_share_nonneg; try assumption.
      apply rounded_problemWeight_nonneg; assumption. }
    assert (Hlf : length floors = length problems)
      by (unfold floors, weights; rewrite !length_map; reflexivity).
    assert (Hbest : 0 < nth idx (map actualScore problems) 0).
    { destruct (rounded_weight_scored fl problems Hm H0 HW0) as (q & Hq & Hsq).
      apply list_elem_of_lookup in Hq as (j & Hj).
      assert (Hjl : (j < length problems)%nat) by (eapply lookup_lt_Some; exact Hj).
      eapply Qlt_le_trans; [exact Hsq|].
      specialize (Hmax j Hjl).
      rewrite (nth_lookup_Some _ j 0 (actualScore q)) in Hmax; [exact Hmax|].
      rewrite list_lookup_fmap, Hj. reflexivity. }
    assert (Hzero_floor : forall i p, problems !! i = Some p -> actualScore p <= 0 ->
                            nth i floors 0 == 0 /\ i <> idx).
    { intros i p Hi Hs. split.
      - rewrite (nth_lookup_Some _ i 0
                   (inject_Z
                      (Qfloor (fl (fl (Rounded.problemWeight fl p / W) * cap))))).
        + apply rounded_share_zero; try assumption.
          apply rounded_problemWeight_zero; assumption.
        + unfold floors, weights. rewrite !list_lookup_fmap, Hi. reflexivity.
      - intros ->.
        rewrite (nth_lookup_Some _ idx 0 (actualScore p)) in Hbest.
        + lra.
        + rewrite list_lookup_fmap, Hi. reflexivity. }
    unfold gains. rewrite Hshape. destruct (JS.gtb deficit 0) eqn:Eg.
    + apply gtb_lt in Eg. split.
      * apply Forall_alter; [exact Hfl|]. intros x _ Hx. cbn in Hx |- *. lra.
      * intros i p Hi Hs. destruct (Hzero_floor i p Hi Hs) as [Hf Hni].
        rewrite nth_alter_add by lia.
        apply Nat.eqb_neq in Hni. rewrite Hni, Hf. reflexivity.
    + split; [exact Hfl|].
      intros i p Hi Hs. apply (Hzero_floor i p Hi Hs).
Qed.

(** X5: in the arithmetic of the code (any monotone rounding that leaves 0
    as it is), for a cap [totalGainCap >= 0] no knowledge gain is negative
    and a problem on which the competitor scored nothing receives no
    knowledge gain, not even the rounding deficit; the result has one gain
    per problem. *)
Theorem knowledge_gains_go_to_scored_problems (fl : Q -> Q) (totalGainCap : Q)
    (problems : list Problem) :
  Binary64.monotone fl -> fl 0 == 0 -> 0 <= totalGainCap ->
  let gains := Rounded.distributeContestGains fl totalGainCap problems Knowledge in
  Forall (fun g => 0 <= g) gains
  /\ length gains = length problems
  /\ forall i p, problems !! i = Some p -> actualScore p <= 0 -> nth i gains 0 == 0.
Proof.
  intros Hm H0 Hcap gains.
  destruct (rounded_knowledge_gains_nonneg fl totalGainCap problems Hm H0 Hcap)
    as [Hnn Hzero].
  split; [exact Hnn|]. split; [apply rounded_distributeContestGains_length|].
  exact Hzero.
Qed.

Lemma knowledge_gains_go_to_scored_problems_witness :
  let problems :=
    [mkProblem 0 100 None (Some 60) None [TAG_DS];
     mkProblem 70 100 None (Some 60) None [TAG_MATH]] in
  Binary64.monotone Binary64.round /\ Binary64.round 0 == 0 /\ 0 <= 7.25
  /\ nth 0 (Rounded.distributeContestGains Binary64.round 7.25 problems Knowledge) 0
     == 0.
Proof.
  cbv zeta.
  assert (H : 0 <= 7.25) by discriminate.
  split; [exact binary64_round_monotone|].
  split; [exact binary64_round_0 | split; [exact H|]].
  refine (proj2 (proj2 (knowledge_gains_go_to_scored_problems Binary64.round 7.25
                          [mkProblem 0 100 None (Some 60) None [TAG_DS];
                           mkProblem 70 100 None (Some 60) None [TAG_MATH]]
                          binary64_round_monotone binary64_round_0 H))
            0%nat (mkProblem 0 100 None (Some 60) None [TAG_DS]) _ _).
  - reflexivity.
  - discriminate.
Defined.





(** ** handleMockContestResults: the knowledge a mock contest adds *)

Lemma addKnowledge_unknown t a s : knownTag t = false -> addKnowledge t a s = s.
Proof.
  unfold knownTag, addKnowledge. intros H.
  destruct (String.eqb t TAG_DS); [discriminate H|].
  destruct (String.eqb t TAG_GRAPH); [discriminate H|].
  destruct (String.eqb t TAG_STRING); [discriminate H|].
  destruct (String.eqb t TAG_MATH); [discriminate H|].
  cbn [orb] in H. rewrite H. reflexivity.
Qed.

Lemma addKnowledge_sum_bounds t a s :
  (0 <= a)%Z ->
  (knowledgeSum s <= knowledgeSum (addKnowledge t a s) <= knowledgeSum s + a)%Z.
Proof.
  intros Ha. destruct (knownTag t) eqn:E.
  - rewrite (addKnowledge_sum t a s E). lia.
  - rewrite (addKnowledge_unknown t a s E). lia.
Qed.

Lemma addKnowledge_fold_bounds (l : list string) a s :
  (0 <= a)%Z ->
  (knowledgeSum s <= knowledgeSum (fold_left (fun s t => addKnowledge t a s) l s)
   <= knowledgeSum s + Z.of_nat (length l) * a)%Z.
Proof.
  intros Ha. revert s. induction l as [|t l IH]; intros s; cbn [fold_left length].
  - lia.
  - specialize (IH (addKnowledge t a s)).
    pose proof (addKnowledge_sum_bounds t a s Ha). lia.
Qed.

Lemma applyProblemKnowledge_bounds (prob : Problem) (gain : Q) (s : Student) :
  (knowledgeSum s <= knowledgeSum (applyProblemKnowledge prob gain s))%Z
  /\ inject_Z (knowledgeSum (applyProblemKnowledge prob gain s) - knowledgeSum s)
     <= Qmax 0 gain.
Proof.
  assert (Hsame : (knowledgeSum s <= knowledgeSum s)%Z
                  /\ inject_Z (knowledgeSum s - knowledgeSum s) <= Qmax 0 gain).
  { split; [lia|]. rewrite Z.sub_diag. apply Q.le_max_l. }
  unfold applyProblemKnowledge.
  destruct (Qle_bool gain 0) eqn:Eg; [exact Hsame|]. cbv zeta.
  set (tagCount := Z.max 1 (Z.of_nat (length (tags prob)))).
  set (per := JS.floor (gain / inject_Z tagCount)).
  destruct (per <=? 0)%Z eqn:Ep; [exact Hsame|].
  apply Z.leb_gt in Ep.
  pose proof (addKnowledge_fold_bounds (tags prob) per s ltac:(lia)) as [Hlo Hhi].
  split; [exact Hlo|].
  apply Qle_trans with gain; [|apply Q.le_max_r].
  apply Qle_trans with (inject_Z (tagCount * per)).
  - rewrite <- Zle_Qle. unfold tagCount. nia.
  - apply floor_share_le. unfold tagCount. lia.
Qed.

Lemma applyKnowledgeGains_fold_bounds (problems : list Problem) (gains : list Q)
    (idxs : list nat) (s : Student) :
  Forall (fun g => 0 <= g) gains ->
  let s' := fold_left
              (fun s i =>
                 match problems !! i with
                 | Some prob =>
                     applyProblemKnowledge prob (JS.orElse (gains !! i) 0) s
                 | None => s
                 end) idxs s in
  (knowledgeSum s <= knowledgeSum s')%Z
  /\ inject_Z (knowledgeSum s' - knowledgeSum s)
     <= sumQ (map (fun i => nth i gains 0) idxs).
Proof.
  intros Hnn. revert s. induction idxs as [|i idxs IH]; intros s; cbn [fold_left map].
  - split; [lia|]. rewrite Z.sub_diag. apply Qle_refl.
  - set (s1 := match problems !! i with
               | Some prob => applyProblemKnowledge prob (JS.orElse (gains !! i) 0) s
               | None => s
               end).
    destruct (IH s1) as [Hlo Hhi]. cbv zeta in Hlo, Hhi.
    assert (Hgi : 0 <= nth i gains 0).
    { destruct (gains !! i) as [v|] eqn:E.
      - rewrite (nth_lookup_Some _ _ _ _ E). rewrite Forall_forall in Hnn.
        apply Hnn. eapply list_elem_of_lookup_2. exact E.
      - rewrite nth_lookup, E. apply Qle_refl. }
    assert (Hstep : (knowledgeSum s <= knowledgeSum s1)%Z
                    /\ inject_Z (knowledgeSum s1 - knowledgeSum s) <= nth i gains 0).
    { unfold s1. destruct (problems !! i) as [prob|].
      - destruct (applyProblemKnowledge_bounds prob (JS.orElse (gains !! i) 0) s)
          as [H1 H2].
        split; [exact H1|]. eapply Qle_trans; [exact H2|].
        apply Q.max_lub; [exact Hgi|].
        destruct (gains !! i) as [v|] eqn:E.
        + rewrite (orElse_zero v), (nth_lookup_Some _ _ _ _ E). apply Qle_refl.
        + cbn. exact Hgi.
      - split; [lia|]. rewrite Z.sub_diag. exact Hgi. }
    destruct Hstep as [Hs1 Hs2]. cbv zeta. split; [lia|].
    rewrite sumQ_cons.
    replace (knowledgeSum
               (fold_left
                  (fun s i => match problems !! i with
                              | Some prob =>
                                  applyProblemKnowledge prob (JS.orElse (gains !! i) 0) s
                              | None => s
                              end) idxs s1) - knowledgeSum s)%Z
      with ((knowledgeSum s1 - knowledgeSum s)
            + (knowledgeSum
                 (fold_left
                    (fun s i => match problems !! i with
                                | Some prob =>
                                    applyProblemKnowledge prob
                                      (JS.orElse (gains !! i) 0) s
                                | None => s
                                end) idxs s1) - knowledgeSum s1))%Z by lia.
    rewrite inject_Z_plus. lra.
Qed.

Lemma sum_seq_nth (l : list Q) :
  sumQ (map (fun i => nth i l 0) (seq 0 (length l))) == sumQ l.
Proof.
  induction l as [|x l IH]; [reflexivity|].
  cbn [length seq map nth]. rewrite <- seq_shift, map_map.
  rewrite !sumQ_cons. cbn [nth]. rewrite IH. reflexivity.
Qed.

(** ** The knowledge of a mock contest in double precision *)

(** X7: in the mock-contest result handler, in the arithmetic of the code,
    for a knowledge cap [knowledgeCap >= 0]: one contest never lowers the
    total of a competitor's five knowledge counters, and it adds at most
    the sum of the knowledge gains that [distributeContestGains] returned,
    whatever the tags of the problems are.  With exact arithmetic that sum
    is at most [floor(knowledgeCap)]. *)
Theorem mock_contest_knowledge_within_gains (fl : Q -> Q)
    (knowledgeCap thinkingCap codingCap mockTotalMax minScore : Q)
    (st : StudentState) (s : Student) :
  Binary64.monotone fl -> fl 0 == 0 -> 0 <= knowledgeCap ->
  let gains :=
    Rounded.distributeContestGains fl knowledgeCap
      (map withActualScore (state_problems st)) Knowledge in
  let s' := Rounded.mockGainsStudent fl knowledgeCap thinkingCap codingCap
              mockTotalMax minScore st s in
  (knowledgeSum s <= knowledgeSum s')%Z
  /\ inject_Z (knowledgeSum s' - knowledgeSum s) <= sumQ gains
  /\ (knowledgeSum
        (Rounded.mockGainsStudent (fun x => x) knowledgeCap thinkingCap codingCap
           mockTotalMax minScore st s)
      <= knowledgeSum s + Qfloor knowledgeCap)%Z.
Proof.
  intros Hm H0 Hcap gains s'.
  assert (Hgen : forall fl' : Q -> Q,
             Binary64.monotone fl' -> fl' 0 == 0 ->
             let gains' :=
               Rounded.distributeContestGains fl' knowledgeCap
                 (map withActualScore (state_problems st)) Knowledge in
             let t := Rounded.mockGainsStudent fl' knowledgeCap thinkingCap codingCap
                        mockTotalMax minScore st s in
             (knowledgeSum s <= knowledgeSum t)%Z
             /\ inject_Z (knowledgeSum t - knowledgeSum s) <= sumQ gains').
  { intros fl' Hm' H0' gains' t.
    set (s1 := applyKnowledgeGains (state_problems st) gains' s).
    assert (Hks : knowledgeSum t = knowledgeSum s1).
    { unfold t, Rounded.mockGainsStudent. cbv zeta. fold gains'. fold s1.
      repeat match goal with
             | |- context [if ?b then _ else _] => destruct b
             end; reflexivity. }
    destruct (rounded_knowledge_gains_nonneg fl' knowledgeCap
                (map withActualScore (state_problems st)) Hm' H0' Hcap) as [Hnn _].
    fold gains' in Hnn.
    destruct (applyKnowledgeGains_fold_bounds (state_problems st) gains'
                (seq 0 (length (state_problems st))) s Hnn) as [Hlo Hhi].
    cbv zeta in Hlo, Hhi.
    fold (applyKnowledgeGains (state_problems st) gains' s) in Hlo, Hhi.
    fold s1 in Hlo, Hhi.
    assert (Hlen : length (state_problems st) = length gains').
    { unfold gains'. rewrite rounded_distributeContestGains_length, length_map.
      reflexivity. }
    rewrite Hlen, sum_seq_nth in Hhi.
    rewrite Hks. split; [exact Hlo | exact Hhi]. }
  destruct (Hgen fl Hm H0) as [Hlo Hhi].
  split; [exact Hlo | split; [exact Hhi|]].
  destruct (Hgen (fun x => x) (proj1 exact_rounding) ltac:(reflexivity)) as [_ Hx].
  cbv zeta in Hx. rewrite rounded_distributeContestGains_exact in Hx.
  destruct (knowledge_gains_nonneg_sum knowledgeCap
              (map withActualScore (state_problems st)) Hcap) as [_ Hsum].
  assert (Hq : inject_Z (knowledgeSum
                           (Rounded.mockGainsStudent (fun x => x) knowledgeCap
                              thinkingCap codingCap mockTotalMax minScore st s)
                         - knowledgeSum s)
               <= inject_Z (Qfloor knowledgeCap)) by lra.
  rewrite <- Zle_Qle in Hq. lia.
Qed.

Lemma mock_contest_knowledge_within_gains_witness :
  let st := mkStudentState 0 150 None
              [mkProblem 0 100 None (Some 60) None [TAG_DS; TAG_GRAPH];
               mkProblem 0 50 None (Some 80) None [TAG_DP]] in
  let s := mkStudent "a" 50 50 50 1 2 3 4 5 20 50 true 0 in
  let s' := Rounded.mockGainsStudent Binary64.round 7.25 6 6 200 150 st s in
  Binary64.monotone Binary64.round /\ Binary64.round 0 == 0 /\ 0 <= 7.25
  /\ (knowledgeSum s <= knowledgeSum s')%Z
  /\ inject_Z (knowledgeSum s' - knowledgeSum s)
     <= sumQ (Rounded.distributeContestGains Binary64.round 7.25
                (map withActualScore (state_problems st)) Knowledge).
Proof.
  cbv zeta.
  assert (H : 0 <= 7.25) by discriminate.
  split; [exact binary64_round_monotone|].
  split; [exact binary64_round_0 | split; [exact H|]].
  destruct (mock_contest_knowledge_within_gains Binary64.round 7.25 6 6 200 150
              (mkStudentState 0 150 None
                 [mkProblem 0 100 None (Some 60) None [TAG_DS; TAG_GRAPH];
                  mkProblem 0 50 None (Some 80) None [TAG_DP]])
              (mkStudent "a" 50 50 50 1 2 3 4 5 20 50 true 0)
              binary64_round_monotone binary64_round_0 H) as (H1 & H2 & _).
  split; [exact H1 | exact H2].
Defined.

(** ** handleCompetitionResults: the poor-showing flag *)

Lemma Qceiling_pos (x : Q) : (0 < Qceiling x)%Z <-> 0 < x.
Proof.
  split.
  - intros H. apply Qnot_le_lt. intros Hle.
    apply Qceiling_resp_le in Hle. change (Qceiling 0) with 0%Z in Hle. lia.
  - intros H. rewrite Zlt_Qlt. eapply Qlt_le_trans; [exact H | apply Qle_ceiling].
Qed.

Lemma extraPressureOf_range (totalMax baseline sc : Q) :
  (0 <= extraPressureOf totalMax baseline sc <= 15)%Z.
Proof.
  unfold extraPressureOf. destruct (JS.gtb totalMax 0); [|lia].
  cbv zeta.
  set (x := Qmax 0 (baseline - JS.orElse (Some sc) 0) / Qmax 1 (totalMax / 20.0)).
  assert (H0 : 0 <= x).
  { unfold x. apply Qle_shift_div_l.
    - eapply Qlt_le_trans; [|apply Q.le_max_l]. reflexivity.
    - rewrite Qmult_0_l. apply Q.le_max_l. }
  assert (Hc : (0 <= JS.ceil x)%Z).
  { unfold JS.ceil. rewrite <- (Qceiling_Z 0). apply Qceiling_resp_le. exact H0. }
  lia.
Qed.

Lemma extraPressureOf_pos (totalMax sc : Q) :
  0 < totalMax ->
  ((0 < extraPressureOf totalMax (contestBaseline totalMax) sc)%Z
   <-> sc < totalMax / 2).
Proof.
  intros Hpos. unfold extraPressureOf, contestBaseline.
  assert (Hg : JS.gtb totalMax 0 = true) by (apply gtb_lt; exact Hpos).
  rewrite Hg. cbv zeta.
  set (unit := Qmax 1 (totalMax / 20.0)).
  assert (Hu : 0 < unit).
  { unfold unit. eapply Qlt_le_trans; [|apply Q.le_max_l]. reflexivity. }
  set (below := Qmax 0 (totalMax / 2.0 - JS.orElse (Some sc) 0)).
  assert (Hhalf : totalMax / 2.0 == totalMax / 2) by (unfold Qdiv; field).
  assert (Hbelow : 0 < below <-> sc < totalMax / 2).
  { unfold below. rewrite (orElse_zero sc), Hhalf. split.
    - intros H. destruct (Q.max_spec 0 (totalMax / 2 - sc)) as [[_ E]|[Hle E]];
        rewrite E in H; lra.
    - intros H. eapply Qlt_le_trans; [|apply Q.le_max_r]. lra. }
  rewrite <- Hbelow.
  assert (Hdiv : 0 < below / unit <-> 0 < below).
  { split.
    - intros H. apply Qnot_le_lt. intros Hle.
      assert (below / unit <= 0).
      { apply Qle_shift_div_r; [exact Hu|]. rewrite Qmult_0_l. exact Hle. }
      lra.
    - intros H. apply Qlt_shift_div_l; [exact Hu|]. rewrite Qmult_0_l. exact H. }
  rewrite <- Hdiv, <- Qceiling_pos. unfold JS.ceil. lia.
Qed.

(** X8: in a contest with a positive total, a participant gets the
    poor-showing remark and a recorded extra pressure iff the score is
    strictly below half of the total, whether the participant passed,
    failed or came last; the recorded extra pressure is then between 1 and
    15, and it is 0 for everyone else. *)
Theorem poor_showing_iff_below_midpoint (env : Env) (compName : string)
    (passLine totalMax minScore : Q) (st : StudentState) (roster : list Student) :
  0 < totalMax ->
  let r := snd (scoreState env compName passLine totalMax
                  (contestBaseline totalMax) minScore st roster) in
  (result_remark r <> NoRemark <-> totalScore st < totalMax / 2)
  /\ ((0 < result_extraPressure r)%Z <-> totalScore st < totalMax / 2)
  /\ (0 <= result_extraPressure r <= 15)%Z
  /\ (result_remark r = NoRemark
      \/ result_remark r = PoorShowing (result_extraPressure r)).
Proof.
  intros Hpos r.
  pose proof (extraPressureOf_pos totalMax (totalScore st) Hpos) as Hep.
  pose proof (extraPressureOf_range totalMax (contestBaseline totalMax)
                (totalScore st)) as Hrange.
  set (ep := extraPressureOf totalMax (contestBaseline totalMax) (totalScore st)) in *.
  set (flag := poorShowing (JS.geb (totalScore st) passLine)
                 (contestBaseline totalMax) (totalScore st) minScore ep).
  assert (Hr1 : result_extraPressure r = if flag then ep else 0%Z) by reflexivity.
  assert (Hr2 : result_remark r = if flag then PoorShowing ep else NoRemark)
    by reflexivity.
  assert (Hflag : flag = true <-> totalScore st < totalMax / 2).
  { unfold flag, poorShowing. rewrite andb_true_iff, Z.gtb_ltb, Z.ltb_lt, Hep.
    split; [intros [_ H]; exact H|]. intros H. split; [|exact H].
    assert (Hb : JS.gtb (contestBaseline totalMax) 0
                 && JS.ltb (JS.orElse (Some (totalScore st)) 0)
                      (contestBaseline totalMax) = true).
    { unfold contestBaseline.
      assert (Hg : JS.gtb totalMax 0 = true) by (apply gtb_lt; exact Hpos).
      rewrite Hg. apply andb_true_iff. split.
      - apply gtb_lt. apply Qlt_shift_div_l; [reflexivity|]. lra.
      - apply ltb_lt. rewrite (orElse_zero (totalScore st)).
        assert (E : totalMax / 2.0 == totalMax / 2) by (unfold Qdiv; field).
        rewrite E. exact H. }
    rewrite Hb. apply orb_true_iff. left. apply orb_true_r. }
  rewrite Hr1, Hr2. destruct flag.
  - assert (Hlt : totalScore st < totalMax / 2) by (apply Hflag; reflexivity).
    split; [split; [intros _; exact Hlt | intros _; discriminate]|].
    split; [rewrite Hep; tauto|]. split; [exact Hrange | right; reflexivity].
  - assert (Hn : ~ totalScore st < totalMax / 2)
      by (intros H; apply Hflag in H; discriminate H).
    split; [split; [intros H; congruence | intros H; contradiction]|].
    split; [split; [lia | intros H; contradiction]|].
    split; [lia | left; reflexivity].
Qed.

Lemma poor_showing_iff_below_midpoint_witness :
  let st := mkStudentState 0 150 None [] in
  let r := snd (scoreState (mkEnv ∅ ∅ None true) COMP_NOIP 120 400
                  (contestBaseline 400) 100 st []) in
  0 < 400 /\ totalScore st < 400 / 2 /\ result_remark r <> NoRemark.
Proof.
  cbv zeta.
  assert (H1 : 0 < 400) by reflexivity.
  assert (H2 : totalScore (mkStudentState 0 150 None []) < 400 / 2) by reflexivity.
  split; [exact H1 | split; [exact H2|]].
  exact (proj2 (proj1 (poor_showing_iff_below_midpoint (mkEnv ∅ ∅ None true)
                         COMP_NOIP 120 400 100 (mkStudentState 0 150 None []) [] H1))
           H2).
Defined.

(** ** handleCompetitionResults: what it does to the roster *)

Lemma passFailFeedback_range (pressureMult : Q) (passed : bool) (s : Student) :
  0 <= pressureMult -> psychInRange s ->
  psychInRange (passFailFeedback pressureMult passed s).
Proof.
  intros Hm [[Hp0 Hp1] [Hm0 Hm1]]. unfold passFailFeedback, psychInRange.
  destruct passed; cbn [pressure mental set_pressure set_mental].
  - repeat split.
    + apply Q.le_max_l.
    + apply Q.max_lub; [discriminate | lra].
    + apply Q.min_glb; [discriminate | lra].
    + apply Q.le_min_l.
  - repeat split.
    + apply Q.min_glb; [discriminate | nra].
    + apply Q.le_min_l.
    + apply Q.le_max_l.
    + apply Q.max_lub; [discriminate | lra].
Qed.

Lemma passFailFeedback_besides (pressureMult : Q) (passed : bool) (s : Student) :
  besidesPsych (passFailFeedback pressureMult passed s) = besidesPsych s.
Proof. unfold passFailFeedback. destruct passed; reflexivity. Qed.

Lemma map_alter_same {A B : Type} (f : A -> B) (g : A -> A) (i : nat) (l : list A) :
  (forall x, f (g x) = f x) -> map f (alter g i l) = map f l.
Proof.
  intros H. revert i. induction l as [|x l IH]; intros [|i]; cbn; try reflexivity.
  - rewrite H. reflexivity.
  - f_equal. apply IH.
Qed.

Lemma scoreStates_roster env compName passLine totalMax baseline minScore
    (states : list StudentState) (roster : list Student) :
  0 <= pressureMultiplier env ->
  let roster' :=
    fst (scoreStates env compName passLine totalMax baseline minScore states roster) in
  (Forall psychInRange roster -> Forall psychInRange roster')
  /\ map besidesPsych roster' = map besidesPsych roster.
Proof.
  intros Hm. revert roster. induction states as [|st rest IH]; intros roster.
  - cbn. split; [tauto | reflexivity].
  - cbn [scoreStates].
    destruct (scoreState env compName passLine totalMax baseline minScore st roster)
      as [roster1 r] eqn:E1.
    specialize (IH roster1).
    destruct (scoreStates env compName passLine totalMax baseline minScore rest roster1)
      as [roster2 results] eqn:E2.
    cbn [fst] in *. unfold scoreState in E1. cbv zeta in E1. injection E1 as E1 _.
    destruct IH as [IH1 IH2]. split.
    + intros H. apply IH1. rewrite <- E1.
      apply Forall_alter; [exact H|]. intros x _ Hx.
      apply passFailFeedback_range; assumption.
    + rewrite IH2, <- E1. apply map_alter_same. intros x.
      apply passFailFeedback_besides.
Qed.

Lemma applyExtraPressure_roster (pressureMult : Q) (results : list Result)
    (roster : list Student) :
  0 <= pressureMult ->
  let roster' := fold_left (applyExtraPressure pressureMult) results roster in
  (Forall psychInRange roster -> Forall psychInRange roster')
  /\ map besidesPsych roster' = map besidesPsych roster.
Proof.
  intros Hm. revert roster. induction results as [|r rest IH]; intros roster.
  - cbn. split; [tauto | reflexivity].
  - cbn [fold_left]. specialize (IH (applyExtraPressure pressureMult roster r)).
    cbv zeta in IH. destruct IH as [IH1 IH2].
    assert (Hstep : (Forall psychInRange roster ->
                     Forall psychInRange (applyExtraPressure pressureMult roster r))
                    /\ map besidesPsych (applyExtraPressure pressureMult roster r)
                       = map besidesPsych roster).
    { unfold applyExtraPressure. destruct (notParticipated r); [tauto|].
      cbv zeta. destruct (JS.gtb (inject_Z (result_extraPressure r)) 0) eqn:Eg;
        [|tauto].
      apply gtb_lt in Eg. split.
      - intros H. apply Forall_alter; [exact H|].
        intros x _ [[Hp0 Hp1] Hment]. unfold psychInRange.
        cbn [pressure mental set_pressure]. split; [split|exact Hment].
        + apply Q.min_glb; [discriminate | nra].
        + apply Q.le_min_l.
      - apply map_alter_same. intros x. reflexivity. }
    destruct Hstep as [Hs1 Hs2]. cbv zeta. split.
    + intros H. apply IH1, Hs1, H.
    + rewrite IH2. exact Hs2.
Qed.

Lemma distributeRewards_fields env draws results compName g :
  let g' := fst (distributeRewards env draws results compName g) in
  students g' = students g /\ week g' = week g
  /\ qualification g' = qualification g
  /\ completedCompetitions g' = completedCompetitions g
  /\ careerCompetitions g' = careerCompetitions g
  /\ ending g' = ending g.
Proof.
  cbv zeta. unfold distributeRewards, markFundingIssued. cbv zeta.
  destruct (bool_decide _); [repeat split; reflexivity|].
  destruct (_ >? 0)%Z; [|repeat split; reflexivity].
  destruct (scope env !! "halfBoundary_ui"%string); repeat split; reflexivity.
Qed.

Lemma handleCompetitionResults_students env draws studentStates config comp
    ineligibleStudents g :
  let roster := fst (scoreContest env studentStates config comp g) in
  let results := contestResults env studentStates config comp ineligibleStudents g in
  students (handleCompetitionResults env draws studentStates config comp
              ineligibleStudents g) = roster
  \/ students (handleCompetitionResults env draws studentStates config comp
                 ineligibleStudents g)
     = fold_left (applyExtraPressure (pressureMultiplier env)) results roster.
Proof.
  cbv zeta. unfold handleCompetitionResults. cbv zeta.
  set (results := contestResults env studentStates config comp ineligibleStudents g).
  set (roster := fst (scoreContest env studentStates config comp g)).
  set (g1 := set_students roster g).
  set (g2 := updateQualifications env results (comp_name comp) g1).
  destruct (updateQualifications_fields env results (comp_name comp) g1)
    as (Hs & _). fold g2 in Hs. cbn [students set_students g1] in Hs.
  destruct ((halfIndex env g2 =? 1)%nat && (countPassed results =? 0)%nat).
  - left. cbn [students triggerGameEnding set_ending]. exact Hs.
  - right.
    set (g3 := set_students
                 (fold_left (applyExtraPressure (pressureMultiplier env)) results
                    (students g2)) g2).
    destruct (distributeRewards_fields env draws results (comp_name comp) g3)
      as (Hs3 & _).
    destruct (distributeRewards env draws results (comp_name comp) g3) as [g4 total].
    cbn [fst] in Hs3.
    cbn [students pushCareer markCompleted set_careerCompetitions
           set_completedCompetitions].
    rewrite Hs3. unfold g3. cbn [students set_students]. rewrite Hs. reflexivity.
Qed.

(** X9: resolving a formal contest keeps pressure and mental of every
    roster member in [[0, 100]] when they were there before (the global
    pressure multiplier being non-negative), and changes nothing else of
    any student: names, abilities, knowledge, comfort, activity and the
    size and order of the roster are as before. *)
Theorem contest_resolution_keeps_roster (env : Env) (draws : nat -> Q)
    (studentStates : list StudentState) (config : Config) (comp : Competition)
    (ineligibleStudents : list nat) (g : Game) :
  0 <= pressureMultiplier env ->
  let g' := handleCompetitionResults env draws studentStates config comp
              ineligibleStudents g in
  (Forall psychInRange (students g) -> Forall psychInRange (students g'))
  /\ map besidesPsych (students g') = map besidesPsych (students g)
  /\ length (students g') = length (students g).
Proof.
  intros Hm g'.
  pose proof (scoreStates_roster env (comp_name comp)
                (contestPassLine env studentStates config comp g)
                (contestTotalMax config comp)
                (contestBaseline (contestTotalMax config comp))
                (match sortDesc (map totalScore studentStates) with
                 | [] => 0
                 | x :: l => minOf x l
                 end) studentStates (students g) Hm) as Hscore.
  cbv zeta in Hscore.
  fold (scoreContest env studentStates config comp g) in Hscore.
  destruct Hscore as [Hr1 Hb1].
  pose proof (applyExtraPressure_roster (pressureMultiplier env)
                (contestResults env studentStates config comp ineligibleStudents g)
                (fst (scoreContest env studentStates config comp g)) Hm) as [Hr2 Hb2].
  assert (Hmain : (Forall psychInRange (students g) -> Forall psychInRange (students g'))
                  /\ map besidesPsych (students g') = map besidesPsych (students g)).
  { destruct (handleCompetitionResults_students env draws studentStates config comp
                ineligibleStudents g) as [E|E]; fold g' in E; rewrite E.
    - split; [exact Hr1 | exact Hb1].
    - split; [intros H; apply Hr2, Hr1, H | rewrite Hb2; exact Hb1]. }
  destruct Hmain as [H1 H2]. split; [exact H1 | split; [exact H2|]].
  rewrite <- (length_map besidesPsych (students g')), H2. apply length_map.
Qed.

Lemma contest_resolution_keeps_roster_witness :
  let env := mkEnv {[ "SEASON_WEEKS"%string := 52 ]} ∅ None true in
  let a := mkStudent "a" 50 50 50 0 0 0 0 0 95 50 true 0 in
  let g := mkGame [a] 100000 20 "普通省" None None None None None in
  let comp := mkCompetition COMP_NOIP 20 (Some 400) in
  let states := [mkStudentState 0 100 None []] in
  0 <= pressureMultiplier env
  /\ Forall psychInRange (students g)
  /\ Forall psychInRange
       (students (handleCompetitionResults env (fun _ => 0.5) states
                    (mkConfig "" None) comp [] g)).
Proof.
  cbv zeta.
  set (env := mkEnv {[ "SEASON_WEEKS"%string := 52 ]} ∅ None true).
  set (g := mkGame [mkStudent "a" 50 50 50 0 0 0 0 0 95 50 true 0] 100000 20
              "普通省" None None None None None).
  assert (H1 : 0 <= pressureMultiplier env) by discriminate.
  assert (H2 : Forall psychInRange (students g)).
  { repeat constructor; discriminate. }
  split; [exact H1 | split; [exact H2|]].
  exact (proj1 (contest_resolution_keeps_roster env (fun _ => 0.5)
                  [mkStudentState 0 100 None []] (mkConfig "" None)
                  (mkCompetition COMP_NOIP 20 (Some 400)) [] g H1) H2).
Defined.

(** ** holdCompetitionModalNew: skipped contests and broken chains *)

Lemma no_elements_nil {A : Type} (l : list A) : (forall x, x ∉ l) -> l = [].
Proof.
  destruct l as [|x l]; [reflexivity|]. intros H. exfalso.
  apply (H x). apply list_elem_of_here.
Qed.

Lemma holdCompetitionModalNew_no_eligible env comp g :
  fst (partitionEligible env (initQualification (halfIndex env g) (qualification g))
         (halfIndex env g) comp (students g) 0) = [] ->
  let key := (halfIndex env g, comp_name comp, comp_week comp) in
  let q := initQualification (halfIndex env g) (qualification g) in
  let g1 := pushCareer (skippedRecord g comp)
              (markCompleted key (set_qualification (Some q) g)) in
  holdCompetitionModalNew env comp g
  = if (halfIndex env g =? 1)%nat
    then ChainBroken (triggerGameEnding CHAIN_BROKEN g1)
    else Skipped g1.
Proof.
  intros Hnone. cbv zeta. unfold holdCompetitionModalNew. cbv zeta.
  cbn [students set_qualification].
  destruct (partitionEligible env
              (initQualification (halfIndex env g) (qualification g))
              (halfIndex env g) comp (students g) 0) as [el inel].
  cbn [fst] in Hnone. subst el. cbn [length Nat.eqb].
  destruct (halfIndex env g =? 1)%nat; reflexivity.
Qed.

(** X10: in the first half-season a contest for which nobody is eligible
    is skipped, not fatal: it is marked completed and a career record with
    zero participants and one not-qualified entry per active roster member
    is appended, while no ending is signalled and the budget, the funding
    ledger and the roster stay as they were. *)
Theorem first_half_contest_skipped (env : Env) (comp : Competition) (g : Game) :
  halfIndex env g = 0%nat ->
  fst (partitionEligible env (initQualification 0 (qualification g)) 0 comp
         (students g) 0) = [] ->
  exists g',
    holdCompetitionModalNew env comp g = Skipped g'
    /\ ending g' = ending g
    /\ careerCompetitions g'
       = Some (default [] (careerCompetitions g) ++ [skippedRecord g comp])
    /\ passedCount (skippedRecord g comp) = 0%nat
    /\ totalStudents (skippedRecord g comp) = 0%nat
    /\ length (entries (skippedRecord g comp))
       = length (filter (fun s => active s = true) (students g))
    /\ completedCompetitions g'
       = Some ({[(0%nat, comp_name comp, comp_week comp)]}
               ∪ default ∅ (completedCompetitions g))
    /\ budget g' = budget g
    /\ fundingIssued g' = fundingIssued g
    /\ students g' = students g.
Proof.
  intros Hhalf Hnone.
  pose proof (holdCompetitionModalNew_no_eligible env comp g) as H.
  rewrite Hhalf in H. specialize (H Hnone). cbv zeta in H. cbn [Nat.eqb] in H.
  eexists. split; [exact H|].
  repeat split. cbn [skippedRecord entries]. apply length_map.
Qed.

Lemma first_half_contest_skipped_witness :
  let env := mkEnv {[ "SEASON_WEEKS"%string := 52 ]} ∅ None true in
  let a := mkStudent "a" 50 50 50 0 0 0 0 0 20 50 true 0 in
  let g := mkGame [a] 100000 15 "普通省" None None None None None in
  let comp := mkCompetition COMP_CSP_S2 15 (Some 400) in
  halfIndex env g = 0%nat
  /\ exists g', holdCompetitionModalNew env comp g = Skipped g'
                /\ ending g' = ending g.
Proof.
  cbv zeta.
  set (env := mkEnv {[ "SEASON_WEEKS"%string := 52 ]} ∅ None true).
  set (g := mkGame [mkStudent "a" 50 50 50 0 0 0 0 0 20 50 true 0] 100000 15
              "普通省" None None None None None).
  set (comp := mkCompetition COMP_CSP_S2 15 (Some 400)).
  assert (H1 : halfIndex env g = 0%nat) by reflexivity.
  assert (H2 : fst (partitionEligible env (initQualification 0 (qualification g)) 0
                      comp (students g) 0) = []) by reflexivity.
  destruct (first_half_contest_skipped env comp g H1 H2) as (g' & Hrun & He & _).
  split; [exact H1 | exists g'; split; assumption].
Defined.

(** X11: qualification does not carry over between half-seasons.  When the
    ledger of the current half-season holds no name for the previous stage
    of the chain, nobody is eligible for a contest at stage [k > 0],
    whatever the ledger of the other half-season contains: in the second
    half-season the chain-failure ending is signalled, in the first the
    contest is skipped. *)
Theorem no_carry_over_between_halves (env : Env) (comp : Competition) (g : Game) :
  let h := halfIndex env g in
  let k := indexOf (compOrder env) (comp_name comp) in
  let previous := nth (Z.to_nat (k - 1)) (compOrder env) ""%string in
  (0 < k)%Z ->
  qualifiedSet (default ∅ (qualification g)) h previous = ∅ ->
  match holdCompetitionModalNew env comp g with
  | ChainBroken g' => h = 1%nat /\ ending g' = Some CHAIN_BROKEN
  | Skipped g' => h = 0%nat /\ ending g' = ending g
  | Simulate _ _ _ => False
  end.
Proof.
  intros h k previous Hk Hempty.
  assert (Hnone : fst (partitionEligible env (initQualification h (qualification g))
                         h comp (students g) 0) = []).
  { apply no_elements_nil. intros i Hi.
    apply partitionEligible_eligible in Hi as (s & _ & _ & _ & He).
    unfold isEligible in He. fold k in He. fold previous in He.
    assert (Ek : (k >? 0)%Z = true) by (apply Z.gtb_lt; exact Hk).
    rewrite Ek in He. apply hasQualification_elem in He.
    rewrite qualifiedSet_init, Hempty in He. set_solver. }
  rewrite (holdCompetitionModalNew_no_eligible env comp g Hnone). fold h.
  assert (Hh : h = 0%nat \/ h = 1%nat).
  { unfold h, halfIndex, halfIndexAt. destruct (JS.gtb _ _); auto. }
  destruct Hh as [E|E]; rewrite E; cbn [Nat.eqb]; split; reflexivity.
Qed.

Lemma no_carry_over_between_halves_witness :
  let env := mkEnv {[ "SEASON_WEEKS"%string := 52 ]} ∅ None true in
  let a := mkStudent "a" 50 50 50 0 0 0 0 0 20 50 true 0 in
  let ledger : gmap nat (gmap string (gset string)) :=
    {[ 0%nat := {[ COMP_NOIP := {[ "a"%string ]} ]} ]} in
  let g := mkGame [a] 100000 37 "普通省" (Some ledger) None None None None in
  let comp := mkCompetition COMP_PROVINCIAL 37 (Some 400) in
  (0 < indexOf (compOrder env) (comp_name comp))%Z
  /\ "a"%string ∈ qualifiedSet ledger 0 COMP_NOIP
  /\ match holdCompetitionModalNew env comp g with
     | ChainBroken g' => ending g' = Some CHAIN_BROKEN
     | _ => False
     end.
Proof.
  cbv zeta.
  set (env := mkEnv {[ "SEASON_WEEKS"%string := 52 ]} ∅ None true).
  set (ledger := ({[ 0%nat := {[ COMP_NOIP := {[ "a"%string ]} ]} ]}
                  : gmap nat (gmap string (gset string)))).
  set (g := mkGame [mkStudent "a" 50 50 50 0 0 0 0 0 20 50 true 0] 100000 37
              "普通省" (Some ledger) None None None None).
  set (comp := mkCompetition COMP_PROVINCIAL 37 (Some 400)).
  assert (H1 : (0 < indexOf (compOrder env) (comp_name comp))%Z) by reflexivity.
  assert (H2 : qualifiedSet (default ∅ (qualification g)) (halfIndex env g)
                 (nth (Z.to_nat (indexOf (compOrder env) (comp_name comp) - 1))
                    (compOrder env) ""%string) = ∅) by reflexivity.
  pose proof (no_carry_over_between_halves env comp g H1 H2) as H.
  split; [exact H1 | split].
  - apply (bool_decide_eq_true_1 _). vm_compute. reflexivity.
  - destruct (holdCompetitionModalNew env comp g) as [g'|g'|g' el inel].
    + exact (proj2 H).
    + destruct H as [Hh _]. discriminate Hh.
    + exact H.
Defined.

(** ** updateQualifications *)

Lemma addQualified_fold_elem (roster : list Student) (results : list Result)
    (qualified : gset string) (who : string) :
  who ∈ fold_left (addQualified roster) results qualified
  <-> who ∈ qualified
      \/ exists r s, r ∈ results /\ qualifies r = true
                     /\ roster !! result_student r = Some s /\ name s = who.
Proof.
  revert qualified. induction results as [|r rest IH]; intros qualified.
  - cbn. split; [auto|]. intros [H|(r & s & Hr & _)]; [exact H | inversion Hr].
  - cbn [fold_left]. rewrite IH. unfold addQualified at 1. split.
    + intros [H|(r' & s & Hr & Hq & Hs & Hn)].
      * destruct (qualifies r) eqn:Eq; [|left; exact H].
        destruct (roster !! result_student r) as [s|] eqn:Es; [|left; exact H].
        apply elem_of_union in H as [H|H]; [|left; exact H].
        apply elem_of_singleton in H. right. exists r, s.
        split; [apply list_elem_of_here | auto].
      * right. exists r', s. split; [apply list_elem_of_further; exact Hr | auto].
    + intros [H|(r' & s & Hr & Hq & Hs & Hn)].
      * left. destruct (qualifies r); [|exact H].
        destruct (roster !! result_student r); [|exact H].
        apply elem_of_union. right. exact H.
      * apply elem_of_cons in Hr as [->|Hr].
        -- left. rewrite Hq, Hs. apply elem_of_union. left.
           apply elem_of_singleton. symmetry. exact Hn.
        -- right. exists r', s. auto.
Qed.

Lemma updateQualifications_cell env results compName g q :
  qualification g = Some q ->
  (0 <= indexOf (compOrder env) compName)%Z ->
  forall h stage,
    qualifiedSet
      (default ∅ (qualification (updateQualifications env results compName g)))
      h stage
    = if decide (h = halfIndex env g /\ stage = compName)
      then fold_left (addQualified (students g)) results
             (qualifiedSet q (halfIndex env g) compName)
      else qualifiedSet q h stage.
Proof.
  intros Hq Hidx h stage. unfold updateQualifications. rewrite Hq.
  assert (E : (indexOf (compOrder env) compName <? 0)%Z = false)
    by (apply Z.ltb_ge; exact Hidx).
  rewrite E. cbv zeta. cbn [qualification set_qualification].
  unfold qualifiedSet, id. cbn [default from_option].
  destruct (decide (h = halfIndex env g /\ stage = compName)) as [[-> ->]|Hne].
  - rewrite !lookup_insert_eq. cbn [default from_option]. unfold id.
    destruct (q !! halfIndex env g) as [stages|]; [reflexivity|].
    cbn [from_option]. rewrite lookup_empty. reflexivity.
  - destruct (decide (halfIndex env g = h)) as [<-|Hh].
    + rewrite lookup_insert_eq.
      assert (Hs : compName <> stage) by (intros ->; apply Hne; auto).
      rewrite lookup_insert_ne by exact Hs.
      destruct (q !! halfIndex env g) as [stages|]; [reflexivity|].
      cbn [from_option]. rewrite lookup_empty. reflexivity.
    + rewrite lookup_insert_ne by exact Hh. reflexivity.
Qed.

(** X12: when the ledger exists and the contest belongs to the chain,
    [updateQualifications] adds to the set of the current half-season and
    contest exactly the names of the participants who passed; names already
    recorded stay, and the sets of every other contest and half-season are
    untouched.  Without a ledger, or for a contest outside the chain, the
    game is left as it was. *)
Theorem qualification_update_records_passers (env : Env) (results : list Result)
    (compName : string) (g : Game) :
  let g' := updateQualifications env results compName g in
  let h := halfIndex env g in
  (forall q, qualification g = Some q ->
     (0 <= indexOf (compOrder env) compName)%Z ->
     (forall who,
        who ∈ qualifiedSet (default ∅ (qualification g')) h compName
        <-> who ∈ qualifiedSet q h compName
            \/ exists r s, r ∈ results /\ qualifies r = true
                           /\ students g !! result_student r = Some s
                           /\ name s = who)
     /\ (forall h' stage, ~ (h' = h /\ stage = compName) ->
           qualifiedSet (default ∅ (qualification g')) h' stage
           = qualifiedSet q h' stage))
  /\ (qualification g = None -> g' = g)
  /\ ((indexOf (compOrder env) compName < 0)%Z -> g' = g).
Proof.
  intros g' h. split; [|split].
  - intros q Hq Hidx. split.
    + intros who. unfold g'.
      rewrite (updateQualifications_cell env results compName g q Hq Hidx h compName).
      destruct (decide (h = halfIndex env g /\ compName = compName)) as [_|Hn];
        [|exfalso; apply Hn; auto].
      apply addQualified_fold_elem.
    + intros h' stage Hne. unfold g'.
      rewrite (updateQualifications_cell env results compName g q Hq Hidx h' stage).
      destruct (decide (h' = halfIndex env g /\ stage = compName)) as [Hy|_];
        [contradiction | reflexivity].
  - intros Hq. unfold g', updateQualifications. rewrite Hq. reflexivity.
  - intros Hidx. unfold g', updateQualifications.
    destruct (qualification g); [|reflexivity].
    apply Z.ltb_lt in Hidx. rewrite Hidx. reflexivity.
Qed.

Lemma qualification_update_records_passers_witness :
  let env := mkEnv {[ "SEASON_WEEKS"%string := 52 ]} ∅ None true in
  let a := mkStudent "a" 50 50 50 0 0 0 0 0 20 50 true 0 in
  let g := mkGame [a] 100000 10 "普通省" (Some ∅) None None None None in
  let results := [mkResult 0 (Some 90) true None 0 NoRemark false] in
  qualification g = Some ∅
  /\ (0 <= indexOf (compOrder env) COMP_CSP_S1)%Z
  /\ "a"%string
     ∈ qualifiedSet
         (default ∅ (qualification (updateQualifications env results COMP_CSP_S1 g)))
         (halfIndex env g) COMP_CSP_S1.
Proof.
  cbv zeta.
  set (env := mkEnv {[ "SEASON_WEEKS"%string := 52 ]} ∅ None true).
  set (a := mkStudent "a" 50 50 50 0 0 0 0 0 20 50 true 0).
  set (g := mkGame [a] 100000 10 "普通省" (Some ∅) None None None None).
  set (results := [mkResult 0 (Some 90) true None 0 NoRemark false]).
  assert (H1 : qualification g = Some ∅) by reflexivity.
  assert (H2 : (0 <= indexOf (compOrder env) COMP_CSP_S1)%Z) by (vm_compute; discriminate).
  split; [exact H1 | split; [exact H2|]].
  apply (proj1 (proj1 (qualification_update_records_passers env results COMP_CSP_S1 g)
                  ∅ H1 H2)).
  right. exists (mkResult 0 (Some 90) true None 0 NoRemark false), a.
  repeat split. apply list_elem_of_here.
Defined.

(** ** The chain as a whole *)

Lemma indexOfFrom_range (order : list string) (x : string) (i : Z) :
  indexOfFrom order x i = (-1)%Z
  \/ (i <= indexOfFrom order x i < i + Z.of_nat (length order))%Z.
Proof.
  revert i. induction order as [|y rest IH]; intros i; cbn [indexOfFrom length].
  - left. reflexivity.
  - destruct (String.eqb y x); [right; lia|].
    destruct (IH (i + 1)%Z) as [E|E]; [left; exact E | right; lia].
Qed.

Lemma indexOfFrom_found (order : list string) (x : string) (i : Z) :
  x ∈ order -> (i <= indexOfFrom order x i)%Z.
Proof.
  revert i. induction order as [|y rest IH]; intros i Hin; [inversion Hin|].
  cbn [indexOfFrom]. destruct (String.eqb y x) eqn:E; [lia|].
  apply elem_of_cons in Hin as [->|Hin].
  - rewrite String.eqb_refl in E. discriminate E.
  - specialize (IH (i + 1)%Z Hin). lia.
Qed.

(** X13: the chain links up.  If the ledger exists and a contest at stage
    [k > 0] follows in the same week range, every active competitor who
    took part in the previous stage and passed it is among those the next
    contest is simulated for. *)
Theorem passer_enters_next_stage (env : Env) (results : list Result)
    (next : Competition) (g : Game) (r : Result) (s : Student) :
  let k := indexOf (compOrder env) (comp_name next) in
  let previous := nth (Z.to_nat (k - 1)) (compOrder env) ""%string in
  let g' := updateQualifications env results previous g in
  (0 < k)%Z ->
  qualification g <> None ->
  r ∈ results -> qualifies r = true ->
  students g !! result_student r = Some s -> active s = true ->
  match holdCompetitionModalNew env next g' with
  | Simulate _ eligibleStudents _ => result_student r ∈ eligibleStudents
  | ChainBroken _ | Skipped _ => False
  end.
Proof.
  intros k previous g' Hk Hq Hr Hpass Hs Hact.
  destruct (qualification g) as [q|] eqn:Eq; [clear Hq | congruence].
  assert (Hrange : (0 <= k < Z.of_nat (length (compOrder env)))%Z).
  { destruct (indexOfFrom_range (compOrder env) (comp_name next) 0) as [E|E];
      fold (indexOf (compOrder env) (comp_name next)) in E; fold k in E; lia. }
  assert (Hprev : (0 <= indexOf (compOrder env) previous)%Z).
  { apply indexOfFrom_found. apply list_elem_of_In. unfold previous.
    apply nth_In. lia. }
  destruct (updateQualifications_fields env results previous g)
    as (Hst & _ & Hw & _). fold g' in Hst, Hw.
  assert (Hh : halfIndex env g' = halfIndex env g) by (apply halfIndex_week; exact Hw).
  assert (Hin : result_student r
                ∈ fst (partitionEligible env
                         (initQualification (halfIndex env g') (qualification g'))
                         (halfIndex env g') next (students g') 0)).
  { apply partitionEligible_eligible. exists s.
    rewrite Nat.sub_0_r, Hst. repeat split; [lia | exact Hs | exact Hact|].
    unfold isEligible. fold k. fold previous.
    assert (Ek : (k >? 0)%Z = true) by (apply Z.gtb_lt; exact Hk).
    rewrite Ek. apply hasQualification_elem. rewrite qualifiedSet_init, Hh.
    unfold g'.
    rewrite (updateQualifications_cell env results previous g q Eq Hprev
               (halfIndex env g) previous).
    destruct (decide (halfIndex env g = halfIndex env g /\ previous = previous))
      as [_|Hn]; [|exfalso; apply Hn; auto].
    apply addQualified_fold_elem. right. exists r, s. auto. }
  unfold holdCompetitionModalNew. cbv zeta. cbn [students set_qualification].
  destruct (partitionEligible env
              (initQualification (halfIndex env g') (qualification g'))
              (halfIndex env g') next (students g') 0) as [el inel].
  cbn [fst] in Hin. destruct el as [|i el]; [inversion Hin|].
  cbn [length Nat.eqb]. exact Hin.
Qed.

Lemma passer_enters_next_stage_witness :
  let env := mkEnv {[ "SEASON_WEEKS"%string := 52 ]} ∅ None true in
  let a := mkStudent "a" 50 50 50 0 0 0 0 0 20 50 true 0 in
  let g := mkGame [a] 100000 10 "普通省" (Some ∅) None None None None in
  let r := mkResult 0 (Some 90) true None 0 NoRemark false in
  let next := mkCompetition COMP_CSP_S2 15 (Some 400) in
  (0 < indexOf (compOrder env) (comp_name next))%Z
  /\ qualifies r = true
  /\ match holdCompetitionModalNew env next
             (updateQualifications env [r] COMP_CSP_S1 g) with
     | Simulate _ eligibleStudents _ => 0%nat ∈ eligibleStudents
     | _ => False
     end.
Proof.
  cbv zeta.
  set (env := mkEnv {[ "SEASON_WEEKS"%string := 52 ]} ∅ None true).
  set (a := mkStudent "a" 50 50 50 0 0 0 0 0 20 50 true 0).
  set (g := mkGame [a] 100000 10 "普通省" (Some ∅) None None None None).
  set (r := mkResult 0 (Some 90) true None 0 NoRemark false).
  set (next := mkCompetition COMP_CSP_S2 15 (Some 400)).
  assert (H1 : (0 < indexOf (compOrder env) (comp_name next))%Z) by reflexivity.
  assert (H2 : qualification g <> None) by discriminate.
  assert (H3 : r ∈ [r]) by apply list_elem_of_here.
  assert (H4 : qualifies r = true) by reflexivity.
  assert (H5 : students g !! result_student r = Some a) by reflexivity.
  assert (H6 : active a = true) by reflexivity.
  split; [exact H1 | split; [exact H4|]].
  exact (passer_enters_next_stage env [r] next g r a H1 H2 H3 H4 H5 H6).
Defined.

(** ** distributeRewards *)

Lemma uniformInt_range (u : Q) (lo hi : Z) :
  0 <= u -> u < 1 -> (lo <= hi)%Z ->
  (lo <= uniformInt u (inject_Z lo) (inject_Z hi) <= hi)%Z.
Proof.
  intros Hu0 Hu1 Hle. unfold uniformInt, JS.floor.
  set (span := inject_Z hi - inject_Z lo + 1).
  assert (Hspan : 0 < span).
  { unfold span. rewrite Zle_Qle in Hle. lra. }
  assert (Hlow : 0 <= u * span).
  { apply Qmult_le_0_compat; [exact Hu0 | apply Qlt_le_weak; exact Hspan]. }
  assert (Hhigh : u * span < 1 * span).
  { apply Qmult_lt_compat_r; assumption. }
  assert (Es : span == inject_Z hi - inject_Z lo + 1) by reflexivity.
  clearbody span.
  split.
  - rewrite <- (Qfloor_Z lo) at 1. apply Qfloor_resp_le. lra.
  - apply Z.lt_succ_r. rewrite Zlt_Qlt.
    eapply Qle_lt_trans; [apply Qfloor_le|].
    unfold Z.succ. rewrite inject_Z_plus. change (inject_Z 1) with 1.
    lra.
Qed.

Lemma rewardFor_range (env : Env) (compName : string) (u : Q) :
  window env = ∅ -> 0 <= u -> u < 1 ->
  (fst (rewardRange compName) <= rewardFor env compName u
   <= snd (rewardRange compName))%Z.
Proof.
  intros Hw Hu0 Hu1. unfold rewardFor, rewardRange.
  rewrite !(windowOr_default env _ _ Hw).
  unfold NOI_REWARD_MIN, NOI_REWARD_MAX, NOIP_REWARD_MIN, NOIP_REWARD_MAX,
    CSP_S2_REWARD_MIN, CSP_S2_REWARD_MAX, CSP_S1_REWARD_MIN, CSP_S1_REWARD_MAX.
  destruct (String.eqb compName COMP_NOI).
  { destruct (has_uniformInt env); [|cbn; lia].
    apply (uniformInt_range u 30000 50000 Hu0 Hu1). lia. }
  destruct (String.eqb compName COMP_NOIP).
  { destruct (has_uniformInt env); [|cbn; lia].
    apply (uniformInt_range u 10000 20000 Hu0 Hu1). lia. }
  destruct (String.eqb compName COMP_CSP_S2).
  { destruct (has_uniformInt env); [|cbn; lia].
    apply (uniformInt_range u 4000 8000 Hu0 Hu1). lia. }
  destruct (String.eqb compName COMP_CSP_S1).
  { destruct (has_uniformInt env); [|cbn; lia].
    apply (uniformInt_range u 2000 5000 Hu0 Hu1). lia. }
  cbn. lia.
Qed.

Lemma countPassed_cons (r : Result) (rest : list Result) :
  countPassed (r :: rest)
  = ((if qualifies r then 1 else 0) + countPassed rest)%nat.
Proof.
  unfold countPassed. rewrite filter_cons.
  destruct (qualifies r); destruct (decide _) as [E|E]; try congruence; reflexivity.
Qed.

Lemma sumRewards_range (env : Env) (compName : string) (draws : nat -> Q)
    (results : list Result) (i : nat) (acc : Z) :
  window env = ∅ -> (forall j, 0 <= draws j /\ draws j < 1) ->
  let n := Z.of_nat (countPassed results) in
  (acc + n * fst (rewardRange compName)
   <= sumRewards env compName draws results i acc
   <= acc + n * snd (rewardRange compName))%Z.
Proof.
  intros Hw Hd. revert i acc. induction results as [|r rest IH]; intros i acc.
  - cbn. lia.
  - cbn [sumRewards]. rewrite countPassed_cons.
    assert (Hq : negb (result_passed r) || notParticipated r = negb (qualifies r)).
    { unfold qualifies. destruct (result_passed r), (notParticipated r); reflexivity. }
    rewrite Hq. destruct (qualifies r); cbn [negb].
    + specialize (IH (S i) (acc + rewardFor env compName (draws i))%Z).
      destruct (Hd i) as [H0 H1].
      pose proof (rewardFor_range env compName (draws i) Hw H0 H1).
      cbv zeta in IH |- *. lia.
    + specialize (IH (S i) acc). cbv zeta in IH |- *. lia.
Qed.

(** ** The rewards in double precision *)

Lemma rounded_uniformInt_range (fl : Q -> Q) (u : Q) (lo hi : Z) :
  Binary64.monotone fl -> Binary64.exactOnIntegers fl ->
  0 <= u -> u < 1 -> (lo <= hi)%Z ->
  (Z.abs lo <= 2 ^ 51)%Z -> (Z.abs hi <= 2 ^ 51)%Z ->
  (lo <= Rounded.uniformInt fl u (inject_Z lo) (inject_Z hi) <= hi + 1)%Z.
Proof.
  intros Hm Hx Hu0 Hu1 Hle Hlo Hhi. unfold Rounded.uniformInt, JS.floor.
  assert (Hx' : forall z : Z, (Z.abs z <= 4 * 2 ^ 51)%Z -> fl (inject_Z z) == inject_Z z).
  { intros z Hz. apply Hx. change (2 ^ 53)%Z with (4 * 2 ^ 51)%Z. exact Hz. }
  clear Hx. rename Hx' into Hx.
  set (P := (2 ^ 51)%Z) in *.
  assert (HP : (0 < P)%Z) by reflexivity. clearbody P.
  assert (Hc := rounding_compat fl Hm).
  assert (E1 : fl (inject_Z hi - inject_Z lo) == inject_Z (hi - lo)).
  { rewrite (Hc _ (inject_Z (hi - lo))).
    - apply Hx. lia.
    - unfold Z.sub. rewrite inject_Z_plus, inject_Z_opp. reflexivity. }
  assert (E2 : fl (fl (inject_Z hi - inject_Z lo) + 1) == inject_Z (hi - lo + 1)).
  { rewrite (Hc _ (inject_Z (hi - lo + 1))).
    - apply Hx. lia.
    - rewrite E1, inject_Z_plus. reflexivity. }
  set (span := fl (fl (inject_Z hi - inject_Z lo) + 1)) in *.
  assert (Hspan : 0 < span).
  { rewrite E2. change 0 with (inject_Z 0). rewrite <- Zlt_Qlt. lia. }
  assert (H0 : fl 0 == 0) by (apply (Hx 0%Z); lia).
  assert (Hlow : 0 <= fl (u * span)).
  { apply (rounding_nonneg fl Hm H0). apply Qmult_le_0_compat; lra. }
  assert (Hhigh : fl (u * span) <= inject_Z (hi - lo + 1)).
  { apply Qle_trans with (fl (inject_Z (hi - lo + 1))).
    - apply Hm. rewrite <- E2.
      assert (u * span <= 1 * span) by (apply Qmult_le_compat_r; lra). lra.
    - rewrite (Hx (hi - lo + 1)%Z) by lia. apply Qle_refl. }
  set (t := fl (u * span)) in *. clearbody t. clear E1 E2. clearbody span.
  split.
  - rewrite <- (Qfloor_Z lo) at 1. apply Qfloor_resp_le.
    apply Qle_trans with (fl (inject_Z lo)).
    + rewrite (Hx lo) by lia. apply Qle_refl.
    + apply Hm. lra.
  - rewrite <- (Qfloor_Z (hi + 1)). apply Qfloor_resp_le.
    apply Qle_trans with (fl (inject_Z (hi + 1))).
    + apply Hm. unfold Z.sub in Hhigh.
      rewrite !inject_Z_plus, inject_Z_opp in Hhigh. rewrite inject_Z_plus.
      change (inject_Z 1) with 1 in *. lra.
    + rewrite (Hx (hi + 1)%Z) by lia. apply Qle_refl.
Qed.

Lemma rounded_rewardFor_range (fl : Q -> Q) (env : Env) (compName : string) (u : Q) :
  Binary64.monotone fl -> Binary64.exactOnIntegers fl ->
  window env = ∅ -> 0 <= u -> u < 1 ->
  (fst (rewardRange compName) <= Rounded.rewardFor fl env compName u
   <= snd (rewardRange compName) + 1)%Z.
Proof.
  intros Hm Hx Hw Hu0 Hu1. unfold Rounded.rewardFor, rewardRange.
  rewrite !(windowOr_default env _ _ Hw).
  unfold NOI_REWARD_MIN, NOI_REWARD_MAX, NOIP_REWARD_MIN, NOIP_REWARD_MAX,
    CSP_S2_REWARD_MIN, CSP_S2_REWARD_MAX, CSP_S1_REWARD_MIN, CSP_S1_REWARD_MAX.
  assert (P52 : (50000 <= 2 ^ 51)%Z) by (vm_compute; discriminate).
  destruct (String.eqb compName COMP_NOI).
  { destruct (has_uniformInt env); [|cbn; lia].
    apply (rounded_uniformInt_range fl u 30000 50000 Hm Hx Hu0 Hu1); lia. }
  destruct (String.eqb compName COMP_NOIP).
  { destruct (has_uniformInt env); [|cbn; lia].
    apply (rounded_uniformInt_range fl u 10000 20000 Hm Hx Hu0 Hu1); lia. }
  destruct (String.eqb compName COMP_CSP_S2).
  { destruct (has_uniformInt env); [|cbn; lia].
    apply (rounded_uniformInt_range fl u 4000 8000 Hm Hx Hu0 Hu1); lia. }
  destruct (String.eqb compName COMP_CSP_S1).
  { destruct (has_uniformInt env); [|cbn; lia].
    apply (rounded_uniformInt_range fl u 2000 5000 Hm Hx Hu0 Hu1); lia. }
  cbn. lia.
Qed.

Lemma rounded_rewardFor_unpaid (fl : Q -> Q) (env : Env) (compName : string) (u : Q) :
  rewardRange compName = (0%Z, 0%Z) -> Rounded.rewardFor fl env compName u = 0%Z.
Proof.
  unfold Rounded.rewardFor, rewardRange.
  destruct (String.eqb compName COMP_NOI); [discriminate|].
  destruct (String.eqb compName COMP_NOIP); [discriminate|].
  destruct (String.eqb compName COMP_CSP_S2); [discriminate|].
  destruct (String.eqb compName COMP_CSP_S1); [discriminate|].
  reflexivity.
Qed.

Lemma rounded_sumRewards_range (fl : Q -> Q) (env : Env) (compName : string)
    (draws : nat -> Q) (results : list Result) (i : nat) (acc : Z) :
  Binary64.monotone fl -> Binary64.exactOnIntegers fl ->
  window env = ∅ -> (forall j, 0 <= draws j /\ draws j < 1) ->
  let n := Z.of_nat (countPassed results) in
  (acc + n * fst (rewardRange compName)
   <= Rounded.sumRewards fl env compName draws results i acc
   <= acc + n * (snd (rewardRange compName) + 1))%Z
  /\ (rewardRange compName = (0%Z, 0%Z) ->
      Rounded.sumRewards fl env compName draws results i acc = acc).
Proof.
  intros Hm Hx Hw Hd. revert i acc. induction results as [|r rest IH]; intros i acc.
  - cbn. split; [lia | reflexivity].
  - cbn [Rounded.sumRewards]. rewrite countPassed_cons.
    assert (Hq : negb (result_passed r) || notParticipated r = negb (qualifies r)).
    { unfold qualifies. destruct (result_passed r), (notParticipated r); reflexivity. }
    rewrite Hq. destruct (qualifies r); cbn [negb].
    + specialize (IH (S i) (acc + Rounded.rewardFor fl env compName (draws i))%Z).
      destruct (Hd i) as [H0 H1].
      pose proof (rounded_rewardFor_range fl env compName (draws i) Hm Hx Hw H0 H1).
      cbv zeta in IH |- *. destruct IH as [IH1 IH2]. split; [lia|].
      intros E. rewrite (IH2 E), (rounded_rewardFor_unpaid fl env compName _ E). lia.
    + specialize (IH (S i) acc). cbv zeta in IH |- *. destruct IH as [IH1 IH2].
      split; [lia | exact IH2].
Qed.

(** X14: in the arithmetic of the code (a monotone rounding that leaves the
    integers up to [2^53] as they are), when the page overrides no reward
    constant and every draw of [Math.random()] lies in [[0, 1)], the funding
    computed for a contest is at least [min] and at most [max + 1] of that
    contest's reward range per passing participant, and nothing for the
    provincial selection or for competitors who did not take part; when the
    key is not yet in the funding ledger the budget grows by exactly the
    returned amount.  The bound [max + 1] is reached: for the largest draw
    below 1 the sum [min + u * (max - min + 1)] rounds up to [max + 1], and
    the NOI reward is 50001.  With exact arithmetic the funding is at most
    [max] per passing participant. *)
Theorem funding_within_reward_range (fl : Q -> Q) (env : Env) (draws : nat -> Q)
    (results : list Result) (compName : string) (g : Game) :
  Binary64.monotone fl -> Binary64.exactOnIntegers fl ->
  window env = ∅ ->
  (forall j, 0 <= draws j /\ draws j < 1) ->
  fundingKey (halfIndex env g) compName g ∉ default ∅ (fundingIssued g) ->
  let passers := Z.of_nat (countPassed results) in
  let paid := snd (Rounded.distributeRewards fl env draws results compName g) in
  (passers * fst (rewardRange compName) <= paid
   <= passers * (snd (rewardRange compName) + 1))%Z
  /\ budget (fst (Rounded.distributeRewards fl env draws results compName g))
     = (budget g + paid)%Z
  /\ (compName = COMP_PROVINCIAL -> paid = 0%Z)
  /\ (snd (Rounded.distributeRewards (fun x => x) env draws results compName g)
      <= passers * snd (rewardRange compName))%Z
  /\ (has_uniformInt env = true ->
      Rounded.rewardFor Binary64.round env COMP_NOI (1 - 1 / 2 ^ 52) = 50001%Z).
Proof.
  intros Hm Hx Hw Hd Hkey passers paid.
  destruct (rounded_sumRewards_range fl env compName draws results 0 0%Z Hm Hx Hw Hd)
    as [Hr Hzero].
  cbv zeta in Hr. fold passers in Hr.
  assert (Hlo : (0 <= fst (rewardRange compName))%Z).
  { unfold rewardRange, NOI_REWARD_MIN, NOIP_REWARD_MIN, CSP_S2_REWARD_MIN,
      CSP_S1_REWARD_MIN.
    repeat match goal with
           | |- context [if ?b then _ else _] => destruct b
           end; cbn; lia. }
  assert (Hpn : (0 <= passers)%Z) by (unfold passers; lia).
  assert (Hpaid : paid = Rounded.sumRewards fl env compName draws results 0 0%Z
                  /\ budget (fst (Rounded.distributeRewards fl env draws results
                                    compName g))
                     = (budget g + paid)%Z).
  { unfold paid, Rounded.distributeRewards. cbv zeta.
    fold (halfIndex env g).
    rewrite (bool_decide_eq_false_2 _ Hkey).
    destruct (Rounded.sumRewards fl env compName draws results 0 0 >? 0)%Z eqn:E.
    - cbn [snd fst]. split; [reflexivity|].
      unfold JS.tryCatch, markFundingIssued.
      destruct (scope env !! "halfBoundary_ui"%string); reflexivity.
    - cbn [snd fst budget set_fundingIssued]. split; [reflexivity|].
      rewrite Z.gtb_ltb in E. apply Z.ltb_ge in E. nia. }
  destruct Hpaid as [Hp Hb].
  split; [rewrite Hp; lia|]. split; [exact Hb|]. split; [|split].
  - intros ->. rewrite Hp. apply Hzero. reflexivity.
  - change (Rounded.distributeRewards (fun x => x) env draws results compName g)
      with (distributeRewards env draws results compName g).
    pose proof (sumRewards_range env compName draws results 0 0%Z Hw Hd) as Hs.
    cbv zeta in Hs. fold passers in Hs.
    unfold distributeRewards. cbv zeta. fold (halfIndex env g).
    rewrite (bool_decide_eq_false_2 _ Hkey).
    destruct (sumRewards env compName draws results 0 0 >? 0)%Z; cbn [snd]; lia.
  - unfold Rounded.rewardFor. change (String.eqb COMP_NOI COMP_NOI) with true.
    cbv iota. rewrite !(windowOr_default env _ _ Hw).
    intros ->. vm_compute. reflexivity.
Qed.

Lemma funding_within_reward_range_witness :
  let env := mkEnv {[ "SEASON_WEEKS"%string := 52 ]} ∅ None true in
  let g := mkGame [] 100000 20 "普通省" None None None None None in
  let results := [mkResult 0 (Some 300) true None 0 NoRemark false;
                  mkResult 1 (Some 20) false None 0 NoRemark false] in
  let d := Rounded.distributeRewards Binary64.round env (fun _ => 0.5%Q) results
             COMP_NOIP g in
  Binary64.monotone Binary64.round /\ Binary64.exactOnIntegers Binary64.round
  /\ window env = ∅
  /\ (10000 <= snd d <= 20001)%Z
  /\ budget (fst d) = (100000 + snd d)%Z.
Proof.
  cbv zeta.
  set (env := mkEnv {[ "SEASON_WEEKS"%string := 52 ]} ∅ None true).
  set (g := mkGame [] 100000 20 "普通省" None None None None None).
  assert (H1 : window env = ∅) by reflexivity.
  assert (H2 : forall j : nat, 0 <= (fun _ : nat => 0.5) j /\ (fun _ : nat => 0.5) j < 1)
    by (intros j; split; [discriminate | reflexivity]).
  assert (H3 : fundingKey (halfIndex env g) COMP_NOIP g ∉ default ∅ (fundingIssued g)).
  { cbn [fundingIssued g default from_option]. apply not_elem_of_empty. }
  split; [exact binary64_round_monotone|]. split; [exact binary64_round_exact|].
  split; [exact H1|].
  destruct (funding_within_reward_range Binary64.round env (fun _ => 0.5)
              [mkResult 0 (Some 300) true None 0 NoRemark false;
               mkResult 1 (Some 20) false None 0 NoRemark false]
              COMP_NOIP g binary64_round_monotone binary64_round_exact
              H1 H2 H3) as (B & E & _).
  split; [exact B | exact E].
Defined.

(** X15: the guard of the funding ledger is honoured when the key is
    there: if the ledger already holds the key of this half-season, contest
    and week, [distributeRewards] returns 0 and changes neither the budget
    nor the ledger. *)
Theorem funding_guard_blocks_recorded_key (env : Env) (draws : nat -> Q)
    (results : list Result) (compName : string) (g : Game) :
  fundingKey (halfIndex env g) compName g ∈ default ∅ (fundingIssued g) ->
  snd (distributeRewards env draws results compName g) = 0%Z
  /\ budget (fst (distributeRewards env draws results compName g)) = budget g
  /\ default ∅ (fundingIssued (fst (distributeRewards env draws results compName g)))
     = default ∅ (fundingIssued g).
Proof.
  intros Hkey. unfold distributeRewards. cbv zeta. fold (halfIndex env g).
  rewrite (bool_decide_eq_true_2 _ Hkey). repeat split.
Qed.

Lemma funding_guard_blocks_recorded_key_witness :
  let env := mkEnv {[ "SEASON_WEEKS"%string := 52 ]} ∅ None true in
  let key : CompKey := (0%nat, COMP_NOIP, 20%Z) in
  let g := mkGame [] 100000 20 "普通省" None None None (Some {[ key ]}) None in
  let results := [mkResult 0 (Some 300) true None 0 NoRemark false] in
  fundingKey (halfIndex env g) COMP_NOIP g ∈ default ∅ (fundingIssued g)
  /\ snd (distributeRewards env (fun _ => 0.5) results COMP_NOIP g) = 0%Z.
Proof.
  cbv zeta.
  set (env := mkEnv {[ "SEASON_WEEKS"%string := 52 ]} ∅ None true).
  set (g := mkGame [] 100000 20 "普通省" None None None
              (Some {[ ((0%nat, COMP_NOIP, 20%Z) : CompKey) ]}) None).
  assert (H : fundingKey (halfIndex env g) COMP_NOIP g ∈ default ∅ (fundingIssued g)).
  { apply (bool_decide_eq_true_1 _). vm_compute. reflexivity. }
  split; [exact H|].
  exact (proj1 (funding_guard_blocks_recorded_key env (fun _ => 0.5)
                  [mkResult 0 (Some 300) true None 0 NoRemark false] COMP_NOIP g H)).
Defined.

(** ** handleCompetitionResults: the contest that goes through *)

Lemma participants_app (l1 l2 : list Result) :
  participants (l1 ++ l2) = participants l1 ++ participants l2.
Proof. unfold participants. apply filter_app. Qed.

Lemma participants_absent (l : list nat) : participants (map absentResult l) = [].
Proof.
  unfold participants. induction l as [|i l IH]; [reflexivity|].
  cbn [map]. rewrite filter_cons.
  destruct (decide (notParticipated (absentResult i) = false)) as [E|E];
    [discriminate E | exact IH].
Qed.

Lemma participants_scored env compName passLine totalMax baseline minScore
    (states : list StudentState) :
  participants
    (map (fun st =>
            snd (scoreState env compName passLine totalMax baseline minScore st []))
         states)
  = map (fun st =>
           snd (scoreState env compName passLine totalMax baseline minScore st []))
        states.
Proof.
  unfold participants. induction states as [|st rest IH]; [reflexivity|].
  cbn [map]. rewrite filter_cons.
  destruct (decide _) as [E|E]; [rewrite IH; reflexivity|].
  exfalso. apply E. reflexivity.
Qed.

Lemma participants_contest env studentStates config comp ineligibleStudents g :
  participants (contestResults env studentStates config comp ineligibleStudents g)
  = snd (scoreContest env studentStates config comp g).
Proof.
  unfold contestResults, scoreContest. cbv zeta.
  rewrite participants_app, participants_absent, app_nil_r.
  rewrite scoreStates_results. apply participants_scored.
Qed.

Lemma scoreContest_length env studentStates config comp g :
  length (snd (scoreContest env studentStates config comp g)) = length studentStates.
Proof.
  unfold scoreContest. cbv zeta. rewrite scoreStates_results. apply length_map.
Qed.

(** X16: a formal contest that does not break the chain (first
    half-season, or somebody passed) is marked completed under the key of
    its half-season, name and week, and exactly one career record is
    appended after the earlier ones: it carries the current week, the
    contest name, the number of passers, and one entry per contest state,
    ranked 1, 2, ... in the order of the states.  No ending is signalled. *)
Theorem completed_contest_is_recorded (env : Env) (draws : nat -> Q)
    (studentStates : list StudentState) (config : Config) (comp : Competition)
    (ineligibleStudents : list nat) (g : Game) :
  let results := contestResults env studentStates config comp ineligibleStudents g in
  let g' := handleCompetitionResults env draws studentStates config comp
              ineligibleStudents g in
  halfIndex env g <> 1%nat \/ countPassed results <> 0%nat ->
  ending g' = ending g
  /\ (halfIndex env g, comp_name comp, comp_week comp)
     ∈ default ∅ (completedCompetitions g')
  /\ exists rec : CareerRecord,
       default [] (careerCompetitions g')
       = default [] (careerCompetitions g) ++ [rec]
       /\ record_week rec = week g
       /\ record_name rec = comp_name comp
       /\ passedCount rec = countPassed results
       /\ totalStudents rec = length studentStates
       /\ length (entries rec) = length studentStates
       /\ forall k e, entries rec !! k = Some e -> entry_rank e = Some (S k).
Proof.
  intros results g' Hgo. unfold g', handleCompetitionResults. cbv zeta.
  fold results.
  set (roster := fst (scoreContest env studentStates config comp g)).
  set (g1 := set_students roster g).
  set (g2 := updateQualifications env results (comp_name comp) g1).
  destruct (updateQualifications_fields env results (comp_name comp) g1)
    as (_ & _ & Hw2 & Hc2 & Hk2 & _ & He2). fold g2 in Hw2, Hc2, Hk2, He2.
  cbn [week completedCompetitions careerCompetitions ending set_students g1]
    in Hw2, Hc2, Hk2, He2.
  assert (Hh : halfIndex env g2 = halfIndex env g) by (apply halfIndex_week; exact Hw2).
  rewrite Hh.
  assert (Hguard : (halfIndex env g =? 1)%nat && (countPassed results =? 0)%nat = false).
  { apply andb_false_iff. destruct Hgo as [H|H]; [left|right];
      apply Nat.eqb_neq; exact H. }
  rewrite Hguard.
  set (g3 := set_students
               (fold_left (applyExtraPressure (pressureMultiplier env)) results
                  (students g2)) g2).
  destruct (distributeRewards_fields env draws results (comp_name comp) g3)
    as (_ & Hw4 & _ & Hc4 & Hk4 & He4).
  destruct (distributeRewards env draws results (comp_name comp) g3) as [g4 total].
  cbn [fst] in Hw4, Hc4, Hk4, He4.
  cbn [week completedCompetitions careerCompetitions ending set_students g3]
    in Hw4, Hc4, Hk4, He4.
  split; [|split].
  - cbn [ending pushCareer markCompleted set_careerCompetitions
           set_completedCompetitions]. rewrite He4. exact He2.
  - cbn [completedCompetitions pushCareer markCompleted set_careerCompetitions
           set_completedCompetitions addKey default from_option].
    unfold id. apply elem_of_union. left. apply elem_of_singleton. reflexivity.
  - eexists. split; [|split; [|split; [|split; [|split; [|split]]]]].
    + cbn [careerCompetitions pushCareer markCompleted set_careerCompetitions
             set_completedCompetitions default from_option]. unfold id.
      rewrite Hk4, Hk2. reflexivity.
    + cbn [record_week resultsRecord week markCompleted set_completedCompetitions].
      rewrite Hw4. exact Hw2.
    + reflexivity.
    + reflexivity.
    + cbn [totalStudents resultsRecord]. unfold results.
      rewrite participants_contest. apply scoreContest_length.
    + cbn [entries resultsRecord]. rewrite length_imap. unfold results.
      rewrite participants_contest. apply scoreContest_length.
    + intros k e Hk. cbn [entries resultsRecord] in Hk.
      rewrite list_lookup_imap in Hk.
      destruct (participants results !! k) as [r|]; [|discriminate Hk].
      cbn in Hk. injection Hk as <-. cbn [entry_rank]. f_equal. lia.
Qed.

Lemma completed_contest_is_recorded_witness :
  let env := mkEnv {[ "SEASON_WEEKS"%string := 52 ]} ∅ None true in
  let alice := mkStudent "alice" 50 50 50 10 10 10 10 10 20 50 true 0 in
  let g := mkGame [alice] 100000 10 "普通省" None None None None None in
  let comp := mkCompetition COMP_CSP_S1 10 (Some 100) in
  let states := [mkStudentState 0 80 None []] in
  let g' := handleCompetitionResults env (fun _ => 0.5) states (mkConfig "CSP-S1" None)
              comp [] g in
  halfIndex env g <> 1%nat
  /\ ending g' = None
  /\ (0%nat, COMP_CSP_S1, 10%Z) ∈ default ∅ (completedCompetitions g').
Proof.
  cbv zeta.
  set (env := mkEnv {[ "SEASON_WEEKS"%string := 52 ]} ∅ None true).
  set (g := mkGame _ 100000 10 "普通省" None None None None None).
  assert (H : halfIndex env g <> 1%nat) by (vm_compute; discriminate).
  split; [exact H|].
  pose proof (completed_contest_is_recorded env (fun _ => 0.5)
                [mkStudentState 0 80 None []] (mkConfig "CSP-S1" None)
                (mkCompetition COMP_CSP_S1 10 (Some 100)) [] g (or_introl H)) as HT.
  split; [exact (proj1 HT) | exact (proj1 (proj2 HT))].
Defined.

(** ** script.js: weeklyUpdate, forgetting and recovery *)

Lemma Qpower_le_1 (q : Q) (n : Z) : 0 < q -> q <= 1 -> (0 <= n)%Z -> q ^ n <= 1.
Proof.
  intros Hq0 Hq1 Hn.
  assert (Hinv : 1 <= / q).
  { apply Qle_shift_inv_l; [exact Hq0 | lra]. }
  pose proof (Qpower_1_le (/ q) n Hinv Hn) as H.
  rewrite Qinv_power in H.
  pose proof (Qpower_0_lt q n Hq0) as Hp.
  set (x := q ^ n) in *. clearbody x.
  assert (Hx : x * / x == 1) by (apply Qmult_inv_r; lra).
  assert (Hm : x * 1 <= x * / x) by (apply Qmult_le_l; [exact Hp | exact H]).
  lra.
Qed.

Lemma inject_Z_nonneg (k : Z) : (0 <= k)%Z -> 0 <= inject_Z k.
Proof. intros H. change 0 with (inject_Z 0). rewrite <- Zle_Qle. exact H. Qed.

Lemma inject_Z_pos (k : Z) : (0 < k)%Z -> 0 < inject_Z k.
Proof. intros H. change 0 with (inject_Z 0). rewrite <- Zlt_Qlt. exact H. Qed.

Lemma inject_Z_nonpos (k : Z) : (k <= 0)%Z -> inject_Z k <= 0.
Proof. intros H. change 0 with (inject_Z 0). rewrite <- Zle_Qle. exact H. Qed.

Lemma forgetRate_range (k : Z) :
  let r := if (k >? 50)%Z then 1.0 - (1.0 - KNOWLEDGE_FORGET_RATE) * 0.5
           else KNOWLEDGE_FORGET_RATE in
  0 < r /\ r <= 1.
Proof.
  cbv zeta. unfold KNOWLEDGE_FORGET_RATE.
  destruct (k >? 50)%Z; split; (reflexivity || discriminate).
Qed.

Lemma floor_four_fifths (k : Z) :
  (0 <= k)%Z -> (0 <= JS.floor (inject_Z k * 0.8) <= k)%Z.
Proof.
  intros Hk. unfold JS.floor.
  assert (Hq : 0 <= inject_Z k) by (apply inject_Z_nonneg; exact Hk).
  split.
  - change 0%Z with (Qfloor 0). apply Qfloor_resp_le. lra.
  - rewrite <- (Qfloor_Z k) at 2. apply Qfloor_resp_le. lra.
Qed.

Lemma applyForgetting_pos (weeks k : Z) :
  (0 <= weeks)%Z -> (0 < k)%Z ->
  (JS.floor (inject_Z k * 0.8) <= applyForgetting weeks k <= k)%Z.
Proof.
  intros Hw Hk. unfold applyForgetting.
  destruct (k <=? 0)%Z eqn:E; [apply Z.leb_le in E; lia|]. cbv zeta.
  destruct (forgetRate_range k) as [Hr0 Hr1].
  set (r := if (k >? 50)%Z then _ else _) in *. clearbody r.
  pose proof (Qpower_le_1 r weeks Hr0 Hr1 Hw) as Hp1.
  pose proof (Qpower_0_lt r weeks Hr0) as Hp0.
  set (p := r ^ weeks) in *. clearbody p.
  assert (Hq : 0 < inject_Z k) by (apply inject_Z_pos; exact Hk).
  assert (Hnew : (JS.floor (inject_Z k * p) <= k)%Z).
  { unfold JS.floor. rewrite <- (Qfloor_Z k) at 2. apply Qfloor_resp_le. nra. }
  destruct (floor_four_fifths k ltac:(lia)) as [_ H8].
  lia.
Qed.

Lemma applyForgetting_le (weeks k : Z) :
  (0 <= weeks)%Z -> (0 <= k)%Z -> (0 <= applyForgetting weeks k <= k)%Z.
Proof.
  intros Hw Hk. destruct (Z.eq_dec k 0%Z) as [->|Hne]; [cbn; lia|].
  pose proof (applyForgetting_pos weeks k Hw ltac:(lia)) as H.
  destruct (floor_four_fifths k Hk) as [H0 _]. lia.
Qed.

(** X17: the weekly forgetting of a knowledge counter, for a period of
    [weeks >= 0] weeks: the result is never negative, never above the old
    value (a positive counter cannot grow), never below four fifths of it
    rounded down, and a period of zero weeks forgets nothing. *)
Theorem forgetting_keeps_four_fifths (weeks k : Z) :
  (0 <= weeks)%Z ->
  (0 <= applyForgetting weeks k)%Z
  /\ (applyForgetting weeks k <= Z.max 0 k)%Z
  /\ (JS.floor (inject_Z k * 0.8) <= applyForgetting weeks k)%Z
  /\ applyForgetting 0 k = Z.max 0 k.
Proof.
  intros Hw.
  destruct (Z_lt_le_dec 0 k) as [Hk|Hk].
  - pose proof (applyForgetting_pos weeks k Hw Hk) as [H1 H2].
    destruct (floor_four_fifths k ltac:(lia)) as [H0 H8].
    split; [lia | split; [lia | split; [exact H1|]]].
    unfold applyForgetting.
    destruct (k <=? 0)%Z eqn:E; [apply Z.leb_le in E; lia|]. cbv zeta.
    assert (Hone : forall r : Q, JS.floor (inject_Z k * r ^ 0) = k)
      by (intros r; unfold JS.floor; cbn [Qpower]; rewrite Qmult_1_r; apply Qfloor_Z).
    rewrite Hone. lia.
  - assert (E : (k <=? 0)%Z = true) by (apply Z.leb_le; exact Hk).
    unfold applyForgetting. rewrite E.
    split; [lia | split; [lia | split; [|lia]]].
    unfold JS.floor. change 0%Z with (Qfloor 0). apply Qfloor_resp_le.
    assert (inject_Z k <= 0) by (apply inject_Z_nonpos; exact Hk).
    lra.
Qed.

Lemma forgetting_keeps_four_fifths_witness :
  (0 <= 2)%Z /\ (80 <= applyForgetting 2 100 <= 100)%Z.
Proof.
  assert (H : (0 <= 2)%Z) by lia.
  split; [exact H|].
  pose proof (forgetting_keeps_four_fifths 2 100 H) as (_ & H2 & H3 & _).
  split; [exact H3 | exact H2].
Defined.

(** X18: one weekly update of a competitor whose knowledge counters and
    pressure are non-negative, for [weeks >= 0] and a non-negative comfort:
    no knowledge counter and not the pressure ever grows; name, thinking,
    coding, mental, comfort and activity are untouched; the sick-week
    counter goes down by one when it is positive, also for a competitor who
    is not active, and is otherwise left alone. *)
Theorem weekly_update_never_raises (game_comfort : Q) (weeks : Z) (s : Student) :
  (0 <= weeks)%Z -> 0 <= game_comfort -> 0 <= pressure s ->
  (0 <= knowledge_ds s)%Z -> (0 <= knowledge_graph s)%Z ->
  (0 <= knowledge_string s)%Z -> (0 <= knowledge_math s)%Z ->
  (0 <= knowledge_dp s)%Z ->
  let s' := weeklyUpdateStudent game_comfort weeks s in
  ((0 <= knowledge_ds s' <= knowledge_ds s)%Z
   /\ (0 <= knowledge_graph s' <= knowledge_graph s)%Z
   /\ (0 <= knowledge_string s' <= knowledge_string s)%Z
   /\ (0 <= knowledge_math s' <= knowledge_math s)%Z
   /\ (0 <= knowledge_dp s' <= knowledge_dp s)%Z)
  /\ pressure s' <= pressure s
  /\ (name s', thinking s', coding s', mental s', comfort s', active s')
     = (name s, thinking s, coding s, mental s, comfort s, active s)
  /\ sick_weeks s'
     = (if (sick_weeks s >? 0)%Z then sick_weeks s - 1 else sick_weeks s)%Z.
Proof.
  intros Hw Hc Hp H1 H2 H3 H4 H5. cbv zeta. unfold weeklyUpdateStudent. cbv zeta.
  set (s1 := if (sick_weeks s >? 0)%Z then _ else s).
  assert (E : (knowledge_ds s1, knowledge_graph s1, knowledge_string s1,
               knowledge_math s1, knowledge_dp s1, pressure s1)
              = (knowledge_ds s, knowledge_graph s, knowledge_string s,
                 knowledge_math s, knowledge_dp s, pressure s)
              /\ (name s1, thinking s1, coding s1, mental s1, comfort s1, active s1)
                 = (name s, thinking s, coding s, mental s, comfort s, active s)
              /\ sick_weeks s1
                 = (if (sick_weeks s >? 0)%Z then sick_weeks s - 1 else sick_weeks s)%Z).
  { unfold s1. destruct (sick_weeks s >? 0)%Z; repeat split; reflexivity. }
  clearbody s1. destruct E as (Ek & Ef & Es).
  injection Ek as E1 E2 E3 E4 E5 E6.
  destruct (active s1) eqn:Ea.
  - cbn [knowledge_ds knowledge_graph knowledge_string knowledge_math knowledge_dp
           pressure name thinking coding mental comfort active sick_weeks
           set_pressure set_knowledge].
    rewrite E1, E2, E3, E4, E5, E6, ?Ea.
    split; [|split; [|split; [exact Ef | exact Es]]].
    + repeat split; apply applyForgetting_le; assumption.
    + assert (Hrec : 0 <= RECOVERY_RATE * (game_comfort / 100.0) * inject_Z weeks).
      { assert (0 <= inject_Z weeks) by (apply inject_Z_nonneg; exact Hw).
        unfold RECOVERY_RATE.
        apply Qmult_le_0_compat; [|assumption].
        apply Qmult_le_0_compat; [discriminate|].
        apply Qle_shift_div_l; [reflexivity | lra]. }
      set (rec := RECOVERY_RATE * (game_comfort / 100.0) * inject_Z weeks) in *.
      clearbody rec.
      eapply Qle_trans; [apply Q.le_min_r|].
      apply Q.max_lub; lra.
  - rewrite E1, E2, E3, E4, E5, E6, ?Ea.
    split; [repeat split; lia | split; [lra | split; [exact Ef | exact Es]]].
Qed.

Lemma weekly_update_never_raises_witness :
  let s := mkStudent "a" 50 50 50 100 60 40 20 0 95 50 true 1 in
  (0 <= 2)%Z
  /\ pressure (weeklyUpdateStudent 50 2 s) <= 95
  /\ sick_weeks (weeklyUpdateStudent 50 2 s) = 0%Z.
Proof.
  cbv zeta.
  pose proof (weekly_update_never_raises 50 2
                (mkStudent "a" 50 50 50 100 60 40 20 0 95 50 true 1)
                ltac:(lia) ltac:(discriminate) ltac:(discriminate)
                ltac:(cbn; lia) ltac:(cbn; lia) ltac:(cbn; lia) ltac:(cbn; lia)
                ltac:(cbn; lia)) as (_ & Hp & _ & Hs).
  split; [lia | split; [exact Hp | exact Hs]].
Defined.

(** ** script.js: trainStudents *)

Lemma trainingGains_knowledge f topic k u1 u2 s :
  (0 <= k)%Z ->
  let s' := trainingGains f topic k u1 u2 s in
  (knowledge_ds s <= knowledge_ds s')%Z
  /\ (knowledge_graph s <= knowledge_graph s')%Z
  /\ (knowledge_string s <= knowledge_string s')%Z
  /\ (knowledge_math s <= knowledge_math s')%Z
  /\ (knowledge_dp s <= knowledge_dp s')%Z.
Proof.
  intros Hk. cbv zeta. unfold trainingGains. cbv zeta.
  repeat match goal with
         | |- context [if String.eqb ?a ?b then _ else _] => destruct (String.eqb a b)
         end;
    cbn [knowledge_ds knowledge_graph knowledge_string knowledge_math knowledge_dp
           set_coding set_thinking set_knowledge];
    repeat split; lia.
Qed.

Lemma trainingGains_composite f k u1 u2 s :
  let s' := trainingGains f TOPIC_COMPOSITE k u1 u2 s in
  let g := Z.max 1 (JS.floor (inject_Z k * 0.25)) in
  knowledge_ds s' = (knowledge_ds s + g)%Z
  /\ knowledge_graph s' = (knowledge_graph s + g)%Z
  /\ knowledge_string s' = (knowledge_string s + g)%Z
  /\ knowledge_math s' = (knowledge_math s + g)%Z
  /\ knowledge_dp s' = (knowledge_dp s + g)%Z.
Proof. cbv zeta. repeat split; reflexivity. Qed.

Lemma trainingGains_unknown f topic k u1 u2 s :
  knownTag topic = false \/ topic = TAG_DP_LONG ->
  topic <> TOPIC_COMPOSITE ->
  trainingGains f topic k u1 u2 s = s.
Proof.
  intros Hu Hc. unfold trainingGains. cbv zeta.
  assert (Hcf : String.eqb topic TOPIC_COMPOSITE = false)
    by (apply String.eqb_neq; exact Hc).
  destruct Hu as [Hu| ->].
  - unfold knownTag in Hu.
    destruct (String.eqb topic TAG_DS); [discriminate Hu|].
    destruct (String.eqb topic TAG_GRAPH); [discriminate Hu|].
    destruct (String.eqb topic TAG_STRING); [discriminate Hu|].
    destruct (String.eqb topic TAG_MATH); [discriminate Hu|].
    destruct (String.eqb topic TAG_DP); [discriminate Hu|].
    rewrite Hcf. reflexivity.
  - reflexivity.
Qed.

Lemma trainStudent_knowledge f temperature base_comfort topic intensity u1 u2 s :
  exists k : Z,
    (0 <= k)%Z
    /\ let s0 := set_comfort (getComfort f temperature base_comfort) s in
       let s' := trainStudent f temperature base_comfort topic intensity u1 u2 s in
       let t := trainingGains f topic k u1 u2 s0 in
       knowledge_ds s' = knowledge_ds t
       /\ knowledge_graph s' = knowledge_graph t
       /\ knowledge_string s' = knowledge_string t
       /\ knowledge_math s' = knowledge_math t
       /\ knowledge_dp s' = knowledge_dp t
       /\ thinking s' = Qmin 100.0 (thinking t)
       /\ coding s' = Qmin 100.0 (coding t).
Proof.
  eexists. split; [|cbv zeta; unfold trainStudent; cbv zeta;
                    repeat split; reflexivity].
  lia.
Qed.

(** X19: a training session never lowers a knowledge counter of anybody
    and leaves the roster's size and every inactive competitor as they
    were.  The composite topic raises each of the five counters of an
    active competitor by the same amount, at least 1.  A topic that the
    session does not know (for instance the long name of the DP topic,
    which [addKnowledge] accepts) teaches no knowledge and no ability, and
    the session still adds its pressure. *)
Theorem training_never_lowers_knowledge (f : Facilities)
    (temperature base_comfort : Q) (topic : string) (intensity : Z)
    (draws : nat -> Q * Q) (roster : list Student) (i : nat) (s : Student) :
  roster !! i = Some s ->
  let trained := trainStudents f temperature base_comfort topic intensity draws roster in
  length trained = length roster
  /\ exists s',
       trained !! i = Some s'
       /\ (active s = false -> s' = s)
       /\ ((knowledge_ds s <= knowledge_ds s')%Z
           /\ (knowledge_graph s <= knowledge_graph s')%Z
           /\ (knowledge_string s <= knowledge_string s')%Z
           /\ (knowledge_math s <= knowledge_math s')%Z
           /\ (knowledge_dp s <= knowledge_dp s')%Z)
       /\ (active s = true -> topic = TOPIC_COMPOSITE ->
           exists g : Z,
             (1 <= g)%Z
             /\ knowledge_ds s' = (knowledge_ds s + g)%Z
             /\ knowledge_graph s' = (knowledge_graph s + g)%Z
             /\ knowledge_string s' = (knowledge_string s + g)%Z
             /\ knowledge_math s' = (knowledge_math s + g)%Z
             /\ knowledge_dp s' = (knowledge_dp s + g)%Z)
       /\ (active s = true ->
           knownTag topic = false \/ topic = TAG_DP_LONG ->
           topic <> TOPIC_COMPOSITE ->
           knowledgeSum s' = knowledgeSum s
           /\ thinking s' = Qmin 100.0 (thinking s)
           /\ coding s' = Qmin 100.0 (coding s)
           /\ pressure s'
              = pressure s
                + trainingPressureIncrease f temperature base_comfort topic
                    intensity s).
Proof.
  intros Hi. cbv zeta. unfold trainStudents. split; [apply length_imap|].
  rewrite list_lookup_imap, Hi. cbn [fmap option_fmap option_map].
  destruct (active s) eqn:Ea.
  - eexists. split; [reflexivity|].
    split; [discriminate|].
    destruct (trainStudent_knowledge f temperature base_comfort topic intensity
                (fst (draws i)) (snd (draws i)) s) as (k & Hk & HK).
    cbv zeta in HK. destruct HK as (K1 & K2 & K3 & K4 & K5 & Ht & Hc).
    set (s0 := set_comfort (getComfort f temperature base_comfort) s) in *.
    split; [|split].
    + pose proof (trainingGains_knowledge f topic k (fst (draws i)) (snd (draws i))
                    s0 Hk) as HG. cbv zeta in HG.
      rewrite K1, K2, K3, K4, K5. exact HG.
    + intros _ ->.
      pose proof (trainingGains_composite f k (fst (draws i)) (snd (draws i)) s0)
        as HG. cbv zeta in HG.
      exists (Z.max 1 (JS.floor (inject_Z k * 0.25))).
      split; [lia|]. rewrite K1, K2, K3, K4, K5. exact HG.
    + intros _ Hu Hcomp.
      rewrite (trainingGains_unknown f topic k _ _ s0 Hu Hcomp) in *.
      split; [unfold knowledgeSum; rewrite K1, K2, K3, K4, K5; reflexivity|].
      split; [exact Ht|]. split; [exact Hc|].
      apply trainStudent_pressure.
  - exists s. split; [reflexivity|]. split; [reflexivity|].
    split; [repeat split; lia|]. split; intros H; discriminate H.
Qed.

Lemma training_never_lowers_knowledge_witness :
  let f := mkFacilities 1 1 1 1 1 in
  let s := mkStudent "a" 50 50 50 0 0 0 0 0 95 50 true 0 in
  [s] !! 0%nat = Some s
  /\ length (trainStudents f 20 50 TAG_DP_LONG 3 (fun _ => (0.5, 0.5)) [s]) = 1%nat.
Proof.
  cbv zeta.
  assert (H : [mkStudent "a" 50 50 50 0 0 0 0 0 95 50 true 0] !! 0%nat
              = Some (mkStudent "a" 50 50 50 0 0 0 0 0 95 50 true 0)) by reflexivity.
  split; [exact H|].
  exact (proj1 (training_never_lowers_knowledge (mkFacilities 1 1 1 1 1) 20 50
                  TAG_DP_LONG 3 (fun _ => (0.5, 0.5)) _ 0%nat _ H)).
Defined.

Lemma getWeatherFactor_range (f : Facilities) (temperature : Q) :
  1 <= getWeatherFactor f temperature <= 2.
Proof.
  unfold getWeatherFactor. cbv zeta.
  destruct (extremeTemperature temperature); [|split; discriminate].
  destruct (ac f =? 1)%Z; cbn [andb]; [|split; discriminate].
  destruct (dorm f =? 1)%Z; split; discriminate.
Qed.

Lemma getComfort_range (f : Facilities) (temperature base_comfort : Q) :
  0 <= getComfort f temperature base_comfort <= 100.
Proof. unfold getComfort. cbv zeta. apply clamp_bounds. discriminate. Qed.

Lemma comfort_factor_range (c : Q) :
  0 <= c -> c <= 100 -> 1 <= 1.0 + Qmax 0.0 ((50 - c) / 100.0) <= 1.5.
Proof.
  intros H0 H1.
  assert (Hd : (50 - c) / 100.0 == (50 - c) * 0.01) by field.
  destruct (Q.max_spec 0.0 ((50 - c) / 100.0)) as [[L E]|[L E]];
    rewrite E; rewrite Hd in *; lra.
Qed.

Lemma trainingBasePressure_range (topic : string) (intensity : Z) :
  let base_pressure :=
    if Z.eqb intensity 1 then 10 else if Z.eqb intensity 2 then 20 else 30 in
  let base_pressure :=
    if Z.eqb intensity 3 then base_pressure * TRAINING_PRESSURE_MULTIPLIER_HEAVY
    else if Z.eqb intensity 2 then base_pressure * TRAINING_PRESSURE_MULTIPLIER_MEDIUM
    else base_pressure in
  let base_pressure :=
    if String.eqb topic TOPIC_COMPOSITE
    then base_pressure * COMPOSITE_TRAINING_PRESSURE_BONUS else base_pressure in
  10 <= base_pressure <= 90.
Proof.
  cbv zeta.
  unfold TRAINING_PRESSURE_MULTIPLIER_HEAVY, TRAINING_PRESSURE_MULTIPLIER_MEDIUM,
    COMPOSITE_TRAINING_PRESSURE_BONUS.
  destruct (intensity =? 1)%Z eqn:E1; destruct (intensity =? 2)%Z eqn:E2;
    destruct (intensity =? 3)%Z eqn:E3;
    try (apply Z.eqb_eq in E1; apply Z.eqb_eq in E2; lia);
    try (apply Z.eqb_eq in E1; apply Z.eqb_eq in E3; lia);
    try (apply Z.eqb_eq in E2; apply Z.eqb_eq in E3; lia);
    destruct (String.eqb topic TOPIC_COMPOSITE); split; lra.
Qed.

(** X20: with the canteen between level 1 and its highest level 3, one
    training session adds to the pressure of an active competitor at least
    8.8 and at most 280, whatever the topic, the intensity, the weather and
    the other facilities: the increase is positive and, on its own, can
    exceed the whole range [[0, 100]] of the axis. *)
Theorem training_pressure_increase_range (f : Facilities)
    (temperature base_comfort : Q) (topic : string) (intensity : Z)
    (u1 u2 : Q) (s : Student) :
  (1 <= canteen f <= 3)%Z ->
  let delta := trainingPressureIncrease f temperature base_comfort topic intensity s in
  8.8 <= delta /\ delta <= 280
  /\ pressure (trainStudent f temperature base_comfort topic intensity u1 u2 s)
     == pressure s + delta.
Proof.
  intros Hc. cbv zeta.
  split; [|split; [|rewrite trainStudent_pressure; reflexivity]];
    unfold trainingPressureIncrease; cbv zeta;
    pose proof (trainingBasePressure_range topic intensity) as Hb; cbv zeta in Hb;
    set (b := if String.eqb topic TOPIC_COMPOSITE then _ else _) in *; clearbody b;
    pose proof (getWeatherFactor_range f temperature) as Hw;
    set (w := getWeatherFactor f temperature) in *; clearbody w;
    destruct (getComfort_range f temperature base_comfort) as [Hc0 Hc1];
    pose proof (comfort_factor_range _ Hc0 Hc1) as Hf;
    set (cf := 1.0 + Qmax 0.0 _) in *; clearbody cf;
    assert (Hr : 0.88 <= getCanteenPressureReduction f <= 1)
      by (unfold getCanteenPressureReduction, CANTEEN_PRESSURE_REDUCTION_PER_LEVEL;
          assert (1 <= inject_Z (canteen f))
            by (change 1 with (inject_Z 1); rewrite <- Zle_Qle; lia);
          assert (inject_Z (canteen f) <= 3)
            by (change 3 with (inject_Z 3); rewrite <- Zle_Qle; lia);
          split; lra);
    set (r := getCanteenPressureReduction f) in *; clearbody r;
    assert (Hbw : 10 <= b * w <= 180) by (split; nra);
    set (bw := b * w) in *; clearbody bw;
    assert (Hbwr : 8.8 <= bw * r <= 180) by (split; nra);
    set (bwr := bw * r) in *; clearbody bwr;
    assert (Hall : 8.8 <= bwr * cf <= 270) by (split; nra);
    destruct (sick_weeks s >? 0)%Z; lra.
Qed.

Lemma training_pressure_increase_range_witness :
  let f := mkFacilities 1 1 1 1 1 in
  let s := mkStudent "a" 50 50 50 0 0 0 0 0 95 50 true 0 in
  (1 <= canteen f <= 3)%Z
  /\ 8.8 <= trainingPressureIncrease f 20 50 TAG_MATH 1 s.
Proof.
  cbv zeta.
  assert (H : (1 <= canteen (mkFacilities 1 1 1 1 1) <= 3)%Z) by (cbn; lia).
  split; [exact H|].
  exact (proj1 (training_pressure_increase_range (mkFacilities 1 1 1 1 1) 20 50
                  TAG_MATH 1 0.5 0.5
                  (mkStudent "a" 50 50 50 0 0 0 0 0 95 50 true 0) H)).
Defined.

(** ** script.js: the knowledge counters of a student *)

(** X21: [addKnowledge] and [getKnowledgeByType] agree on the counter
    behind a topic: after adding [a] under a recognised topic, reading that
    topic gives [a] more than before; the short and the long name of the DP
    topic are two names of one counter; a topic that is not recognised is
    ignored by the writer and read as 0. *)
Theorem knowledge_counter_round_trip (t : string) (a : Z) (s : Student) :
  (knownTag t = true ->
   getKnowledgeByType (addKnowledge t a s) t = (getKnowledgeByType s t + a)%Z)
  /\ getKnowledgeByType (addKnowledge TAG_DP a s) TAG_DP_LONG
     = (getKnowledgeByType s TAG_DP_LONG + a)%Z
  /\ getKnowledgeByType (addKnowledge TAG_DP_LONG a s) TAG_DP
     = (getKnowledgeByType s TAG_DP + a)%Z
  /\ getKnowledgeByType s TAG_DP = getKnowledgeByType s TAG_DP_LONG
  /\ (knownTag t = false ->
      addKnowledge t a s = s /\ getKnowledgeByType s t = 0%Z).
Proof.
  split; [|split; [reflexivity | split; [reflexivity | split; [reflexivity|]]]].
  - unfold knownTag, getKnowledgeByType, addKnowledge. intros H.
    destruct (String.eqb t TAG_DS); [reflexivity|].
    destruct (String.eqb t TAG_GRAPH); [reflexivity|].
    destruct (String.eqb t TAG_STRING); [reflexivity|].
    destruct (String.eqb t TAG_MATH); [reflexivity|].
    cbn [orb] in H. rewrite H. reflexivity.
  - intros H. split; [apply addKnowledge_unknown; exact H|].
    unfold knownTag in H. unfold getKnowledgeByType.
    destruct (String.eqb t TAG_DS); [discriminate H|].
    destruct (String.eqb t TAG_GRAPH); [discriminate H|].
    destruct (String.eqb t TAG_STRING); [discriminate H|].
    destruct (String.eqb t TAG_MATH); [discriminate H|].
    cbn [orb] in H. rewrite H. reflexivity.
Qed.

Lemma knowledge_counter_round_trip_witness :
  let s := mkStudent "a" 50 50 50 1 2 3 4 5 95 50 true 0 in
  knownTag TAG_GRAPH = true
  /\ getKnowledgeByType (addKnowledge TAG_GRAPH 7 s) TAG_GRAPH = 9%Z.
Proof.
  cbv zeta.
  assert (H : knownTag TAG_GRAPH = true) by reflexivity.
  split; [exact H|].
  exact (proj1 (knowledge_counter_round_trip TAG_GRAPH 7
                  (mkStudent "a" 50 50 50 1 2 3 4 5 95 50 true 0)) H).
Defined.

(** ** script.js: the facilities *)

Lemma clamp_mono (v v' lo hi : Q) : v <= v' -> clamp v lo hi <= clamp v' lo hi.
Proof.
  intros H. unfold clamp.
  apply Q.max_le_compat_l. apply Q.min_le_compat_l. exact H.
Qed.

(** X22: buying one more level of air conditioning (from level 1 or above)
    never lowers the comfort, whatever the temperature and the other
    facilities, and it switches the weather factor of training off: the
    factor is 1 afterwards. *)
Theorem air_conditioning_helps (f : Facilities) (temperature base_comfort : Q) :
  (1 <= ac f)%Z ->
  getComfort f temperature base_comfort
  <= getComfort (upgrade "ac" f) temperature base_comfort
  /\ getWeatherFactor (upgrade "ac" f) temperature == 1.
Proof.
  intros Hac.
  change (upgrade "ac" f)
    with (mkFacilities (computer f) (ac f + 1) (dorm f) (library f) (canteen f)).
  assert (Hne : (ac f + 1 =? 1)%Z = false) by (apply Z.eqb_neq; lia).
  split.
  - unfold getComfort. cbv zeta. apply clamp_mono.
    unfold getDormComfortBonus. cbn [ac dorm canteen]. rewrite Hne.
    rewrite inject_Z_plus. change (inject_Z 1) with 1.
    unfold AC_COMFORT_BONUS_PER_LEVEL, WEATHER_PENALTY_NO_AC, WEATHER_PENALTY_WITH_AC.
    destruct (extremeTemperature temperature); [|lra].
    destruct (ac f =? 1)%Z; lra.
  - unfold getWeatherFactor. cbv zeta. cbn [ac dorm]. rewrite Hne. cbn [andb].
    destruct (extremeTemperature temperature); reflexivity.
Qed.

Lemma air_conditioning_helps_witness :
  let f := mkFacilities 1 1 1 1 1 in
  (1 <= ac f)%Z /\ getWeatherFactor (upgrade "ac" f) 40 == 1.
Proof.
  cbv zeta.
  assert (H : (1 <= ac (mkFacilities 1 1 1 1 1))%Z) by (cbn; lia).
  split; [exact H|].
  exact (proj2 (air_conditioning_helps (mkFacilities 1 1 1 1 1) 40 50 H)).
Defined.

Lemma upgradeCosts_positive (fac : string) (base grow : Q) :
  FACILITY_UPGRADE_COSTS fac = Some (base, grow) -> 8000 <= base /\ 1 <= grow.
Proof.
  unfold FACILITY_UPGRADE_COSTS.
  repeat match goal with
         | |- context [if String.eqb ?a ?b then _ else _] => destruct (String.eqb a b)
         end; intros H; try discriminate H; injection H as <- <-;
    split; discriminate.
Qed.

Lemma getUpgradeCost_nonneg (f : Facilities) (fac : string) :
  (0 <= getUpgradeCost f fac)%Z.
Proof.
  unfold getUpgradeCost.
  destruct (FACILITY_UPGRADE_COSTS fac) as [[base grow]|] eqn:E; [|lia].
  destruct (upgradeCosts_positive fac base grow E) as [Hb Hg]. cbv zeta.
  assert (Hp : 0 < grow ^ (getCurrentLevel f fac - 1)) by (apply Qpower_0_lt; lra).
  unfold JS.floor. change 0%Z with (Qfloor 0). apply Qfloor_resp_le. nra.
Qed.

Lemma upgrade_level (fac : string) (f : Facilities) :
  FACILITY_UPGRADE_COSTS fac <> None ->
  getCurrentLevel (upgrade fac f) fac = (getCurrentLevel f fac + 1)%Z.
Proof.
  unfold FACILITY_UPGRADE_COSTS, getCurrentLevel, upgrade.
  destruct (String.eqb fac "computer"); [reflexivity|].
  destruct (String.eqb fac "library"); [reflexivity|].
  destruct (String.eqb fac "ac"); [reflexivity|].
  destruct (String.eqb fac "dorm"); [reflexivity|].
  destruct (String.eqb fac "canteen"); [reflexivity|].
  intros H. exfalso. apply H. reflexivity.
Qed.

Lemma upgrade_unknown (fac : string) (f : Facilities) :
  FACILITY_UPGRADE_COSTS fac = None ->
  upgrade fac f = f /\ getUpgradeCost f fac = 0%Z.
Proof.
  unfold getUpgradeCost. intros H. rewrite H. split; [|reflexivity].
  revert H. unfold FACILITY_UPGRADE_COSTS, upgrade.
  repeat match goal with
         | |- context [if String.eqb ?a ?b then _ else _] => destruct (String.eqb a b)
         end; intros H; try discriminate H; reflexivity.
Qed.

Lemma upgrade_in_range (fac : string) (f : Facilities) :
  levelsInRange f -> (getCurrentLevel f fac < getMaxLevel fac)%Z ->
  levelsInRange (upgrade fac f).
Proof.
  unfold levelsInRange, getCurrentLevel, getMaxLevel, upgrade,
    MAX_COMPUTER_LEVEL, MAX_OTHER_FACILITY_LEVEL.
  intros (H1 & H2 & H3 & H4 & H5).
  destruct (String.eqb fac "computer"); cbn [orb computer library ac dorm canteen];
    [intros; repeat split; lia|].
  destruct (String.eqb fac "library"); cbn [orb computer library ac dorm canteen];
    [intros; repeat split; lia|].
  destruct (String.eqb fac "ac"); cbn [computer library ac dorm canteen];
    [intros; repeat split; lia|].
  destruct (String.eqb fac "dorm"); cbn [computer library ac dorm canteen];
    [intros; repeat split; lia|].
  destruct (String.eqb fac "canteen"); cbn [computer library ac dorm canteen];
    intros; repeat split; lia.
Qed.

Lemma inheritedMember_no_facility (fac : string) (f : Facilities) :
  inheritedMember fac = true ->
  FACILITY_UPGRADE_COSTS fac = None /\ upgrade fac f = f
  /\ getCurrentLevel f fac = 0%Z /\ getMaxLevel fac = MAX_OTHER_FACILITY_LEVEL.
Proof.
  unfold inheritedMember. intros H. apply existsb_exists in H.
  destruct H as (x & Hin & Hx). apply String.eqb_eq in Hx. subst x.
  unfold OBJECT_PROTOTYPE_MEMBERS in Hin. cbn [In] in Hin.
  repeat match goal with
         | H : _ \/ _ |- _ => destruct H as [<-|H]
         end; try contradiction; repeat split; reflexivity.
Qed.

(** X23: an upgrade request keeps every facility between level 1 and its
    highest level.  For a name that the cost table does not inherit from
    [Object.prototype], the request never raises the budget and never
    overdraws it; when the facilities change, the request was confirmed,
    the budget went down by the quoted cost and the level of the requested
    facility went up by one; and a name that is no facility changes
    nothing.  A name inherited from [Object.prototype], such as
    [constructor], is no facility either and leaves the facilities as they
    are, but its cost is quoted NaN: once the request is confirmed the
    budget is NaN. *)
Theorem upgrade_within_limits (fac : string) (confirmed : bool) (game_budget : Z)
    (f : Facilities) :
  levelsInRange f ->
  let game_budget' := fst (upgradeFacility fac confirmed game_budget f) in
  let f' := snd (upgradeFacility fac confirmed game_budget f) in
  levelsInRange f'
  /\ (inheritedMember fac = false ->
      exists b' : Z,
        game_budget' = Some b'
        /\ (b' <= game_budget)%Z
        /\ ((0 <= game_budget)%Z -> (0 <= b')%Z)
        /\ (f' <> f ->
            confirmed = true
            /\ b' = (game_budget - getUpgradeCost f fac)%Z
            /\ getCurrentLevel f' fac = (getCurrentLevel f fac + 1)%Z
            /\ (getCurrentLevel f' fac <= getMaxLevel fac)%Z)
        /\ (FACILITY_UPGRADE_COSTS fac = None -> b' = game_budget))
  /\ (FACILITY_UPGRADE_COSTS fac = None -> f' = f)
  /\ (inheritedMember fac = true ->
      FACILITY_UPGRADE_COSTS fac = None
      /\ f' = f
      /\ game_budget' = if confirmed then None else Some game_budget).
Proof.
  intros Hr. cbv zeta. unfold upgradeFacility, upgradeCostQuote. cbv zeta.
  pose proof (getUpgradeCost_nonneg f fac) as Hcost.
  destruct (inheritedMember fac) eqn:Einh.
  - destruct (inheritedMember_no_facility fac f Einh) as (Hnone & Hup & Hlvl & Hmax).
    rewrite Hlvl, Hmax, Hup. change (0 >=? MAX_OTHER_FACILITY_LEVEL)%Z with false.
    cbv iota. destruct confirmed; cbn [negb fst snd].
    + split; [exact Hr|]. split; [discriminate|]. split; [reflexivity|].
      intros _. repeat split; [exact Hnone].
    + split; [exact Hr|]. split; [discriminate|]. split; [reflexivity|].
      intros _. repeat split; [exact Hnone].
  - assert (Hsame : levelsInRange f
                    /\ (false = false ->
                        exists b' : Z,
                          Some game_budget = Some b'
                          /\ (b' <= game_budget)%Z
                          /\ ((0 <= game_budget)%Z -> (0 <= b')%Z)
                          /\ (f <> f ->
                              confirmed = true
                              /\ b' = (game_budget - getUpgradeCost f fac)%Z
                              /\ getCurrentLevel f fac = (getCurrentLevel f fac + 1)%Z
                              /\ (getCurrentLevel f fac <= getMaxLevel fac)%Z)
                          /\ (FACILITY_UPGRADE_COSTS fac = None -> b' = game_budget))
                    /\ (FACILITY_UPGRADE_COSTS fac = None -> f = f)
                    /\ (false = true ->
                        FACILITY_UPGRADE_COSTS fac = None
                        /\ f = f
                        /\ Some game_budget = if confirmed then None else Some game_budget)).
    { split; [exact Hr|]. split.
      - intros _. exists game_budget. split; [reflexivity|]. split; [lia|].
        split; [intros H0; exact H0|].
        split; [intros Hne; exfalso; apply Hne; reflexivity | reflexivity].
      - split; [reflexivity | discriminate]. }
    destruct (getCurrentLevel f fac >=? getMaxLevel fac)%Z eqn:Emax;
      [exact Hsame|].
    rewrite Z.geb_leb in Emax. apply Z.leb_gt in Emax.
    destruct confirmed; cbn [negb]; [|exact Hsame].
    destruct (game_budget <? getUpgradeCost f fac)%Z eqn:Eb; [exact Hsame|].
    clear Hsame.
    apply Z.ltb_ge in Eb. cbn [fst snd].
    split; [apply upgrade_in_range; assumption|]. split.
    + intros _. exists (game_budget - getUpgradeCost f fac)%Z.
      split; [reflexivity|]. split; [lia|]. split; [lia|]. split.
      * intros Hne.
        destruct (FACILITY_UPGRADE_COSTS fac) as [p|] eqn:E.
        -- assert (Hl : getCurrentLevel (upgrade fac f) fac = (getCurrentLevel f fac + 1)%Z)
             by (apply upgrade_level; rewrite E; discriminate).
           repeat split; [exact Hl | lia].
        -- exfalso. apply Hne. apply (upgrade_unknown fac f E).
      * intros E. destruct (upgrade_unknown fac f E) as [_ Hc]. rewrite Hc. lia.
    + split; [|discriminate].
      intros E. apply (upgrade_unknown fac f E).
Qed.

Lemma upgrade_within_limits_witness :
  let f := mkFacilities 1 1 1 1 1 in
  let r := upgradeFacility "computer" true 100000 f in
  levelsInRange f
  /\ inheritedMember "computer" = false
  /\ levelsInRange (snd r)
  /\ snd r <> f
  /\ fst r = Some (100000 - 20000)%Z
  /\ getCurrentLevel (snd r) "computer" = (1 + 1)%Z.
Proof.
  cbv zeta.
  assert (H : levelsInRange (mkFacilities 1 1 1 1 1))
    by (unfold levelsInRange, MAX_COMPUTER_LEVEL, MAX_OTHER_FACILITY_LEVEL; cbn;
        repeat split; lia).
  assert (Hi : inheritedMember "computer" = false) by reflexivity.
  assert (Hne : snd (upgradeFacility "computer" true 100000 (mkFacilities 1 1 1 1 1))
                <> mkFacilities 1 1 1 1 1) by (vm_compute; discriminate).
  destruct (upgrade_within_limits "computer" true 100000 (mkFacilities 1 1 1 1 1) H)
    as (Hl & Hb & _).
  destruct (Hb Hi) as (b' & Eb & _ & _ & Hch & _).
  destruct (Hch Hne) as (_ & Ecost & Elvl & _).
  split; [exact H|]. split; [exact Hi|]. split; [exact Hl|]. split; [exact Hne|].
  split; [rewrite Eb, Ecost; reflexivity | exact Elvl].
Defined.

(** X24: the quoted cost of an upgrade: at level 1 it is the base cost of
    the facility, and for a facility at level 1 or above the next upgrade
    is never cheaper than this one. *)
Theorem upgrade_cost_never_falls (fac : string) (base grow : Q) (f : Facilities) :
  FACILITY_UPGRADE_COSTS fac = Some (base, grow) ->
  (1 <= getCurrentLevel f fac)%Z ->
  (getUpgradeCost f fac <= getUpgradeCost (upgrade fac f) fac)%Z
  /\ (8000 <= getUpgradeCost f fac)%Z
  /\ (getCurrentLevel f fac = 1%Z -> getUpgradeCost f fac = JS.floor base).
Proof.
  intros E Hl. unfold getUpgradeCost. rewrite E. cbv zeta.
  rewrite upgrade_level by (rewrite E; discriminate).
  destruct (upgradeCosts_positive fac base grow E) as [Hb Hg].
  set (l := getCurrentLevel f fac) in *. clearbody l.
  assert (Hp1 : 1 <= grow ^ (l - 1)) by (apply Qpower_1_le; [exact Hg | lia]).
  assert (Hstep : grow ^ (l + 1 - 1) == grow ^ (l - 1) * grow).
  { replace (l + 1 - 1)%Z with ((l - 1) + 1)%Z by lia.
    rewrite Qpower_plus by lra. reflexivity. }
  split; [|split].
  - unfold JS.floor. apply Qfloor_resp_le. rewrite Hstep.
    set (p := grow ^ (l - 1)) in *. clearbody p.
    assert (H0 : 0 <= base * p * (grow - 1))
      by (apply Qmult_le_0_compat; [apply Qmult_le_0_compat|]; lra).
    assert (H1 : base * (p * grow) == base * p + base * p * (grow - 1)) by ring.
    rewrite H1. set (bp := base * p) in *. clearbody bp. lra.
  - unfold JS.floor. change 8000%Z with (Qfloor 8000). apply Qfloor_resp_le.
    set (p := grow ^ (l - 1)) in *. clearbody p.
    assert (H0 : 0 <= base * (p - 1))
      by (apply Qmult_le_0_compat; lra).
    assert (H1 : base * p == base + base * (p - 1)) by ring.
    rewrite H1. lra.
  - intros ->. unfold JS.floor. apply Qfloor_comp.
    change (1 - 1)%Z with 0%Z. cbn [Qpower]. ring.
Qed.

Lemma upgrade_cost_never_falls_witness :
  let f := mkFacilities 2 1 1 1 1 in
  FACILITY_UPGRADE_COSTS "computer" = Some (20000, 1.6)
  /\ (8000 <= getUpgradeCost f "computer")%Z.
Proof.
  cbv zeta.
  assert (H : FACILITY_UPGRADE_COSTS "computer" = Some (20000, 1.6)) by reflexivity.
  split; [exact H|].
  exact (proj1 (proj2 (upgrade_cost_never_falls "computer" 20000 1.6
                         (mkFacilities 2 1 1 1 1) H ltac:(cbn; lia)))).
Defined.

(** ** script.js: evictSingle *)

Lemma activeCount_cons (s : Student) (l : list Student) :
  activeCount (s :: l) = ((if active s then 1 else 0) + activeCount l)%nat.
Proof.
  unfold activeCount. rewrite filter_cons.
  destruct (active s); destruct (decide _) as [E|E]; try reflexivity.
  - exfalso. apply E. reflexivity.
  - discriminate E.
Qed.

Lemma activeCount_evict (l : list Student) (idx : nat) (s : Student) :
  l !! idx = Some s -> active s = true ->
  S (activeCount (alter (set_active false) idx l)) = activeCount l.
Proof.
  revert idx. induction l as [|x l IH]; intros [|idx] H Ha; try discriminate H.
  - cbn in H. injection H as ->. cbn [alter list_alter].
    rewrite !activeCount_cons, Ha. reflexivity.
  - cbn in H. cbn [alter list_alter]. rewrite !activeCount_cons.
    change (list_alter (set_active false) idx l)
      with (alter (set_active false) idx l).
    rewrite <- (IH idx H Ha). lia.
Qed.

(** X25: evicting the competitor at an index.  When the index holds an
    active competitor, that competitor (and nobody else) becomes inactive,
    the number of active competitors goes down by one and the reputation
    loses 10 without going below 0; in every other case nothing changes.
    Evicting the same index again changes nothing. *)
Theorem eviction_happens_once (idx : nat) (roster : list Student) (reputation : Z) :
  let roster' := fst (evictSingle idx roster reputation) in
  let reputation' := snd (evictSingle idx roster reputation) in
  evictSingle idx roster' reputation' = (roster', reputation')
  /\ length roster' = length roster
  /\ (forall j, j <> idx -> roster' !! j = roster !! j)
  /\ (forall s, roster !! idx = Some s -> active s = true ->
      roster' !! idx = Some (set_active false s)
      /\ S (activeCount roster') = activeCount roster
      /\ reputation' = Z.max 0 (reputation - 10))
  /\ ((forall s, roster !! idx = Some s -> active s = false) ->
      roster' = roster /\ reputation' = reputation).
Proof.
  cbv zeta.
  destruct (roster !! idx) as [s|] eqn:E; [destruct (active s) eqn:Ea|].
  - assert (R : evictSingle idx roster reputation
                = (alter (set_active false) idx roster,
                   if (reputation - EVICT_REPUTATION_COST <? 0)%Z then 0%Z
                   else (reputation - EVICT_REPUTATION_COST)%Z))
      by (unfold evictSingle; rewrite E, Ea; reflexivity).
    rewrite R. cbn [fst snd].
    assert (E' : alter (set_active false) idx roster !! idx
                 = Some (set_active false s))
      by (rewrite list_lookup_alter, E;
          destruct (decide (idx = idx)); [reflexivity | congruence]).
    split; [|split; [|split; [|split]]].
    + unfold evictSingle. rewrite E'. reflexivity.
    + apply length_alter.
    + intros j Hj. apply list_lookup_alter_ne. congruence.
    + intros s0 H0 _. injection H0 as <-.
      split; [exact E'|]. split; [apply (activeCount_evict roster idx s E Ea)|].
      unfold EVICT_REPUTATION_COST.
      destruct (reputation - 10 <? 0)%Z eqn:Er;
        [apply Z.ltb_lt in Er | apply Z.ltb_ge in Er]; lia.
    + intros H. specialize (H s eq_refl). congruence.
  - assert (R : evictSingle idx roster reputation = (roster, reputation))
      by (unfold evictSingle; rewrite E, Ea; reflexivity).
    rewrite R. cbn [fst snd].
    split; [exact R|]. split; [reflexivity|]. split; [reflexivity|].
    split; [|intros _; split; reflexivity].
    intros s0 H0 Ha0. injection H0 as <-. congruence.
  - assert (R : evictSingle idx roster reputation = (roster, reputation))
      by (unfold evictSingle; rewrite E; reflexivity).
    rewrite R. cbn [fst snd].
    split; [exact R|]. split; [reflexivity|]. split; [reflexivity|].
    split; [|intros _; split; reflexivity].
    intros s0 H0. discriminate H0.
Qed.

Lemma eviction_happens_once_witness :
  let a := mkStudent "a" 50 50 50 0 0 0 0 0 95 50 true 0 in
  let b := mkStudent "b" 50 50 50 0 0 0 0 0 10 50 true 0 in
  [a; b] !! 1%nat = Some b /\ active b = true
  /\ snd (evictSingle 1 [a; b] 5) = 0%Z.
Proof.
  cbv zeta.
  set (a := mkStudent "a" 50 50 50 0 0 0 0 0 95 50 true 0).
  set (b := mkStudent "b" 50 50 50 0 0 0 0 0 10 50 true 0).
  assert (H1 : [a; b] !! 1%nat = Some b) by reflexivity.
  assert (H2 : active b = true) by reflexivity.
  split; [exact H1 | split; [exact H2|]].
  pose proof (eviction_happens_once 1 [a; b] 5) as (_ & _ & _ & H & _).
  exact (proj2 (proj2 (H b H1 H2))).
Defined.

(** ** script.js: checkEnding *)

Lemma activeCount_by_flags (l l' : list Student) :
  map active l = map active l' -> activeCount l = activeCount l'.
Proof.
  revert l'. induction l as [|s l IH]; intros [|s' l'] H; try discriminate H.
  - reflexivity.
  - cbn [map] in H. injection H as Hs Hl.
    rewrite !activeCount_cons, Hs, (IH l' Hl). reflexivity.
Qed.

Lemma checkEnding_cases (roster : list Student) (game_budget : Z)
    (initial_students : Q) (noi_rankings : list Q) :
  let '(has_gold, has_medal) :=
    fold_left
      (fun '(has_gold, has_medal) rank =>
         (if Qle_bool rank 3 then true else has_gold,
          if Qle_bool rank 10 then true else has_medal))
      noi_rankings (false, false) in
  checkEnding roster game_budget initial_students noi_rankings
  = if (game_budget <=? 0)%Z then ENDING_BANKRUPT
    else if JS.ltb (inject_Z (Z.of_nat (activeCount roster))) (initial_students * 0.5)
    then ENDING_COLLAPSE
    else if has_gold then ENDING_GLORY
    else if has_medal then ENDING_EXCELLENT
    else ENDING_ORDINARY.
Proof.
  unfold checkEnding. cbv zeta.
  destruct (fold_left _ noi_rankings (false, false)) as [has_gold has_medal].
  destruct (game_budget <=? 0)%Z; [reflexivity|].
  destruct (JS.ltb _ _); [reflexivity|].
  destruct has_gold; [reflexivity|]. destruct has_medal; [reflexivity|].
  destruct (_ && _); reflexivity.
Qed.

(** X26: the ending depends on the budget, on how many competitors are
    active, on the initial head count and on the NOI rankings only: two
    rosters with the same activity flags get the same ending whatever the
    pressures (the last test on retention and average pressure chooses
    between two equal results).  A budget of 0 or less gives the bankruptcy
    ending whatever else holds, and without any NOI ranking a positive
    budget leads to the collapse ending or to the ordinary one. *)
Theorem ending_ignores_pressure (roster roster' : list Student) (game_budget : Z)
    (initial_students : Q) (noi_rankings : list Q) :
  (map active roster = map active roster' ->
   checkEnding roster game_budget initial_students noi_rankings
   = checkEnding roster' game_budget initial_students noi_rankings)
  /\ ((game_budget <= 0)%Z ->
      checkEnding roster game_budget initial_students noi_rankings = ENDING_BANKRUPT)
  /\ ((0 < game_budget)%Z ->
      checkEnding roster game_budget initial_students [] = ENDING_COLLAPSE
      /\ inject_Z (Z.of_nat (activeCount roster)) < initial_students * 0.5
      \/ checkEnding roster game_budget initial_students [] = ENDING_ORDINARY
         /\ initial_students * 0.5 <= inject_Z (Z.of_nat (activeCount roster))).
Proof.
  split; [|split].
  - intros H.
    pose proof (checkEnding_cases roster game_budget initial_students noi_rankings) as H1.
    pose proof (checkEnding_cases roster' game_budget initial_students noi_rankings) as H2.
    destruct (fold_left _ noi_rankings (false, false)) as [has_gold has_medal].
    rewrite H1, H2, (activeCount_by_flags roster roster' H). reflexivity.
  - intros Hb.
    pose proof (checkEnding_cases roster game_budget initial_students noi_rankings) as H1.
    destruct (fold_left _ noi_rankings (false, false)) as [has_gold has_medal].
    rewrite H1. apply Z.leb_le in Hb. rewrite Hb. reflexivity.
  - intros Hb.
    pose proof (checkEnding_cases roster game_budget initial_students []) as H1.
    cbn [fold_left] in H1. rewrite H1.
    assert (E : (game_budget <=? 0)%Z = false) by (apply Z.leb_gt; exact Hb).
    rewrite E.
    destruct (JS.ltb _ _) eqn:El.
    + left. split; [reflexivity|]. apply ltb_lt. exact El.
    + right. split; [reflexivity|].
      unfold JS.ltb in El. apply negb_false_iff in El.
      apply Qle_bool_iff in El. exact El.
Qed.

Lemma ending_ignores_pressure_witness :
  let calm := mkStudent "a" 50 50 50 0 0 0 0 0 5 50 true 0 in
  let tense := mkStudent "a" 50 50 50 0 0 0 0 0 100 50 true 0 in
  map active [calm] = map active [tense]
  /\ checkEnding [calm] 1000 1 [] = checkEnding [tense] 1000 1 [].
Proof.
  cbv zeta.
  set (calm := mkStudent "a" 50 50 50 0 0 0 0 0 5 50 true 0).
  set (tense := mkStudent "a" 50 50 50 0 0 0 0 0 100 50 true 0).
  assert (H : map active [calm] = map active [tense]) by reflexivity.
  split; [exact H|].
  exact (proj1 (ending_ignores_pressure [calm] [tense] 1000 1 []) H).
Defined.

(** ** script.js: pushEvent *)

Lemma removelast_cons_cons {A : Type} (x y : A) (l : list A) :
  removelast (x :: y :: l) = x :: removelast (y :: l).
Proof. reflexivity. Qed.

Lemma removelast_length_cons {A : Type} (x : A) (l : list A) :
  length (removelast (x :: l)) = length l.
Proof.
  revert x. induction l as [|y l IH]; intros x; [reflexivity|].
  rewrite removelast_cons_cons. cbn [length]. rewrite IH. reflexivity.
Qed.

Lemma removelast_sublist {A : Type} (l : list A) : sublist (removelast l) l.
Proof.
  induction l as [|x l IH]; [constructor|].
  destruct l as [|y l]; [cbn; constructor; constructor|].
  rewrite removelast_cons_cons. apply sublist_skip. exact IH.
Qed.

Lemma existsb_key_false (key : string) (l : list Event) :
  existsb (fun r => String.eqb (eventKey r) key) l = false ->
  key ∉ map eventKey l.
Proof.
  induction l as [|r l IH]; cbn [existsb map]; intros H.
  - apply not_elem_of_nil.
  - apply orb_false_iff in H. destruct H as [H1 H2].
    apply not_elem_of_cons. split; [|apply IH; exact H2].
    apply String.eqb_neq in H1. congruence.
Qed.

(** X27: the list of recent events.  Pushing a message never makes a list
    of at most 24 events longer than 24, keeps the keys of the list
    pairwise different when they were, and is idempotent: pushing the same
    message in the same week a second time changes nothing.  A message
    whose key is not in the list yet ends up at the front. *)
Theorem recent_events_capped_and_distinct (msg : Msg) (game_week : Z)
    (recentEvents : list Event) :
  let pushed := pushEvent msg game_week recentEvents in
  ((length recentEvents <= 24)%nat -> (length pushed <= 24)%nat)
  /\ (NoDup (map eventKey recentEvents) -> NoDup (map eventKey pushed))
  /\ pushEvent msg game_week pushed = pushed
  /\ (eventKey (eventOf msg game_week) ∉ map eventKey recentEvents ->
      head pushed = Some (eventOf msg game_week)).
Proof.
  cbv zeta.
  set (ev := eventOf msg game_week).
  destruct (existsb (fun r => String.eqb (eventKey r) (eventKey ev)) recentEvents)
    eqn:Ex.
  - assert (R : pushEvent msg game_week recentEvents = recentEvents)
      by (unfold pushEvent; cbv zeta; fold ev; rewrite Ex; reflexivity).
    rewrite R.
    split; [intros H; exact H|]. split; [intros H; exact H|].
    split; [exact R|].
    intros Hn. exfalso. apply Hn.
    apply existsb_exists in Ex. destruct Ex as (r & Hr & Hk).
    apply String.eqb_eq in Hk. rewrite <- Hk.
    apply list_elem_of_fmap. exists r. split; [reflexivity|].
    apply list_elem_of_In. exact Hr.
  - assert (R : pushEvent msg game_week recentEvents
                = if (24 <? length (ev :: recentEvents))%nat
                  then removelast (ev :: recentEvents) else ev :: recentEvents)
      by (unfold pushEvent; cbv zeta; fold ev; rewrite Ex; reflexivity).
    rewrite R.
    pose proof (existsb_key_false _ _ Ex) as Hnew.
    assert (Hhead : head (if (24 <? length (ev :: recentEvents))%nat
                          then removelast (ev :: recentEvents)
                          else ev :: recentEvents) = Some ev).
    { destruct (24 <? length (ev :: recentEvents))%nat eqn:E24; [|reflexivity].
      destruct recentEvents as [|y l]; [discriminate E24|]. reflexivity. }
    split; [|split; [|split]].
    + intros Hlen. destruct (24 <? length (ev :: recentEvents))%nat eqn:E24.
      * rewrite removelast_length_cons. exact Hlen.
      * apply Nat.ltb_ge in E24. exact E24.
    + intros Hnd.
      assert (Hall : NoDup (map eventKey (ev :: recentEvents)))
        by (cbn [map]; apply NoDup_cons; split; assumption).
      destruct (24 <? length (ev :: recentEvents))%nat; [|exact Hall].
      apply (sublist_NoDup _ (map eventKey (ev :: recentEvents)) Hall).
      apply (fmap_sublist eventKey), removelast_sublist.
    + set (l1 := if (24 <? length (ev :: recentEvents))%nat then _ else _) in *.
      clearbody l1. destruct l1 as [|e l1]; [discriminate Hhead|].
      cbn [head] in Hhead. injection Hhead as ->.
      unfold pushEvent. cbv zeta. fold ev. cbn [existsb].
      rewrite String.eqb_refl. reflexivity.
    + intros _. exact Hhead.
Qed.

Lemma recent_events_capped_and_distinct_witness :
  let old := [mkEvent None "rain" 3] in
  (length old <= 24)%nat
  /\ (length (pushEvent (MsgString "snow") 4 old) <= 24)%nat.
Proof.
  cbv zeta.
  assert (H : (length [mkEvent None "rain" 3] <= 24)%nat) by (cbn; lia).
  split; [exact H|].
  exact (proj1 (recent_events_capped_and_distinct (MsgString "snow") 4
                  [mkEvent None "rain" 3]) H).
Defined.

(** ** script.js: safeWeeklyUpdate *)

Lemma schedule_members (c : Competition) :
  c ∈ COMPETITION_SCHEDULE ->
  c = mkCompetition COMP_CSP_S1 10 (Some 100)
  \/ c = mkCompetition COMP_CSP_S2 15 (Some 400)
  \/ c = mkCompetition COMP_NOIP 20 (Some 400)
  \/ c = mkCompetition COMP_PROVINCIAL 37 (Some 400)
  \/ c = mkCompetition COMP_NOI 50 (Some 400).
Proof.
  unfold COMPETITION_SCHEDULE. intros H.
  repeat (apply elem_of_cons in H; destruct H as [H|H]; [tauto|]).
  apply elem_of_nil in H. destruct H.
Qed.

Ltac decide_tests :=
  repeat match goal with
         | |- context [(?a <? ?b)%Z] =>
             let E := fresh "E" in
             destruct (a <? b)%Z eqn:E;
             [apply Z.ltb_lt in E | apply Z.ltb_ge in E]; cbn [comp_week] in *; try lia
         | |- context [(?a <=? ?b)%Z] =>
             let E := fresh "E" in
             destruct (a <=? b)%Z eqn:E;
             [apply Z.leb_le in E | apply Z.leb_gt in E]; cbn [comp_week] in *; try lia
         | |- context [(?a >? ?b)%Z] =>
             let E := fresh "E" in
             destruct (a >? b)%Z eqn:E;
             [apply Z.gtb_lt in E | rewrite Z.gtb_ltb in E; apply Z.ltb_ge in E];
             cbn [comp_week] in *; try lia
         | |- context [(?a =? ?b)%Z] =>
             let E := fresh "E" in
             destruct (a =? b)%Z eqn:E;
             [apply Z.eqb_eq in E | apply Z.eqb_neq in E]; cbn [comp_week] in *; try lia
         end.

Lemma safeWeeklyUpdate_schedule (weeks w : Z) :
  (0 <= weeks <= 5)%Z ->
  fst (safeWeeklyUpdate COMPETITION_SCHEDULE weeks w) = (w + weeks)%Z
  /\ snd (safeWeeklyUpdate COMPETITION_SCHEDULE weeks w)
     = find (fun c => (w <? comp_week c)%Z && (comp_week c <=? w + weeks)%Z)
         COMPETITION_SCHEDULE.
Proof.
  intros Hw.
  unfold safeWeeklyUpdate, checkCompetitions, weeklyUpdate_week, COMPETITION_SCHEDULE.
  cbn [find comp_week].
  split;
    repeat (first [ progress decide_tests
                  | progress cbn [fst snd andb find comp_week] ]);
    try reflexivity; try lia.
Qed.

(** X28: with the contest calendar of the game, an action that lets up to
    five weeks pass never jumps over a contest week: the calendar advances
    by exactly the requested number of weeks, and every contest whose week
    lies in the interval that was passed is the one [checkCompetitions] was
    asked to open in its own week; no contest outside the interval is
    opened.  Five is the limit: six weeks from week 9 open the contest of
    week 10 and run past the contest of week 15. *)
Theorem no_contest_week_skipped (weeks w : Z) :
  (0 <= weeks <= 5)%Z ->
  let after := fst (safeWeeklyUpdate COMPETITION_SCHEDULE weeks w) in
  let held := snd (safeWeeklyUpdate COMPETITION_SCHEDULE weeks w) in
  after = (w + weeks)%Z
  /\ (forall c, c ∈ COMPETITION_SCHEDULE ->
      (w < comp_week c <= w + weeks)%Z -> held = Some c)
  /\ (forall c, held = Some c ->
      c ∈ COMPETITION_SCHEDULE /\ (w < comp_week c <= w + weeks)%Z)
  /\ safeWeeklyUpdate COMPETITION_SCHEDULE 6 9
     = (15%Z, Some (mkCompetition COMP_CSP_S1 10 (Some 100))).
Proof.
  intros Hw. cbv zeta.
  destruct (safeWeeklyUpdate_schedule weeks w Hw) as [Ha Hh].
  rewrite Ha, Hh. clear Ha Hh.
  split; [reflexivity|]. split; [|split; [|reflexivity]].
  - intros c Hc Hin.
    apply schedule_members in Hc.
    unfold COMPETITION_SCHEDULE. cbn [find comp_week].
    destruct Hc as [->|[->|[->|[->| ->]]]]; cbn [comp_week] in Hin;
      decide_tests; cbn [andb]; try reflexivity; try lia.
  - intros c Hc. apply find_some in Hc. destruct Hc as [Hin Hc].
    apply andb_true_iff in Hc. destruct Hc as [H1 H2].
    apply Z.ltb_lt in H1. apply Z.leb_le in H2.
    split; [apply list_elem_of_In; exact Hin | lia].
Qed.

Lemma no_contest_week_skipped_witness :
  (0 <= 4 <= 5)%Z
  /\ safeWeeklyUpdate COMPETITION_SCHEDULE 4 8
     = (12%Z, Some (mkCompetition COMP_CSP_S1 10 (Some 100))).
Proof.
  assert (H : (0 <= 4 <= 5)%Z) by lia.
  split; [exact H|].
  pose proof (no_contest_week_skipped 4 8 H) as (Ha & Hh & _).
  cbv zeta in Ha, Hh.
  rewrite (surjective_pairing (safeWeeklyUpdate COMPETITION_SCHEDULE 4 8)).
  rewrite Ha.
  rewrite (Hh (mkCompetition COMP_CSP_S1 10 (Some 100)));
    [reflexivity | | cbn; lia].
  unfold COMPETITION_SCHEDULE. apply list_elem_of_here.
Defined.

(** ** script.js: outingTraining *)

Lemma outingBaseCost_range (difficulty_choice : Z) (target : Province) :
  (10500 <= outingBaseCost difficulty_choice target <= 60000)%Z.
Proof.
  unfold outingBaseCost. cbv zeta.
  destruct (difficulty_choice =? 2)%Z; [|destruct (difficulty_choice =? 3)%Z];
    (destruct (String.eqb (prov_type target) PROVINCE_STRONG);
     [|destruct (String.eqb (prov_type target) PROVINCE_WEAK)]);
    try match goal with
        | |- context [JS.floor ?x] =>
            let v := eval vm_compute in (JS.floor x) in
            change (JS.floor x) with v
        end;
    unfold OUTFIT_BASE_COST_BASIC, OUTFIT_BASE_COST_INTERMEDIATE,
      OUTFIT_BASE_COST_ADVANCED; lia.
Qed.

Lemma outingStudent_effect kmin kmax amin amax pg uk ua s :
  let s' := outingStudent kmin kmax amin amax pg uk ua s in
  let g := uniformInt uk (inject_Z kmin) (inject_Z kmax) in
  (thinking s' <= 100 /\ coding s' <= 100 /\ mental s' <= 100)
  /\ pressure s' = pressure s + pg
  /\ comfort s' = comfort s - 10
  /\ (knowledge_ds s' = (knowledge_ds s + g)%Z
      /\ knowledge_graph s' = (knowledge_graph s + g)%Z
      /\ knowledge_string s' = (knowledge_string s + g)%Z
      /\ knowledge_math s' = (knowledge_math s + g)%Z
      /\ knowledge_dp s' = (knowledge_dp s + g)%Z)
  /\ (name s' = name s /\ active s' = active s /\ sick_weeks s' = sick_weeks s).
Proof.
  cbv zeta. unfold outingStudent. cbv zeta.
  cbn [thinking coding mental pressure comfort knowledge_ds knowledge_graph
         knowledge_string knowledge_math knowledge_dp name active sick_weeks
         set_thinking set_coding set_mental set_pressure set_comfort set_knowledge].
  split; [|repeat split; reflexivity].
  repeat split; apply Q.le_min_l.
Qed.

Lemma outing_knowledge_range (difficulty_choice : Z) (target : Province) :
  0 <= trainingQuality target ->
  let knowledge_base :=
    if (difficulty_choice =? 2)%Z then OUTFIT_KNOWLEDGE_BASE_INTERMEDIATE
    else if (difficulty_choice =? 3)%Z then OUTFIT_KNOWLEDGE_BASE_ADVANCED
    else OUTFIT_KNOWLEDGE_BASE_BASIC in
  let knowledge_mult :=
    (if (difficulty_choice =? 2)%Z then 1.2
     else if (difficulty_choice =? 3)%Z then 1.5 else 1.0) * trainingQuality target in
  (0 <= JS.floor (knowledge_base * knowledge_mult)
   <= JS.floor (knowledge_base * knowledge_mult * 1.8))%Z.
Proof.
  intros Hq. cbv zeta. unfold JS.floor.
  set (kb := if (difficulty_choice =? 2)%Z then OUTFIT_KNOWLEDGE_BASE_INTERMEDIATE
             else if (difficulty_choice =? 3)%Z then OUTFIT_KNOWLEDGE_BASE_ADVANCED
             else OUTFIT_KNOWLEDGE_BASE_BASIC).
  set (km := if (difficulty_choice =? 2)%Z then 1.2
             else if (difficulty_choice =? 3)%Z then 1.5 else 1.0).
  assert (Hkb : 0 <= kb).
  { unfold kb. destruct (difficulty_choice =? 2)%Z; [discriminate|].
    destruct (difficulty_choice =? 3)%Z; discriminate. }
  assert (Hkm : 0 <= km).
  { unfold km. destruct (difficulty_choice =? 2)%Z; [discriminate|].
    destruct (difficulty_choice =? 3)%Z; discriminate. }
  assert (Hp : 0 <= kb * (km * trainingQuality target)).
  { apply Qmult_le_0_compat; [exact Hkb|]. apply Qmult_le_0_compat; assumption. }
  split.
  - change 0%Z with (Qfloor 0). apply Qfloor_resp_le. exact Hp.
  - apply Qfloor_resp_le. lra.
Qed.

(** X29: an outing, when every draw lies in [[0, 1)] and the training
    quality of the province is not negative.  The final cost, the base cost
    of the difficulty and the province plus a draw between -3000 and 3000,
    lies between 7500 and 63000.  If the budget is below the final cost,
    nothing changes.  Otherwise the outing takes place: the budget goes down
    by exactly the final cost and is not overdrawn, the roster keeps its
    size, inactive competitors are untouched, and every active competitor
    ends with thinking, coding and mental at most 100, each of the five
    knowledge counters raised by one common amount that is not negative,
    the pressure raised by 30, 50 or 75 according to the difficulty, with no
    cap, the comfort lowered by 10, with no floor, and the name, the
    activity and the sick weeks as they were. *)
Theorem outing_paid_in_full (difficulty_choice : Z) (target : Province)
    (u_cost : Q) (draws : nat -> Q * Q) (game_budget : Z) (roster : list Student) :
  0 <= u_cost -> u_cost < 1 ->
  (forall i, 0 <= fst (draws i) /\ fst (draws i) < 1) ->
  0 <= trainingQuality target ->
  let final_cost :=
    (outingBaseCost difficulty_choice target + uniformInt u_cost (-3000) 3000)%Z in
  let game_budget' :=
    fst (outingTraining difficulty_choice target u_cost draws game_budget roster) in
  let roster' :=
    snd (outingTraining difficulty_choice target u_cost draws game_budget roster) in
  (7500 <= final_cost <= 63000)%Z
  /\ (outingPressureGain difficulty_choice == 30
      \/ outingPressureGain difficulty_choice == 50
      \/ outingPressureGain difficulty_choice == 75)
  /\ ((game_budget < final_cost)%Z ->
      game_budget' = game_budget /\ roster' = roster)
  /\ ((final_cost <= game_budget)%Z ->
      game_budget' = (game_budget - final_cost)%Z
      /\ (0 <= game_budget')%Z
      /\ length roster' = length roster
      /\ forall i s, roster !! i = Some s ->
           exists s',
             roster' !! i = Some s'
             /\ (active s = false -> s' = s)
             /\ (active s = true ->
                 (thinking s' <= 100 /\ coding s' <= 100 /\ mental s' <= 100)
                 /\ pressure s' = pressure s + outingPressureGain difficulty_choice
                 /\ comfort s' = comfort s - 10
                 /\ (exists g : Z,
                      (0 <= g)%Z
                      /\ knowledge_ds s' = (knowledge_ds s + g)%Z
                      /\ knowledge_graph s' = (knowledge_graph s + g)%Z
                      /\ knowledge_string s' = (knowledge_string s + g)%Z
                      /\ knowledge_math s' = (knowledge_math s + g)%Z
                      /\ knowledge_dp s' = (knowledge_dp s + g)%Z)
                 /\ (name s' = name s /\ active s' = active s
                     /\ sick_weeks s' = sick_weeks s))).
Proof.
  intros Hu0 Hu1 Hd Hq. cbv zeta. unfold outingTraining. cbv zeta.
  pose proof (outingBaseCost_range difficulty_choice target) as Hb.
  pose proof (uniformInt_range u_cost (-3000) 3000 Hu0 Hu1 ltac:(lia)) as Hr.
  change (inject_Z (-3000)) with (-3000) in Hr.
  change (inject_Z 3000) with 3000 in Hr.
  pose proof (outing_knowledge_range difficulty_choice target Hq) as Hk.
  cbv zeta in Hk.
  set (final_cost := (outingBaseCost difficulty_choice target
                      + uniformInt u_cost (-3000) 3000)%Z) in *.
  split; [unfold final_cost; lia|]. split.
  { unfold outingPressureGain, OUTFIT_PRESSURE_INTERMEDIATE, OUTFIT_PRESSURE_ADVANCED,
      OUTFIT_PRESSURE_BASIC.
    destruct (difficulty_choice =? 2)%Z; [right; left; reflexivity|].
    destruct (difficulty_choice =? 3)%Z; [right; right; reflexivity | left; reflexivity]. }
  split.
  - intros Hlt. apply Z.ltb_lt in Hlt. rewrite Hlt. cbn [fst snd]. split; reflexivity.
  - intros Hge. apply Z.ltb_ge in Hge. rewrite Hge. apply Z.ltb_ge in Hge.
    cbn [fst snd].
    split; [reflexivity|]. split; [lia|].
    split; [apply length_imap|].
    intros i s Hi. rewrite list_lookup_imap, Hi. cbn [fmap option_fmap option_map].
    destruct (active s) eqn:Ea.
    + eexists. split; [reflexivity|]. split; [discriminate|]. intros _.
      match goal with
      | |- context [outingStudent ?a ?b ?c ?d ?e ?f ?g s] =>
          pose proof (outingStudent_effect a b c d e f g s) as HS;
          pose proof (uniformInt_range f a b (proj1 (Hd i)) (proj2 (Hd i))) as HG
      end.
      cbv zeta in HS. destruct HS as (H1 & H2 & H3 & H4 & H5).
      split; [exact H1|]. split; [exact H2|]. split; [exact H3|].
      split; [|rewrite Ea in H5; exact H5].
      eexists. split; [|exact H4].
      specialize (HG (proj2 Hk)). lia.
    + exists s. split; [reflexivity|]. split; [reflexivity|]. discriminate.
Qed.

Lemma outing_paid_in_full_witness :
  let a := mkStudent "a" 99 50 50 0 0 0 0 0 95 5 true 0 in
  let after := outingTraining 1 (mkProvince PROVINCE_WEAK 0.7) 0.5
                 (fun _ => (0.5, 0.5)) 20000 [a] in
  0 <= 0.5 /\ 0.5 < 1 /\ 0 <= trainingQuality (mkProvince PROVINCE_WEAK 0.7)
  /\ (10500 + 0 <= 20000)%Z
  /\ fst after = (20000 - 10500)%Z
  /\ length (snd after) = 1%nat.
Proof.
  cbv zeta.
  assert (H0 : 0 <= 0.5) by discriminate.
  assert (H1 : 0.5 < 1) by reflexivity.
  assert (Hd : forall i : nat,
             0 <= fst ((fun _ : nat => (0.5, 0.5)) i)
             /\ fst ((fun _ : nat => (0.5, 0.5)) i) < 1)
    by (intros _; split; [discriminate | reflexivity]).
  assert (Hq : 0 <= trainingQuality (mkProvince PROVINCE_WEAK 0.7)) by discriminate.
  assert (Hc : (10500 + 0 <= 20000)%Z) by lia.
  split; [exact H0 | split; [exact H1 | split; [exact Hq | split; [exact Hc|]]]].
  destruct (outing_paid_in_full 1 (mkProvince PROVINCE_WEAK 0.7) 0.5
              (fun _ => (0.5, 0.5)) 20000
              [mkStudent "a" 99 50 50 0 0 0 0 0 95 5 true 0] H0 H1 Hd Hq)
    as (_ & _ & _ & Htook).
  destruct (Htook Hc) as (Hb & _ & Hl & _).
  split; [exact Hb | exact Hl].
Defined.

(** ** script.js: the entertainment dialog *)

Lemma uniform_range (u lo hi : Q) :
  0 <= u -> u < 1 -> lo <= hi -> lo <= uniform u lo hi <= hi.
Proof.
  intros H0 H1 Hle. unfold uniform.
  assert (Hd : 0 <= hi - lo) by lra.
  set (d := hi - lo) in *.
  assert (Hl : 0 <= u * d) by (apply Qmult_le_0_compat; assumption).
  assert (Hh : 0 <= (1 - u) * d) by (apply Qmult_le_0_compat; lra).
  assert (E : (1 - u) * d == d - u * d) by ring.
  rewrite E in Hh. unfold d in *. split; lra.
Qed.

Lemma entertainment_cost (type : string) :
  let cost :=
    match find (fun o => String.eqb (fst o) type) entertainmentOpts with
    | Some opt => snd opt
    | None => 0%Z
    end in
  (0 <= cost <= 3000)%Z /\ (0 < cost -> type = ENT_MEAL \/ type = ENT_CS)%Z.
Proof.
  cbv zeta. unfold entertainmentOpts, ENTERTAINMENT_COST_MEAL, ENTERTAINMENT_COST_CS.
  cbn [find fst snd].
  destruct (String.eqb ENT_TALK type); [cbn; lia|].
  destruct (String.eqb ENT_MEAL type) eqn:E1;
    [apply String.eqb_eq in E1; cbn; split; [lia | intros _; left; congruence]|].
  destruct (String.eqb ENT_FREE type); [cbn; lia|].
  destruct (String.eqb ENT_BALL type); [cbn; lia|].
  destruct (String.eqb ENT_CS type) eqn:E2;
    [apply String.eqb_eq in E2; cbn; split; [lia | intros _; right; congruence]|].
  cbn; lia.
Qed.

Lemma relief_range (p r : Q) : 0 <= p -> 0 <= r -> 0 <= Qmax 0 (p - r) <= p.
Proof.
  intros Hp Hr. split; [apply Q.le_max_l | apply Q.max_lub; lra].
Qed.

Lemma entertainStudent_pressure type weather facilities um up uc s :
  0 <= up -> up < 1 -> 0 <= pressure s ->
  let s' := entertainStudent type weather facilities um up uc s in
  0 <= pressure s' /\ pressure s' <= pressure s.
Proof.
  intros Hp0 Hp1 Hp. cbv zeta. unfold entertainStudent. cbv zeta.
  assert (U : forall lo hi, 0 <= lo -> lo <= hi -> 0 <= uniform up lo hi)
    by (intros lo hi Hlo Hle; destruct (uniform_range up lo hi Hp0 Hp1 Hle); lra).
  destruct (String.eqb type ENT_TALK_LONG || String.eqb type ENT_TALK);
    [cbn [pressure set_mental set_pressure];
     apply relief_range; [exact Hp | apply U; discriminate]|].
  destruct (String.eqb type ENT_MEAL);
    [cbn [pressure set_mental set_pressure];
     apply relief_range; [exact Hp | apply U; discriminate]|].
  destruct (String.eqb type ENT_FREE).
  { cbn [pressure set_mental set_pressure].
    apply relief_range; [exact Hp|].
    apply Qmult_le_0_compat; [apply U; discriminate|].
    destruct (String.eqb weather WEATHER_SNOW); [discriminate|].
    destruct (_ && _); discriminate. }
  destruct (String.eqb type ENT_BALL);
    [cbn [pressure set_mental set_pressure];
     apply relief_range; [exact Hp | apply U; discriminate]|].
  destruct (String.eqb type ENT_CS);
    [cbn [pressure set_mental set_pressure set_coding];
     apply relief_range; [exact Hp | apply U; discriminate]|].
  cbn [pressure set_mental]. split; [exact Hp | lra].
Qed.

Lemma entertainStudent_mental type weather facilities um up uc s :
  0 <= um -> um < 1 -> 0 <= uc -> uc < 1 ->
  let s' := entertainStudent type weather facilities um up uc s in
  (mental s' <= 100 /\ Qmin 100 (mental s) <= mental s')
  /\ thinking s' = thinking s
  /\ (type <> ENT_CS -> coding s' = coding s)
  /\ (type = ENT_CS -> coding s' = coding s + uniform uc 2.0 3.0)
  /\ coding s <= coding s'
  /\ knowledgeSum s' = knowledgeSum s.
Proof.
  intros Hm0 Hm1 Hc0 Hc1. cbv zeta. unfold entertainStudent. cbv zeta.
  assert (Hmono : forall lo hi, 0 <= lo -> lo <= hi ->
                    Qmin 100 (mental s) <= Qmin 100 (mental s + uniform um lo hi)).
  { intros lo hi Hlo Hle. apply Q.min_le_compat_l.
    destruct (uniform_range um lo hi Hm0 Hm1 Hle). lra. }
  destruct (String.eqb type ENT_TALK_LONG || String.eqb type ENT_TALK) eqn:E0.
  { assert (Hne : type <> ENT_CS) by (intros ->; discriminate E0).
    cbn [mental thinking coding set_mental set_pressure].
    split; [split; [apply Q.le_min_l | apply Hmono; discriminate]|].
    split; [reflexivity|]. split; [reflexivity|].
    split; [intros H; contradiction|]. split; [lra | reflexivity]. }
  destruct (String.eqb type ENT_MEAL) eqn:E1.
  { assert (Hne : type <> ENT_CS) by (intros ->; discriminate E1).
    cbn [mental thinking coding set_mental set_pressure].
    split; [split; [apply Q.le_min_l | apply Hmono; discriminate]|].
    split; [reflexivity|]. split; [reflexivity|].
    split; [intros H; contradiction|]. split; [lra | reflexivity]. }
  destruct (String.eqb type ENT_FREE) eqn:E2.
  { assert (Hne : type <> ENT_CS) by (intros ->; discriminate E2).
    cbn [mental thinking coding set_mental set_pressure].
    split; [split; [apply Q.le_min_l | apply Hmono; discriminate]|].
    split; [reflexivity|]. split; [reflexivity|].
    split; [intros H; contradiction|]. split; [lra | reflexivity]. }
  destruct (String.eqb type ENT_BALL) eqn:E3.
  { assert (Hne : type <> ENT_CS) by (intros ->; discriminate E3).
    cbn [mental thinking coding set_mental set_pressure].
    split; [split; [apply Q.le_min_l | apply Hmono; discriminate]|].
    split; [reflexivity|]. split; [reflexivity|].
    split; [intros H; contradiction|]. split; [lra | reflexivity]. }
  destruct (String.eqb type ENT_CS) eqn:E4.
  { cbn [mental thinking coding set_mental set_pressure set_coding].
    destruct (uniform_range uc 2.0 3.0 Hc0 Hc1 ltac:(discriminate)) as [Hu2 _].
    split; [split; [apply Q.le_min_l | apply Hmono; discriminate]|].
    split; [reflexivity|].
    split; [intros H; apply String.eqb_eq in E4; contradiction|].
    split; [intros _; reflexivity|]. split; [lra | reflexivity]. }
  cbn [mental thinking coding set_mental].
  split; [split; [apply Q.le_min_l | lra]|].
  split; [reflexivity|]. split; [reflexivity|].
  split; [intros ->; discriminate E4|]. split; [lra | reflexivity].
Qed.

Lemma entertainmentCost_range (type : string) :
  (0 <= entertainmentCost type <= 3000)%Z
  /\ ((0 < entertainmentCost type)%Z -> type = ENT_MEAL \/ type = ENT_CS)
  /\ entertainmentCost ENT_MEAL = 3000%Z /\ entertainmentCost ENT_CS = 1000%Z.
Proof.
  destruct (entertainment_cost type) as [H1 H2].
  split; [exact H1|]. split; [exact H2|]. split; reflexivity.
Qed.

Lemma entertainStudent_untouched type weather facilities um up uc s :
  let s' := entertainStudent type weather facilities um up uc s in
  thinking s' = thinking s
  /\ (knowledge_ds s' = knowledge_ds s
      /\ knowledge_graph s' = knowledge_graph s
      /\ knowledge_string s' = knowledge_string s
      /\ knowledge_math s' = knowledge_math s
      /\ knowledge_dp s' = knowledge_dp s)
  /\ (comfort s' = comfort s /\ name s' = name s /\ active s' = active s
      /\ sick_weeks s' = sick_weeks s).
Proof.
  cbv zeta. unfold entertainStudent. cbv zeta.
  repeat match goal with
         | |- context [if ?b then _ else _] => destruct b
         end; cbn; repeat split; reflexivity.
Qed.

(** X30: the confirm handler of the entertainment dialog, when every draw
    lies in [[0, 1)].  The cost of the option is between 0 and 3000, and
    only the meal (3000) and the CS game (1000) cost anything.  The CS game
    with a computer room below level 3, and an option that the budget does
    not cover, change nothing, and the weekly update is not run.  Otherwise
    the entertainment takes place and the weekly update is run on the state
    it leaves: the budget lowered by exactly the cost and not overdrawn, the
    weeks since the last entertainment raised by 2, the roster of the same
    size, inactive competitors untouched, and for every active competitor
    mental at most 100 and not below [min(100, old)], thinking, comfort and
    each of the five knowledge counters untouched, coding untouched outside
    the CS game and raised by between 2 and 3, without a cap, under it, and
    a non-negative pressure that does not rise and stays non-negative. *)
Theorem entertainment_relieves_pressure (type weather : string)
    (facilities : Facilities) (draws : nat -> Q * Q * Q)
    (safeWeeklyUpdate2 : Z * list Student * Z -> Z * list Student * Z)
    (game_budget : Z) (roster : list Student) (weeks_since_entertainment : Z) :
  (forall i, (0 <= fst (fst (draws i)) /\ fst (fst (draws i)) < 1)
             /\ (0 <= snd (fst (draws i)) /\ snd (fst (draws i)) < 1)
             /\ (0 <= snd (draws i) /\ snd (draws i) < 1)) ->
  let cost := entertainmentCost type in
  let result :=
    entertainment type weather facilities draws safeWeeklyUpdate2 game_budget roster
      weeks_since_entertainment in
  ((0 <= cost <= 3000)%Z /\ ((0 < cost)%Z -> type = ENT_MEAL \/ type = ENT_CS))
  /\ (type = ENT_CS -> (computer facilities < 3)%Z ->
      result = (game_budget, roster, weeks_since_entertainment))
  /\ ((game_budget < cost)%Z ->
      result = (game_budget, roster, weeks_since_entertainment))
  /\ ((type = ENT_CS -> (3 <= computer facilities)%Z) ->
      (cost <= game_budget)%Z ->
      exists roster',
        result = safeWeeklyUpdate2
                   ((game_budget - cost)%Z, roster', (weeks_since_entertainment + 2)%Z)
        /\ (0 <= game_budget - cost)%Z
        /\ length roster' = length roster
        /\ forall i s, roster !! i = Some s ->
             exists s',
               roster' !! i = Some s'
               /\ (active s = false -> s' = s)
               /\ (active s = true ->
                   (mental s' <= 100 /\ Qmin 100 (mental s) <= mental s')
                   /\ thinking s' = thinking s
                   /\ (type <> ENT_CS -> coding s' = coding s)
                   /\ (type = ENT_CS ->
                       coding s + 2 <= coding s' /\ coding s' <= coding s + 3)
                   /\ (knowledge_ds s' = knowledge_ds s
                       /\ knowledge_graph s' = knowledge_graph s
                       /\ knowledge_string s' = knowledge_string s
                       /\ knowledge_math s' = knowledge_math s
                       /\ knowledge_dp s' = knowledge_dp s)
                   /\ (comfort s' = comfort s /\ name s' = name s
                       /\ active s' = active s /\ sick_weeks s' = sick_weeks s)
                   /\ (0 <= pressure s ->
                       0 <= pressure s' /\ pressure s' <= pressure s))).
Proof.
  intros Hd. cbv zeta. unfold entertainment. cbv zeta.
  destruct (entertainmentCost_range type) as (Hcost & Hpaid & _).
  set (cost := entertainmentCost type) in *. clearbody cost.
  split; [split; [exact Hcost | exact Hpaid]|].
  split.
  { intros -> Hc. apply Z.ltb_lt in Hc. rewrite Hc. reflexivity. }
  split.
  { intros Hlt. apply Z.ltb_lt in Hlt. rewrite Hlt.
    destruct (String.eqb type ENT_CS && (computer facilities <? 3)%Z); reflexivity. }
  intros Hcs Hge.
  assert (Eg : String.eqb type ENT_CS && (computer facilities <? 3)%Z = false).
  { destruct (String.eqb type ENT_CS) eqn:E; [|reflexivity].
    apply String.eqb_eq in E. specialize (Hcs E). cbn [andb].
    apply Z.ltb_ge. exact Hcs. }
  rewrite Eg. apply Z.ltb_ge in Hge. rewrite Hge. apply Z.ltb_ge in Hge.
  eexists. split; [reflexivity|]. split; [lia|]. split; [apply length_imap|].
  intros i s Hi. rewrite list_lookup_imap, Hi. cbn [fmap option_fmap option_map].
  destruct (active s) eqn:Ea.
  - eexists. split; [reflexivity|]. split; [discriminate|]. intros _.
    destruct (Hd i) as ((Hm0 & Hm1) & (Hp0 & Hp1) & (Hc0 & Hc1)).
    destruct (uniform_range (snd (draws i)) 2.0 3.0 Hc0 Hc1 ltac:(discriminate))
      as [Hu2 Hu3].
    pose proof (entertainStudent_mental type weather facilities
                  (fst (fst (draws i))) (snd (fst (draws i))) (snd (draws i)) s
                  Hm0 Hm1 Hc0 Hc1) as HM.
    cbv zeta in HM. destruct HM as (H2 & H3 & H4 & H5 & H6 & H7).
    pose proof (entertainStudent_untouched type weather facilities
                  (fst (fst (draws i))) (snd (fst (draws i))) (snd (draws i)) s) as HU.
    cbv zeta in HU. destruct HU as (_ & HK & HO). rewrite Ea in HO.
    split; [exact H2|]. split; [exact H3|]. split; [exact H4|].
    split; [intros E; rewrite (H5 E); split; lra|].
    split; [exact HK|]. split; [exact HO|].
    intros Hp.
    exact (entertainStudent_pressure type weather facilities
             (fst (fst (draws i))) (snd (fst (draws i))) (snd (draws i)) s
             Hp0 Hp1 Hp).
  - exists s. split; [reflexivity|]. split; [reflexivity|]. discriminate.
Qed.

(** A CS game in a computer room of level 3 with 5000 in the budget: it
    takes place, costs 1000, and the weekly update (here one that charges
    2400) runs on the state it leaves. *)
Lemma entertainment_relieves_pressure_witness :
  let a := mkStudent "a" 50 99 50 0 0 0 0 0 95 50 true 0 in
  let weekly := fun st : Z * list Student * Z =>
                  ((fst (fst st) - 2400)%Z, snd (fst st), snd st) in
  let result := entertainment ENT_CS "晴" (mkFacilities 3 1 1 1 1)
                  (fun _ => (0.5, 0.5, 0.5)) weekly 5000 [a] 0 in
  (forall i : nat, (0 <= 0.5 /\ 0.5 < 1) /\ (0 <= 0.5 /\ 0.5 < 1) /\ (0 <= 0.5 /\ 0.5 < 1))
  /\ (3 <= computer (mkFacilities 3 1 1 1 1))%Z
  /\ (entertainmentCost ENT_CS <= 5000)%Z
  /\ fst (fst result) = (5000 - 1000 - 2400)%Z
  /\ snd result = 2%Z
  /\ exists s', snd (fst result) = [s']
                /\ coding a + 2 <= coding s' /\ coding s' <= coding a + 3
                /\ pressure s' <= pressure a.
Proof.
  cbv zeta.
  assert (H : forall i : nat,
             (0 <= 0.5 /\ 0.5 < 1) /\ (0 <= 0.5 /\ 0.5 < 1) /\ (0 <= 0.5 /\ 0.5 < 1))
    by (intros _; repeat split; (discriminate || reflexivity)).
  assert (H2 : (3 <= computer (mkFacilities 3 1 1 1 1))%Z) by (cbn; lia).
  assert (H3 : (entertainmentCost ENT_CS <= 5000)%Z) by (vm_compute; discriminate).
  split; [exact H|]. split; [exact H2|]. split; [exact H3|].
  destruct (entertainment_relieves_pressure ENT_CS "晴" (mkFacilities 3 1 1 1 1)
              (fun _ => (0.5, 0.5, 0.5))
              (fun st : Z * list Student * Z =>
                 ((fst (fst st) - 2400)%Z, snd (fst st), snd st))
              5000 [mkStudent "a" 50 99 50 0 0 0 0 0 95 50 true 0] 0 H)
    as (_ & _ & _ & Htook).
  destruct (Htook (fun _ => H2) H3) as (roster' & Er & _ & Hlen & Hall).
  destruct (Hall 0%nat _ eq_refl) as (s' & Hs' & _ & Hact).
  destruct (Hact eq_refl) as (_ & _ & _ & Hcod & _ & _ & Hpr).
  rewrite Er. cbn [fst snd].
  split; [reflexivity|]. split; [reflexivity|].
  exists s'. split.
  - destruct roster' as [|x [|y l]]; cbn in Hlen; try discriminate.
    cbn in Hs'. congruence.
  - destruct (Hcod eq_refl) as [C1 C2].
    split; [exact C1|]. split; [exact C2|].
    apply Hpr. discriminate.
Defined.
